(* ===== verification/_CoqProject ===== *)
-Q . S2P
Prelude.v
SysUtil.v
SigTable.v
Process.v
Str.v
Text.v
StrRefine.v
ProcTitle.v
DoubleStr.v
SysInfo.v
Descriptors.v
Credentials.v
Auth.v
Sendfile.v
StrList.v
IpAddr.v
Timeouts.v
Filter.v
Tunables.v
ParseConf.v
Ascii.v
Session.v
Seccomp.v
SeccompPolicy.v
Ptrace.v
PtracePolicy.v
CmdIO.v
Signals.v
Logic.v
Traffic.v
Interrupts.v
Replies.v
Paths.v
Stops.v
FileStr.v
PrivOps.v
Cos.v
DataIO.v
Transfers.v
Ls.v
PostLogin.v
Demo.v
ListOrder.v
CosSpec.v
Invariants.v
Assertions.v
Privsock.v
PrivsockRefine.v
Ssl.v
SslSafety.v
SessionSafety.v
Answers.v
DataChannel.v
PreLogin.v
LoginSafety.v
Hash.v
Standalone.v
Startup.v
StartupSafety.v
