(* ===== verification/Prelude.v ===== *)
(** * cos_ftp_v4: a verification library

    The program is an FTP server (a vsftpd that keeps its files in Tencent's
    object store, COS). A listener (standalone.c) forks a process per client; it
    reads commands (ftpcmdio.c), checks the login (prelogin.c), and serves the
    logged-in session (postlogin.c), which opens data connections and moves files
    (ftpdataio.c, ls.c). The session either runs in one process (oneprocess.c) or
    asks a privileged parent over a socket pair (twoprocess.c, privsock.c,
    postprivparent.c, privops.c); with encryption a slave process keeps the SSL
    state (ssl.c, sslslave.c). Two sandboxes confine a session (seccompsandbox.c;
    ptracesandbox.c with ftppolicy.c). All of it sits on own string, list, hash,
    address and system helpers.

    ** How the code is modelled

    A C function is a Rocq function of the same name. An [int] or [unsigned] is a
    [Z] with its wrap-around written out ([s32], [u32], [u64]); a [char] is a
    [byte]; a string is a list of bytes (Text.v), except in Str.v, where a
    [struct mystr] is a buffer in memory with its length, capacity and
    terminator, and StrRefine.v connects the two.

    [res] is the outcome of pure code: a value, or one of the ways a process
    stops ([stop]): [Die] and [Bug] with their messages (utility.c), an exit,
    undefined behaviour, or [Fuel]. [M] (Session.v) is the monad of a session: a
    state with the session record, the parent's session, the unread input and
    the history of the calls made, and an environment [Env] that answers a call
    from the history so far. The environment stands for the kernel, the C
    library, OpenSSL and COS: a theorem for every [Env] holds whatever they
    answer. [Tun] is the configuration, [Pend] what runs when a system call
    returns (the signal handlers; Signals.v ties the knot).

    Loops with no bound in the code have fuel. Where the bound is known (a read
    that must make progress, the characters of a name, the nodes of a chain) the
    fuel is that bound and the theorems show that it is enough; [Fuel] is left
    only for loops that the environment can keep going for ever.

    ** Files

    - Prelude: bytes, machine integers, arrays, [res], the tactics [b2p], [ztest].
    - SysUtil, Str, StrList, IpAddr, Ascii, Hash, Filter: sysutil.c (numbers,
      characters, memory), str.c, strlist.c, ipaddrparse.c with the socket
      addresses of sysutil.c, ascii.c, hash.c, vsf_filename_passes_filter of ls.c.
      Text and StrRefine: the abstract strings, and that str.c implements them.
    - DoubleStr, SysInfo, Descriptors, Timeouts: more of sysutil.c: the text of a
      double, file modes with dates and time zones, the wrappers of open, dup2, close,
      chmod and wait, and accept and connect with their timeouts.
    - ProcTitle, Auth, Sendfile, Credentials: sysdeputil.c on Linux: the title over
      argv and environ, PAM with utmp and the exit function, sendfile with its
      fall-back and its caller in ftpdataio.c, capabilities and the ids of sysutil.c.
    - Tunables, ParseConf: tunables.c, parseconf.c.
    - SigTable, Process: the signal framework of sysutil.c as a machine whose steps
      signals interrupt, and the forks of sysutil.c and sysdeputil.c. In the monad
      a check runs the handlers as one step and a fork is one call.
    - Session: session.h, the monad, the calls of the environment.
    - CmdIO, Signals: netstr.c, readwrite.c, ftpcmdio.c, banner.c, features.c,
      opts.c, logging.c; the pending actions of sysutil.c and the handlers.
    - Paths: access.c and the path functions of postlogin.c and secutil.c.
    - PrivOps: privops.c, the login of cosswitch.cpp, and the requests to the
      parent as direct calls. Privsock: the same requests over the wire.
    - Cos: cosswitch.cpp and encode.cpp: the requests to COS, the reading of its
      responses over a JSON parser (the class [Json]), the conversion to UTF-8.
    - DataIO, Ls, PostLogin, PreLogin: ftpdataio.c, ls.c, postlogin.c, prelogin.c.
    - Ssl: ssl.c and sslslave.c. Seccomp: seccompsandbox.c. Ptrace:
      ptracesandbox.c, ftppolicy.c. Standalone: the books of standalone.c.
    - FileStr: secbuf.c over the memory calls of the kernel (the class [Vm]), and
      filestr.c. Startup: main.c, the accept loop of standalone.c around the
      books, the starts of both process models, the log files.
    - Logic (Hoare triples, invariants, the hint database [inv]), Invariants (the
      interfaces [Quiet], [Steady], [Neutral], [ListenFree], [ModeFree]: which calls and
      assignments an invariant must survive for code to keep it), Stops (which
      assertions code can trip), Traffic (runs without signals), Interrupts (what
      the signal handlers leave alone in a transfer), Demo (a small
      site on which the examples run).

    ** What is proved

    - The session: SessionSafety (without write permission nothing changes in COS,
      and on the disk only directories that CWD needs appear; connections only
      to the client), DataChannel (passive mode), Transfers (uploads and
      downloads deliver every byte; what a result of 0 means when calls fail and
      signals arrive), Replies and Traffic (a reply is one line, a command is one line),
      Paths (the access check is exact on clean paths, and
      what it misses), CosSpec (a listing is complete despite a failed response;
      UTF-8 arguments are left alone), ListOrder (a listing is in the order that
      the options ask for). Assertions: no command sequence trips one
      of the session's own assertions. Answers: every command gets a final reply.
    - The login: LoginSafety (limits, credentials).
    - The processes: PrivsockRefine (messages arrive as sent; a request over the
      wire does what a direct call does), SslSafety (a data connection belongs to
      the client; the typestate of the slave), Standalone (the accounting of
      clients, and the race that breaks it), StartupSafety (what a start guarantees of the configuration and of
      the session; the limits count the clients that exist), SigTable (no handler
      on top of itself, no signal lost), Process (a fork isolates as far as the
      kernel lets it), Credentials (root that becomes a user has no way back), Auth (the
      transactions of PAM are well formed), Timeouts (waits end in time), ProcTitle
      (a title stays in its place), Descriptors (the standard descriptors).
    - The sandboxes: SeccompPolicy (the filter program that the code emits
      decides as the list of rules; what the rules exclude), PtracePolicy (the
      supervisor decides as the policy; no forbidden call starts).
    - The libraries: StrRefine, StrList, Hash, IpAddr, Filter, Ascii, ParseConf,
      FileStr, with refinement, round trip, bounds, termination and equivalence theorems.

    ** Not modelled

    The COS SDK and jsoncpp (dep/): API requests are calls of the environment.
    OpenSSL, iconv, the modules of PAM, the resolver, and gmtime, strftime
    and mktime: parameters or the environment. In the monad the text of dates and of
    transfer rates is the environment's too (SysInfo, DoubleStr have the code around
    the library). The memory of a process is modelled where the code depends on it
    (Str, Ascii, Hash, FileStr, ProcTitle).

    The wrappers of sysutil.c that only pass a system call on (socket options,
    directories, shutdown, unlink, stat, syslog) have no definition of
    their own. The steps that set up a process (setsid, prctl, sigaction) are calls of
    the environment without a meaning of their own, except in SigTable and
    Credentials. The line "500 OOPS" that a dying process writes. libwrap is not
    compiled in, and of the variants that sysdeputil.c has for other systems
    (FreeBSD, Solaris, HP-UX, AIX) there is nothing.

    Code that this fork has put behind #if 0: the directory code of ls.c before COS and
    the handlers that postlogin.c no longer has (RNFR, RNTO, SITE, MDTM, APPE, STOU);
    the vsf_secutil_change_credentials of secutil.c that gives up privileges (PreLogin
    has the one that is compiled) and the block of minimize_privilege that calls it;
    drop_all_privs, which returns at once.
    Some code that does not run is modelled nevertheless, because it is what
    confines a session when it runs: seccompsandbox.c, which is behind CLOSE_THIS,
    and ptracesandbox.c, which is for 32-bit builds. The same holds for PAM, sendfile and
    the wrappers of Credentials, which have lost their callers.

    Concurrency between two sessions on the same files; in the monad, the moment at
    which a signal arrives between two checks (SigTable.v has it). *)

From Stdlib Require Import Init.Byte Strings.Byte.
From Stdlib Require Import ZArith Lia String.
From stdpp Require Import base list numbers gmap strings countable.

#[global] Open Scope Z_scope.

(** ** Bytes

    A C [char] is a [Byte.byte]; a string buffer is a list of them. The
    signedness of [char] only shows where the code compares or widens one:
    [uchar] and [schar] are the two readings (x86-64 Linux: plain [char] is
    signed). *)

Abbreviation byte := Byte.byte.
Abbreviation bytes := (list Byte.byte).

#[global] Instance byte_eq_dec : EqDecision byte := Byte.byte_eq_dec.

#[global] Instance byte_countable : Countable byte :=
  inj_countable Byte.to_N Byte.of_N Byte.of_to_N.

Definition uchar (b : byte) : Z := Z.of_N (Byte.to_N b).

(** Conversion of an integer to [char] or [unsigned char]: modulo 256. *)
Definition to_char (z : Z) : byte :=
  default x00 (Byte.of_N (Z.to_N (z mod 256))).

Definition schar (b : byte) : Z :=
  if uchar b <? 128 then uchar b else uchar b - 256.

(** Text literals of the source, and the characters it names by escapes. *)
Definition lit (s : string) : bytes := String.list_byte_of_string s.

Definition NUL : byte := x00.
Definition LF : byte := x0a.
Definition CR : byte := x0d.
Definition SP : byte := x20.
Definition QUOTE : byte := x22.
Definition crlf : bytes := [CR; LF].

(** ** Machine integers *)

Definition INT_MAX : Z := 2147483647.
Definition INT_MIN : Z := -2147483648.
Definition UINT_MOD : Z := 4294967296.

(** [unsigned int] arithmetic wraps at 2^32. *)
Definition u32 (z : Z) : Z := z mod UINT_MOD.

(** Conversion to [int]: the representative in [-2^31, 2^31). *)
Definition s32 (z : Z) : Z :=
  let r := z mod UINT_MOD in if r <? 2147483648 then r else r - UINT_MOD.

Definition u16 (z : Z) : Z := z mod 65536.

(** [u64]: [unsigned long] on x86-64 Linux. *)
Definition u64 (z : Z) : Z := z mod 18446744073709551616.

(** A boolean as the [int] a C comparison yields. *)
Definition of_bool (b : bool) : Z := if b then 1 else 0.

(** An [unsigned int] in memory (x86-64: little endian). *)
Definition le4 (z : Z) : bytes :=
  [to_char z; to_char (z / 256); to_char (z / 65536); to_char (z / 16777216)].

Definition un_le4 (b : bytes) : Z :=
  match b with
  | [b0; b1; b2; b3] =>
      uchar b0 + 256 * uchar b1 + 65536 * uchar b2 + 16777216 * uchar b3
  | _ => 0
  end.

(** ** Outcomes

    The program stops itself in three ways: [bug] and [die] (utility.c; both
    report on the command socket and exit with status 2) and
    [vsf_sysutil_exit]. [UB] is not a way the program stops: it marks a run
    that left C's defined behaviour (a read outside a buffer or of an
    uninitialised byte), so that a theorem that excludes it is a memory-safety
    theorem. [Fuel] marks a loop that used up the model's fuel: the program is
    still running. *)
Inductive stop :=
  | Bug (msg : bytes)
  | Die (msg : bytes)
  | Exit (code : Z)
  | UB
  | Fuel.

Inductive res (A : Type) :=
  | Ok (a : A)
  | Err (s : stop).
Arguments Ok {A} a.
Arguments Err {A} s.

Definition res_bind {A B} (m : res A) (k : A → res B) : res B :=
  match m with
  | Ok a => k a
  | Err s => Err s
  end.

Definition res_map {A B} (f : A → B) (m : res A) : res B :=
  res_bind m (λ a, Ok (f a)).

Definition bug {A} (msg : string) : res A := Err (Bug (lit msg)).
Definition die {A} (msg : string) : res A := Err (Die (lit msg)).

Declare Scope res_scope.
Delimit Scope res_scope with res.
Module ResNotations.
Notation "'let*' x ':=' m 'in' k" := (res_bind m (λ x, k))
  (at level 10, x pattern, m at level 200, k at level 200) : res_scope.
Notation "m ';;*' k" := (res_bind m (λ _, k))
  (at level 100, k at level 200, right associativity) : res_scope.
End ResNotations.
#[global] Open Scope res_scope.

(** ** Character arrays

    [p[i]] and [p[i] = c] on an array of the given size: an index outside it
    leaves C. *)

Definition arr_get (p : bytes) (i : nat) : res byte :=
  match p !! i with
  | Some c => Ok c
  | None => Err UB
  end.

Definition arr_set (p : bytes) (i : nat) (c : byte) : res bytes :=
  if (i <? length p)%nat then Ok (<[i := c]> p) else Err UB.

(** ** Automation *)

(** Boolean tests of the model, as propositions. *)
Ltac b2p :=
  repeat match goal with
  | H : (_ =? _)%Z = true |- _ => apply Z.eqb_eq in H
  | H : (_ =? _)%Z = false |- _ => apply Z.eqb_neq in H
  | H : (_ <? _)%Z = true |- _ => apply Z.ltb_lt in H
  | H : (_ <? _)%Z = false |- _ => apply Z.ltb_ge in H
  | H : (_ <=? _)%Z = true |- _ => apply Z.leb_le in H
  | H : (_ <=? _)%Z = false |- _ => apply Z.leb_gt in H
  | H : (_ && _)%bool = true |- _ => apply andb_true_iff in H as [? ?]
  | H : (_ || _)%bool = false |- _ => apply orb_false_iff in H as [? ?]
  | H : negb _ = true |- _ => apply negb_true_iff in H
  | H : negb _ = false |- _ => apply negb_false_iff in H
  | H : bool_decide _ = true |- _ => apply bool_decide_eq_true in H
  | H : bool_decide _ = false |- _ => apply bool_decide_eq_false in H
  end.

(** Decide an integer test in the goal with [lia]. *)
Ltac ztest :=
  repeat match goal with
  | |- context [(?a =? ?b)%Z] =>
      first [ rewrite (proj2 (Z.eqb_eq a b)) by lia
            | rewrite (proj2 (Z.eqb_neq a b)) by lia ]
  | |- context [(?a <? ?b)%Z] =>
      first [ rewrite (proj2 (Z.ltb_lt a b)) by lia
            | rewrite (proj2 (Z.ltb_ge a b)) by lia ]
  | |- context [(?a <=? ?b)%Z] =>
      first [ rewrite (proj2 (Z.leb_le a b)) by lia
            | rewrite (proj2 (Z.leb_gt a b)) by lia ]
  end.

(** Decide a closed proposition by computation. *)
Ltac vmdec := apply (bool_decide_unpack _); vm_compute; exact I.

Create HintDb vsf.
Create Rewrite HintDb vsf_rw.

(** ** Facts on bytes and machine integers *)

Lemma uchar_range (b : byte) : 0 ≤ uchar b < 256.
Proof. unfold uchar. pose proof (Byte.to_N_bounded b). lia. Qed.

Lemma uchar_inj (a b : byte) : uchar a = uchar b → a = b.
Proof.
  unfold uchar. intros H%N2Z.inj.
  apply (f_equal Byte.of_N) in H. rewrite !Byte.of_to_N in H. congruence.
Qed.

Lemma uchar_to_char (z : Z) : uchar (to_char z) = z mod 256.
Proof.
  unfold uchar, to_char.
  pose proof (Z.mod_pos_bound z 256 ltac:(lia)) as Hb.
  destruct (Byte.of_N (Z.to_N (z mod 256))) as [b|] eqn:E; cbn.
  - apply Byte.to_of_N in E. rewrite E. lia.
  - apply Byte.of_N_None_iff in E. lia.
Qed.

Lemma to_char_uchar (b : byte) : to_char (uchar b) = b.
Proof.
  apply uchar_inj. rewrite uchar_to_char.
  apply Z.mod_small, uchar_range.
Qed.

Lemma u32_small (z : Z) : 0 ≤ z < UINT_MOD → u32 z = z.
Proof. apply Z.mod_small. Qed.

Lemma s32_small (z : Z) : INT_MIN ≤ z ≤ INT_MAX → s32 z = z.
Proof.
  unfold s32, INT_MIN, INT_MAX, UINT_MOD. intros H.
  destruct (Z.leb_spec 0 z).
  - rewrite Z.mod_small by lia. ztest. done.
  - rewrite <- (Z.mod_unique z 4294967296 (-1) (z + 4294967296)) by lia.
    ztest. lia.
Qed.

Lemma s32_range (z : Z) : INT_MIN ≤ s32 z ≤ INT_MAX.
Proof.
  unfold s32, INT_MIN, INT_MAX, UINT_MOD.
  pose proof (Z.mod_pos_bound z 4294967296 ltac:(lia)).
  destruct (Z.ltb_spec (z mod 4294967296) 2147483648); lia.
Qed.

#[export] Hint Rewrite uchar_to_char to_char_uchar : vsf_rw.
#[export] Hint Resolve uchar_range : vsf.

Lemma un_le4_le4 (z : Z) : 0 ≤ z < UINT_MOD → un_le4 (le4 z) = z.
Proof.
  intros H. unfold un_le4, le4, UINT_MOD in *. rewrite !uchar_to_char.
  change 65536 with (256 * 256). change 16777216 with (256 * 256 * 256).
  rewrite <- !Z.div_div by lia.
  pose proof (Z.div_mod z 256 ltac:(lia)).
  pose proof (Z.div_mod (z / 256) 256 ltac:(lia)).
  pose proof (Z.div_mod (z / 256 / 256) 256 ltac:(lia)).
  rewrite (Z.mod_small (z / 256 / 256 / 256)); [lia|].
  rewrite !Z.div_div by lia. split; [apply Z.div_pos; lia|].
  apply Z.div_lt_upper_bound; lia.
Qed.

Lemma un_le4_mod z : un_le4 (le4 z) = u32 z.
Proof.
  assert (le4 z = le4 (u32 z)) as ->; [|by apply un_le4_le4, Z.mod_pos_bound].
  unfold le4, u32, UINT_MOD. f_equal; [|f_equal; [|f_equal; [|f_equal]]]; apply uchar_inj;
    rewrite !uchar_to_char.
  - change 4294967296 with (256 * 16777216). rewrite Z.rem_mul_r by lia.
    by rewrite Z.mul_comm, Z.mod_add, Z.mod_mod by lia.
  - change 4294967296 with (256 * 16777216). rewrite Z.rem_mul_r, Z.mul_comm, Z.div_add by lia.
    rewrite (Z.div_small (z mod 256)) by (apply Z.mod_pos_bound; lia). rewrite Z.add_0_l.
    change 16777216 with (256 * 65536). rewrite Z.rem_mul_r by lia.
    by rewrite Z.mul_comm, Z.mod_add, Z.mod_mod by lia.
  - change 4294967296 with (65536 * 65536). rewrite Z.rem_mul_r, Z.mul_comm, Z.div_add by lia.
    rewrite (Z.div_small (z mod 65536)) by (apply Z.mod_pos_bound; lia). rewrite Z.add_0_l.
    change 65536 with (256 * 256) at 3. rewrite Z.rem_mul_r by lia.
    by rewrite Z.mul_comm, Z.mod_add, Z.mod_mod by lia.
  - change 4294967296 with (16777216 * 256). rewrite Z.rem_mul_r, Z.mul_comm, Z.div_add by lia.
    rewrite (Z.div_small (z mod 16777216)) by (apply Z.mod_pos_bound; lia). rewrite Z.add_0_l.
    by rewrite Z.mod_mod by lia.
Qed.

Lemma arr_get_app (a b : bytes) (i : nat) (c : byte) :
  i = length a → arr_get (a ++ c :: b) i = Ok c.
Proof. intros ->. unfold arr_get. by rewrite list_lookup_middle. Qed.

Lemma arr_set_app (a b : bytes) (i : nat) (c d : byte) :
  i = length a → arr_set (a ++ c :: b) i d = Ok (a ++ d :: b).
Proof.
  intros ->. unfold arr_set. rewrite length_app. cbn [length].
  destruct (Nat.ltb_spec (length a) (length a + S (length b))); [|lia].
  by rewrite insert_app_r_alt, Nat.sub_diag by lia.
Qed.

(** ** Facts on lists *)

Section ListFacts.
Context {A : Type}.
Implicit Types l k : list A.

Lemma take_drop_mid l (i n : nat) :
  take i l ++ take n (drop i l) ++ drop (i + n) l = l.
Proof. rewrite <- drop_drop, (take_drop n), (take_drop i). done. Qed.

Lemma drop_take_app l (i n : nat) :
  drop i l = take n (drop i l) ++ drop (i + n) l.
Proof. rewrite <- drop_drop. symmetry. apply take_drop. Qed.

End ListFacts.
