(* ===== verification/SysUtil.v ===== *)
(** * sysutil.c: character classes, numbers and text

    The part of src/src/sysutil.c that computes: the character predicates, the
    conversions between numbers and text, and the guarded libc wrappers
    ([strlen], [memcmp]). A [const char*] argument is the list of bytes before
    its terminating NUL. The program never calls [setlocale], so the character
    classes are those of the C locale. *)

From Stdlib Require Import Init.Byte Strings.Byte.
From Stdlib Require Import ZArith Lia String.
From stdpp Require Import base list numbers.
From S2P Require Import Prelude.
Import ResNotations.

(** ** Character classes *)

Definition c_isspace (b : byte) : bool :=
  (uchar b =? 32) || ((9 <=? uchar b) && (uchar b <=? 13)).

Definition c_isdigit (b : byte) : bool := (48 <=? uchar b) && (uchar b <=? 57).

Definition c_isupper (b : byte) : bool := (65 <=? uchar b) && (uchar b <=? 90).

Definition c_islower (b : byte) : bool := (97 <=? uchar b) && (uchar b <=? 122).

Definition c_isprint (b : byte) : bool := (32 <=? uchar b) && (uchar b <=? 126).

Definition vsf_sysutil_toupper (b : byte) : byte :=
  if c_islower b then to_char (uchar b - 32) else b.

Definition vsf_sysutil_isspace (b : byte) : bool := c_isspace b.

Definition vsf_sysutil_isprint (b : byte) : bool :=
  let uc := uchar b in
  if uc <=? 31 then false
  else if uc =? 177 then false
  else if (128 <=? uc) && (uc <=? 159) then false
  else c_isprint b.

Definition vsf_sysutil_isalnum (b : byte) : bool :=
  c_isdigit b || c_isupper b || c_islower b.

Definition vsf_sysutil_isdigit (b : byte) : bool := c_isdigit b.

(** ** Numbers from text *)

Definition LONG_MAX : Z := 9223372036854775807.
Definition LONG_MIN : Z := -9223372036854775808.

Definition digit_val (b : byte) : Z := uchar b - 48.

(** The value of the leading decimal digits of a text, and what follows. *)
Fixpoint leading_digits (s : bytes) (acc : Z) : Z :=
  match s with
  | [] => acc
  | b :: s' =>
      if c_isdigit b then leading_digits s' (acc * 10 + digit_val b) else acc
  end.

Fixpoint skip_space (s : bytes) : bytes :=
  match s with
  | [] => []
  | b :: s' => if c_isspace b then skip_space s' else s
  end.

(** [atol] and [atoi] of the C library on Linux: [strtol(p, NULL, 10)], which
    saturates at the bounds of [long], and its truncation to [int]. *)
Definition atol (s : bytes) : Z :=
  let v := match skip_space s with
           | [] => 0
           | b :: s' =>
               if uchar b =? 45 then - leading_digits s' 0
               else if uchar b =? 43 then leading_digits s' 0
               else leading_digits (b :: s') 0
           end in
  Z.max LONG_MIN (Z.min LONG_MAX v).

Definition vsf_sysutil_atoi (s : bytes) : Z := s32 (atol s).

(** The loop of [vsf_sysutil_a_to_filesize_t] runs from the last character to
    the first, [rs] being the text reversed. *)
Fixpoint a_to_filesize_loop (rs : bytes) (result mult : Z) : Z :=
  match rs with
  | [] => result
  | the_char :: rs' =>
      if (schar the_char <? 48) || (57 <? schar the_char) then 0
      else a_to_filesize_loop rs' (result + (schar the_char - 48) * mult)
             (mult * 10)
  end.

Definition vsf_sysutil_a_to_filesize_t (s : bytes) : Z :=
  if 15 <? Z.of_nat (length s) then 0 else a_to_filesize_loop (rev s) 0 1.

(** [result] is an [unsigned int]: the shift wraps. *)
Fixpoint octal_loop (s : bytes) (seen_non_zero_digit : bool) (result : Z) : Z :=
  match s with
  | [] => result
  | b :: s' =>
      let digit := uchar b in
      if negb (c_isdigit b) || (55 <? digit) then result
      else
        let seen := seen_non_zero_digit || negb (digit =? 48) in
        octal_loop s' seen
          (if seen then u32 (u32 (Z.shiftl result 3) + (digit - 48)) else result)
  end.

Definition vsf_sysutil_octal_to_uint (s : bytes) : Z := octal_loop s false 0.

(** ** Text from numbers *)

(** The digits of [z] in a base up to 10, most significant first, in front of
    [acc]; [fuel] bounds their number. *)
Fixpoint digits_acc (fuel : nat) (base z : Z) (acc : bytes) : bytes :=
  match fuel with
  | O => acc
  | S fuel' =>
      let acc' := to_char (48 + z mod base) :: acc in
      if z / base =? 0 then acc' else digits_acc fuel' base (z / base) acc'
  end.

(** [printf]'s [%lu] and [%o]: the base-2 logarithm bounds the digits. *)
Definition print_base (base z : Z) : bytes :=
  digits_acc (S (Z.to_nat (Z.log2 z))) base z [].

Definition vsf_sysutil_ulong_to_str (the_ulong : Z) : bytes :=
  print_base 10 (u64 the_ulong).

Definition print_signed (z : Z) : bytes :=
  if z <? 0 then to_char 45 :: print_base 10 (- z) else print_base 10 z.

(** [sizeof(long) == 8] on x86-64: the ["%ld"] branch. *)
Definition vsf_sysutil_filesize_t_to_str (the_filesize : Z) : bytes :=
  print_signed the_filesize.

Definition vsf_sysutil_int_to_str (the_int : Z) : bytes := print_signed the_int.

Definition vsf_sysutil_uint_to_octal (the_uint : Z) : bytes :=
  if the_uint =? 0 then [to_char 48] else to_char 48 :: print_base 8 the_uint.

(** ** Guarded libc calls *)

Definition vsf_sysutil_strlen (t : bytes) : res Z :=
  if INT_MAX / 8 <? Z.of_nat (length t) then die "string suspiciously long"
  else Ok (Z.of_nat (length t)).

(** [memcmp]: the difference of the first bytes that differ, read as
    [unsigned char]. *)
Fixpoint vsf_sysutil_memcmp (s1 s2 : bytes) : Z :=
  match s1, s2 with
  | a :: s1', b :: s2' =>
      if uchar a =? uchar b then vsf_sysutil_memcmp s1' s2'
      else uchar a - uchar b
  | _, _ => 0
  end.

Definition vsf_sysutil_retval_is_error (retval : Z) : bool := retval <? 0.

Definition IPPORT_RESERVED : Z := 1024.

Definition vsf_sysutil_is_port_reserved (the_port : Z) : bool :=
  the_port <? IPPORT_RESERVED.

(** ** Facts *)

(** The decimal value of a text of digits. *)
Definition dec_value (s : bytes) : Z :=
  fold_left (λ acc b, acc * 10 + digit_val b) s 0.

Definition is_digits (s : bytes) : bool := forallb c_isdigit s.

Lemma schar_digit (b : byte) :
  ((schar b <? 48) || (57 <? schar b)) = negb (c_isdigit b).
Proof. destruct b; vm_compute; reflexivity. Qed.

Lemma schar_digit_val (b : byte) :
  c_isdigit b = true → schar b - 48 = digit_val b.
Proof. destruct b; vm_compute; intros; (reflexivity || discriminate). Qed.

Lemma memcmp_eq_iff (s1 s2 : bytes) :
  length s1 = length s2 → (vsf_sysutil_memcmp s1 s2 = 0 ↔ s1 = s2).
Proof.
  revert s2; induction s1 as [|a s1 IH]; intros [|b s2]; cbn; intros Hl;
    try discriminate; [done|].
  injection Hl as Hl. destruct (Z.eqb_spec (uchar a) (uchar b)) as [E|E].
  - apply uchar_inj in E as ->. rewrite IH by done. naive_solver.
  - split; [lia|]. intros [= -> ->]. done.
Qed.

Lemma fold_dec_app (s : bytes) (acc : Z) :
  fold_left (λ acc b, acc * 10 + digit_val b) s acc
  = acc * 10 ^ Z.of_nat (length s) + dec_value s.
Proof.
  unfold dec_value. revert acc. induction s as [|b s IH]; intros acc; cbn [fold_left length].
  - cbn. lia.
  - rewrite IH, (IH (0 * 10 + _)), Nat2Z.inj_succ, Z.pow_succ_r by lia. nia.
Qed.

Lemma a_to_filesize_loop_spec (rs : bytes) (result mult : Z) :
  a_to_filesize_loop rs result mult
  = if is_digits rs then result + mult * dec_value (rev rs) else 0.
Proof.
  revert result mult; induction rs as [|b rs IH]; intros result mult.
  - cbn. lia.
  - cbn [a_to_filesize_loop is_digits forallb]. rewrite schar_digit.
    destruct (c_isdigit b) eqn:E; cbn; [|done].
    rewrite IH. fold (is_digits rs).
    destruct (is_digits rs); [|done].
    rewrite (schar_digit_val _ E).
    unfold dec_value. rewrite fold_left_app. cbn. lia.
Qed.

Lemma is_digits_rev (s : bytes) : is_digits (rev s) = is_digits s.
Proof.
  induction s as [|b s IH]; [done|].
  cbn [rev]. unfold is_digits in *. rewrite forallb_app, IH. cbn.
  destruct (c_isdigit b), (forallb c_isdigit s); done.
Qed.

Lemma a_to_filesize_t_spec (s : bytes) :
  vsf_sysutil_a_to_filesize_t s
  = if (Z.of_nat (length s) <=? 15) && is_digits s then dec_value s else 0.
Proof.
  unfold vsf_sysutil_a_to_filesize_t.
  rewrite a_to_filesize_loop_spec, is_digits_rev, rev_involutive.
  destruct (Z.ltb_spec 15 (Z.of_nat (length s))); ztest; cbn; [done|].
  destruct (is_digits s); lia.
Qed.

Lemma digit_val_range (b : byte) : c_isdigit b = true → 0 ≤ digit_val b ≤ 9.
Proof. unfold c_isdigit, digit_val. intros ?. b2p. lia. Qed.

Lemma dec_value_bound (s : bytes) :
  is_digits s = true → 0 ≤ dec_value s < 10 ^ Z.of_nat (length s).
Proof.
  induction s as [|b s IH]; [cbn; lia|].
  cbn [is_digits forallb]. intros [Hb Hs]%andb_true_iff.
  unfold dec_value. cbn [fold_left length]. rewrite fold_dec_app.
  specialize (IH Hs). apply digit_val_range in Hb.
  rewrite Nat2Z.inj_succ, Z.pow_succ_r by lia.
  assert (0 < 10 ^ Z.of_nat (length s)) by (apply Z.pow_pos_nonneg; lia). nia.
Qed.

(** [digits_acc] with enough fuel prints digits whose value is [z]. *)
Lemma to_char_digit (d : Z) :
  0 ≤ d < 10 → c_isdigit (to_char (48 + d)) = true ∧ digit_val (to_char (48 + d)) = d.
Proof.
  intros H. unfold c_isdigit, digit_val. rewrite uchar_to_char.
  rewrite Z.mod_small by lia. split; [|lia].
  apply andb_true_iff; split; apply Z.leb_le; lia.
Qed.

Lemma log2_div_lt (base z : Z) :
  2 ≤ base → 0 < z / base → Z.log2 (z / base) < Z.log2 z.
Proof.
  intros Hb Hz.
  assert (z / base ≤ z / 2).
  { assert (0 < z) by (destruct (Z.ltb_spec 0 z); [done|];
      assert (z / base ≤ 0) by (apply Z.div_le_upper_bound; lia); lia).
    apply Z.div_le_compat_l; lia. }
  assert (Hz2 : 0 < z / 2) by lia.
  apply Z.le_lt_trans with (Z.log2 (z / 2)); [by apply Z.log2_le_mono|].
  rewrite <- Z.div2_div. rewrite <- Z.div2_div in Hz2.
  assert (E : Z.log2 z = Z.succ (Z.log2 (Z.div2 z))).
  { pose proof (Z.div2_odd z) as D.
    destruct (Z.odd z); cbn [Z.b2z] in D.
    - rewrite D at 1. rewrite Z.log2_succ_double by lia. done.
    - rewrite D at 1. rewrite Z.add_0_r, Z.log2_double by lia. done. }
  lia.
Qed.

Definition base_value (base : Z) (s : bytes) : Z :=
  fold_left (λ acc b, acc * base + digit_val b) s 0.

Lemma fold_base_app (base : Z) (s : bytes) (acc : Z) :
  fold_left (λ acc b, acc * base + digit_val b) s acc
  = acc * base ^ Z.of_nat (length s) + base_value base s.
Proof.
  unfold base_value. revert acc. induction s as [|b s IH]; intros acc; cbn [fold_left length].
  - cbn. lia.
  - rewrite IH, (IH (0 * base + _)), Nat2Z.inj_succ, Z.pow_succ_r by lia. nia.
Qed.

(** A digit of base [base]. *)
Definition digit_below (base : Z) (b : byte) : bool :=
  c_isdigit b && (digit_val b <? base).

Lemma digits_acc_spec (fuel : nat) (base z : Z) (acc : bytes) :
  2 ≤ base ≤ 10 → 0 ≤ z → (Z.to_nat (Z.log2 z) < fuel)%nat →
  ∃ p, digits_acc fuel base z acc = p ++ acc ∧ p ≠ [] ∧
       forallb (digit_below base) p = true ∧ base_value base p = z.
Proof.
  intros Hb. revert z acc; induction fuel as [|fuel IH]; intros z acc Hz Hf; [lia|].
  cbn [digits_acc]. set (c := to_char _).
  pose proof (Z.mod_pos_bound z base ltac:(lia)) as Hm.
  destruct (to_char_digit (z mod base) ltac:(lia)) as [Hc Hv]. fold c in Hc, Hv.
  assert (Hd : digit_below base c = true).
  { unfold digit_below. rewrite Hc, Hv. apply Z.ltb_lt. lia. }
  destruct (Z.eqb_spec (z / base) 0) as [E|E].
  - exists [c]. split_and!; [done|done| |].
    + cbn. rewrite Hd. done.
    + unfold base_value. cbn. rewrite Hv. pose proof (Z.div_mod z base). lia.
  - assert (0 < z / base) by (pose proof (Z.div_pos z base); lia).
    pose proof (log2_div_lt base z ltac:(lia) ltac:(lia)).
    pose proof (Z.log2_nonneg (z / base)).
    destruct (IH (z / base) (c :: acc)) as (p & -> & Hne & Hp & Hpv); [lia|lia|].
    exists (p ++ [c]). split_and!.
    + by rewrite <- (assoc_L (++)).
    + by destruct p.
    + rewrite forallb_app, Hp. cbn. rewrite Hd. done.
    + unfold base_value. rewrite fold_left_app. fold (base_value base p).
      cbn. rewrite Hpv, Hv. pose proof (Z.div_mod z base). lia.
Qed.

Lemma print_base_spec (base z : Z) :
  2 ≤ base ≤ 10 → 0 ≤ z →
  print_base base z ≠ [] ∧
  forallb (digit_below base) (print_base base z) = true ∧
  base_value base (print_base base z) = z.
Proof.
  intros Hb Hz. unfold print_base.
  destruct (digits_acc_spec (S (Z.to_nat (Z.log2 z))) base z [] Hb Hz ltac:(lia))
    as (p & -> & ? & ? & ?). rewrite (right_id_L [] (++)). done.
Qed.

Lemma print_base_digits (z : Z) : 0 ≤ z → is_digits (print_base 10 z) = true.
Proof.
  intros Hz. destruct (print_base_spec 10 z ltac:(lia) Hz) as (_ & H & _).
  unfold is_digits. rewrite forallb_forall in *. intros b Hb%H.
  unfold digit_below in Hb. b2p. done.
Qed.

Lemma print_base_dec_value (z : Z) : 0 ≤ z → dec_value (print_base 10 z) = z.
Proof. intros Hz. by destruct (print_base_spec 10 z ltac:(lia) Hz) as (_ & _ & ?). Qed.

Lemma toupper_idem (b : byte) :
  vsf_sysutil_toupper (vsf_sysutil_toupper b) = vsf_sysutil_toupper b.
Proof. destruct b; vm_compute; reflexivity. Qed.
