(* ===== verification/SigTable.v ===== *)
(** * The signal framework of sysutil.c

    A signal that arrives only marks a table; the handlers run from
    [vsf_sysutil_check_pending_actions], which the program and the handlers call
    themselves. The check is a machine of small steps, because signals arrive
    between any two of them; Signals.v has the handlers of a session as one step
    each. *)

From Stdlib Require Import ZArith Lia String.
From stdpp Require Import base list numbers option gmap.
From S2P Require Import Prelude.
Import ResNotations.

Definition NSIG : nat := 65.

Inductive EVSFSysUtilSignal :=
  | kVSFSysUtilSigALRM | kVSFSysUtilSigTERM | kVSFSysUtilSigCHLD
  | kVSFSysUtilSigPIPE | kVSFSysUtilSigURG | kVSFSysUtilSigHUP.

(** The numbers of x86 Linux. *)
Definition SIGHUP : nat := 1.
Definition SIGKILL : nat := 9.
Definition SIGPIPE : nat := 13.
Definition SIGALRM : nat := 14.
Definition SIGTERM : nat := 15.
Definition SIGCHLD : nat := 17.
Definition SIGSTOP : nat := 19.
Definition SIGURG : nat := 23.

Definition vsf_sysutil_translate_sig (sig : EVSFSysUtilSignal) : nat :=
  match sig with
  | kVSFSysUtilSigALRM => SIGALRM
  | kVSFSysUtilSigTERM => SIGTERM
  | kVSFSysUtilSigCHLD => SIGCHLD
  | kVSFSysUtilSigPIPE => SIGPIPE
  | kVSFSysUtilSigURG => SIGURG
  | kVSFSysUtilSigHUP => SIGHUP
  end.

Section SigTable.
(** Handlers with their private data. *)
Context {F : Type}.

(** ** The state *)

Record vsf_sysutil_sig_details := Details {
  sync_sig_handler : option F;
  pending : bool;
  running : bool;
  use_alarm : bool
}.

Definition zero_details : vsf_sysutil_sig_details := Details None false false false.

(** What the kernel does with a signal. *)
Inductive disposition := SIG_DFL | Common | Alrm | Async (f : F).

(** The statics of the file; the dispositions, the mask and the alarm of the
    process. *)
Record sig_state := SigState {
  s_sig_details : list vsf_sysutil_sig_details;
  s_io_handler : option F;
  s_io_handler_running : bool;
  actions : gmap nat disposition;
  blocked : gset nat;
  alarm_in : Z
}.

Definition fresh_signals : sig_state := SigState (replicate NSIG zero_details) None false ∅ ∅ 0.

Definition details (s : sig_state) (i : nat) : vsf_sysutil_sig_details :=
  default zero_details (s_sig_details s !! i).

Definition disposition_of (s : sig_state) (i : nat) : disposition := default SIG_DFL (actions s !! i).

Definition set_details (i : nat) (f : vsf_sysutil_sig_details → vsf_sysutil_sig_details)
    (s : sig_state) : sig_state :=
  SigState (alter f i (s_sig_details s)) (s_io_handler s) (s_io_handler_running s)
    (actions s) (blocked s) (alarm_in s).

Definition set_all (f : vsf_sysutil_sig_details → vsf_sysutil_sig_details) (s : sig_state) : sig_state :=
  SigState (f <$> s_sig_details s) (s_io_handler s) (s_io_handler_running s)
    (actions s) (blocked s) (alarm_in s).

Definition set_io (h : option F) (s : sig_state) : sig_state :=
  SigState (s_sig_details s) h (s_io_handler_running s) (actions s) (blocked s) (alarm_in s).

Definition set_io_running (b : bool) (s : sig_state) : sig_state :=
  SigState (s_sig_details s) (s_io_handler s) b (actions s) (blocked s) (alarm_in s).

Definition set_action (i : nat) (d : disposition) (s : sig_state) : sig_state :=
  SigState (s_sig_details s) (s_io_handler s) (s_io_handler_running s)
    (<[i := d]> (actions s)) (blocked s) (alarm_in s).

Definition set_blocked (b : gset nat) (s : sig_state) : sig_state :=
  SigState (s_sig_details s) (s_io_handler s) (s_io_handler_running s) (actions s) b (alarm_in s).

Definition vsf_sysutil_set_alarm (trigger_seconds : Z) (s : sig_state) : sig_state :=
  SigState (s_sig_details s) (s_io_handler s) (s_io_handler_running s)
    (actions s) (blocked s) trigger_seconds.

Definition vsf_sysutil_clear_alarm : sig_state → sig_state := vsf_sysutil_set_alarm 0.

Definition set_handler (h : option F) (d : vsf_sysutil_sig_details) : vsf_sysutil_sig_details :=
  Details h (pending d) (running d) (use_alarm d).
Definition set_pending (b : bool) (d : vsf_sysutil_sig_details) : vsf_sysutil_sig_details :=
  Details (sync_sig_handler d) b (running d) (use_alarm d).
Definition set_running (b : bool) (d : vsf_sysutil_sig_details) : vsf_sysutil_sig_details :=
  Details (sync_sig_handler d) (pending d) b (use_alarm d).
Definition set_use_alarm (b : bool) (d : vsf_sysutil_sig_details) : vsf_sysutil_sig_details :=
  Details (sync_sig_handler d) (pending d) (running d) b.

(** ** The two asynchronous handlers *)

Definition vsf_sysutil_alrm_sighandler : sig_state → sig_state := vsf_sysutil_set_alarm 1.

Definition vsf_sysutil_common_sighandler (signum : Z) (s : sig_state) : sig_state :=
  if (signum <? 0) || (Z.of_nat NSIG <=? signum) then s
  else
    let i := Z.to_nat signum in
    match sync_sig_handler (details s i) with
    | None => s
    | Some _ =>
        let s := set_details i (set_pending true) s in
        if use_alarm (details s i) then vsf_sysutil_set_alarm 1 s else s
    end.

(** ** Installing and removing *)

(** sigaction refuses numbers that are no signals, SIGKILL and SIGSTOP. *)
Definition vsf_sysutil_set_sighandler (sig : nat) (d : disposition) (s : sig_state) : res sig_state :=
  if bool_decide (sig = 0%nat ∨ sig = SIGKILL ∨ sig = SIGSTOP ∨ NSIG ≤ sig)%nat then die "sigaction"
  else Ok (set_action sig d s).

Definition vsf_sysutil_install_sighandler (sig : EVSFSysUtilSignal) (handler : F) (alarm : bool)
    (s : sig_state) : res sig_state :=
  let realsig := vsf_sysutil_translate_sig sig in
  let s := set_details realsig (set_handler (Some handler)) s in
  let s := set_details realsig (set_use_alarm alarm) s in
  let* s := vsf_sysutil_set_sighandler realsig Common s in
  if alarm && negb (realsig =? SIGALRM)%nat then vsf_sysutil_set_sighandler SIGALRM Alrm s
  else Ok s.

Definition vsf_sysutil_default_sig (sig : EVSFSysUtilSignal) (s : sig_state) : res sig_state :=
  let realsig := vsf_sysutil_translate_sig sig in
  let* s := vsf_sysutil_set_sighandler realsig SIG_DFL s in
  Ok (set_details realsig (set_handler None) s).

Definition vsf_sysutil_install_null_sighandler (sig : EVSFSysUtilSignal) (s : sig_state) : res sig_state :=
  let realsig := vsf_sysutil_translate_sig sig in
  let s := set_details realsig (set_handler None) s in
  vsf_sysutil_set_sighandler realsig Common s.

Definition vsf_sysutil_block_sig (sig : EVSFSysUtilSignal) (s : sig_state) : sig_state :=
  set_blocked ({[vsf_sysutil_translate_sig sig]} ∪ blocked s) s.

Definition vsf_sysutil_unblock_sig (sig : EVSFSysUtilSignal) (s : sig_state) : sig_state :=
  set_blocked (blocked s ∖ {[vsf_sysutil_translate_sig sig]}) s.

Definition vsf_sysutil_install_async_sighandler (sig : EVSFSysUtilSignal) (handler : F)
    (s : sig_state) : res sig_state :=
  let realsig := vsf_sysutil_translate_sig sig in
  let s := set_details realsig (set_handler None) s in
  let s := vsf_sysutil_block_sig sig s in
  vsf_sysutil_set_sighandler realsig (Async handler) s.

Definition vsf_sysutil_install_io_handler (handler : F) (s : sig_state) : res sig_state :=
  match s_io_handler s with
  | Some _ => bug "double register of i/o handler"
  | None => Ok (set_io (Some handler) s)
  end.

Definition vsf_sysutil_uninstall_io_handler (s : sig_state) : res sig_state :=
  match s_io_handler s with
  | None => bug "no i/o handler to unregister!"
  | Some _ => Ok (set_io None s)
  end.

(** What [vsf_sysutil_post_fork] does to the table of the child. *)
Definition post_fork_signals (s : sig_state) : sig_state :=
  set_all (set_pending false) (set_all (set_handler None) (set_io None s)).

(** ** The check, step by step

    Where a call of [vsf_sysutil_check_pending_actions] stands: before the test
    for the I/O handler; after that handler; before the test of signal [i]; and
    inside its branch: before the alarm, before the handler's test, before the
    call of the handler, after it. *)
Inductive point :=
  | IoTest | IoBack
  | Scan (i : nat) | Marked (i : nat) | Called (i : nat) | Go (i : nat) | Returned (i : nat).

#[global] Instance point_eq_dec : EqDecision point.
Proof. solve_decision. Defined.

(** The calls in progress, innermost first: checks, and the handlers that they
    run. Below them is the program. *)
Inductive frame :=
  | Checking (io : bool) (p : point)
  | Handler (i : nat)
  | IoHandler.

(** [ran] is the record of the handlers that were called, newest first. *)
#[global] Instance frame_eq_dec : EqDecision frame.
Proof. solve_decision. Defined.

Record machine := Machine { sigs : sig_state; stack : list frame; ran : list nat }.

Definition check_step (m : machine) : option machine :=
  match stack m with
  | Checking io p :: st =>
      let s := sigs m in
      let goto p s := Some (Machine s (Checking io p :: st) (ran m)) in
      match p with
      | IoTest =>
          if bool_decide (is_Some (s_io_handler s)) && negb (s_io_handler_running s) && io then
            Some (Machine (set_io_running true s) (IoHandler :: Checking io IoBack :: st) (ran m))
          else goto (Scan 0) s
      | IoBack => goto (Scan 0) (set_io_running false s)
      | Scan i =>
          if (NSIG <=? i)%nat then Some (Machine s st (ran m))
          else if pending (details s i) && negb (running (details s i)) then
            goto (Marked i) (set_details i (set_running true) s)
          else goto (Scan (S i)) s
      | Marked i =>
          goto (Called i) (if use_alarm (details s i) then vsf_sysutil_clear_alarm s else s)
      | Called i =>
          match sync_sig_handler (details s i) with
          | Some _ => goto (Go i) (set_details i (set_pending false) s)
          | None => goto (Returned i) s
          end
      | Go i => Some (Machine s (Handler i :: Checking io (Returned i) :: st) (i :: ran m))
      | Returned i => goto (Scan (S i)) (set_details i (set_running false) s)
      end
  | _ => None
  end.

(** What the program and the handlers do with the table. *)
Inductive sig_op :=
  | OpInstall (sig : EVSFSysUtilSignal) (handler : F) (alarm : bool)
  | OpDefault (sig : EVSFSysUtilSignal)
  | OpNull (sig : EVSFSysUtilSignal)
  | OpAsync (sig : EVSFSysUtilSignal) (handler : F)
  | OpBlock (sig : EVSFSysUtilSignal)
  | OpUnblock (sig : EVSFSysUtilSignal)
  | OpInstallIo (handler : F)
  | OpUninstallIo
  | OpAlarm (seconds : Z)
  | OpPostFork.

Definition do_op (o : sig_op) (s : sig_state) : res sig_state :=
  match o with
  | OpInstall sig h a => vsf_sysutil_install_sighandler sig h a s
  | OpDefault sig => vsf_sysutil_default_sig sig s
  | OpNull sig => vsf_sysutil_install_null_sighandler sig s
  | OpAsync sig h => vsf_sysutil_install_async_sighandler sig h s
  | OpBlock sig => Ok (vsf_sysutil_block_sig sig s)
  | OpUnblock sig => Ok (vsf_sysutil_unblock_sig sig s)
  | OpInstallIo h => vsf_sysutil_install_io_handler h s
  | OpUninstallIo => vsf_sysutil_uninstall_io_handler s
  | OpAlarm n => Ok (vsf_sysutil_set_alarm n s)
  | OpPostFork => Ok (post_fork_signals s)
  end.

(** A signal arrives, at any time; the check goes on; the code that runs (the
    program or a handler) calls the check, returns from a handler, or uses the
    table. *)
Inductive label :=
  | Arrive (i : nat) | Next | Call (io : bool) | Return | Op (o : sig_op).

(** Handlers fill the mask, so that an asynchronous handler is one step. A
    signal that is blocked does not arrive; with the default disposition, or an
    asynchronous handler of its own, it is outside this table. *)
Definition deliver (i : nat) (s : sig_state) : option sig_state :=
  if bool_decide (i ∈ blocked s) then None
  else
    match disposition_of s i with
    | Common => Some (vsf_sysutil_common_sighandler (Z.of_nat i) s)
    | Alrm => Some (vsf_sysutil_alrm_sighandler s)
    | SIG_DFL | Async _ => None
    end.

(** No check is in progress on top: the program or a handler runs. *)
Definition in_user (st : list frame) : bool :=
  match st with Checking _ _ :: _ => false | _ => true end.

Definition step (l : label) (m : machine) : option machine :=
  match l with
  | Arrive i => s ← deliver i (sigs m); Some (Machine s (stack m) (ran m))
  | Next => check_step m
  | Call io =>
      if in_user (stack m) then Some (Machine (sigs m) (Checking io IoTest :: stack m) (ran m)) else None
  | Return =>
      match stack m with
      | (Handler _ | IoHandler) :: st => Some (Machine (sigs m) st (ran m))
      | _ => None
      end
  | Op o =>
      if in_user (stack m) then
        match do_op o (sigs m) with
        | Ok s => Some (Machine s (stack m) (ran m))
        | Err _ => None
        end
      else None
  end.

(** Runs, by their last step. *)
Inductive steps : list label → machine → machine → Prop :=
  | steps_refl m : steps [] m m
  | steps_snoc ls l m m' m'' : steps ls m m' → step l m' = Some m'' → steps (ls ++ [l]) m m''.

Definition start : machine := Machine fresh_signals [] [].

(** ** The invariant *)

(** The handler that a check is about to run, runs, or has run. *)
Definition holds (i : nat) (f : frame) : bool :=
  match f with
  | Checking _ (Marked j | Called j | Go j | Returned j) => (i =? j)%nat
  | _ => false
  end.

Definition holds_io (f : frame) : bool :=
  match f with Checking _ IoBack => true | _ => false end.

Definition count (p : frame → bool) (st : list frame) : nat := length (filter (λ f, p f = true) st).

Definition in_range (p : point) : Prop :=
  match p with
  | Marked i | Called i | Go i | Returned i => (i < NSIG)%nat
  | _ => True
  end.

(** A handler runs on top of the check that called it; a check was called by the
    program or by a handler. *)
Fixpoint wf (st : list frame) : Prop :=
  match st with
  | [] => True
  | f :: st' =>
      match f, st' with
      | Checking _ p, _ => in_user st' = true ∧ in_range p
      | Handler i, Checking _ (Returned j) :: _ => i = j
      | IoHandler, Checking _ IoBack :: _ => True
      | _, _ => False
      end ∧ wf st'
  end.

(** The flags say what the stack says. *)
Record agree (s : sig_state) (st : list frame) : Prop := {
  agree_length : length (s_sig_details s) = NSIG;
  agree_running i : count (holds i) st = Nat.b2n (running (details s i));
  agree_io : count holds_io st = Nat.b2n (s_io_handler_running s)
}.

Definition ok (m : machine) : Prop := agree (sigs m) (stack m) ∧ wf (stack m).

Lemma count_cons p f st : count p (f :: st) = (Nat.b2n (p f) + count p st)%nat.
Proof.
  unfold count. destruct (p f) eqn:Hf; [by rewrite filter_cons_True|].
  rewrite filter_cons_False; [done|congruence].
Qed.

Lemma details_set i f s j : length (s_sig_details s) = NSIG → (i < NSIG)%nat →
  details (set_details i f s) j = if decide (j = i) then f (details s i) else details s j.
Proof.
  intros Hl Hi. unfold details, set_details. cbn [s_sig_details].
  assert (i < length (s_sig_details s))%nat as Hb by (rewrite Hl; exact Hi).
  destruct (lookup_lt_is_Some_2 _ _ Hb) as [d Hd]. case_decide; subst.
  - by rewrite list_lookup_alter_eq, Hd.
  - by rewrite list_lookup_alter_ne.
Qed.

Lemma details_set_all f s j : f zero_details = zero_details →
  details (set_all f s) j = f (details s j).
Proof.
  intros Hf. unfold details, set_all. cbn [s_sig_details]. rewrite list_lookup_fmap.
  by destruct (_ !! j).
Qed.

Lemma translate_bound sig : (vsf_sysutil_translate_sig sig < NSIG)%nat.
Proof. apply Nat.ltb_lt. by destruct sig. Qed.

(** *** What the program does to the table *)

(** A signal that waits for its handler. *)
Definition waits (d : vsf_sysutil_sig_details) : Prop :=
  pending d = true ∧ is_Some (sync_sig_handler d).

(** No handler starts or ends; [i] goes on waiting, if [P]. *)
Record entries (P : Prop) (i : nat) (s s' : sig_state) : Prop := {
  ent_length : length (s_sig_details s') = length (s_sig_details s);
  ent_running j : running (details s' j) = running (details s j);
  ent_io : s_io_handler_running s' = s_io_handler_running s;
  ent_waits : P → waits (details s i) → waits (details s' i)
}.

Lemma agree_entries P i s s' st : agree s st → entries P i s s' → agree s' st.
Proof.
  intros [Hl Hr Ho] [Hl' Hr' Ho' _]. split; [congruence|intros j; by rewrite Hr'|by rewrite Ho'].
Qed.

Lemma entries_refl P i s : entries P i s s.
Proof. by split. Qed.

Lemma entries_trans P i s1 s2 s3 : entries P i s1 s2 → entries P i s2 s3 → entries P i s1 s3.
Proof.
  intros [] []. split; [congruence|intros j; congruence|congruence|auto].
Qed.

Lemma entries_set (P : Prop) i j f s : length (s_sig_details s) = NSIG → (j < NSIG)%nat →
  (∀ d, running (f d) = running d) → (P → i = j → ∀ d, waits d → waits (f d)) →
  entries P i s (set_details j f s).
Proof.
  intros Hl Hj Hr Hw. split; [by cbn; rewrite length_alter| |done|].
  - intros k. rewrite details_set by done. case_decide; [subst; apply Hr|done].
  - intros HP Hd. rewrite details_set by done. case_decide; [subst; by apply Hw|done].
Qed.

Lemma common_entries P i n s : length (s_sig_details s) = NSIG →
  entries P i s (vsf_sysutil_common_sighandler n s).
Proof.
  intros Hl. unfold vsf_sysutil_common_sighandler.
  destruct (_ || _) eqn:Hn; [apply entries_refl|].
  destruct (sync_sig_handler (details s (Z.to_nat n))); [|apply entries_refl].
  assert (entries P i s (set_details (Z.to_nat n) (set_pending true) s)) as He.
  { apply entries_set; [done| |done|by intros _ _ d []]. apply orb_false_iff in Hn as [Hn1 Hn2]. b2p. lia. }
  destruct (use_alarm _); [|exact He]. by destruct He.
Qed.

Lemma deliver_entries P i j s s' : length (s_sig_details s) = NSIG →
  deliver j s = Some s' → entries P i s s'.
Proof.
  unfold deliver. intros Hl. case_bool_decide; [done|].
  destruct (disposition_of s j); try done; intros [= <-]; [by apply common_entries|by split].
Qed.

(** The signal keeps its handler. *)
Definition keeps_handler (i : nat) (o : sig_op) : Prop :=
  match o with
  | OpDefault sig | OpNull sig | OpAsync sig _ => vsf_sysutil_translate_sig sig ≠ i
  | OpPostFork => False
  | _ => True
  end.

Lemma set_sighandler_entries P i j d s s' :
  vsf_sysutil_set_sighandler j d s = Ok s' → entries P i s s'.
Proof. unfold vsf_sysutil_set_sighandler. case_bool_decide; [done|]. intros [= <-]. by split. Qed.

Lemma remove_entries i sig s : length (s_sig_details s) = NSIG →
  entries (vsf_sysutil_translate_sig sig ≠ i) i s
    (set_details (vsf_sysutil_translate_sig sig) (set_handler None) s).
Proof. intros Hl. by apply entries_set; [|apply translate_bound| |intros ? ->]. Qed.

Lemma op_entries i o s s' : length (s_sig_details s) = NSIG → do_op o s = Ok s' →
  entries (keeps_handler i o) i s s'.
Proof.
  intros Hl. destruct o as [sig h a|sig|sig|sig h|sig|sig|h| |n|]; cbn [do_op keeps_handler].
  - unfold vsf_sysutil_install_sighandler. set (r := vsf_sysutil_translate_sig sig).
    assert (entries True i s (set_details r (set_use_alarm a) (set_details r (set_handler (Some h)) s))) as He.
    { eapply entries_trans; apply entries_set; try apply translate_bound; try done.
      - intros _ _ d []. by split.
      - cbn. by rewrite length_alter. }
    destruct (vsf_sysutil_set_sighandler r _ _) as [s1|] eqn:H1; [cbn [res_bind]|done].
    apply (set_sighandler_entries True i) in H1. pose proof (entries_trans _ _ _ _ _ He H1).
    destruct (_ && _); [|by intros [= <-]]. intros H2. apply (set_sighandler_entries True i) in H2.
    by eapply entries_trans.
  - unfold vsf_sysutil_default_sig.
    destruct (vsf_sysutil_set_sighandler _ _ s) as [s1|] eqn:H1; [cbn [res_bind]; intros [= <-]|done].
    apply (set_sighandler_entries (vsf_sysutil_translate_sig sig ≠ i) i) in H1.
    eapply entries_trans; [exact H1|]. apply remove_entries. by rewrite (ent_length _ _ _ _ H1).
  - unfold vsf_sysutil_install_null_sighandler. intros H. eapply entries_trans;
      [by apply remove_entries|by eapply set_sighandler_entries].
  - unfold vsf_sysutil_install_async_sighandler. intros H. eapply entries_trans;
      [by apply remove_entries|]. apply (set_sighandler_entries (vsf_sysutil_translate_sig sig ≠ i) i) in H.
    by destruct H.
  - intros [= <-]. by split.
  - intros [= <-]. by split.
  - unfold vsf_sysutil_install_io_handler. destruct (s_io_handler s); [done|]. intros [= <-]. by split.
  - unfold vsf_sysutil_uninstall_io_handler. destruct (s_io_handler s); [|done]. intros [= <-]. by split.
  - intros [= <-]. by split.
  - intros [= <-]. unfold post_fork_signals. split; [by cbn; rewrite !length_fmap| |done|done].
    intros j. by rewrite !details_set_all.
Qed.

(** *** The check *)

Lemma agree_top s s' f f' st : agree s (f :: st) →
  length (s_sig_details s') = length (s_sig_details s) →
  (∀ j, (Nat.b2n (holds j f') + Nat.b2n (running (details s j)) =
         Nat.b2n (holds j f) + Nat.b2n (running (details s' j)))%nat) →
  (Nat.b2n (holds_io f') + Nat.b2n (s_io_handler_running s) =
   Nat.b2n (holds_io f) + Nat.b2n (s_io_handler_running s'))%nat →
  agree s' (f' :: st).
Proof.
  intros [Hl Hr Ho] Hl' Hr' Ho'. rewrite count_cons in Ho. split; [congruence| |rewrite count_cons; lia].
  intros j. specialize (Hr j). specialize (Hr' j). rewrite count_cons in Hr |- *. lia.
Qed.

Lemma agree_push s f st : holds_io f = false → (∀ j, holds j f = false) →
  agree s st → agree s (f :: st).
Proof.
  intros Ho Hh [Hl Hr Hi]. split; [done| |rewrite count_cons, Ho; exact Hi].
  intros j. rewrite count_cons, Hh. exact (Hr j).
Qed.

Lemma agree_pop s f st : holds_io f = false → (∀ j, holds j f = false) →
  agree s (f :: st) → agree s st.
Proof.
  intros Ho Hh [Hl Hr Hi]. rewrite count_cons, Ho in Hi. split; [done| |exact Hi].
  intros j. specialize (Hr j). rewrite count_cons, Hh in Hr. exact Hr.
Qed.

Lemma check_ok (m m' : machine) : ok m → check_step m = Some m' → ok m'.
Proof.
  destruct m as [s st rn]. unfold ok, check_step. cbn [stack sigs]. intros [Ha Hw].
  destruct st as [|[io p| |] st]; try done. destruct Hw as [[Hu Hp] Hw].
  pose proof (agree_length _ _ Ha) as Hl.
  destruct p as [| |i|i|i|i|i]; cbn [in_range] in Hp.
  - destruct (bool_decide _ && _ && _) eqn:Hc; intros [= <-]; cbn [stack sigs].
    + split; [|by cbn]. apply agree_push; [done..|]. eapply agree_top; [exact Ha|done|done|].
      apply andb_true_iff in Hc as [Hc _]. apply andb_true_iff in Hc as [_ Hc].
      cbn. by destruct (s_io_handler_running s).
    + split; [|done]. by refine (agree_top _ _ _ _ _ Ha _ _ _).
  - intros [= <-]. cbn [stack sigs]. split; [|done]. eapply agree_top; [exact Ha|done|done|].
    destruct Ha as [_ _ Ho]. rewrite count_cons in Ho. cbn in Ho |- *.
    destruct (s_io_handler_running s); cbn in *; lia.
  - destruct (NSIG <=? i)%nat eqn:Hi.
    { intros [= <-]. cbn. split; [|done]. by refine (agree_pop _ _ _ _ _ Ha). }
    apply Nat.leb_gt in Hi. destruct (pending _ && _) eqn:Hc; intros [= <-]; cbn [stack sigs].
    + split; [|done]. eapply agree_top; [exact Ha|by cbn; rewrite length_alter| |done].
      intros j. rewrite details_set by done. cbn [holds]. apply andb_true_iff in Hc as [_ Hc].
      case_decide; [subst; rewrite Nat.eqb_refl; cbn; by destruct (running (details s i))|].
      apply Nat.eqb_neq in H as ->. done.
    + split; [|done]. by refine (agree_top _ _ _ _ _ Ha _ _ _).
  - intros [= <-]. cbn [stack sigs]. split; [|done]. destruct (use_alarm _); by refine (agree_top _ _ _ _ _ Ha _ _ _).
  - destruct (sync_sig_handler _); intros [= <-]; cbn [stack sigs].
    + split; [|done]. eapply agree_top; [exact Ha|by cbn; rewrite length_alter| |done].
      intros j. rewrite details_set by done. by case_decide; subst.
    + split; [|done]. by refine (agree_top _ _ _ _ _ Ha _ _ _).
  - intros [= <-]. cbn [stack sigs]. split; [|by cbn]. apply agree_push; [done..|]. by refine (agree_top _ _ _ _ _ Ha _ _ _).
  - intros [= <-]. cbn [stack sigs]. split; [|done].
    eapply agree_top; [exact Ha|by cbn; rewrite length_alter| |done].
    intros j. rewrite details_set by done. destruct Ha as [_ Hr _]. specialize (Hr j).
    rewrite count_cons in Hr. cbn [holds] in *. case_decide.
    + subst. rewrite Nat.eqb_refl in *. cbn in *. destruct (running (details s i)); cbn in *; lia.
    + apply Nat.eqb_neq in H as ->. cbn in *. done.
Qed.

Lemma step_ok l (m m' : machine) : ok m → step l m = Some m' → ok m'.
Proof.
  destruct m as [s st rn]. intros [Ha Hw]. cbn [stack sigs] in *. pose proof (agree_length _ _ Ha) as Hl.
  destruct l as [i| |io| |o]; cbn [step stack sigs].
  - destruct (deliver i s) as [s'|] eqn:Hd; [|done]. intros [= <-]. split; [|done].
    by eapply agree_entries, (deliver_entries True i).
  - by apply check_ok.
  - destruct (in_user st) eqn:Hu; [|done]. intros [= <-]. cbn. split; [|done]. by apply agree_push.
  - destruct st as [|[| |] st]; try done; intros [= <-]; cbn; destruct Hw; (split; [|done]);
      by refine (agree_pop _ _ _ _ _ Ha).
  - destruct (in_user st); [|done]. destruct (do_op o s) as [s'|] eqn:Ho; [|done]. intros [= <-].
    split; [|done]. by eapply agree_entries, (op_entries 0).
Qed.

Lemma steps_ok ls (m m' : machine) : steps ls m m' → ok m → ok m'.
Proof. induction 1; eauto using step_ok. Qed.

Lemma start_ok : ok start.
Proof.
  split; [|done]. split; [done| |done]. intros j. unfold details. cbn [sigs start fresh_signals s_sig_details].
  destruct (replicate NSIG zero_details !! j) as [d|] eqn:Hd; [|done].
  apply lookup_replicate in Hd as [-> _]. done.
Qed.

(** *** No re-entrancy *)

Definition handler_of (f : frame) : option nat := match f with Handler i => Some i | _ => None end.

(** The signals whose handlers are running, innermost first. *)
Definition handlers (st : list frame) : list nat := omap handler_of st.

Definition is_io (f : frame) : bool := match f with IoHandler => true | _ => false end.

(** A stack on which the program or a handler runs. *)
Record tidy (st : list frame) : Prop := {
  tidy_length : length st = (2 * (length (handlers st) + count is_io st))%nat;
  tidy_holds i : i ∈ handlers st → (i < NSIG)%nat ∧ (1 ≤ count (holds i) st)%nat;
  tidy_io : (count is_io st ≤ count holds_io st)%nat;
  tidy_nodup : (∀ i, count (holds i) st ≤ 1)%nat → NoDup (handlers st)
}.

Lemma wf_tidy n st : (length st ≤ n)%nat → wf st → in_user st = true → tidy st.
Proof.
  revert st. induction n as [|n IH]; intros st Hn Hw Hu.
  { destruct st; [|cbn in Hn; lia]. split; try done; [|constructor]. by intros i ?%elem_of_nil. }
  destruct st as [|f [|f2 st]]; [by apply (IH []); cbn; [lia|..]| |].
  { destruct f; by destruct Hw. }
  assert ((∃ i io, f = Handler i ∧ f2 = Checking io (Returned i) ∧ (i < NSIG)%nat) ∨
          ∃ io, f = IoHandler ∧ f2 = Checking io IoBack) as Hf.
  { destruct f as [|i|]; [done|..]; destruct f2 as [io []| |]; try (by destruct Hw).
    - left. destruct Hw as [-> [[_ Hr] _]]. by eexists _, _.
    - right. by exists io. }
  assert (wf st ∧ in_user st = true) as [Hw' Hu'].
  { destruct Hf as [(i & io & -> & -> & _)|(io & -> & ->)]; by destruct Hw as (_ & [? _] & ?). }
  destruct (IH st ltac:(cbn in Hn; lia) Hw' Hu') as [Hl Hh Ho Hd].
  destruct Hf as [(i & io & -> & -> & Hi)|(io & -> & ->)]; split; unfold handlers in *;
    cbn [omap list_omap handler_of length]; rewrite ?count_cons; cbn [is_io holds_io Nat.b2n];
    try lia.
  - intros j [->|Hj]%elem_of_cons; rewrite !count_cons; cbn [holds]; [rewrite Nat.eqb_refl; cbn; lia|].
    destruct (Hh j Hj). lia.
  - intros Hc. constructor.
    + intros Hj. destruct (Hh i Hj). specialize (Hc i). rewrite !count_cons in Hc. cbn [holds] in Hc.
      rewrite Nat.eqb_refl in Hc. cbn in Hc. lia.
    + apply Hd. intros j. specialize (Hc j). rewrite !count_cons in Hc. lia.
  - intros j Hj. rewrite !count_cons. destruct (Hh j Hj). lia.
  - intros Hc. apply Hd. intros j. specialize (Hc j). by rewrite !count_cons in Hc.
Qed.

Lemma ok_depth (m : machine) : ok m →
  NoDup (handlers (stack m)) ∧ (count is_io (stack m) ≤ 1)%nat ∧ (length (stack m) ≤ 2 * NSIG + 3)%nat.
Proof.
  destruct m as [s st rn]. intros [Ha Hw]. cbn [stack sigs] in *.
  assert (∃ c st', in_user st' = true ∧ wf st' ∧ (length st ≤ 1 + length st')%nat ∧
    handlers st = handlers st' ∧ count is_io st = count is_io st' ∧
    ∀ p, (count p st = c p + count p st')%nat) as (c & st' & Hu & Hw' & Hl & -> & -> & Hc).
  { destruct (in_user st) eqn:Hu; [by exists (λ _, 0%nat), st; split_and!; [..|lia| | |]|].
    destruct st as [|[io p| |] st]; try done. destruct Hw as [[Hu' _] Hw].
    exists (λ q, Nat.b2n (q (Checking io p))), st. split_and!; try done. intros q. apply count_cons. }
  destruct (wf_tidy _ st' (le_n _) Hw' Hu) as [Hl' Hh Ho Hd]. destruct Ha as [_ Hr Hio].
  rewrite Hc in Hio.
  assert (NoDup (handlers st')) as Hn.
  { apply Hd. intros i. specialize (Hr i). rewrite Hc in Hr. destruct (running _); cbn in Hr; lia. }
  assert (count is_io st' ≤ 1)%nat by (destruct (s_io_handler_running s); cbn in Hio; lia).
  assert (length (handlers st') ≤ length (seq 0 NSIG))%nat as Hs.
  { apply submseteq_length, NoDup_submseteq; [done|]. intros i Hi%Hh. apply elem_of_seq. lia. }
  rewrite length_seq in Hs. split_and!; [done..|lia].
Qed.

(** C20: Handlers are not re-entrant. Whatever signals arrive between any two
    steps, and whatever the handlers do, calling the check again included: the
    handler of a signal never runs on top of itself, nor does the I/O handler, and
    so the calls nest at most twice per signal. A check that has started can
    always go on. *)
Theorem handlers_not_reentrant ls (m : machine) : steps ls start m →
  NoDup (handlers (stack m)) ∧ (count is_io (stack m) ≤ 1)%nat ∧
  (length (stack m) ≤ 2 * NSIG + 3)%nat ∧
  (in_user (stack m) = false → is_Some (step Next m)).
Proof.
  intros Hs. pose proof (steps_ok _ _ _ Hs start_ok) as Hm. destruct (ok_depth m Hm) as (? & ? & ?).
  split_and!; [done..|]. destruct m as [s [|[io p| |] st] rn]; try done. intros _.
  unfold step, check_step. cbn [stack sigs ran]. destruct p; repeat case_match; by eexists.
Qed.

(** *** No loss *)

(** Where a check can be that will still come to signal [i]. *)
Definition before (i : nat) (p : point) : Prop :=
  match p with
  | IoTest | IoBack => True
  | Scan j | Marked j | Called j => (j ≤ i)%nat
  | Go j | Returned j => (j < i)%nat
  end.

Definition not_past (i : nat) (f : frame) : Prop :=
  match f with Checking _ (Go j | Returned j) => i ≠ j | _ => True end.

Lemma before_not_past i io p : before i p → not_past i (Checking io p).
Proof. destruct p; cbn; lia. Qed.

(** Only the top of the stack is on its way to a handler. *)
Lemma holds_below i f st base : wf (f :: st ++ base) → Forall (not_past i) st →
  count (holds i) base = 0%nat → count (holds i) (st ++ base) = 0%nat.
Proof.
  intros Hw Hp Hb. revert f Hw. induction Hp as [|g st Hg _ IH]; intros f Hw; [done|].
  cbn [app] in *. destruct Hw as [Hf Hw]. rewrite count_cons, (IH g Hw), Nat.add_0_r.
  destruct g as [io [| |j|j|j|j|j]| |]; try done; destruct f; try done; try (by destruct Hf).
  cbn. cbn in Hg. apply Nat.eqb_neq in Hg. by rewrite Hg.
Qed.

Lemma ran_grows l (m m' : machine) : step l m = Some m' → ∃ later, ran m' = later ++ ran m.
Proof.
  destruct m as [s st rn]. destruct l as [i| |io| |o]; cbn [step sigs stack ran].
  - destruct (deliver i s); [|done]. intros [= <-]. by exists [].
  - unfold check_step. cbn [stack]. destruct st as [|[io p| |] st]; try done. cbn [sigs ran].
    destruct p; repeat (case_match; try done); intros [= <-]; try (by exists []). by exists [i].
  - destruct (in_user st); [|done]. intros [= <-]. by exists [].
  - destruct st as [|[| |] st]; try done; intros [= <-]; by exists [].
  - destruct (in_user st); [|done]. destruct (do_op o s); [|done]. intros [= <-]. by exists [].
Qed.

(** One step of the check on top, while [i] waits. *)
Inductive moved (i : nat) (io : bool) (q : point) (st : list frame) : machine → Prop :=
  | moved_out k s rn : q = Scan k → (NSIG ≤ k)%nat → waits (details s i) →
      moved i io q st (Machine s st rn)
  | moved_on pre q' s rn : waits (details s i) → Forall (not_past i) pre →
      not_past i (Checking io q') → (before i q → before i q') →
      moved i io q st (Machine s (pre ++ Checking io q' :: st) rn)
  | moved_go s rn : moved i io q st (Machine s (Checking io (Go i) :: st) rn).

Lemma waits_set i j f s : length (s_sig_details s) = NSIG → (j < NSIG)%nat →
  (i = j → ∀ d, waits d → waits (f d)) → waits (details s i) → waits (details (set_details j f s) i).
Proof. intros Hl Hj Hf Hw. rewrite details_set by done. case_decide; [subst; by apply Hf|done]. Qed.

Lemma check_moved i s io q st rn (m' : machine) : ok (Machine s (Checking io q :: st) rn) →
  waits (details s i) → (i < NSIG)%nat → count (holds i) st = 0%nat → not_past i (Checking io q) →
  check_step (Machine s (Checking io q :: st) rn) = Some m' → moved i io q st m'.
Proof.
  intros [Ha [[_ Hq] _]] Hi Hb Hc Hp. cbn [sigs stack] in *. pose proof (agree_length _ _ Ha) as Hl.
  unfold check_step. cbn [stack sigs ran].
  destruct q as [| |k|k|k|k|k]; cbn [in_range not_past] in Hq, Hp.
  - destruct (_ && _); intros [= <-]; [apply (moved_on _ _ _ _ [IoHandler])|apply (moved_on _ _ _ _ [])];
      try done; [by constructor|cbn; lia].
  - intros [= <-]. apply (moved_on _ _ _ _ []); try done. cbn. lia.
  - destruct (NSIG <=? k)%nat eqn:Hk; [intros [= <-]; apply Nat.leb_le in Hk; by eapply moved_out|].
    apply Nat.leb_gt in Hk. destruct (_ && _) eqn:Ht; intros [= <-]; apply (moved_on _ _ _ _ []); try done.
    + by apply waits_set; [| |intros _ d []|].
    + cbn. intros Hki. enough (k ≠ i) by lia. intros ->. destruct Hi as [Hi _], Ha as [_ Hr _].
      specialize (Hr i). rewrite count_cons, Hc in Hr. cbn in Hr. rewrite Hi in Ht. cbn in Ht.
      destruct (running (details s i)); done.
  - intros [= <-]. apply (moved_on _ _ _ _ []); try done. by destruct (use_alarm _).
  - destruct (decide (k = i)) as [->|Hki].
    + destruct Hi as [_ [h Hh]]. rewrite Hh. intros [= <-]. apply moved_go.
    + destruct (sync_sig_handler (details s k)); intros [= <-]; apply (moved_on _ _ _ _ []);
        try done; try (by apply waits_set); cbn; lia.
  - intros [= <-]. by apply (moved_on _ _ _ _ [Handler k]); [|repeat constructor| |].
  - intros [= <-]. apply (moved_on _ _ _ _ []); try done.
    by apply waits_set; [| |intros _ d []|].
Qed.

(** The handler of [i] is called next. *)
Definition due (i : nat) (m : machine) : Prop := ∃ io st, stack m = Checking io (Go i) :: st.

(** A check on top of [base] has still to come to [i]. *)
Definition awaits (i : nat) (base : list frame) (m : machine) : Prop :=
  ∃ upper io p, stack m = upper ++ Checking io p :: base ∧
    waits (details (sigs m) i) ∧ before i p ∧ Forall (not_past i) upper.

(** The labels leave [i] its handler. *)
Definition keeps (i : nat) (l : label) : Prop := match l with Op o => keeps_handler i o | _ => True end.

(** Every step but those of a check keeps a signal waiting. *)
Lemma waits_step i l (m m' : machine) : ok m → keeps i l → waits (details (sigs m) i) →
  step l m = Some m' → l = Next ∨ waits (details (sigs m') i) ∧
    (stack m' = stack m ∨ (∃ io, stack m' = Checking io IoTest :: stack m ∧ in_user (stack m) = true) ∨
     ∃ f, stack m = f :: stack m' ∧ (handler_of f ≠ None ∨ f = IoHandler)).
Proof.
  destruct m as [s st rn]. intros [Ha _] Hk Hw. cbn [stack sigs] in *. pose proof (agree_length _ _ Ha) as Hl.
  destruct l as [j| |io| |o]; cbn [step stack sigs]; [|by left|..].
  - destruct (deliver j s) as [s'|] eqn:Hd; [|done]. intros [= <-]. right. cbn. split; [|by left].
    by apply (deliver_entries True i) in Hd as [_ _ _ Hd]; [apply Hd|].
  - destruct (in_user st) eqn:Hu; [|done]. intros [= <-]. right. split; [done|]. right; left. by exists io.
  - destruct st as [|[|j|] st]; try done; intros [= <-]; right; (split; [done|]); right; right; eexists;
      (split; [done|]); [by left|by right].
  - destruct (in_user st); [|done]. destruct (do_op o s) as [s'|] eqn:Ho; [|done]. intros [= <-].
    right. split; [|by left]. by apply (op_entries i) in Ho as [_ _ _ Ho]; [apply Ho|].
Qed.

Lemma due_step i l (m m' : machine) : due i m → step l m = Some m' →
  due i m' ∨ ran m' = i :: ran m.
Proof.
  destruct m as [s st rn]. intros (io & st' & Hs). cbn in Hs. subst st.
  destruct l as [j| |io'| |o]; cbn [step stack sigs in_user]; try done.
  - destruct (deliver j s); [|done]. intros [= <-]. left. by exists io, st'.
  - cbn. intros [= <-]. by right.
Qed.

(** In one step of the check on top. *)
Lemma next_moved i (m m' : machine) io q st : ok m → stack m = Checking io q :: st →
  waits (details (sigs m) i) → (i < NSIG)%nat → count (holds i) st = 0%nat → not_past i (Checking io q) →
  step Next m = Some m' → moved i io q st m'.
Proof. destruct m as [s st0 rn]. cbn. intros Ho -> ? ? ? ?. by apply check_moved. Qed.

Lemma awaits_step i base l (m m' : machine) : ok m → (i < NSIG)%nat → keeps i l →
  count (holds i) base = 0%nat → awaits i base m → step l m = Some m' →
  awaits i base m' ∨ due i m'.
Proof.
  intros Hm Hi Hk Hb (upper & io & p & Hs & Hw & Hp & Hu) Hl.
  destruct (waits_step i l m m' Hm Hk Hw Hl) as [->|[Hw' Hst]].
  - assert (∃ io' q st, stack m = Checking io' q :: st) as (io' & q & st & Ht).
    { cbn in Hl. unfold check_step in Hl. destruct (stack m) as [|[io' q| |] st]; by eauto. }
    assert (∀ st', st = st' ++ base → Forall (not_past i) st' → count (holds i) st = 0%nat) as Hc.
    { intros st' -> Hp'. eapply holds_below; [|exact Hp'|exact Hb]. destruct Hm as [_ Hm].
      rewrite Ht in Hm. exact Hm. }
    rewrite Hs in Ht. destruct upper as [|f upper].
    + injection Ht as -> -> ->. eapply next_moved in Hl; [|done|exact Hs|done..|by apply (Hc [])|by apply before_not_past].
      destruct Hl as [k s rn -> Hk'|pre q' s rn Hw2 Hpre Hq Hbq|s rn]; [cbn in Hp; lia| |by right; eexists _, _].
      left. exists pre, io', q'. by split_and!; [|..|apply Hbq|].
    + injection Ht as -> <-. apply Forall_cons in Hu as [Hf Hu].
      eapply next_moved in Hl; [|done|exact Hs|done..| |exact Hf].
      2:{ apply (Hc (upper ++ [Checking io p])); [by rewrite <- app_assoc|].
          apply Forall_app. split; [done|]. repeat constructor. by apply before_not_past. }
      destruct Hl as [k s rn _ _ Hw2|pre q' s rn Hw2 Hpre Hq Hbq|s rn]; [..|by right; eexists _, _]; left.
      * by exists upper, io, p.
      * exists (pre ++ Checking io' q' :: upper), io, p. split_and!; [by rewrite <- app_assoc|done..|].
        apply Forall_app. split; [done|]. by constructor.
  - left. destruct Hst as [Hst|[(io' & Hst & _)|(f & Hst & Hf)]].
    + exists upper, io, p. by rewrite Hst.
    + exists (Checking io' IoTest :: upper), io, p. rewrite Hst, Hs. split_and!; [done..|]. by constructor.
    + rewrite Hs in Hst. destruct upper as [|g upper].
      { injection Hst as <- _. by destruct Hf. }
      injection Hst as -> Hst.
      apply Forall_cons in Hu as [_ Hu]. by exists upper, io, p.
Qed.

Lemma next_waits i (m m' : machine) : ok m → waits (details (sigs m) i) →
  step Next m = Some m' → waits (details (sigs m') i) ∨ due i m'.
Proof.
  destruct m as [s [|[io q| |] st] rn]; intros [Ha Hw] Hi; try done. cbn [stack sigs] in *.
  destruct Hw as [[_ Hq] _]. pose proof (agree_length _ _ Ha) as Hl.
  unfold step, check_step. cbn [stack sigs ran].
  destruct q as [| |k|k|k|k|k]; cbn [in_range] in Hq.
  1, 2: repeat case_match; intros [= <-]; by left.
  - destruct (NSIG <=? k)%nat eqn:Hk; [intros [= <-]; by left|]. apply Nat.leb_gt in Hk.
    destruct (_ && _); intros [= <-]; left; [|done]. by apply waits_set; [| |intros _ d []|].
  - intros [= <-]. left. by destruct (use_alarm _).
  - destruct (sync_sig_handler _); intros [= <-]; [|by left].
    destruct (decide (i = k)) as [->|]; [right; by eexists _, _|left; by apply waits_set].
  - intros [= <-]. by left.
  - intros [= <-]. left. by apply waits_set; [| |intros _ d []|].
Qed.

(** While the labels keep its handler: what is true of a waiting signal, until
    its handler is called. *)
Lemma until_called (J : machine → Prop) i ls (m m' : machine) :
  (∀ l m1 m2, ok m1 → keeps i l → J m1 → step l m1 = Some m2 → J m2 ∨ due i m2) →
  steps ls m m' → ok m → Forall (keeps i) ls → J m ∨ due i m →
  ∃ later, ran m' = later ++ ran m ∧ (i ∈ later ∨ J m' ∨ due i m').
Proof.
  intros HJ Hs Hm Hk H0. induction Hs as [m|ls l m m1 m2 Hs IH Hl]; [exists []; by auto|].
  apply Forall_app in Hk as [Hk [Hkl _]%Forall_cons]. destruct (IH Hm Hk H0) as (later & Hr & Hi).
  destruct (ran_grows _ _ _ Hl) as [more Hr2]. exists (more ++ later). rewrite Hr2, Hr, app_assoc.
  split; [done|]. destruct Hi as [Hi|[Hi|Hi]].
  - left. apply elem_of_app. by right.
  - right. eapply HJ; [|done..]. by eapply steps_ok.
  - destruct (due_step _ _ _ _ Hi Hl) as [Hd|Hd]; [by auto|]. left.
    rewrite Hr2 in Hd. change (i :: ran m1) with ([i] ++ ran m1) in Hd. apply app_inv_tail in Hd as ->.
    apply elem_of_app. left. constructor.
Qed.

Lemma steps_cons l ls (m m' : machine) : steps (l :: ls) m m' →
  ∃ m1, step l m = Some m1 ∧ steps ls m1 m'.
Proof.
  remember (l :: ls) as ls0 eqn:Heq. intros Hs. revert ls Heq.
  induction Hs as [m|ls1 l1 m m1 m2 Hs IH Hl]; intros ls Heq; [done|].
  destruct ls1 as [|l2 ls1]; injection Heq as -> <-.
  - inversion Hs as [|? ? ? ? ? ? ? Hn]; subst; [|by destruct ls]. exists m2. split; [done|constructor].
  - destruct (IH ls1 eq_refl) as (m3 & ? & ?). exists m3. split; [done|]. by econstructor.
Qed.

Lemma common_waits i s : length (s_sig_details s) = NSIG → (i < NSIG)%nat →
  is_Some (sync_sig_handler (details s i)) →
  waits (details (vsf_sysutil_common_sighandler (Z.of_nat i) s) i).
Proof.
  intros Hl Hi [h Hh]. unfold vsf_sysutil_common_sighandler.
  rewrite (proj2 (orb_false_iff _ _)) by (split; [apply Z.ltb_ge|apply Z.leb_gt]; lia).
  rewrite Nat2Z.id, Hh.
  assert (waits (details (set_details i (set_pending true) s) i)).
  { rewrite details_set by done. case_decide; [|done]. split; [done|]. by exists h. }
  by destruct (use_alarm _).
Qed.

Lemma waits_steps i ls (m m' : machine) : steps ls m m' → ok m → Forall (keeps i) ls →
  waits (details (sigs m) i) →
  ∃ later, ran m' = later ++ ran m ∧ (i ∈ later ∨ waits (details (sigs m') i) ∨ due i m').
Proof.
  intros Hs Hm Hk Hw. eapply (until_called (λ m, waits (details (sigs m) i))); [|done..|by left].
  intros l m1 m2 H1 H2 H3 H4. destruct (waits_step _ _ _ _ H1 H2 H3 H4) as [->|[? _]]; [|by left].
  by apply (next_waits i m1).
Qed.

Lemma check_calls i io ls (m m' : machine) : steps (Call io :: ls) m m' → ok m → (i < NSIG)%nat →
  Forall (keeps i) ls → waits (details (sigs m) i) → running (details (sigs m) i) = false →
  stack m' = stack m → ∃ later, ran m' = later ++ ran m ∧ i ∈ later.
Proof.
  intros (m1 & H1 & Hs)%steps_cons Hm Hi Hk Hw Hr Hst. pose proof (step_ok _ _ _ Hm H1) as Hm1.
  cbn [step] in H1. destruct (in_user (stack m)) eqn:Hu; [|done]. injection H1 as <-.
  assert (count (holds i) (stack m) = 0%nat) as Hc.
  { destruct Hm as [[_ Ha _] _]. by rewrite Ha, Hr. }
  eapply (until_called (awaits i (stack m)) i) in Hs as (later & Hran & Hl); [|by eauto using awaits_step|done..|].
  2:{ left. by exists [], io, IoTest. }
  exists later. split; [done|]. destruct Hl as [?|[(up & io' & p & Hup & _)|(io' & st & Hd)]]; [done|..].
  - rewrite Hst in Hup. apply (f_equal length) in Hup. rewrite length_app in Hup. cbn in Hup. lia.
  - rewrite <- Hst, Hd in Hu. done.
Qed.

(** C19: No signal is lost. Once a signal with a handler has arrived, whatever
    arrives and is called later: the signal waits until its handler is called,
    unless the handler is taken away; and when a check that the code calls while
    that handler is not running returns, the handler has been called. *)
Theorem no_signal_lost ls0 i ls (m0 m m' : machine) :
  steps ls0 start m0 → disposition_of (sigs m0) i = Common → (i < NSIG)%nat →
  is_Some (sync_sig_handler (details (sigs m0) i)) →
  step (Arrive i) m0 = Some m → steps ls m m' → Forall (keeps i) ls →
  ∃ later, ran m' = later ++ ran m0 ∧
    (i ∈ later ∨ waits (details (sigs m') i) ∨ due i m') ∧
    ∀ io ls', ls = Call io :: ls' → running (details (sigs m0) i) = false →
      stack m' = stack m0 → i ∈ later.
Proof.
  intros Hs0 Hd Hi Hh Ha Hs Hk. pose proof (steps_ok _ _ _ Hs0 start_ok) as Hm0.
  pose proof (step_ok _ _ _ Hm0 Ha) as Hm. destruct m0 as [s0 st0 r0]. cbn [sigs stack ran] in *.
  pose proof (agree_length _ _ (proj1 Hm0)) as Hl. cbn [sigs] in Hl.
  cbn [step sigs stack ran] in Ha. unfold deliver in Ha. rewrite Hd in Ha.
  case_bool_decide; [done|]. injection Ha as <-.
  pose proof (common_waits i s0 Hl Hi Hh) as Hw.
  destruct (waits_steps i _ _ _ Hs Hm Hk Hw) as (later & Hr & Hlater). exists later.
  split_and!; [done..|]. intros io ls' -> Hrun Hst. apply Forall_cons in Hk as [_ Hk].
  destruct (check_calls i _ _ _ _ Hs Hm Hi Hk Hw) as (later' & Hr' & ?); [|done|].
  { cbn [sigs]. by rewrite (ent_running _ _ _ _ (common_entries True i (Z.of_nat i) s0 Hl)). }
  rewrite Hr' in Hr. apply app_inv_tail in Hr as ->. done.
Qed.

End SigTable.

(** Runs can be computed. *)
Fixpoint run {F} (ls : list (label (F := F))) (m : machine (F := F)) : option machine :=
  match ls with
  | [] => Some m
  | l :: ls' => m1 ← step l m; run ls' m1
  end.

Lemma steps_app {F} ls1 ls2 (m1 m2 m3 : machine (F := F)) :
  steps ls1 m1 m2 → steps ls2 m2 m3 → steps (ls1 ++ ls2) m1 m3.
Proof. intros H1 H2. induction H2; [by rewrite app_nil_r|]. rewrite app_assoc. eauto using @steps. Qed.

Lemma run_steps {F} ls (m m' : machine (F := F)) : run ls m = Some m' → steps ls m m'.
Proof.
  revert m. induction ls as [|l ls IH]; intros m; cbn; [intros [= ->]; constructor|].
  destruct (step l m) as [m1|] eqn:Hl; [|done]. intros Hr. apply (steps_app [l] ls m m1 m').
  - apply (steps_snoc [] l m m m1); [constructor|done].
  - by apply IH.
Qed.

(** SIGCHLD arrives; a check calls its handler, during which it arrives again and
    the handler checks, too. *)
Definition demo_labels : list (label (F := nat)) :=
  [Op (OpInstall kVSFSysUtilSigCHLD 7%nat true); Arrive SIGCHLD; Call true] ++
  replicate 22 Next ++ [Arrive SIGCHLD; Call false] ++ replicate 20 Next.

Lemma handlers_not_reentrant_witness :
  match run demo_labels start with
  | Some m =>
      stack m = [Checking false (Scan 19); Handler SIGCHLD; Checking true (Returned SIGCHLD)] ∧
      NoDup (handlers (stack m)) ∧ (count is_io (stack m) ≤ 1)%nat ∧
      (length (stack m) ≤ 2 * NSIG + 3)%nat ∧ (in_user (stack m) = false → is_Some (step Next m))
  | None => False
  end.
Proof.
  destruct (run demo_labels start) as [m|] eqn:Hm; [|by vm_compute in Hm].
  split; [by vm_compute in Hm; injection Hm as <-|].
  exact (handlers_not_reentrant demo_labels m (run_steps _ _ _ Hm)).
Defined.

(** The next check, after the handler, calls it for the second arrival. *)
Definition demo_check : list (label (F := nat)) :=
  [Call false] ++ replicate 22 Next ++ [Return] ++ replicate 49 Next.

Lemma no_signal_lost_witness :
  match run [Op (OpInstall kVSFSysUtilSigCHLD 7%nat true)] start with
  | Some m0 =>
      match step (Arrive SIGCHLD) m0 with
      | Some m =>
          match run demo_check m with
          | Some m' => ∃ later, ran m' = later ++ ran m0 ∧ SIGCHLD ∈ later
          | None => False
          end
      | None => False
      end
  | None => False
  end.
Proof.
  destruct (run [_] start) as [m0|] eqn:H0; [|by vm_compute in H0].
  destruct (step (Arrive SIGCHLD) m0) as [m|] eqn:Ha;
    [|by vm_compute in H0; injection H0 as <-; vm_compute in Ha].
  destruct (run demo_check m) as [m'|] eqn:Hc;
    [|by vm_compute in H0; injection H0 as <-; vm_compute in Ha; injection Ha as <-; vm_compute in Hc].
  destruct (no_signal_lost [Op (OpInstall kVSFSysUtilSigCHLD 7%nat true)] SIGCHLD demo_check m0 m m'
    (run_steps _ _ _ H0)) as (later & Hr & _ & Hl).
  - by vm_compute in H0; injection H0 as <-.
  - cbv; lia.
  - vm_compute in H0. injection H0 as <-. by eexists.
  - exact Ha.
  - exact (run_steps _ _ _ Hc).
  - by repeat constructor.
  - exists later. split; [exact Hr|]. apply (Hl false _ eq_refl).
    + by vm_compute in H0; injection H0 as <-.
    + vm_compute in H0. injection H0 as <-. vm_compute in Ha. injection Ha as <-.
      vm_compute in Hc. by injection Hc as <-.
Defined.
