(* ===== verification/Process.v ===== *)
(** * Processes: forks, and what they leave behind

    The fork functions of sysutil.c and sysdeputil.c, the cached process id and
    the exit function. The sandboxed forks ask the kernel for new name spaces and
    fall back when it cannot give them. *)

From Stdlib Require Import ZArith Lia String.
From stdpp Require Import base list numbers option gmap.
From S2P Require Import Prelude SigTable.
Import ResNotations.

Definition EPERM : Z := 1.
Definition EINVAL : Z := 22.

Definition CLONE_NEWIPC : Z := 0x08000000.
Definition CLONE_NEWPID : Z := 0x20000000.
Definition CLONE_NEWNET : Z := 0x40000000.

(** What clone and fork return: in the parent, with the child's id or -1 and
    errno; or 0, in the child, whose own id is [own]. *)
Record forked := Forked { f_ret : Z; f_errno : Z; f_own : Z }.

Section Process.
Context {F : Type}.
(** The kernel, from the name spaces asked for so far and now. *)
Context (kernel : list Z → Z → forked).

(** The statics of the files: the cached id, the exit function, the signal table,
    and a [cloneflags_work] per function. [self] is the id of the process,
    [asked] the record of the calls of clone and fork, newest first. *)
Record process := Process {
  s_current_pid : Z;
  s_exit_func : option F;
  signals : sig_state (F := F);
  all_work : bool;
  isolate_work : bool;
  newnet_work : bool;
  self : Z;
  asked : list Z
}.

Definition set_pid (pid : Z) (p : process) : process :=
  Process pid (s_exit_func p) (signals p) (all_work p) (isolate_work p) (newnet_work p) (self p) (asked p).

Definition vsf_sysutil_set_exit_func (f : F) (p : process) : process :=
  Process (s_current_pid p) (Some f) (signals p) (all_work p) (isolate_work p) (newnet_work p)
    (self p) (asked p).

Definition vsf_sysutil_getpid (p : process) : Z * process :=
  let p := if s_current_pid p =? -1 then set_pid (self p) p else p in
  (u32 (s_current_pid p), p).

Definition vsf_sysutil_post_fork (p : process) : process :=
  Process (-1) None (post_fork_signals (signals p)) (all_work p) (isolate_work p) (newnet_work p)
    (self p) (asked p).

(** A call of clone or fork: what it returns, and errno. *)
Definition clone (flags : Z) (p : process) : Z * Z * process :=
  let r := kernel (asked p) flags in
  (f_ret r, f_errno r,
   Process (s_current_pid p) (s_exit_func p) (signals p) (all_work p) (isolate_work p) (newnet_work p)
     (if f_ret r =? 0 then f_own r else self p) (flags :: asked p)).

Definition vsf_sysutil_fork_failok (p : process) : Z * process :=
  let '(retval, _, p) := clone 0 p in
  (retval, if retval =? 0 then vsf_sysutil_post_fork p else p).

Definition vsf_sysutil_fork (p : process) : res (Z * process) :=
  let (retval, p) := vsf_sysutil_fork_failok p in
  if retval <? 0 then die "fork" else Ok (retval, p).

(** The common shape of the three functions: the flags that are tried while they
    work, and what is done when they do not. *)
Definition try_clone {A} (flags : Z) (work : bool) (forget : process → process)
    (ok : Z * process → A) (fallback : process → A) (p : process) : A :=
  if work then
    let '(ret, errno, p) := clone flags p in
    if negb (ret =? -1) || (negb (errno =? EINVAL) && negb (errno =? EPERM)) then
      ok (ret, if ret =? 0 then vsf_sysutil_post_fork p else p)
    else fallback (forget p)
  else fallback p.

Definition all_fail (p : process) : process :=
  Process (s_current_pid p) (s_exit_func p) (signals p) false (isolate_work p) (newnet_work p)
    (self p) (asked p).
Definition isolate_fail (p : process) : process :=
  Process (s_current_pid p) (s_exit_func p) (signals p) (all_work p) false (newnet_work p)
    (self p) (asked p).
Definition newnet_fail (p : process) : process :=
  Process (s_current_pid p) (s_exit_func p) (signals p) (all_work p) (isolate_work p) false
    (self p) (asked p).

Definition ISOLATE : Z := Z.lor CLONE_NEWPID CLONE_NEWIPC.
Definition ISOLATE_ALL : Z := Z.lor ISOLATE CLONE_NEWNET.

Definition vsf_sysutil_fork_isolate_failok (p : process) : Z * process :=
  try_clone ISOLATE (isolate_work p) isolate_fail id vsf_sysutil_fork_failok p.

Definition vsf_sysutil_fork_isolate_all_failok (p : process) : Z * process :=
  try_clone ISOLATE_ALL (all_work p) all_fail id vsf_sysutil_fork_isolate_failok p.

Definition vsf_sysutil_fork_newnet (p : process) : res (Z * process) :=
  try_clone CLONE_NEWNET (newnet_work p) newnet_fail Ok vsf_sysutil_fork p.

(** ** The reference: what a kernel allows *)

(** A kernel that always refuses the same name spaces, and never a plain fork
    for that reason. *)
Context (refuses : Z → bool).
Hypothesis kernel_refuses : ∀ h flags,
  refuses flags = bool_decide (f_ret (kernel h flags) = -1 ∧
    (f_errno (kernel h flags) = EINVAL ∨ f_errno (kernel h flags) = EPERM)).

(** The first choice that is not refused, or a plain fork. *)
Definition best (choices : list Z) : Z := default 0 (head (filter (λ f, refuses f = false) choices)).

(** The functions remember only refusals that were real. *)
Record remembers (p : process) : Prop := {
  rem_all : all_work p = false → refuses ISOLATE_ALL = true;
  rem_isolate : isolate_work p = false → refuses ISOLATE = true;
  rem_newnet : newnet_work p = false → refuses CLONE_NEWNET = true
}.

(** The cached id is that of the process. *)
Definition own_pid (p : process) : Prop := s_current_pid p = -1 ∨ s_current_pid p = self p.

(** What a fork that asked for [flags] last makes of [p]: in the child nothing is
    inherited that acts on its own. *)
Definition forks (flags : Z) (p : process) (ret : Z) (p' : process) : Prop :=
  head (asked p') = Some flags ∧ ret = f_ret (kernel (tail (asked p')) flags) ∧
  remembers p' ∧ own_pid p' ∧
  if ret =? 0 then
    s_exit_func p' = None ∧ s_io_handler (signals p') = None ∧ s_current_pid p' = -1 ∧
    self p' = f_own (kernel (tail (asked p')) flags) ∧
    ∀ i, sync_sig_handler (details (signals p') i) = None ∧ pending (details (signals p') i) = false
  else signals p' = signals p ∧ s_exit_func p' = s_exit_func p ∧ self p' = self p.

(** The rest of the process, without the record of refusals. *)
Definition same (p q : process) : Prop :=
  signals q = signals p ∧ s_exit_func q = s_exit_func p ∧ self q = self p ∧
  s_current_pid q = s_current_pid p.

Lemma forks_same flags p q ret p' : same p q → forks flags q ret p' → forks flags p ret p'.
Proof.
  intros (Hs & He & Hself & Hp) (? & ? & ? & ? & Hr). split_and!; try done.
  destruct (ret =? 0); [done|]. by rewrite <- Hs, <- He, <- Hself.
Qed.

Lemma post_fork_clean (s : sig_state (F := F)) i :
  sync_sig_handler (details (post_fork_signals s) i) = None ∧
  pending (details (post_fork_signals s) i) = false.
Proof. unfold post_fork_signals. by rewrite !details_set_all. Qed.

Lemma clone_forks flags p : remembers p → own_pid p →
  let '(ret, _, p1) := clone flags p in
  forks flags p ret (if ret =? 0 then vsf_sysutil_post_fork p1 else p1).
Proof.
  intros [] Hp. unfold clone, forks. destruct (f_ret (kernel (asked p) flags) =? 0) eqn:Hr; rewrite ?Hr; cbn;
    split_and!; try done; try (by split).
  - by left.
  - intros i. apply post_fork_clean.
Qed.

Lemma refused_same flags p : refuses flags = true →
  let '(ret, errno, p1) := clone flags p in
  ret = -1 ∧ (errno = EINVAL ∨ errno = EPERM) ∧ same p p1 ∧ (remembers p → remembers p1).
Proof.
  rewrite (kernel_refuses (asked p)), bool_decide_eq_true. intros [Hr He]. cbn. rewrite Hr. cbn.
  split_and!; try done. intros []. by split.
Qed.

(** The branch of the three functions. *)
Lemma try_clone_cases {A} flags work forget (ok : Z * process → A) fallback p (Q : A → Prop) :
  (work = false → refuses flags = true) → remembers p → own_pid p →
  (refuses flags = false → ∀ ret p', forks flags p ret p' → Q (ok (ret, p'))) →
  (refuses flags = true → work = false → Q (fallback p)) →
  (refuses flags = true → ∀ p1, same p p1 → remembers p1 → Q (fallback (forget p1))) →
  Q (try_clone flags work forget ok fallback p).
Proof.
  intros Hwork Hp Ho H1 H2 H3. unfold try_clone. destruct work; [|by auto].
  pose proof (clone_forks flags p Hp Ho) as Hf. pose proof (refused_same flags p) as Hr.
  pose proof (kernel_refuses (asked p) flags) as Hk.
  destruct (clone flags p) as [[ret errno] p1] eqn:Hc. injection Hc as Hret Herr _.
  destruct (refuses flags).
  - destruct (Hr eq_refl) as (-> & He & Hs & Hrem). rewrite Z.eqb_refl. cbn [negb orb].
    destruct He as [->| ->]; cbn; auto.
  - symmetry in Hk. apply bool_decide_eq_false in Hk. rewrite Hret, Herr in Hk.
    assert (negb (ret =? -1) || (negb (errno =? EINVAL) && negb (errno =? EPERM)) = true) as ->; [|by auto].
    destruct (ret =? -1) eqn:E1; [|done]. destruct (errno =? EINVAL) eqn:E2; [exfalso|].
    { apply Hk. b2p. auto. }
    destruct (errno =? EPERM) eqn:E3; [|done]. exfalso. apply Hk. b2p. auto.
Qed.

Lemma own_pid_same p q : same p q → own_pid p → own_pid q.
Proof. intros (_ & _ & Hs & Hp). unfold own_pid. by rewrite Hs, Hp. Qed.

Lemma fork_plain p : remembers p → own_pid p →
  let (ret, p') := vsf_sysutil_fork_failok p in forks 0 p ret p'.
Proof.
  intros Hp Ho. pose proof (clone_forks 0 p Hp Ho) as Hf. unfold vsf_sysutil_fork_failok.
  by destruct (clone 0 p) as [[ret errno] p1].
Qed.

Lemma fork_isolate p : remembers p → own_pid p →
  let (ret, p') := vsf_sysutil_fork_isolate_failok p in forks (best [ISOLATE]) p ret p'.
Proof.
  intros Hp Ho. unfold vsf_sysutil_fork_isolate_failok.
  apply (try_clone_cases _ _ _ _ _ _ (λ r : Z * process, let (ret, p') := r in forks _ p ret p'));
    [apply Hp|done|done|..]; unfold best.
  - intros Hr ret p' Hf. by rewrite filter_cons_True.
  - intros Hr _. rewrite filter_cons_False by congruence. by apply fork_plain.
  - intros Hr p1 Hs Hp1. rewrite filter_cons_False by congruence.
    assert (remembers (isolate_fail p1)) as Hp2 by (destruct Hp1; by split).
    pose proof (fork_plain (isolate_fail p1) Hp2 (own_pid_same _ _ Hs Ho)) as Hf.
    destruct (vsf_sysutil_fork_failok _) as [ret p']. by eapply forks_same.
Qed.

(** C38: A sandboxed fork isolates as far as the kernel lets it. On a kernel that
    refuses the same name spaces always: each of the three functions creates the
    process with the first choice that is not refused, whatever was tried and
    remembered before; other errors are reported and not worked around. A child
    has no exit function, no handler and no pending signal of its parent, and the
    process id that it caches is its own. *)
Theorem fork_best_isolation p : remembers p → own_pid p →
  (let (ret, p') := vsf_sysutil_fork_isolate_all_failok p in
   forks (best [ISOLATE_ALL; ISOLATE]) p ret p') ∧
  (let (ret, p') := vsf_sysutil_fork_isolate_failok p in forks (best [ISOLATE]) p ret p') ∧
  (match vsf_sysutil_fork_newnet p with
   | Ok (ret, p') => forks (best [CLONE_NEWNET]) p ret p'
   | Err s => refuses CLONE_NEWNET = true ∧ s = Die (lit "fork")
   end) ∧
  vsf_sysutil_getpid p = (u32 (self p), set_pid (self p) p).
Proof.
  intros Hp Ho. split_and!.
  - unfold vsf_sysutil_fork_isolate_all_failok.
    apply (try_clone_cases _ _ _ _ _ _ (λ r : Z * process, let (ret, p') := r in forks _ p ret p'));
      [apply Hp|done|done|..]; unfold best.
    + intros Hr ret p' Hf. by rewrite filter_cons_True.
    + intros Hr _. rewrite filter_cons_False by congruence. by apply fork_isolate.
    + intros Hr p1 Hs Hp1. rewrite filter_cons_False by congruence.
      assert (remembers (all_fail p1)) as Hp2 by (destruct Hp1; by split).
      pose proof (fork_isolate (all_fail p1) Hp2 (own_pid_same _ _ Hs Ho)) as Hf.
      destruct (vsf_sysutil_fork_isolate_failok _) as [ret p']. by eapply forks_same.
  - by apply fork_isolate.
  - unfold vsf_sysutil_fork_newnet.
    apply (try_clone_cases _ _ _ _ _ _ (λ r, match r with
      | Ok (ret, p') => forks (best [CLONE_NEWNET]) p ret p'
      | Err s => refuses CLONE_NEWNET = true ∧ s = Die (lit "fork") end));
      [apply Hp|done|done|..]; unfold best, vsf_sysutil_fork.
    + intros Hr ret p' Hf. by rewrite filter_cons_True.
    + intros Hr _. rewrite filter_cons_False by congruence. pose proof (fork_plain p Hp Ho) as Hf.
      destruct (vsf_sysutil_fork_failok p) as [ret p']. by destruct (ret <? 0).
    + intros Hr p1 Hs Hp1. rewrite filter_cons_False by congruence.
      assert (remembers (newnet_fail p1)) as Hp2 by (destruct Hp1; by split).
      pose proof (fork_plain (newnet_fail p1) Hp2 (own_pid_same _ _ Hs Ho)) as Hf.
      destruct (vsf_sysutil_fork_failok _) as [ret p']. destruct (ret <? 0); [done|]. by eapply forks_same.
  - unfold vsf_sysutil_getpid. destruct Ho as [Hpid|Hpid].
    + by rewrite Hpid.
    + destruct (s_current_pid p =? -1); [done|]. rewrite Hpid. do 2 f_equal. destruct p; cbn in *. by subst.
Qed.

End Process.

(** A kernel without network name spaces for this process: the fork comes back in
    the child, which asked for the others. *)
Definition demo_kernel (h : list Z) (flags : Z) : forked :=
  if bool_decide (flags = ISOLATE_ALL ∨ flags = CLONE_NEWNET) then Forked (-1) EPERM 0
  else Forked 0 0 4711.

Definition demo_refuses (flags : Z) : bool := bool_decide (flags = ISOLATE_ALL ∨ flags = CLONE_NEWNET).

Definition demo_process : process (F := nat) :=
  Process 42 (Some 1%nat) fresh_signals true true true 42 [].

Lemma fork_best_isolation_witness :
  (let (ret, p') := vsf_sysutil_fork_isolate_all_failok demo_kernel demo_process in
   ret = 0 ∧ asked p' = [ISOLATE; ISOLATE_ALL] ∧ fst (vsf_sysutil_getpid p') = 4711) ∧
  (let (ret, p') := vsf_sysutil_fork_isolate_all_failok demo_kernel demo_process in
   forks demo_kernel demo_refuses ISOLATE demo_process ret p').
Proof.
  split; [by vm_compute|].
  apply (fork_best_isolation demo_kernel demo_refuses); [|by split|by right].
  intros h flags. unfold demo_kernel, demo_refuses. case_bool_decide; [|done].
  symmetry. apply bool_decide_eq_true. split; [done|by right].
Defined.
