(* ===== verification/Str.v ===== *)
(** * str.c: the string buffer

    [struct mystr] with its buffer, its length and its allocation, and every
    function of src/src/str.c on it. A buffer is a list of cells; a cell that
    was allocated but never written is [None], and reading one, or reading or
    writing outside the buffer, is [Err UB]. [vsf_sysutil_malloc] and
    [vsf_sysutil_realloc] refuse sizes outside [1 .. INT_MAX] and otherwise
    succeed here (when the system is out of memory the process dies in
    [die("malloc")]). A function that writes through two [struct mystr*]
    arguments is modelled for distinct objects, as every caller uses it; the
    [static] temporaries of a function are explicit arguments and results. *)

From Stdlib Require Import Init.Byte Strings.Byte.
From Stdlib Require Import ZArith Lia String.
From stdpp Require Import base list numbers option.
From S2P Require Import Prelude SysUtil.
Import ResNotations.

Abbreviation cell := (option byte).

Record mystr := MkStr {
  p_buf : option (list cell);
  len : Z;
  alloc_bytes : Z
}.

Definition INIT_MYSTR : mystr := MkStr None 0 0.

Record str_locate_result := LocRes {
  found : bool;
  index : Z;
  char_found : byte
}.

Definition zlen {A} (l : list A) : Z := Z.of_nat (length l).

(** ** Memory *)

Definition vsf_sysutil_malloc (size : Z) : res (list cell) :=
  if (size =? 0) || (INT_MAX <? size) then
    bug "zero or big size in vsf_sysutil_malloc"
  else Ok (replicate (Z.to_nat size) None).

Definition vsf_sysutil_realloc (p_ptr : option (list cell)) (size : Z)
  : res (list cell) :=
  if (size =? 0) || (INT_MAX <? size) then
    bug "zero or big size in vsf_sysutil_realloc"
  else
    let old := default [] p_ptr in
    Ok (take (Z.to_nat size) old
        ++ replicate (Z.to_nat size - length old) None).

(** The [n] bytes at offset [off]. *)
Definition read_cells (buf : option (list cell)) (off n : Z) : res bytes :=
  if n =? 0 then Ok []
  else match buf with
       | None => Err UB
       | Some b =>
           if (0 <=? off) && (off + n <=? zlen b) then
             match mapM id (take (Z.to_nat n) (drop (Z.to_nat off) b)) with
             | Some bs => Ok bs
             | None => Err UB
             end
           else Err UB
       end.

Definition write_cells (buf : option (list cell)) (off : Z) (src : bytes)
  : res (list cell) :=
  match buf with
  | None => Err UB
  | Some b =>
      if (0 <=? off) && (off + zlen src <=? zlen b) then
        Ok (take (Z.to_nat off) b ++ (Some <$> src)
            ++ drop (Z.to_nat off + length src) b)
      else Err UB
  end.

(** [vsf_sysutil_memcpy] into [buf] at [off]. *)
Definition vsf_sysutil_memcpy (buf : option (list cell)) (off : Z) (src : bytes)
  : res (option (list cell)) :=
  if zlen src =? 0 then Ok buf
  else if INT_MAX <? zlen src then die "possible negative value to memcpy?"
  else res_map Some (write_cells buf off src).

(** [p_buf[i]]. *)
Definition get_cell (buf : option (list cell)) (i : Z) : res byte :=
  let* bs := read_cells buf i 1 in
  match bs with
  | b :: _ => Ok b
  | [] => Err UB
  end.

(** ** Allocation *)

Definition s_setbuf (p_str : mystr) (p_newbuf : list cell) : res mystr :=
  match p_buf p_str with
  | Some _ => bug "p_buf not NULL when setting it"
  | None => Ok (MkStr (Some p_newbuf) (len p_str) (alloc_bytes p_str))
  end.

Definition str_free (p_str : mystr) : mystr := INIT_MYSTR.

Definition private_str_alloc_memchunk (p_str : mystr) (p_src : bytes)
  : res mystr :=
  let l := zlen p_src in
  if u32 (l + 1) <? l then bug "integer overflow"
  else
    let buf_needed := u32 (l + 1) in
    let* p_str :=
      if alloc_bytes p_str <? buf_needed then
        let p_str := str_free p_str in
        let* b := vsf_sysutil_malloc buf_needed in
        let* p_str := s_setbuf p_str b in
        Ok (MkStr (p_buf p_str) (len p_str) buf_needed)
      else Ok p_str in
    let* buf := vsf_sysutil_memcpy (p_buf p_str) 0 p_src in
    let* buf := write_cells buf l [NUL] in
    Ok (MkStr (Some buf) l (alloc_bytes p_str)).

Definition private_str_append_memchunk (p_str : mystr) (p_src : bytes)
  : res mystr :=
  let l := zlen p_src in
  if u32 (l + len p_str) <? l then bug "integer overflow"
  else
    let buf_needed := u32 (l + len p_str) in
    if u32 (buf_needed + 1) <? buf_needed then bug "integer overflow"
    else
      let buf_needed := u32 (buf_needed + 1) in
      let* p_str :=
        if alloc_bytes p_str <? buf_needed then
          let* b := vsf_sysutil_realloc (p_buf p_str) buf_needed in
          Ok (MkStr (Some b) (len p_str) buf_needed)
        else Ok p_str in
      let* buf := vsf_sysutil_memcpy (p_buf p_str) (len p_str) p_src in
      let* buf := write_cells buf (len p_str + l) [NUL] in
      Ok (MkStr (Some buf) (u32 (len p_str + l)) (alloc_bytes p_str)).

Definition str_getbuf (p_str : mystr) : res (option (list cell) * mystr) :=
  match p_buf p_str with
  | Some _ => Ok (p_buf p_str, p_str)
  | None =>
      if negb (len p_str =? 0) || negb (alloc_bytes p_str =? 0) then
        bug "p_buf NULL and len or alloc_bytes != 0 in str_getbuf"
      else
        let* p_str := private_str_alloc_memchunk p_str [] in
        Ok (p_buf p_str, p_str)
  end.

(** The C string in a buffer: the bytes before the first NUL. *)
Fixpoint c_string (b : list cell) : res bytes :=
  match b with
  | [] => Err UB
  | None :: _ => Err UB
  | Some c :: b' =>
      if bool_decide (c = NUL) then Ok [] else res_map (cons c) (c_string b')
  end.

Definition getbuf_text (p_str : mystr) : res (bytes * mystr) :=
  let* (buf, p_str) := str_getbuf p_str in
  match buf with
  | Some b => let* t := c_string b in Ok (t, p_str)
  | None => Err UB
  end.

Definition str_trunc (p_str : mystr) (trunc_len : Z) : res mystr :=
  if alloc_bytes p_str <=? trunc_len then
    bug "trunc_len not smaller than alloc_bytes in str_trunc"
  else
    let* buf := write_cells (p_buf p_str) trunc_len [NUL] in
    Ok (MkStr (Some buf) trunc_len (alloc_bytes p_str)).

Definition str_empty (p_str : mystr) : res mystr :=
  let* (_, p_str) := str_getbuf p_str in
  str_trunc p_str 0.

Definition str_reserve (p_str : mystr) (res_len : Z) : res mystr :=
  let res_len := u32 (res_len + 1) in
  if res_len =? 0 then bug "integer overflow"
  else
    let* p_str :=
      if alloc_bytes p_str <? res_len then
        let* b := vsf_sysutil_realloc (p_buf p_str) res_len in
        Ok (MkStr (Some b) (len p_str) res_len)
      else Ok p_str in
    let* buf := write_cells (p_buf p_str) (res_len - 1) [NUL] in
    Ok (MkStr (Some buf) (len p_str) (alloc_bytes p_str)).

Definition str_alloc_text (p_str : mystr) (p_src : bytes) : res mystr :=
  let* _ := vsf_sysutil_strlen p_src in
  private_str_alloc_memchunk p_str p_src.

Definition str_copy (p_dest p_src : mystr) : res mystr :=
  let* bs := read_cells (p_buf p_src) 0 (len p_src) in
  private_str_alloc_memchunk p_dest bs.

Definition str_strdup (p_str : mystr) : res (bytes * mystr) :=
  getbuf_text p_str.

Fixpoint scan_term (p_search : bytes) (term : byte) (l : Z) : res Z :=
  match p_search with
  | [] => Err UB
  | c :: rest =>
      if bool_decide (c = term) then Ok l
      else
        let l := u32 (l + 1) in
        if l =? 0 then bug "integer overflow" else scan_term rest term l
  end.

Definition str_alloc_alt_term (p_str : mystr) (p_src : bytes) (term : byte)
  : res mystr :=
  let* l := scan_term p_src term 0 in
  private_str_alloc_memchunk p_str (take (Z.to_nat l) p_src).

Definition str_alloc_ulong (p_str : mystr) (the_long : Z) : res mystr :=
  str_alloc_text p_str (vsf_sysutil_ulong_to_str the_long).

Definition str_alloc_filesize_t (p_str : mystr) (the_filesize : Z) : res mystr :=
  str_alloc_text p_str (vsf_sysutil_filesize_t_to_str the_filesize).

(** ** Comparison *)

Definition str_isempty (p_str : mystr) : bool := len p_str =? 0.

Definition str_getlen (p_str : mystr) : Z := len p_str.

Definition str_equal_internal (p_buf1 : option (list cell)) (buf1_len : Z)
    (p_buf2 : option (list cell)) (buf2_len : Z) : res Z :=
  let minlen := if buf2_len <? buf1_len then buf2_len else buf1_len in
  let* b1 := read_cells p_buf1 0 minlen in
  let* b2 := read_cells p_buf2 0 minlen in
  let retval := vsf_sysutil_memcmp b1 b2 in
  if negb (retval =? 0) || (buf1_len =? buf2_len) then Ok retval
  else Ok (s32 (u32 (buf1_len - buf2_len))).

Definition str_strcmp (p_str1 p_str2 : mystr) : res Z :=
  str_equal_internal (p_buf p_str1) (len p_str1) (p_buf p_str2) (len p_str2).

Definition str_equal (p_str1 p_str2 : mystr) : res bool :=
  let* r := str_strcmp p_str1 p_str2 in Ok (r =? 0).

(** A string literal as the array it is. *)
Definition text_buf (t : bytes) : option (list cell) :=
  Some ((Some <$> t) ++ [Some NUL]).

Definition str_equal_text (p_str : mystr) (p_text : bytes) : res bool :=
  let* cmplen := vsf_sysutil_strlen p_text in
  let* r := str_equal_internal (p_buf p_str) (len p_str)
              (text_buf p_text) cmplen in
  Ok (r =? 0).

(** ** Append *)

Definition str_append_str (p_str p_other : mystr) : res mystr :=
  let* bs := read_cells (p_buf p_other) 0 (len p_other) in
  private_str_append_memchunk p_str bs.

Definition str_append_text (p_str : mystr) (p_src : bytes) : res mystr :=
  let* _ := vsf_sysutil_strlen p_src in
  private_str_append_memchunk p_str p_src.

Definition str_append_char (p_str : mystr) (the_char : byte) : res mystr :=
  private_str_append_memchunk p_str [the_char].

Definition str_append_ulong (p_str : mystr) (the_ulong : Z) : res mystr :=
  str_append_text p_str (vsf_sysutil_ulong_to_str the_ulong).

Definition str_append_filesize_t (p_str : mystr) (the_filesize : Z) : res mystr :=
  str_append_text p_str (vsf_sysutil_filesize_t_to_str the_filesize).

Definition str_append_int (p_str : mystr) (the_int : Z) : res mystr :=
  str_append_text p_str (vsf_sysutil_int_to_str the_int).

(** ** In-place updates *)

(** [for (i=0; i < n; i++) p_buf[i] = f(p_buf[i])]. *)
Fixpoint update_cells (f : byte → byte) (n : nat) (b : list cell)
  : res (list cell) :=
  match n, b with
  | O, _ => Ok b
  | S n', Some c :: b' => res_map (cons (Some (f c))) (update_cells f n' b')
  | S _, _ => Err UB
  end.

Definition update_str (f : byte → byte) (p_str : mystr) : res mystr :=
  match p_buf p_str with
  | None => if len p_str =? 0 then Ok p_str else Err UB
  | Some b =>
      let* b := update_cells f (Z.to_nat (len p_str)) b in
      Ok (MkStr (Some b) (len p_str) (alloc_bytes p_str))
  end.

Definition str_upper (p_str : mystr) : res mystr :=
  update_str vsf_sysutil_toupper p_str.

Definition str_replace_char (p_str : mystr) (from to : byte) : res mystr :=
  update_str (λ c, if bool_decide (c = from) then to else c) p_str.

Definition str_replace_unprintable (p_str : mystr) (new_char : byte)
  : res mystr :=
  update_str (λ c, if negb (vsf_sysutil_isprint c) then new_char else c) p_str.

(** [while (to_pad--) str_append_char(p_str, ' ')]. *)
Fixpoint append_spaces (to_pad : nat) (p_str : mystr) : res mystr :=
  match to_pad with
  | O => Ok p_str
  | S k => let* p_str := str_append_char p_str SP in append_spaces k p_str
  end.

Definition str_rpad (p_str : mystr) (min_width : Z) : res mystr :=
  if min_width <=? len p_str then Ok p_str
  else append_spaces (Z.to_nat (min_width - len p_str)) p_str.

Definition str_lpad (s_tmp_str p_str : mystr) (min_width : Z)
  : res (mystr * mystr) :=
  if min_width <=? len p_str then Ok (s_tmp_str, p_str)
  else
    let to_pad := min_width - len p_str in
    let* s_tmp_str := str_empty s_tmp_str in
    let* s_tmp_str := append_spaces (Z.to_nat to_pad) s_tmp_str in
    let* s_tmp_str := str_append_str s_tmp_str p_str in
    let* p_str := str_copy p_str s_tmp_str in
    Ok (s_tmp_str, p_str).

(** ** Search *)

Definition not_found : str_locate_result := LocRes false 0 NUL.

(** The forward scan: [n] positions left, starting at [i]. *)
Fixpoint locate_loop (p_str : mystr) (p_text : bytes) (n : nat) (i : Z)
  : res str_locate_result :=
  match n with
  | O => Ok not_found
  | S n' =>
      let* w := read_cells (p_buf p_str) i (zlen p_text) in
      if vsf_sysutil_memcmp w p_text =? 0 then Ok (LocRes true i NUL)
      else locate_loop p_str p_text n' (i + 1)
  end.

Definition str_locate_text (p_str : mystr) (p_text : bytes)
  : res str_locate_result :=
  let* text_len := vsf_sysutil_strlen p_text in
  if (text_len =? 0) || (len p_str <? text_len) then Ok not_found
  else locate_loop p_str p_text (S (Z.to_nat (len p_str - text_len))) 0.

(** The backward scan from [i]: it looks at [i] before testing [i == 0]. *)
Fixpoint locate_reverse_loop (p_str : mystr) (p_text : bytes) (i : nat)
  : res str_locate_result :=
  let* w := read_cells (p_buf p_str) (Z.of_nat i) (zlen p_text) in
  if vsf_sysutil_memcmp w p_text =? 0 then Ok (LocRes true (Z.of_nat i) NUL)
  else match i with
       | O => Ok not_found
       | S i' => locate_reverse_loop p_str p_text i'
       end.

Definition str_locate_text_reverse (p_str : mystr) (p_text : bytes)
  : res str_locate_result :=
  let* text_len := vsf_sysutil_strlen p_text in
  if (text_len =? 0) || (len p_str <? text_len) then Ok not_found
  else locate_reverse_loop p_str p_text (Z.to_nat (len p_str - text_len)).

Definition str_locate_str (p_str p_look_str : mystr)
  : res (str_locate_result * mystr) :=
  let* (t, p_look_str) := getbuf_text p_look_str in
  let* r := str_locate_text p_str t in
  Ok (r, p_look_str).

Definition str_locate_str_reverse (p_str p_look_str : mystr)
  : res (str_locate_result * mystr) :=
  let* (t, p_look_str) := getbuf_text p_look_str in
  let* r := str_locate_text_reverse p_str t in
  Ok (r, p_look_str).

(** The two-character array [{c, '\0'}] as a C string: empty for NUL. *)
Definition ministr (c : byte) : bytes := if bool_decide (c = NUL) then [] else [c].

Definition str_locate_char (p_str : mystr) (look_char : byte)
  : res str_locate_result :=
  str_locate_text p_str (ministr look_char).

Fixpoint locate_chars_loop (p_str : mystr) (p_chars : bytes) (n : nat) (i : Z)
  : res str_locate_result :=
  match n with
  | O => Ok not_found
  | S n' =>
      let* this_char := get_cell (p_buf p_str) i in
      if existsb (λ c, bool_decide (c = this_char)) p_chars
      then Ok (LocRes true i this_char)
      else locate_chars_loop p_str p_chars n' (i + 1)
  end.

Definition str_locate_chars (p_str : mystr) (p_chars : bytes)
  : res str_locate_result :=
  let* _ := vsf_sysutil_strlen p_chars in
  locate_chars_loop p_str p_chars (Z.to_nat (len p_str)) 0.

(** ** Split and replace *)

Definition str_split_text_common (p_src p_rhs : mystr) (p_text : bytes)
    (is_reverse : bool) : res (mystr * mystr) :=
  let* search_len := vsf_sysutil_strlen p_text in
  let* locate_result :=
    if is_reverse then str_locate_text_reverse p_src p_text
    else str_locate_text p_src p_text in
  if negb (found locate_result) then
    let* p_rhs := str_empty p_rhs in Ok (p_src, p_rhs)
  else
    let indexx := index locate_result in
    if len p_src <? u32 (indexx + search_len) then
      bug "indexx invalid in str_split_text"
    else
      let* bs := read_cells (p_buf p_src) (indexx + search_len)
                   (u32 (len p_src - indexx - search_len)) in
      let* p_rhs := private_str_alloc_memchunk p_rhs bs in
      let* p_src := str_trunc p_src indexx in
      Ok (p_src, p_rhs).

Definition str_split_text (p_src p_rhs : mystr) (p_text : bytes) :=
  str_split_text_common p_src p_rhs p_text false.

Definition str_split_text_reverse (p_src p_rhs : mystr) (p_text : bytes) :=
  str_split_text_common p_src p_rhs p_text true.

Definition str_split_char (p_src p_rhs : mystr) (c : byte) :=
  str_split_text p_src p_rhs (ministr c).

Definition str_split_char_reverse (p_src p_rhs : mystr) (c : byte) :=
  str_split_text_reverse p_src p_rhs (ministr c).

(** The [do]/[while] of [str_replace_text]. Every round but the last consumes
    at least one character of the left-hand chunk, so its length plus one
    rounds are enough. *)
Fixpoint replace_loop (fuel : nat) (p_str lhs rhs : mystr) (p_from p_to : bytes)
  : res (mystr * mystr * mystr) :=
  match fuel with
  | O => Err UB
  | S fuel' =>
      let lhs_len := str_getlen lhs in
      let* (lhs, rhs) := str_split_text lhs rhs p_from in
      let* p_str := str_append_str p_str lhs in
      let* p_str :=
        if str_getlen lhs <? lhs_len then str_append_text p_str p_to
        else Ok p_str in
      let* lhs := str_copy lhs rhs in
      if negb (str_isempty lhs) then
        replace_loop fuel' p_str lhs rhs p_from p_to
      else Ok (p_str, lhs, rhs)
  end.

Definition str_replace_text (s_lhs_chunk_str s_rhs_chunk_str p_str : mystr)
    (p_from p_to : bytes) : res (mystr * mystr * mystr) :=
  let* s_lhs_chunk_str := str_copy s_lhs_chunk_str p_str in
  let p_str := str_free p_str in
  replace_loop (S (Z.to_nat (len s_lhs_chunk_str))) p_str
    s_lhs_chunk_str s_rhs_chunk_str p_from p_to.

(** ** Substrings *)

Definition str_left (p_str p_out : mystr) (chars : Z) : res mystr :=
  if len p_str <? chars then bug "chars invalid in str_left"
  else
    let* bs := read_cells (p_buf p_str) 0 chars in
    private_str_alloc_memchunk p_out bs.

Definition str_right (p_str p_out : mystr) (chars : Z) : res mystr :=
  let indexx := u32 (len p_str - chars) in
  if len p_str <? chars then bug "chars invalid in str_right"
  else
    let* bs := read_cells (p_buf p_str) indexx chars in
    private_str_alloc_memchunk p_out bs.

Definition str_mid_to_end (p_str p_out : mystr) (indexx : Z) : res mystr :=
  if len p_str <? indexx then bug "invalid indexx in str_mid_to_end"
  else
    let* bs := read_cells (p_buf p_str) indexx (u32 (len p_str - indexx)) in
    private_str_alloc_memchunk p_out bs.

Definition str_get_char_at (p_str : mystr) (indexx : Z) : res byte :=
  if len p_str <=? indexx then bug "bad indexx in str_get_char_at"
  else get_cell (p_buf p_str) indexx.

(** ** Scans: [for (i=0; i < len; i++) if (q(p_buf[i])) return ...]. *)
Fixpoint exists_cell (q : byte → bool) (p_str : mystr) (n : nat) (i : Z)
  : res bool :=
  match n with
  | O => Ok false
  | S n' =>
      let* c := get_cell (p_buf p_str) i in
      if q c then Ok true else exists_cell q p_str n' (i + 1)
  end.

Definition scan_str (q : byte → bool) (p_str : mystr) : res bool :=
  exists_cell q p_str (Z.to_nat (len p_str)) 0.

Definition str_contains_space (p_str : mystr) : res bool :=
  scan_str vsf_sysutil_isspace p_str.

Definition str_all_space (p_str : mystr) : res bool :=
  res_map negb (scan_str (λ c, negb (vsf_sysutil_isspace c)) p_str).

Definition str_contains_unprintable (p_str : mystr) : res bool :=
  scan_str (λ c, negb (vsf_sysutil_isprint c)) p_str.

Definition normal_char (c : byte) : bool :=
  vsf_sysutil_isalnum c || (uchar c =? 45) || (uchar c =? 95) || (uchar c =? 46).

Definition str_all_normal_char (p_str : mystr) : res bool :=
  res_map negb (scan_str (λ c, negb (normal_char c)) p_str).

(** ** Numbers *)

Definition str_atoi (p_str : mystr) : res (Z * mystr) :=
  let* (t, p_str) := getbuf_text p_str in Ok (vsf_sysutil_atoi t, p_str).

Definition str_a_to_filesize_t (p_str : mystr) : res (Z * mystr) :=
  let* (t, p_str) := getbuf_text p_str in
  let* _ := vsf_sysutil_strlen t in
  Ok (vsf_sysutil_a_to_filesize_t t, p_str).

Definition str_octal_to_uint (p_str : mystr) : res (Z * mystr) :=
  let* (t, p_str) := getbuf_text p_str in
  Ok (vsf_sysutil_octal_to_uint t, p_str).

(** ** Lines *)

(** [while (curr_pos < buf_len && p_buf[curr_pos] != '\n') curr_pos++]. *)
Fixpoint scan_line (buf : option (list cell)) (n : nat) (curr_pos : Z) : res Z :=
  match n with
  | O => Ok curr_pos
  | S n' =>
      let* c := get_cell buf curr_pos in
      if bool_decide (c = LF) then Ok curr_pos
      else
        let curr_pos := u32 (curr_pos + 1) in
        if curr_pos =? 0 then bug "integer overflow"
        else scan_line buf n' curr_pos
  end.

(** Result: the return value, the string (its buffer may be allocated), the
    line and the new position. *)
Definition str_getline (p_str p_line_str : mystr) (p_pos : Z)
  : res (bool * mystr * mystr * Z) :=
  let start_pos := p_pos in
  let buf_len := str_getlen p_str in
  let* (buf, p_str) := str_getbuf p_str in
  if buf_len <? start_pos then bug "p_pos out of range in str_getline"
  else
    let* p_line_str := str_empty p_line_str in
    if start_pos =? buf_len then Ok (false, p_str, p_line_str, p_pos)
    else
      let* curr_pos := scan_line buf (Z.to_nat (buf_len - start_pos)) start_pos in
      let out_len := u32 (curr_pos - start_pos) in
      let* curr_pos :=
        if curr_pos <? buf_len then
          let* c := get_cell buf curr_pos in
          if bool_decide (c = LF) then
            let curr_pos := u32 (curr_pos + 1) in
            if curr_pos =? 0 then bug "integer overflow" else Ok curr_pos
          else Ok curr_pos
        else Ok curr_pos in
      let* bs := read_cells buf start_pos out_len in
      let* p_line_str := private_str_alloc_memchunk p_line_str bs in
      Ok (true, p_str, p_line_str, curr_pos).

(** Each round of the loop of [str_contains_line] advances the position. *)
Fixpoint contains_line_loop (fuel : nat) (p_str p_line_str s_curr_line_str : mystr)
    (pos : Z) : res (bool * mystr * mystr) :=
  match fuel with
  | O => Err UB
  | S fuel' =>
      let* (more, p_str, s_curr_line_str, pos) :=
        str_getline p_str s_curr_line_str pos in
      if negb more then Ok (false, p_str, s_curr_line_str)
      else
        let* eq := str_equal s_curr_line_str p_line_str in
        if eq then Ok (true, p_str, s_curr_line_str)
        else contains_line_loop fuel' p_str p_line_str s_curr_line_str pos
  end.

Definition str_contains_line (s_curr_line_str p_str p_line_str : mystr)
  : res (bool * mystr * mystr) :=
  contains_line_loop (S (Z.to_nat (len p_str))) p_str p_line_str
    s_curr_line_str 0.
