(* ===== verification/Text.v ===== *)
(** * Strings as byte lists

    What the functions of src/src/str.c compute, without the buffers: the
    abstract specification that [StrRefine] proves the buffer code to
    implement, and the functions the models of the other source files call.
    A function keeps the name of the C function with [t_] in place of
    [str_]. *)

From Stdlib Require Import Init.Byte Strings.Byte.
From Stdlib Require Import ZArith Lia String.
From stdpp Require Import base list numbers option.
From S2P Require Import Prelude SysUtil.

Definition t_equal (a b : bytes) : bool := bool_decide (a = b).

(** The C string at the start of a buffer that holds [s] and its NUL. *)
Fixpoint cstr (s : bytes) : bytes :=
  match s with
  | [] => []
  | b :: s' => if bool_decide (b = NUL) then [] else b :: cstr s'
  end.

(** ** Search *)

Fixpoint starts_with (t s : bytes) : bool :=
  match t, s with
  | [], _ => true
  | a :: t', b :: s' => bool_decide (a = b) && starts_with t' s'
  | _ :: _, [] => false
  end.

Fixpoint find_from (t s : bytes) (i : nat) : option nat :=
  if starts_with t s then Some i
  else match s with
       | [] => None
       | _ :: s' => find_from t s' (S i)
       end.

(** The first occurrence of a non-empty text. *)
Definition t_locate (s t : bytes) : option nat :=
  if bool_decide (t = []) then None else find_from t s 0.

Fixpoint rfind_from (t s : bytes) (i : nat) : option nat :=
  if starts_with t (drop i s) then Some i
  else match i with
       | O => None
       | S i' => rfind_from t s i'
       end.

(** The last occurrence of a non-empty text. *)
Definition t_rlocate (s t : bytes) : option nat :=
  if bool_decide (t = []) || (length s <? length t)%nat then None
  else rfind_from t s (length s - length t).

(** The two-character array [{c, '\0'}] as a C string. *)
Definition char_text (c : byte) : bytes := if bool_decide (c = NUL) then [] else [c].

Definition t_locate_char (s : bytes) (c : byte) : option nat :=
  t_locate s (char_text c).

Fixpoint t_locate_chars_from (s chars : bytes) (i : nat) : option (nat * byte) :=
  match s with
  | [] => None
  | c :: s' =>
      if existsb (λ d, bool_decide (d = c)) chars then Some (i, c)
      else t_locate_chars_from s' chars (S i)
  end.

Definition t_locate_chars (s chars : bytes) : option (nat * byte) :=
  t_locate_chars_from s chars 0.

(** ** Split and replace *)

Definition split_at (s t : bytes) (o : option nat) : bytes * bytes :=
  match o with
  | None => (s, [])
  | Some i => (take i s, drop (i + length t) s)
  end.

Definition t_split_text (s t : bytes) : bytes * bytes :=
  split_at s t (t_locate s t).

Definition t_split_text_reverse (s t : bytes) : bytes * bytes :=
  split_at s t (t_rlocate s t).

Definition t_split_char (s : bytes) (c : byte) : bytes * bytes :=
  t_split_text s (char_text c).

Definition t_split_char_reverse (s : bytes) (c : byte) : bytes * bytes :=
  t_split_text_reverse s (char_text c).

Fixpoint replace_fuel (n : nat) (s from to : bytes) : bytes :=
  match n with
  | O => s
  | S n' =>
      match t_locate s from with
      | None => s
      | Some i => take i s ++ to
                  ++ replace_fuel n' (drop (i + length from) s) from to
      end
  end.

Definition t_replace_text (s from to : bytes) : bytes :=
  replace_fuel (S (length s)) s from to.

(** ** Character maps and padding *)

Definition t_upper (s : bytes) : bytes := vsf_sysutil_toupper <$> s.

Definition t_replace_char (s : bytes) (from to : byte) : bytes :=
  (λ c, if bool_decide (c = from) then to else c) <$> s.

Definition t_replace_unprintable (s : bytes) (c' : byte) : bytes :=
  (λ c, if negb (vsf_sysutil_isprint c) then c' else c) <$> s.

Definition t_rpad (s : bytes) (width : Z) : bytes :=
  s ++ replicate (Z.to_nat (width - Z.of_nat (length s))) SP.

Definition t_lpad (s : bytes) (width : Z) : bytes :=
  replicate (Z.to_nat (width - Z.of_nat (length s))) SP ++ s.

Definition t_contains_space (s : bytes) : bool := existsb vsf_sysutil_isspace s.

Definition t_all_space (s : bytes) : bool := forallb vsf_sysutil_isspace s.

Definition t_contains_unprintable (s : bytes) : bool :=
  existsb (λ c, negb (vsf_sysutil_isprint c)) s.

Definition t_normal_char (c : byte) : bool :=
  vsf_sysutil_isalnum c || (uchar c =? 45) || (uchar c =? 95) || (uchar c =? 46).

Definition t_all_normal_char (s : bytes) : bool := forallb t_normal_char s.

(** The sign of the comparison is lexicographic order, then length. *)
Definition t_strcmp (s1 s2 : bytes) : Z :=
  let n := Nat.min (length s1) (length s2) in
  let r := vsf_sysutil_memcmp (take n s1) (take n s2) in
  if negb (r =? 0) || (length s1 =? length s2)%nat then r
  else Z.of_nat (length s1) - Z.of_nat (length s2).

Definition t_atoi (s : bytes) : Z := vsf_sysutil_atoi (cstr s).

Definition t_a_to_filesize_t (s : bytes) : Z := vsf_sysutil_a_to_filesize_t (cstr s).

Definition t_octal_to_uint (s : bytes) : Z := vsf_sysutil_octal_to_uint (cstr s).

(** ** Lines *)

(** The line at the start of [s] and what follows its terminator. *)
Fixpoint take_line (s : bytes) : bytes * bytes :=
  match s with
  | [] => ([], [])
  | c :: s' =>
      if bool_decide (c = LF) then ([], s')
      else let '(l, r) := take_line s' in (c :: l, r)
  end.

Fixpoint lines_fuel (n : nat) (s : bytes) : list bytes :=
  match n, s with
  | O, _ => []
  | _, [] => []
  | S n', _ => let '(l, r) := take_line s in l :: lines_fuel n' r
  end.

(** The lines [str_getline] yields, in order. *)
Definition t_lines (s : bytes) : list bytes := lines_fuel (length s) s.

Definition t_contains_line (s line : bytes) : bool :=
  existsb (λ l, t_equal l line) (t_lines s).

(** ** Facts *)

Lemma starts_with_spec (t s : bytes) :
  starts_with t s = true ↔ s = t ++ drop (length t) s.
Proof.
  revert s; induction t as [|a t IH]; intros [|b s]; cbn; try done.
  rewrite andb_true_iff, bool_decide_eq_true, IH. split.
  - intros [-> H]. by f_equal.
  - intros H. by simplify_eq.
Qed.

Lemma starts_with_take (t s : bytes) :
  starts_with t s = true ↔ take (length t) s = t.
Proof.
  rewrite starts_with_spec. split.
  - intros ->. by rewrite take_app_length.
  - intros H. rewrite <- H at 1. by rewrite take_drop.
Qed.

Lemma starts_with_length (t s : bytes) :
  starts_with t s = true → (length t ≤ length s)%nat.
Proof. rewrite starts_with_take. intros <-. rewrite length_take. lia. Qed.

Lemma starts_with_refl (t s : bytes) : starts_with t (t ++ s) = true.
Proof. rewrite starts_with_take. apply take_app_length. Qed.

Lemma find_from_Some (t s : bytes) (i j : nat) :
  find_from t s i = Some j ↔
  (i ≤ j)%nat ∧ starts_with t (drop (j - i) s) = true ∧
  (j - i ≤ length s)%nat ∧
  ∀ k, (k < j - i)%nat → starts_with t (drop k s) = false.
Proof.
  revert i; induction s as [|b s IH]; intros i; cbn [find_from].
  - destruct (starts_with t []) eqn:E.
    + split.
      * intros [= <-]. rewrite Nat.sub_diag. split_and!; [lia|done|cbn; lia|].
        intros; lia.
      * intros (? & _ & Hl & _). cbn in Hl. f_equal. lia.
    + split; [done|]. intros (_ & H & Hl & _). by rewrite drop_nil, E in H.
  - destruct (starts_with t (b :: s)) eqn:E.
    + split.
      * intros [= <-]. rewrite Nat.sub_diag. split_and!; [lia|done|lia|lia].
      * intros (Hle & _ & _ & Hk). destruct (decide (i = j)) as [->|]; [done|].
        specialize (Hk 0%nat ltac:(lia)). cbn in Hk. congruence.
    + rewrite IH. split.
      * intros (Hle & H & Hl & Hk). split_and!; [lia| | |].
        -- replace (j - i)%nat with (S (j - S i)) by lia. done.
        -- cbn. lia.
        -- intros [|k] Hlt; [done|]. apply Hk. lia.
      * intros (Hle & H & Hl & Hk).
        destruct (decide (i = j)) as [->|].
        { rewrite Nat.sub_diag in H. cbn in H. congruence. }
        replace (j - i)%nat with (S (j - S i)) in H, Hl, Hk by lia.
        split_and!; [lia|done|cbn in Hl; lia|].
        intros k Hlt. apply (Hk (S k)). lia.
Qed.

(** [t_locate] finds the first occurrence. *)
Lemma t_locate_Some (s t : bytes) (i : nat) :
  t_locate s t = Some i ↔
  t ≠ [] ∧ starts_with t (drop i s) = true ∧
  ∀ k, (k < i)%nat → starts_with t (drop k s) = false.
Proof.
  unfold t_locate. case_bool_decide as Ht; [naive_solver|].
  rewrite find_from_Some, Nat.sub_0_r. split; [naive_solver|].
  intros (_ & H & Hk). split_and!; [lia|done| |done].
  destruct (decide (i ≤ length s)%nat); [done|].
  rewrite drop_ge in H by lia. by destruct t.
Qed.

Lemma find_from_None (t s : bytes) (i : nat) :
  find_from t s i = None →
  ∀ k, (k ≤ length s)%nat → starts_with t (drop k s) = false.
Proof.
  revert i; induction s as [|b s IH]; intros i; cbn [find_from];
    (destruct (starts_with t _) eqn:E; [done|]); intros H k Hk.
  - cbn in Hk. by replace k with 0%nat by lia.
  - destruct k; [done|]. cbn in *. eapply IH; [done|lia].
Qed.

Lemma t_locate_None (s t : bytes) :
  t_locate s t = None ↔ t = [] ∨ ∀ k, starts_with t (drop k s) = false.
Proof.
  unfold t_locate. case_bool_decide as Ht; [naive_solver|]. split.
  - intros H. right. intros k. destruct (decide (k ≤ length s)%nat).
    + by eapply find_from_None.
    + rewrite drop_ge by lia. by destruct t.
  - intros [?|H]; [done|]. destruct (find_from t s 0) as [j|] eqn:E; [|done].
    apply find_from_Some in E as (_ & E & _). by rewrite H in E.
Qed.

Lemma t_locate_length (s t : bytes) (i : nat) :
  t_locate s t = Some i → (0 < length t ∧ i + length t ≤ length s)%nat.
Proof.
  rewrite t_locate_Some. intros (Ht & H%starts_with_length & _).
  rewrite length_drop in H. destruct t; [done|]. cbn in *. lia.
Qed.

(** A split at an occurrence loses exactly the separator. *)
Lemma t_split_text_found (s t : bytes) (i : nat) :
  t_locate s t = Some i →
  s = (t_split_text s t).1 ++ t ++ (t_split_text s t).2.
Proof.
  intros H. unfold t_split_text. rewrite H. cbn.
  apply t_locate_Some in H as (_ & H%starts_with_spec & _).
  rewrite <- drop_drop. rewrite <- H. by rewrite take_drop.
Qed.

Lemma take_line_app (s : bytes) :
  s = (take_line s).1 ∧ (take_line s).2 = [] ∧ LF ∉ (take_line s).1 ∨
  s = (take_line s).1 ++ LF :: (take_line s).2 ∧ LF ∉ (take_line s).1.
Proof.
  induction s as [|c s IH]; cbn; [left; split_and!; [done..|apply not_elem_of_nil]|].
  case_bool_decide as E.
  - right. subst c. split; [done|apply not_elem_of_nil].
  - destruct (take_line s) as [l r]; cbn in *.
    destruct IH as [(-> & -> & ?)|[-> ?]]; [left|right]; split_and?; [done..| |done|];
      rewrite not_elem_of_cons; naive_solver.
Qed.

Lemma take_line_length (s : bytes) :
  s ≠ [] → (length (take_line s).2 < length s)%nat.
Proof.
  destruct s as [|c s]; [done|]. intros _. revert c.
  induction s as [|d s IH]; intros c; cbn [take_line].
  - case_bool_decide; cbn; lia.
  - case_bool_decide; [cbn; lia|]. specialize (IH d).
    cbn [take_line] in IH. destruct (if bool_decide _ then _ else _).
    cbn in *. lia.
Qed.

(** ** Splitting at a character *)

Lemma starts_with_one (c d : byte) (s : bytes) :
  starts_with [c] (d :: s) = bool_decide (c = d).
Proof. cbn. by rewrite andb_true_r. Qed.

Lemma find_from_char (c : byte) (a b : bytes) (i : nat) :
  c ∉ a → find_from [c] (a ++ c :: b) i = Some (i + length a)%nat.
Proof.
  revert i; induction a as [|d a IH]; intros i Ha; cbn [app find_from length].
  - rewrite starts_with_one, bool_decide_eq_true_2 by done. f_equal. lia.
  - apply not_elem_of_cons in Ha as [Hd Ha].
    rewrite starts_with_one, bool_decide_eq_false_2 by done.
    rewrite IH by done. f_equal. lia.
Qed.

Lemma find_from_char_None (c : byte) (a : bytes) (i : nat) :
  c ∉ a → find_from [c] a i = None.
Proof.
  revert i; induction a as [|d a IH]; intros i Ha; cbn [find_from]; [done|].
  apply not_elem_of_cons in Ha as [Hd Ha].
  rewrite starts_with_one, bool_decide_eq_false_2 by done. by apply IH.
Qed.

Lemma t_split_char_app (c : byte) (a b : bytes) :
  c ≠ NUL → c ∉ a → t_split_char (a ++ c :: b) c = (a, b).
Proof.
  intros Hc Ha. unfold t_split_char, t_split_text, char_text, t_locate.
  rewrite (bool_decide_eq_false_2 (c = NUL)) by done.
  rewrite bool_decide_eq_false_2, find_from_char by done. cbn [split_at length].
  rewrite Nat.add_0_l, take_app_length. rewrite <- drop_drop, drop_app_length. done.
Qed.

Lemma t_split_char_none (c : byte) (a : bytes) :
  c ∉ a → t_split_char a c = (a, []).
Proof.
  intros Ha. unfold t_split_char, t_split_text, char_text, t_locate.
  destruct (bool_decide (c = NUL)); [done|].
  rewrite bool_decide_eq_false_2, find_from_char_None by done. done.
Qed.

(** The right-hand side of a split is shorter than a non-empty text. *)
Lemma t_split_text_rhs (s t : bytes) :
  (length (t_split_text s t).2 ≤ length s)%nat ∧
  (s ≠ [] → (length (t_split_text s t).2 < length s)%nat).
Proof.
  unfold t_split_text. destruct (t_locate s t) as [i|] eqn:E; cbn.
  - apply t_locate_length in E. rewrite length_drop. split; [lia|]. lia.
  - split; [lia|]. intros Hs. destruct s; [done|]. cbn. lia.
Qed.

Lemma cstr_no_nul (s : bytes) : NUL ∉ s → cstr s = s.
Proof.
  induction s as [|c s IH]; intros Hs; cbn; [done|].
  apply not_elem_of_cons in Hs as [Hc Hs].
  rewrite bool_decide_eq_false_2 by congruence. by rewrite IH.
Qed.

Lemma leading_digits_spec (s : bytes) (acc : Z) :
  is_digits s = true →
  leading_digits s acc = fold_left (λ acc b, acc * 10 + digit_val b) s acc.
Proof.
  revert acc; induction s as [|c s IH]; intros acc; cbn; [done|].
  intros [-> Hs]%andb_true_iff. by apply IH.
Qed.

Lemma is_digits_not (s : bytes) (c : byte) :
  is_digits s = true → c_isdigit c = false → c ∉ s.
Proof.
  unfold is_digits. rewrite forallb_forall. intros Hs Hc Hi.
  apply list_elem_of_In, Hs in Hi. congruence.
Qed.

Lemma t_atoi_digits (s : bytes) :
  is_digits s = true → s ≠ [] → dec_value s <= INT_MAX → t_atoi s = dec_value s.
Proof.
  intros Hd Hne Hb. unfold t_atoi.
  rewrite cstr_no_nul by (eapply is_digits_not; [done|by vm_compute]).
  pose proof (dec_value_bound s Hd). unfold vsf_sysutil_atoi, atol.
  destruct s as [|c s]; [done|].
  assert (Hc : c_isdigit c = true) by (cbn in Hd; by apply andb_true_iff in Hd as []).
  pose proof Hc as Hc'. unfold c_isdigit in Hc'. b2p.
  assert (c_isspace c = false) as Hsp.
  { unfold c_isspace. by ztest. }
  cbn [skip_space]. rewrite Hsp. ztest. rewrite leading_digits_spec by done.
  fold (dec_value (c :: s)). unfold LONG_MAX, LONG_MIN, INT_MAX in *.
  rewrite s32_small; [lia|]. unfold INT_MIN, INT_MAX. lia.
Qed.

Lemma t_atoi_print (z : Z) : 0 <= z <= INT_MAX → t_atoi (print_base 10 z) = z.
Proof.
  intros Hz. pose proof (print_base_dec_value z ltac:(lia)) as Hv.
  rewrite t_atoi_digits, Hv; [done|apply print_base_digits; lia| |lia].
  apply (print_base_spec 10 z); lia.
Qed.

(** ** Substrings, with the range checks of the code *)

Definition t_left (s : bytes) (chars : Z) : res bytes :=
  if Z.of_nat (length s) <? chars then bug "chars invalid in str_left"
  else Ok (take (Z.to_nat chars) s).

Definition t_right (s : bytes) (chars : Z) : res bytes :=
  if Z.of_nat (length s) <? chars then bug "chars invalid in str_right"
  else Ok (drop (length s - Z.to_nat chars) s).

Definition t_mid_to_end (s : bytes) (indexx : Z) : res bytes :=
  if Z.of_nat (length s) <? indexx then bug "invalid indexx in str_mid_to_end"
  else Ok (drop (Z.to_nat indexx) s).

Definition t_get_char_at (s : bytes) (indexx : Z) : res byte :=
  match s !! Z.to_nat indexx with
  | Some c => if indexx <? 0 then bug "bad indexx in str_get_char_at" else Ok c
  | None => bug "bad indexx in str_get_char_at"
  end.

Lemma t_locate_chars_from_Some s chars i j c :
  t_locate_chars_from s chars i = Some (j, c) →
  ∃ a b, s = a ++ c :: b ∧ j = (i + length a)%nat ∧ c ∈ chars ∧
         Forall (λ d, d ∉ chars) a.
Proof.
  revert i; induction s as [|d s IH]; intros i; cbn [t_locate_chars_from]; [done|].
  destruct (existsb _ chars) eqn:E.
  - intros [= <- <-]. exists [], s. split_and!; [done|cbn; lia| |constructor].
    apply existsb_exists in E as (x & Hx & Hd). b2p. subst. by apply list_elem_of_In.
  - intros (a & b & -> & -> & Hc & Ha)%IH. exists (d :: a), b.
    split_and!; [done|cbn; lia|done|]. constructor; [|done].
    intros Hd. apply not_true_iff_false in E. apply E, existsb_exists.
    exists d. split; [by apply list_elem_of_In|]. by apply bool_decide_eq_true.
Qed.

Lemma t_locate_chars_from_None s chars i :
  t_locate_chars_from s chars i = None → Forall (λ d, d ∉ chars) s.
Proof.
  revert i; induction s as [|d s IH]; intros i; cbn [t_locate_chars_from]; [constructor|].
  destruct (existsb _ chars) eqn:E; [done|]. intros H%IH. constructor; [|done].
  intros Hd. apply not_true_iff_false in E. apply E, existsb_exists.
  exists d. split; [by apply list_elem_of_In|]. by apply bool_decide_eq_true.
Qed.
