(* ===== verification/StrRefine.v ===== *)
(** * str.c implements byte lists

    [repr s bs]: the buffer [s] holds the text [bs] and its NUL within its
    allocation. Each function of [Str] preserves it and computes what its
    counterpart in [Text] does; none of them reads or writes outside a buffer
    or reads an uninitialised byte. *)

From Stdlib Require Import Init.Byte Strings.Byte.
From Stdlib Require Import ZArith Lia String.
From stdpp Require Import base list numbers option.
From S2P Require Import Prelude SysUtil Str Text.
Import ResNotations.

Definition repr (s : mystr) (bs : bytes) : Prop :=
  len s = zlen bs ∧
  match p_buf s with
  | None => bs = [] ∧ alloc_bytes s = 0
  | Some buf =>
      alloc_bytes s = zlen buf ∧ zlen buf <= INT_MAX ∧
      ∃ rest, buf = (Some <$> bs) ++ Some NUL :: rest
  end.

(** The texts whose buffer [vsf_sysutil_malloc] can allocate. *)
Definition fits (bs : bytes) : Prop := zlen bs < INT_MAX.

(** [m] returns, in a state that satisfies [Q]. *)
Definition returns {A} (m : res A) (Q : A → Prop) : Prop :=
  ∃ a, m = Ok a ∧ Q a.

(** ** Lengths *)

Section Lengths.
Context {A : Type}.

Lemma zlen_nil : zlen (@nil A) = 0.
Proof. done. Qed.

Lemma zlen_cons (x : A) (l : list A) : zlen (x :: l) = 1 + zlen l.
Proof. unfold zlen. cbn [length]. lia. Qed.

Lemma zlen_app (l k : list A) : zlen (l ++ k) = zlen l + zlen k.
Proof. unfold zlen. rewrite length_app. lia. Qed.

Lemma zlen_fmap {B} (f : A → B) (l : list A) : zlen (f <$> l) = zlen l.
Proof. unfold zlen. by rewrite length_fmap. Qed.

Lemma zlen_take (n : nat) (l : list A) : zlen (take n l) = Z.min (Z.of_nat n) (zlen l).
Proof. unfold zlen. rewrite length_take. lia. Qed.

Lemma zlen_drop (n : nat) (l : list A) : zlen (drop n l) = Z.max 0 (zlen l - Z.of_nat n).
Proof. unfold zlen. rewrite length_drop. lia. Qed.

Lemma zlen_replicate (n : nat) (x : A) : zlen (replicate n x) = Z.of_nat n.
Proof. unfold zlen. by rewrite length_replicate. Qed.

Lemma zlen_nonneg (l : list A) : 0 <= zlen l.
Proof. unfold zlen. lia. Qed.

Lemma zlen_zero (l : list A) : zlen l = 0 → l = [].
Proof. unfold zlen. destruct l; cbn; [done|lia]. Qed.

Lemma zlen_length (l : list A) : Z.to_nat (zlen l) = length l.
Proof. unfold zlen. lia. Qed.

End Lengths.

#[export] Hint Rewrite @zlen_nil @zlen_cons @zlen_app @zlen_fmap @zlen_take
  @zlen_drop @zlen_replicate @zlen_length : vsf_rw.

(** Normalise lengths and close the arithmetic goal. *)
Ltac zl :=
  unfold fits, INT_MAX, UINT_MOD in *; autorewrite with vsf_rw in *;
  unfold zlen in *; cbn [length] in *; lia.

(** Step through a [res_bind] whose first part returns. *)
Lemma bind_returns {A B} (m : res A) (k : A → res B) (P : A → Prop) (Q : B → Prop) :
  returns m P → (∀ a, P a → returns (k a) Q) → returns (res_bind m k) Q.
Proof. intros (a & -> & Ha) H. exact (H a Ha). Qed.

Lemma returns_ok {A} (a : A) (Q : A → Prop) : Q a → returns (Ok a) Q.
Proof. intros. by exists a. Qed.

Lemma returns_mono {A} (m : res A) (P Q : A → Prop) :
  returns m P → (∀ a, P a → Q a) → returns m Q.
Proof. intros (a & -> & H) HPQ. exists a. auto. Qed.

(** ** Reads and writes *)

Lemma repr_fits s bs : repr s bs → fits bs.
Proof.
  intros [Hl H]. destruct (p_buf s) as [buf|].
  - destruct H as (? & ? & rest & ->). zl.
  - destruct H as [-> _]. zl.
Qed.

Lemma repr_len s bs : repr s bs → len s = zlen bs.
Proof. by intros []. Qed.

Lemma mapM_Some (bs : bytes) : mapM id (Some <$> bs : list cell) = Some bs.
Proof. induction bs as [|b bs IH]; cbn; [done|]. by rewrite IH. Qed.

Lemma read_repr s bs off n :
  repr s bs → 0 <= off → 0 <= n → off + n <= zlen bs →
  read_cells (p_buf s) off n =
  Ok (take (Z.to_nat n) (drop (Z.to_nat off) bs)).
Proof.
  intros [Hl H] Ho Hn Hb. unfold read_cells.
  destruct (Z.eqb_spec n 0) as [->|]; [done|].
  destruct (p_buf s) as [buf|]; [|destruct H; subst bs; zl].
  destruct H as (_ & _ & rest & ->).
  rewrite !(proj2 (Z.leb_le _ _)) by zl. cbn [andb].
  rewrite drop_app_le, take_app_le, <- fmap_drop, <- fmap_take, mapM_Some;
    [done| |]; rewrite ?length_drop, ?length_fmap; zl.
Qed.

Lemma read_all s bs : repr s bs → read_cells (p_buf s) 0 (len s) = Ok bs.
Proof.
  intros H. rewrite (repr_len _ _ H), (read_repr _ _ _ _ H) by zl.
  change (Z.to_nat 0) with 0%nat. rewrite drop_0, zlen_length, firstn_all. done.
Qed.

Lemma get_repr s bs i c :
  repr s bs → bs !! i = Some c → get_cell (p_buf s) (Z.of_nat i) = Ok c.
Proof.
  intros H Hi. pose proof (lookup_lt_Some _ _ _ Hi).
  unfold get_cell. rewrite (read_repr _ _ _ _ H) by zl. cbn [res_bind].
  rewrite Nat2Z.id. by rewrite (drop_S _ _ _ Hi).
Qed.

Lemma write_in (buf : list cell) (off : Z) (src : bytes) :
  0 <= off → off + zlen src <= zlen buf →
  write_cells (Some buf) off src =
  Ok (take (Z.to_nat off) buf ++ (Some <$> src)
      ++ drop (Z.to_nat off + length src) buf).
Proof. intros. unfold write_cells. by ztest. Qed.

(** A write of a text and its NUL at [off]: the pair of stores that ends every
    function that fills a buffer. *)
Lemma store_text (buf : list cell) (off : nat) (src : bytes) :
  zlen src <= INT_MAX → Z.of_nat off + zlen src + 1 <= zlen buf →
  (let* b := vsf_sysutil_memcpy (Some buf) (Z.of_nat off) src in
   write_cells b (Z.of_nat off + zlen src) [NUL]) =
  Ok (take off buf ++ (Some <$> src) ++ Some NUL
      :: drop (off + length src + 1) buf).
Proof.
  intros Hs Hb. unfold vsf_sysutil_memcpy.
  destruct (Z.eqb_spec (zlen src) 0) as [E|E].
  - apply zlen_zero in E as ->. cbn [res_bind].
    rewrite write_in by zl. cbn. repeat f_equal; zl.
  - ztest. rewrite write_in by zl. cbn [res_map res_bind].
    rewrite write_in by zl. cbn [fmap list_fmap length].
    rewrite Nat2Z.id. f_equal.
    replace (Z.to_nat (Z.of_nat off + zlen src)) with (off + length src)%nat by zl.
    assert (Hp : length (take off buf ++ (Some <$> src)) = (off + length src)%nat).
    { rewrite length_app, length_take, length_fmap. zl. }
    rewrite (app_assoc (take off buf)).
    rewrite <- Hp at 1. rewrite take_app_length.
    rewrite drop_app_ge by lia. rewrite Hp, drop_drop, <- app_assoc.
    repeat f_equal. zl.
Qed.

(** ** Allocation *)

Lemma store_returns (l a : Z) (buf : list cell) (pre src : bytes) :
  a = zlen buf → a <= INT_MAX → l = zlen (pre ++ src) →
  zlen (pre ++ src) + 1 <= zlen buf →
  take (length pre) buf = Some <$> pre →
  returns
    (let* b := vsf_sysutil_memcpy (Some buf) (zlen pre) src in
     let* b := write_cells b (zlen pre + zlen src) [NUL] in
     Ok (MkStr (Some b) l a)) (λ s, repr s (pre ++ src) ∧ p_buf s ≠ None).
Proof.
  intros -> Ha -> Hb Hp.
  pose proof (store_text buf (length pre) src ltac:(zl) ltac:(zl)) as H.
  change (Z.of_nat (length pre)) with (zlen pre) in H.
  destruct (vsf_sysutil_memcpy _ _ _) as [b|]; [|done]. cbn [res_bind] in *.
  rewrite H. cbn [res_bind]. apply returns_ok. rewrite Hp.
  split; [|done]. split; [done|]. cbn [p_buf alloc_bytes]. split_and!.
  - rewrite !zlen_app, !zlen_cons, !zlen_fmap, zlen_drop. zl.
  - rewrite !zlen_app, !zlen_cons, !zlen_fmap, zlen_drop. zl.
  - eexists. rewrite fmap_app, <- app_assoc. done.
Qed.

Lemma alloc_memchunk_buf s old bs :
  repr s old → fits bs →
  returns (private_str_alloc_memchunk s bs) (λ s', repr s' bs ∧ p_buf s' ≠ None).
Proof.
  intros Hr Hf. unfold private_str_alloc_memchunk.
  rewrite (u32_small (zlen bs + 1)) by zl. ztest.
  destruct (Z.ltb_spec (alloc_bytes s) (zlen bs + 1)) as [Hlt|Hge].
  - unfold vsf_sysutil_malloc.
    rewrite (proj2 (Z.eqb_neq _ _)), (proj2 (Z.ltb_ge _ _)) by zl.
    cbn [orb res_bind s_setbuf str_free INIT_MYSTR p_buf len alloc_bytes].
    apply (store_returns _ _ _ [] bs); [zl|zl|done| |done].
    cbn [app]. zl.
  - cbn [res_bind]. destruct Hr as [Hl Hr], (p_buf s) as [buf|].
    + destruct Hr as (Ha & Hm & rest & Hb).
      apply (store_returns _ _ _ [] bs); [done|lia|done|cbn [app]; lia|done].
    + destruct Hr as [-> ?]. zl.
Qed.

Lemma alloc_memchunk_ok s old bs :
  repr s old → fits bs →
  returns (private_str_alloc_memchunk s bs) (λ s', repr s' bs).
Proof.
  intros Hr Hf. eapply returns_mono; [by eapply alloc_memchunk_buf|].
  by intros ? [].
Qed.

Lemma append_memchunk_ok s bs more :
  repr s bs → fits (bs ++ more) →
  returns (private_str_append_memchunk s more) (λ s', repr s' (bs ++ more)).
Proof.
  intros Hr Hf. unfold private_str_append_memchunk.
  apply (returns_mono _ (λ s', repr s' (bs ++ more) ∧ p_buf s' ≠ None));
    [|by intros ? []].
  rewrite (repr_len _ _ Hr).
  rewrite (u32_small (zlen more + zlen bs)) by zl.
  rewrite (u32_small (zlen more + zlen bs + 1)) by zl.
  ztest. rewrite !(proj2 (Z.ltb_ge _ _)) by zl.
  destruct Hr as [Hl Hr].
  destruct (Z.ltb_spec (alloc_bytes s) (zlen more + zlen bs + 1)) as [Hlt|Hge].
  - unfold vsf_sysutil_realloc.
    rewrite (proj2 (Z.eqb_neq _ _)), (proj2 (Z.ltb_ge _ _)) by zl.
    cbn [orb res_bind p_buf len alloc_bytes].
    assert (Hp : take (length bs) (default [] (p_buf s)) = Some <$> bs
                 ∧ zlen (default [] (p_buf s)) = alloc_bytes s).
    { destruct (p_buf s) as [buf|]; cbn.
      - destruct Hr as (-> & _ & rest & ->). split; [|done].
        by rewrite take_app_le, take_ge by (rewrite length_fmap; done).
      - destruct Hr as [-> ->]. done. }
    destruct Hp as [Hp Ha].
    apply store_returns; rewrite ?(u32_small (zlen bs + zlen more)) by zl.
    + zl.
    + zl.
    + zl.
    + zl.
    + rewrite take_app_le.
      * rewrite take_take, <- Hp. f_equal. zl.
      * apply (f_equal length) in Hp. rewrite length_take, length_fmap in Hp.
        rewrite length_take. zl.
  - cbn [res_bind]. destruct (p_buf s) as [buf|]; [|destruct Hr; subst bs; zl].
    destruct Hr as (Ha & Hm & rest & Hb). rewrite Hl.
    apply store_returns; rewrite ?(u32_small (zlen bs + zlen more)) by zl;
      [done|lia|zl|zl|].
    subst buf. by rewrite take_app_le, take_ge by (rewrite length_fmap; done).
Qed.

(** A text too long for the allocator stops the process in [bug], before any
    write. *)
Lemma alloc_memchunk_too_big s old bs :
  repr s old → INT_MAX <= zlen bs < UINT_MOD →
  ∃ m, private_str_alloc_memchunk s bs = Err (Bug m).
Proof.
  intros Hr [Hlo Hhi]. unfold private_str_alloc_memchunk.
  destruct (Z.eq_dec (zlen bs) (UINT_MOD - 1)) as [E|E].
  - rewrite E. cbn. by eexists.
  - rewrite (u32_small (zlen bs + 1)) by zl. ztest.
    assert (alloc_bytes s <= INT_MAX).
    { destruct Hr as [_ Hr], (p_buf s); [destruct Hr as (-> & ? & _); done|].
      destruct Hr as [_ ->]. zl. }
    rewrite (proj2 (Z.ltb_lt _ _)) by lia.
    unfold vsf_sysutil_malloc. rewrite (proj2 (Z.ltb_lt INT_MAX _)) by lia.
    rewrite orb_true_r. cbn. by eexists.
Qed.

Lemma free_ok s : repr (str_free s) [].
Proof. done. Qed.

Lemma trunc_ok s bs n :
  repr s bs → (p_buf s ≠ None ∨ 0 < zlen bs) → 0 <= n <= zlen bs →
  returns (str_trunc s n) (λ s', repr s' (take (Z.to_nat n) bs)).
Proof.
  intros [Hl Hr] Hne Hn. unfold str_trunc.
  destruct (p_buf s) as [buf|];
    [|destruct Hr, Hne; subst; [done|zl]].
  destruct Hr as (Ha & Hm & rest & ->).
  rewrite (proj2 (Z.leb_gt _ _)) by zl.
  rewrite write_in by zl. cbn [res_bind]. apply returns_ok.
  split; [cbn; zl|]. cbn [p_buf alloc_bytes]. split_and!.
  - rewrite Ha, !zlen_app, zlen_take, zlen_drop. zl.
  - rewrite !zlen_app, zlen_take, zlen_drop. zl.
  - eexists. rewrite take_app_le, <- fmap_take by (rewrite length_fmap; zl).
    done.
Qed.

Lemma getbuf_ok s bs :
  repr s bs →
  returns (str_getbuf s) (λ r, r.1 = p_buf r.2 ∧ p_buf r.2 ≠ None ∧ repr r.2 bs).
Proof.
  intros Hr. unfold str_getbuf. destruct (p_buf s) as [b|] eqn:E.
  - apply returns_ok. cbn. rewrite E. done.
  - destruct Hr as [Hl Hr]. rewrite E in Hr. destruct Hr as [-> Ha].
    rewrite Hl, Ha. cbn [zlen length Z.of_nat negb orb Z.eqb].
    eapply bind_returns; [apply (alloc_memchunk_buf _ [] [])|].
    + split; [done|]. by rewrite E.
    + zl.
    + intros s' [Hs' Hb]. by apply returns_ok.
Qed.

Lemma empty_ok s bs :
  repr s bs → returns (str_empty s) (λ s', repr s' [] ∧ p_buf s' ≠ None).
Proof.
  intros Hr. unfold str_empty. eapply bind_returns; [by eapply getbuf_ok|].
  intros [b s'] (_ & Hb & Hs'). cbn in *.
  unfold str_trunc. destruct Hs' as [Hl Hs'], (p_buf s') as [buf|]; [|done].
  destruct Hs' as (Ha & Hm & rest & ->).
  rewrite (proj2 (Z.leb_gt _ _)) by zl. rewrite write_in by zl.
  cbn [res_bind]. apply returns_ok. split; [|done]. split; [done|].
  cbn [p_buf alloc_bytes]. split_and!; [zl|zl|by eexists].
Qed.

(** A C string argument: [vsf_sysutil_strlen] accepts its length. *)
Definition text_ok (t : bytes) : Prop := zlen t <= INT_MAX / 8.

Lemma strlen_ok (t : bytes) : text_ok t → vsf_sysutil_strlen t = Ok (zlen t).
Proof. unfold text_ok, vsf_sysutil_strlen, zlen. intros. by ztest. Qed.

Lemma text_ok_fits (t : bytes) : text_ok t → fits t.
Proof. unfold text_ok. change (INT_MAX / 8) with 268435455. zl. Qed.

Lemma alloc_text_ok s old t :
  repr s old → text_ok t → returns (str_alloc_text s t) (λ s', repr s' t).
Proof.
  intros Hr Ht. unfold str_alloc_text. rewrite strlen_ok by done. cbn [res_bind].
  eapply alloc_memchunk_ok; [done|by apply text_ok_fits].
Qed.

Lemma copy_ok d old s bs :
  repr d old → repr s bs → returns (str_copy d s) (λ d', repr d' bs).
Proof.
  intros Hd Hs. unfold str_copy. rewrite (read_all _ _ Hs). cbn [res_bind].
  eapply alloc_memchunk_ok; [done|by eapply repr_fits].
Qed.

Lemma append_str_ok s bs o more :
  repr s bs → repr o more → fits (bs ++ more) →
  returns (str_append_str s o) (λ s', repr s' (bs ++ more)).
Proof.
  intros Hs Ho Hf. unfold str_append_str. rewrite (read_all _ _ Ho).
  cbn [res_bind]. by apply append_memchunk_ok.
Qed.

Lemma append_text_ok s bs t :
  repr s bs → text_ok t → fits (bs ++ t) →
  returns (str_append_text s t) (λ s', repr s' (bs ++ t)).
Proof.
  intros Hs Ht Hf. unfold str_append_text. rewrite strlen_ok by done.
  cbn [res_bind]. by apply append_memchunk_ok.
Qed.

(** ** In-place updates and padding *)

Lemma update_cells_ok (f : byte → byte) (bs : bytes) (rest : list cell) :
  update_cells f (length bs) ((Some <$> bs) ++ rest) =
  Ok ((Some <$> (f <$> bs)) ++ rest).
Proof.
  induction bs as [|b bs IH]; [by destruct rest|].
  cbn [length fmap list_fmap app update_cells]. by rewrite IH.
Qed.

Lemma update_str_ok f s bs :
  repr s bs → returns (update_str f s) (λ s', repr s' (f <$> bs)).
Proof.
  intros [Hl Hr]. unfold update_str. destruct (p_buf s) as [buf|] eqn:E.
  - destruct Hr as (Ha & Hm & rest & ->).
    rewrite Hl, zlen_length, update_cells_ok. cbn [res_bind].
    apply returns_ok. split; [cbn; by rewrite zlen_fmap|].
    cbn [p_buf alloc_bytes]. rewrite Ha, !zlen_app, !zlen_fmap.
    split_and!; [done|zl|by eexists].
  - destruct Hr as [-> Ha]. rewrite Hl. apply returns_ok.
    split; [done|]. by rewrite E.
Qed.

Lemma append_spaces_ok n s bs :
  repr s bs → fits (bs ++ replicate n SP) →
  returns (append_spaces n s) (λ s', repr s' (bs ++ replicate n SP)).
Proof.
  revert s bs; induction n as [|n IH]; intros s bs Hs Hf; cbn [append_spaces].
  - apply returns_ok. by rewrite app_nil_r.
  - eapply bind_returns; [apply append_memchunk_ok; [done|zl]|].
    intros s' Hs'. cbn beta in Hs'.
    replace (bs ++ replicate (S n) SP) with ((bs ++ [SP]) ++ replicate n SP) in *
      by (rewrite <- app_assoc; done).
    by apply IH.
Qed.

Lemma rpad_ok s bs w :
  repr s bs → fits (t_rpad bs w) →
  returns (str_rpad s w) (λ s', repr s' (t_rpad bs w)).
Proof.
  intros Hs Hf. unfold str_rpad, t_rpad in *. rewrite (repr_len _ _ Hs).
  destruct (Z.leb_spec w (zlen bs)).
  - replace (Z.to_nat (w - Z.of_nat (length bs))) with 0%nat by zl.
    apply returns_ok. by rewrite app_nil_r.
  - by apply append_spaces_ok.
Qed.

Lemma lpad_ok t old s bs w :
  repr t old → repr s bs → fits (t_lpad bs w) →
  returns (str_lpad t s w) (λ r, repr r.2 (t_lpad bs w) ∧ ∃ o, repr r.1 o).
Proof.
  intros Ht Hs Hf. unfold str_lpad, t_lpad in *. rewrite (repr_len _ _ Hs).
  destruct (Z.leb_spec w (zlen bs)).
  - replace (Z.to_nat (w - Z.of_nat (length bs))) with 0%nat by zl.
    apply returns_ok. by eauto.
  - eapply bind_returns; [by eapply empty_ok|]. intros t1 [Ht1 _].
    eapply bind_returns; [apply (append_spaces_ok _ _ []); [done|]|].
    { cbn [app]. zl. }
    intros t2 Ht2. cbn in Ht2.
    eapply bind_returns; [by apply (append_str_ok _ _ _ _ Ht2 Hs)|].
    intros t3 Ht3. cbn in Ht3.
    eapply bind_returns; [by apply (copy_ok _ _ _ _ Hs Ht3)|].
    intros s' Hs'. apply returns_ok. cbn. eauto.
Qed.

(** ** Comparison *)

Lemma zeqb_nat (a b : nat) : (Z.of_nat a =? Z.of_nat b) = (a =? b)%nat.
Proof. destruct (Nat.eqb_spec a b); destruct (Z.eqb_spec (Z.of_nat a) (Z.of_nat b)); lia. Qed.

Lemma strcmp_ok a xs b ys :
  repr a xs → repr b ys → str_strcmp a b = Ok (t_strcmp xs ys).
Proof.
  intros Ha Hb. unfold str_strcmp, str_equal_internal, t_strcmp.
  pose proof (repr_fits _ _ Ha). pose proof (repr_fits _ _ Hb).
  rewrite (repr_len _ _ Ha), (repr_len _ _ Hb).
  set (n := if zlen ys <? zlen xs then zlen ys else zlen xs).
  assert (n = Z.of_nat (Nat.min (length xs) (length ys))) as ->.
  { unfold n. destruct (Z.ltb_spec (zlen ys) (zlen xs)); zl. }
  rewrite (read_repr _ _ _ _ Ha), (read_repr _ _ _ _ Hb) by zl.
  cbn [res_bind]. rewrite Nat2Z.id. change (Z.to_nat 0) with 0%nat.
  rewrite !drop_0. unfold zlen. rewrite zeqb_nat.
  destruct (_ || _); [done|]. f_equal.
  unfold s32, u32. rewrite Z.mod_mod by done. apply s32_small. unfold INT_MIN. zl.
Qed.

Lemma t_strcmp_eq (xs ys : bytes) : (t_strcmp xs ys =? 0) = t_equal xs ys.
Proof.
  unfold t_strcmp, t_equal. set (n := Nat.min _ _).
  pose proof (memcmp_eq_iff (take n xs) (take n ys)) as Hm.
  rewrite !length_take in Hm. specialize (Hm ltac:(lia)).
  destruct (Z.eqb_spec (vsf_sysutil_memcmp (take n xs) (take n ys)) 0) as [E|E];
    cbn [negb orb].
  - apply Hm in E. destruct (Nat.eqb_spec (length xs) (length ys)) as [El|El].
    + rewrite (proj2 Hm E). symmetry. apply bool_decide_eq_true.
      rewrite !take_ge in E by lia. done.
    + symmetry. rewrite (proj2 (Z.eqb_neq _ _)) by lia.
      apply bool_decide_eq_false. congruence.
  - rewrite (proj2 (Z.eqb_neq _ _)) by done. symmetry.
    apply bool_decide_eq_false. intros ->. apply E, Hm. done.
Qed.

Lemma equal_ok a xs b ys :
  repr a xs → repr b ys → str_equal a b = Ok (t_equal xs ys).
Proof.
  intros Ha Hb. unfold str_equal. rewrite (strcmp_ok _ _ _ _ Ha Hb).
  cbn [res_bind]. by rewrite t_strcmp_eq.
Qed.

Lemma repr_text_buf (t : bytes) :
  fits t → repr (MkStr (text_buf t) (zlen t) (zlen t + 1)) t.
Proof. intros. split; [done|]. cbn. split_and!; [zl|zl|by eexists]. Qed.

Lemma equal_text_ok a xs t :
  repr a xs → text_ok t → str_equal_text a t = Ok (t_equal xs t).
Proof.
  intros Ha Ht. unfold str_equal_text. rewrite strlen_ok by done. cbn [res_bind].
  pose proof (strcmp_ok _ _ _ _ Ha (repr_text_buf t (text_ok_fits _ Ht))) as H.
  unfold str_strcmp in H. cbn [p_buf len] in H. rewrite H. cbn [res_bind].
  by rewrite t_strcmp_eq.
Qed.

(** ** Search *)

(** A search result as an optional position. *)
Definition loc_of (o : option nat) : str_locate_result :=
  match o with
  | Some i => LocRes true (Z.of_nat i) NUL
  | None => not_found
  end.

Lemma window_test s bs t i :
  repr s bs → (i + length t ≤ length bs)%nat →
  ∃ w, read_cells (p_buf s) (Z.of_nat i) (zlen t) = Ok w ∧
       (vsf_sysutil_memcmp w t =? 0) = starts_with t (drop i bs).
Proof.
  intros Hs Hi. rewrite (read_repr _ _ _ _ Hs) by zl.
  rewrite Nat2Z.id, zlen_length. eexists; split; [done|].
  assert (Hlen : length (take (length t) (drop i bs)) = length t).
  { rewrite length_take, length_drop. lia. }
  pose proof (memcmp_eq_iff _ _ Hlen) as Hm.
  pose proof (starts_with_take t (drop i bs)) as Hs'.
  apply eq_true_iff_eq. rewrite Z.eqb_eq, Hm, Hs'. done.
Qed.

Lemma find_from_short t s i : (length s < length t)%nat → find_from t s i = None.
Proof.
  revert i; induction s as [|b s IH]; intros i Hl; cbn [find_from].
  - destruct t; cbn in *; [lia|done].
  - destruct (starts_with t (b :: s)) eqn:E.
    + apply starts_with_length in E. lia.
    + apply IH. cbn in Hl. lia.
Qed.

Lemma locate_loop_ok s bs t n i :
  repr s bs → t ≠ [] → (i + n + length t = S (length bs))%nat →
  locate_loop s t n (Z.of_nat i) = Ok (loc_of (find_from t (drop i bs) i)).
Proof.
  intros Hs Ht. revert i; induction n as [|n IH]; intros i Hn; cbn [locate_loop].
  - rewrite find_from_short; [done|]. rewrite length_drop. destruct t; [done|]. cbn in *. lia.
  - destruct (window_test s bs t i Hs ltac:(lia)) as (w & -> & Hw).
    cbn [res_bind]. rewrite Hw.
    assert (i < length bs)%nat by (destruct t; cbn in *; [done|lia]).
    destruct (lookup_lt_is_Some_2 bs i) as [c Hc]; [lia|].
    rewrite (drop_S _ _ _ Hc) in *. cbn [find_from].
    destruct (starts_with _ _); [done|].
    replace (Z.of_nat i + 1) with (Z.of_nat (S i)) by lia. apply IH. lia.
Qed.

Lemma locate_text_ok s bs t :
  repr s bs → text_ok t → str_locate_text s t = Ok (loc_of (t_locate bs t)).
Proof.
  intros Hs Ht. unfold str_locate_text, t_locate. rewrite strlen_ok by done.
  cbn [res_bind]. rewrite (repr_len _ _ Hs).
  case_bool_decide as E; [by subst|].
  destruct (Z.eqb_spec (zlen t) 0) as [E'|]; [by apply zlen_zero in E'|].
  cbn [orb]. destruct (Z.ltb_spec (zlen bs) (zlen t)).
  - rewrite find_from_short by zl. done.
  - apply (locate_loop_ok s bs t _ 0 Hs); [done|zl].
Qed.

Lemma locate_reverse_loop_ok s bs t i :
  repr s bs → (i + length t ≤ length bs)%nat →
  locate_reverse_loop s t i = Ok (loc_of (rfind_from t bs i)).
Proof.
  intros Hs. induction i as [|i IH]; intros Hi;
    cbn [locate_reverse_loop rfind_from];
    (edestruct (window_test s bs t) as (w & -> & Hw); [done|exact Hi|]);
    cbn [res_bind]; rewrite Hw; (destruct (starts_with _ _); [done|]); [done|].
  apply IH. lia.
Qed.

Lemma locate_text_reverse_ok s bs t :
  repr s bs → text_ok t →
  str_locate_text_reverse s t = Ok (loc_of (t_rlocate bs t)).
Proof.
  intros Hs Ht. unfold str_locate_text_reverse, t_rlocate.
  rewrite strlen_ok by done. cbn [res_bind]. rewrite (repr_len _ _ Hs).
  case_bool_decide as E; [by subst|].
  destruct (Z.eqb_spec (zlen t) 0) as [E'|]; [by apply zlen_zero in E'|].
  cbn [orb]. destruct (Z.ltb_spec (zlen bs) (zlen t)), (Nat.ltb_spec (length bs) (length t));
    try zl; [done|].
  replace (Z.to_nat (zlen bs - zlen t)) with (length bs - length t)%nat by zl.
  apply locate_reverse_loop_ok; [done|lia].
Qed.

(** The loop over the cells [i .. len) of a text, as recursion on what is left
    of the text. *)
Lemma locate_chars_loop_ok s bs chars n i :
  repr s bs → (i + n = length bs)%nat →
  locate_chars_loop s chars n (Z.of_nat i) =
  Ok (match t_locate_chars_from (drop i bs) chars i with
      | Some (j, c) => LocRes true (Z.of_nat j) c
      | None => not_found
      end).
Proof.
  intros Hs. revert i; induction n as [|n IH]; intros i Hi; cbn [locate_chars_loop].
  - by rewrite drop_ge by lia.
  - destruct (lookup_lt_is_Some_2 bs i) as [c Hc]; [lia|].
    rewrite (get_repr _ _ _ _ Hs Hc), (drop_S _ _ _ Hc).
    cbn [res_bind t_locate_chars_from]. destruct (existsb _ _); [done|].
    replace (Z.of_nat i + 1) with (Z.of_nat (S i)) by lia. apply IH. lia.
Qed.

Lemma locate_chars_ok s bs chars :
  repr s bs → text_ok chars →
  str_locate_chars s chars =
  Ok (match t_locate_chars bs chars with
      | Some (j, c) => LocRes true (Z.of_nat j) c
      | None => not_found
      end).
Proof.
  intros Hs Ht. unfold str_locate_chars. rewrite strlen_ok by done. cbn [res_bind].
  rewrite (repr_len _ _ Hs). apply (locate_chars_loop_ok _ bs _ _ 0 Hs). zl.
Qed.

Lemma exists_cell_ok q s bs n i :
  repr s bs → (i + n = length bs)%nat →
  exists_cell q s n (Z.of_nat i) = Ok (existsb q (drop i bs)).
Proof.
  intros Hs. revert i; induction n as [|n IH]; intros i Hi; cbn [exists_cell].
  - by rewrite drop_ge by lia.
  - destruct (lookup_lt_is_Some_2 bs i) as [c Hc]; [lia|].
    rewrite (get_repr _ _ _ _ Hs Hc), (drop_S _ _ _ Hc).
    cbn [res_bind existsb]. destruct (q c); [done|].
    replace (Z.of_nat i + 1) with (Z.of_nat (S i)) by lia. apply IH. lia.
Qed.

Lemma scan_str_ok q s bs : repr s bs → scan_str q s = Ok (existsb q bs).
Proof.
  intros Hs. unfold scan_str. rewrite (repr_len _ _ Hs).
  apply (exists_cell_ok _ _ bs _ 0 Hs). zl.
Qed.

(** ** Split and replace *)

Lemma rfind_from_bound t s i j :
  rfind_from t s i = Some j → (j ≤ i)%nat ∧ starts_with t (drop j s) = true.
Proof.
  induction i as [|i IH]; cbn [rfind_from].
  - destruct (starts_with t (drop 0 s)) eqn:E; [|done].
    intros [= <-]. split; [lia|done].
  - destruct (starts_with t (drop (S i) s)) eqn:E.
    + intros [= <-]. split; [lia|done].
    + intros H%IH. split; [lia|tauto].
Qed.

Lemma t_rlocate_length s t i :
  t_rlocate s t = Some i → (0 < length t ∧ i + length t ≤ length s)%nat.
Proof.
  unfold t_rlocate. case_bool_decide; [done|]. cbn [orb].
  destruct (Nat.ltb_spec (length s) (length t)); [done|].
  intros [Hi _]%rfind_from_bound. destruct t; [done|]. cbn in *. lia.
Qed.

Lemma split_common_ok s bs r old t rev :
  repr s bs → repr r old → text_ok t →
  returns (str_split_text_common s r t rev)
    (λ p, let sp := (if rev then t_split_text_reverse else t_split_text) bs t in
          repr p.1 sp.1 ∧ repr p.2 sp.2).
Proof.
  intros Hs Hr Ht. unfold str_split_text_common.
  rewrite strlen_ok by done. cbn [res_bind].
  assert (Hb : ∀ i, (if rev then t_rlocate else t_locate) bs t = Some i →
                    (0 < length t ∧ i + length t ≤ length bs)%nat).
  { intros i. destruct rev; [apply t_rlocate_length|apply t_locate_length]. }
  assert ((if rev then str_locate_text_reverse s t else str_locate_text s t) =
          Ok (loc_of ((if rev then t_rlocate else t_locate) bs t))) as ->.
  { destruct rev; [by apply locate_text_reverse_ok|by apply locate_text_ok]. }
  assert ((if rev then t_split_text_reverse else t_split_text) bs t =
          split_at bs t ((if rev then t_rlocate else t_locate) bs t)) as ->
    by (by destruct rev).
  cbn [res_bind]. destruct ((if rev then _ else _) bs t) as [i|];
    cbn [loc_of found index negb split_at not_found].
  - destruct (Hb i eq_refl) as [Ht0 Hi]. pose proof (repr_fits _ _ Hs).
    rewrite (repr_len _ _ Hs). rewrite (u32_small (Z.of_nat i + zlen t)) by zl.
    rewrite (proj2 (Z.ltb_ge _ _)) by zl.
    rewrite (u32_small (zlen bs - Z.of_nat i - zlen t)) by zl.
    rewrite (read_repr _ _ _ _ Hs) by zl. cbn [res_bind].
    replace (Z.to_nat (Z.of_nat i + zlen t)) with (i + length t)%nat by zl.
    rewrite (take_ge (drop _ _)) by (rewrite length_drop; zl).
    eapply bind_returns; [eapply alloc_memchunk_ok; [done|zl]|]. intros r' Hr'.
    eapply bind_returns; [apply (trunc_ok _ _ _ Hs); [right; zl|zl]|].
    intros s' Hs'. rewrite Nat2Z.id in Hs'. by apply returns_ok.
  - eapply bind_returns; [by eapply empty_ok|]. intros r' [Hr' _].
    by apply returns_ok.
Qed.

Lemma split_text_ok s bs r old t :
  repr s bs → repr r old → text_ok t →
  returns (str_split_text s r t)
    (λ p, repr p.1 (t_split_text bs t).1 ∧ repr p.2 (t_split_text bs t).2).
Proof. intros. by apply (split_common_ok _ _ _ old _ false). Qed.

(** One more round of fuel changes nothing once the text is exhausted. *)
Lemma replace_fuel_enough n m s from to :
  (length s < n)%nat → (length s < m)%nat →
  replace_fuel n s from to = replace_fuel m s from to.
Proof.
  revert m s; induction n as [|n IH]; intros [|m] s Hn Hm; try lia.
  cbn [replace_fuel]. destruct (t_locate s from) as [i|] eqn:E; [|done].
  apply t_locate_length in E. do 2 f_equal. apply IH; rewrite length_drop; lia.
Qed.

Lemma replace_loop_ok fuel p out l bs r old from to :
  repr p out → repr l bs → repr r old → text_ok from → text_ok to →
  (length bs < fuel)%nat → fits (out ++ replace_fuel fuel bs from to) →
  returns (replace_loop fuel p l r from to)
    (λ x, repr x.1.1 (out ++ replace_fuel fuel bs from to)).
Proof.
  revert p out l bs r old.
  induction fuel as [|fuel IH]; intros p out l bs r old Hp Hl Hr Hfrom Hto Hfu Hf;
    [lia|]. cbn [replace_loop].
  eapply bind_returns; [by eapply split_text_ok|]. intros [l1 r1] [Hl1 Hr1]. cbn in Hl1, Hr1.
  cbn [replace_fuel] in *. unfold t_split_text in *.
  unfold str_getlen. rewrite (repr_len _ _ Hl), (repr_len _ _ Hl1).
  destruct (t_locate bs from) as [i|] eqn:E; cbn [split_at fst snd] in *.
  - apply t_locate_length in E as [E1 E2].
    set (tl := replace_fuel fuel (drop (i + length from) bs) from to) in *.
    eapply bind_returns; [apply (append_str_ok _ _ _ _ Hp Hl1); zl|].
    intros p1 Hp1. cbn in Hp1.
    rewrite (proj2 (Z.ltb_lt _ _)) by zl.
    eapply bind_returns; [apply (append_text_ok _ _ _ Hp1 Hto); zl|].
    intros p2 Hp2. cbn in Hp2.
    eapply bind_returns; [by apply (copy_ok _ _ _ _ Hl1 Hr1)|].
    intros l2 Hl2. cbn in Hl2.
    replace (out ++ take i bs ++ to ++ tl) with (((out ++ take i bs) ++ to) ++ tl) in *
      by (rewrite <- !app_assoc; done).
    unfold str_isempty. rewrite (repr_len _ _ Hl2).
    destruct (Z.eqb_spec (zlen (drop (i + length from) bs)) 0) as [E0|E0]; cbn [negb].
    + apply returns_ok. cbn. apply zlen_zero in E0.
      assert (tl = []) as ->.
      { unfold tl. rewrite E0. destruct fuel; [done|]. cbn.
        destruct (t_locate [] from) eqn:E'; [|done].
        apply t_locate_length in E'. cbn in E'. lia. }
      by rewrite app_nil_r.
    + eapply IH; [done..| |done]. rewrite length_drop. lia.
  - eapply bind_returns; [apply (append_str_ok _ _ _ _ Hp Hl1); done|].
    intros p1 Hp1. rewrite (proj2 (Z.ltb_ge _ _)) by lia. cbn [res_bind].
    eapply bind_returns; [by apply (copy_ok _ _ _ _ Hl1 Hr1)|].
    intros l2 Hl2. cbn in Hl2. unfold str_isempty. rewrite (repr_len _ _ Hl2).
    by apply returns_ok.
Qed.

Lemma replace_text_ok l o1 r o2 p bs from to :
  repr l o1 → repr r o2 → repr p bs → text_ok from → text_ok to →
  fits (t_replace_text bs from to) →
  returns (str_replace_text l r p from to)
    (λ x, repr x.1.1 (t_replace_text bs from to)).
Proof.
  intros Hl Hr Hp Hfrom Hto Hf. unfold str_replace_text.
  eapply bind_returns; [by apply (copy_ok _ _ _ _ Hl Hp)|].
  intros l1 Hl1. cbn in Hl1. rewrite (repr_len _ _ Hl1), zlen_length.
  unfold t_replace_text in *.
  pose proof (replace_loop_ok (S (length bs)) (str_free p) [] l1 bs r o2 from to)
    as H. cbn [app] in H. eauto using free_ok.
Qed.

(** ** Substrings *)

Lemma left_ok s bs o old n :
  repr s bs → repr o old → 0 <= n <= zlen bs →
  returns (str_left s o n) (λ o', repr o' (take (Z.to_nat n) bs)).
Proof.
  intros Hs Ho Hn. unfold str_left. rewrite (repr_len _ _ Hs). ztest.
  rewrite (read_repr _ _ _ _ Hs) by lia. cbn [res_bind].
  change (Z.to_nat 0) with 0%nat. rewrite drop_0.
  pose proof (repr_fits _ _ Hs). eapply alloc_memchunk_ok; [done|zl].
Qed.

Lemma mid_to_end_ok s bs o old i :
  repr s bs → repr o old → 0 <= i <= zlen bs →
  returns (str_mid_to_end s o i) (λ o', repr o' (drop (Z.to_nat i) bs)).
Proof.
  intros Hs Ho Hi. pose proof (repr_fits _ _ Hs).
  unfold str_mid_to_end. rewrite (repr_len _ _ Hs). ztest.
  rewrite u32_small by zl.
  rewrite (read_repr _ _ _ _ Hs) by lia. cbn [res_bind].
  rewrite take_ge by (rewrite length_drop; zl).
  eapply alloc_memchunk_ok; [done|zl].
Qed.

Lemma right_ok s bs o old n :
  repr s bs → repr o old → 0 <= n <= zlen bs →
  returns (str_right s o n) (λ o', repr o' (drop (Z.to_nat (zlen bs - n)) bs)).
Proof.
  intros Hs Ho Hn. pose proof (repr_fits _ _ Hs).
  unfold str_right. rewrite (repr_len _ _ Hs). rewrite u32_small by zl. ztest.
  rewrite (read_repr _ _ _ _ Hs) by lia. cbn [res_bind].
  rewrite take_ge by (rewrite length_drop; zl).
  eapply alloc_memchunk_ok; [done|zl].
Qed.

Lemma get_char_at_ok s bs i :
  repr s bs → 0 <= i → str_get_char_at s i =
    match bs !! Z.to_nat i with
    | Some c => Ok c
    | None => bug "bad indexx in str_get_char_at"
    end.
Proof.
  intros Hs Hi. unfold str_get_char_at. rewrite (repr_len _ _ Hs).
  destruct (bs !! Z.to_nat i) as [c|] eqn:E.
  - pose proof (lookup_lt_Some _ _ _ E). rewrite (proj2 (Z.leb_gt _ _)) by zl.
    rewrite <- (get_repr _ _ _ _ Hs E). f_equal. lia.
  - apply lookup_ge_None in E. by rewrite (proj2 (Z.leb_le _ _)) by zl.
Qed.

(** ** The C string of a buffer *)

Lemma c_string_ok (bs : bytes) (rest : list cell) :
  c_string ((Some <$> bs) ++ Some NUL :: rest) = Ok (cstr bs).
Proof.
  induction bs as [|b bs IH]; cbn; [done|].
  case_bool_decide; [done|]. by rewrite IH.
Qed.

Lemma getbuf_text_ok s bs :
  repr s bs → returns (getbuf_text s) (λ r, r.1 = cstr bs ∧ repr r.2 bs).
Proof.
  intros Hs. unfold getbuf_text. eapply bind_returns; [by eapply getbuf_ok|].
  intros [b s'] (Hb & Hn & Hs'). cbn in *. subst b.
  destruct (p_buf s') as [buf|] eqn:E; [|done].
  pose proof Hs' as [_ Hs2]. rewrite E in Hs2. destruct Hs2 as (_ & _ & rest & ->).
  rewrite c_string_ok. cbn [res_bind]. by apply returns_ok.
Qed.

Lemma atoi_ok s bs :
  repr s bs → returns (str_atoi s) (λ r, r.1 = t_atoi bs ∧ repr r.2 bs).
Proof.
  intros Hs. unfold str_atoi. eapply bind_returns; [by apply getbuf_text_ok|].
  intros [t s'] [Ht Hs']. cbn in *. apply returns_ok. by rewrite Ht.
Qed.

(** ** Lines *)

Lemma scan_line_ok s bs n i :
  repr s bs → (i + n = length bs)%nat →
  scan_line (p_buf s) n (Z.of_nat i) =
  Ok (Z.of_nat (i + length (take_line (drop i bs)).1)).
Proof.
  intros Hs. revert i; induction n as [|n IH]; intros i Hi; cbn [scan_line].
  - rewrite drop_ge by lia. cbn. do 2 f_equal. lia.
  - destruct (lookup_lt_is_Some_2 bs i) as [c Hc]; [lia|].
    pose proof (repr_fits _ _ Hs).
    rewrite (get_repr _ _ _ _ Hs Hc), (drop_S _ _ _ Hc).
    cbn [res_bind take_line]. case_bool_decide; [cbn; do 2 f_equal; lia|].
    rewrite u32_small by zl. ztest.
    replace (Z.of_nat i + 1) with (Z.of_nat (S i)) by lia. rewrite IH by lia.
    destruct (take_line _). cbn. do 2 f_equal. lia.
Qed.

(** The position of the text after the line at the start of [s]. *)
Definition line_end (s : bytes) : nat := (length s - length (take_line s).2)%nat.

Lemma take_line_end (s : bytes) :
  (take_line s).1 = take (length (take_line s).1) s ∧
  (take_line s).2 = drop (line_end s) s ∧
  line_end s = (length (take_line s).1
                + (if bool_decide (s !! length (take_line s).1 = Some LF) then 1 else 0))%nat ∧
  (line_end s ≤ length s)%nat.
Proof.
  unfold line_end. destruct (take_line_app s) as [(E & E2 & H)|[E H]];
    (destruct (take_line s) as [l r] eqn:El); cbn [fst snd] in *; subst s;
    rewrite ?length_app; cbn [length].
  - subst r. cbn [length].
    rewrite (lookup_ge_None_2 l) by lia. rewrite bool_decide_eq_false_2 by done.
    rewrite firstn_all, drop_ge by lia. split_and!; [done..|lia|lia].
  - rewrite take_app_length. rewrite lookup_app_r, Nat.sub_diag by lia.
    rewrite bool_decide_eq_true_2 by done.
    replace (length l + S (length r) - length r)%nat with (length l + 1)%nat by lia.
    rewrite <- drop_drop, drop_app_length. split_and!; [done|done|lia|lia].
Qed.

Lemma getline_ok s bs l old i :
  repr s bs → repr l old → (i ≤ length bs)%nat →
  returns (str_getline s l (Z.of_nat i))
    (λ r, let '(more, s', l', pos') := r in
          repr s' bs ∧ repr l' (take_line (drop i bs)).1 ∧
          more = negb (i =? length bs)%nat ∧
          pos' = Z.of_nat (i + line_end (drop i bs))).
Proof.
  intros Hs Hl Hi. pose proof (repr_fits _ _ Hs). unfold str_getline, str_getlen.
  rewrite (repr_len _ _ Hs).
  eapply bind_returns; [by eapply getbuf_ok|]. intros [b s'] (Hb & _ & Hs'). cbn in Hb, Hs'.
  subst b. rewrite (proj2 (Z.ltb_ge _ _)) by zl.
  eapply bind_returns; [by eapply empty_ok|]. intros l1 [Hl1 _].
  change (zlen bs) with (Z.of_nat (length bs)). rewrite zeqb_nat.
  destruct (Nat.eqb_spec i (length bs)) as [->|Hne].
  { apply returns_ok. rewrite drop_ge by lia. cbn. split_and!; [done..|lia]. }
  replace (Z.to_nat (Z.of_nat (length bs) - Z.of_nat i)) with (length bs - i)%nat by lia.
  rewrite (scan_line_ok _ _ _ _ Hs') by lia. cbn [res_bind].
  destruct (take_line_end (drop i bs)) as (E1 & E2 & E3 & E4).
  set (n := length (take_line (drop i bs)).1) in *. rewrite length_drop in E4.
  rewrite lookup_drop in E3.
  assert (Hn : (i + n ≤ length bs)%nat) by lia.
  rewrite (u32_small (Z.of_nat (i + n) - Z.of_nat i)) by zl.
  eapply (bind_returns _ _ (λ p, p = Z.of_nat (i + line_end (drop i bs)))).
  { destruct (Z.ltb_spec (Z.of_nat (i + n)) (Z.of_nat (length bs))).
    - destruct (lookup_lt_is_Some_2 bs (i + n)) as [c Hc]; [lia|].
      rewrite (get_repr _ _ _ _ Hs' Hc). cbn [res_bind]. rewrite Hc in E3.
      destruct (decide (c = LF)) as [->|E5].
      + rewrite bool_decide_eq_true_2 in * by done.
        rewrite u32_small by zl. ztest. apply returns_ok. lia.
      + rewrite !bool_decide_eq_false_2 in * by congruence. apply returns_ok. lia.
    - apply returns_ok. rewrite (lookup_ge_None_2 bs), bool_decide_eq_false_2 in E3
        by (done || lia). lia. }
  intros pos' ->. rewrite (read_repr _ _ _ _ Hs') by zl. cbn [res_bind].
  eapply bind_returns; [eapply alloc_memchunk_ok; [done|zl]|]. intros l2 Hl2.
  apply returns_ok. split_and!; [done| |done|done].
  cbn in Hl2. rewrite E1. rewrite Nat2Z.id in Hl2.
  by replace n with (Z.to_nat (Z.of_nat (i + n) - Z.of_nat i)) by lia.
Qed.

Lemma lines_fuel_enough n m s :
  (length s ≤ n)%nat → (length s ≤ m)%nat → lines_fuel n s = lines_fuel m s.
Proof.
  revert m s; induction n as [|n IH]; intros m s Hn Hm.
  - destruct s; [by destruct m|cbn in *; lia].
  - destruct s as [|c s]; [by destruct m|]. destruct m as [|m]; [cbn in *; lia|].
    cbn [lines_fuel]. pose proof (take_line_length (c :: s) ltac:(done)) as H.
    destruct (take_line (c :: s)) as [l r]. cbn [snd] in H. f_equal.
    apply IH; cbn in *; lia.
Qed.

Lemma t_lines_step s :
  s ≠ [] → t_lines s = (take_line s).1 :: t_lines (take_line s).2.
Proof.
  intros Hs. unfold t_lines. destruct s as [|c s]; [done|].
  pose proof (take_line_length (c :: s) Hs) as H.
  cbn [length lines_fuel] in *. destruct (take_line (c :: s)) as [l r]. cbn in *.
  f_equal. apply lines_fuel_enough; lia.
Qed.

Lemma contains_line_loop_ok fuel s bs ln lbs c old i :
  repr s bs → repr ln lbs → repr c old → (i ≤ length bs)%nat →
  (length bs - i < fuel)%nat →
  returns (contains_line_loop fuel s ln c (Z.of_nat i))
    (λ r, r.1.1 = t_contains_line (drop i bs) lbs ∧ repr r.1.2 bs).
Proof.
  intros Hs Hln. revert s c old i Hs.
  induction fuel as [|fuel IH]; intros s c old i Hs Hc Hi Hf; [lia|].
  cbn [contains_line_loop]. eapply bind_returns; [by eapply getline_ok|].
  intros [[[more s'] c'] pos'] (Hs' & Hc' & -> & ->).
  destruct (Nat.eqb_spec i (length bs)) as [->|Hne]; cbn [negb].
  { apply returns_ok. by rewrite drop_ge by lia. }
  rewrite (equal_ok _ _ _ _ Hc' Hln). cbn [res_bind].
  assert (Hd : drop i bs ≠ []).
  { intros E%(f_equal length). rewrite length_drop in E. cbn in E. lia. }
  unfold t_contains_line. rewrite (t_lines_step _ Hd). cbn [existsb].
  destruct (take_line_end (drop i bs)) as (_ & E2 & _ & E4).
  pose proof (take_line_length _ Hd) as Hlt. rewrite E2 in Hlt.
  rewrite !length_drop in *.
  destruct (t_equal (take_line (drop i bs)).1 lbs); [by apply returns_ok|].
  cbn [orb]. rewrite E2, drop_drop. eapply IH; [done..|lia|lia].
Qed.

(** The loop ends within [len + 1] rounds. *)
Lemma contains_line_ok c old s bs ln lbs :
  repr c old → repr s bs → repr ln lbs →
  returns (str_contains_line c s ln)
    (λ r, r.1.1 = t_contains_line bs lbs ∧ repr r.1.2 bs).
Proof.
  intros Hc Hs Hln. unfold str_contains_line. rewrite (repr_len _ _ Hs), zlen_length.
  apply (contains_line_loop_ok _ _ bs _ _ _ old 0 Hs Hln Hc); lia.
Qed.

(** ** A client's view

    Any program over two distinct strings, written with the operations of
    str.h, as a list of steps: [run] executes it on the buffers, [run_spec]
    on byte lists. *)

Inductive sop :=
  | AllocText (t : bytes)
  | Copy
  | Swap
  | Empty
  | Free
  | AppendText (t : bytes)
  | AppendChar (c : byte)
  | AppendStr
  | AppendUlong (n : Z)
  | Upper
  | ReplaceChar (from to : byte)
  | ReplaceUnprintable (c : byte)
  | Rpad (w : Z)
  | Split (t : bytes) (rev : bool)
  | Left (n : Z)
  | Right (n : Z)
  | MidToEnd (n : Z).

(** The first string is the one operated on; the second is the other operand
    or the output. *)
Definition exec (o : sop) (st : mystr * mystr) : res (mystr * mystr) :=
  let '(a, b) := st in
  let on_a m := res_map (λ a', (a', b)) m in
  let on_b m := res_map (λ b', (a, b')) m in
  match o with
  | AllocText t => on_a (str_alloc_text a t)
  | Copy => on_a (str_copy a b)
  | Swap => Ok (b, a)
  | Empty => on_a (str_empty a)
  | Free => Ok (str_free a, b)
  | AppendText t => on_a (str_append_text a t)
  | AppendChar c => on_a (str_append_char a c)
  | AppendStr => on_a (str_append_str a b)
  | AppendUlong n => on_a (str_append_ulong a n)
  | Upper => on_a (str_upper a)
  | ReplaceChar c d => on_a (str_replace_char a c d)
  | ReplaceUnprintable c => on_a (str_replace_unprintable a c)
  | Rpad w => on_a (str_rpad a w)
  | Split t rev => str_split_text_common a b t rev
  | Left n => on_b (str_left a b n)
  | Right n => on_b (str_right a b n)
  | MidToEnd n => on_b (str_mid_to_end a b n)
  end.

(** [None]: a length or an index the code refuses. *)
Definition guard_fits (p : bytes * bytes) : option (bytes * bytes) :=
  if (zlen p.1 <? INT_MAX) && (zlen p.2 <? INT_MAX) then Some p else None.

Definition with_text (t : bytes) (p : option (bytes * bytes)) :=
  if zlen t <=? INT_MAX / 8 then p else None.

Definition with_index (n : Z) (s : bytes) (p : bytes * bytes) :=
  if (0 <=? n) && (n <=? zlen s) then Some p else None.

Definition exec_spec (o : sop) (st : bytes * bytes) : option (bytes * bytes) :=
  let '(a, b) := st in
  match o with
  | AllocText t => with_text t (Some (t, b))
  | Copy => Some (b, b)
  | Swap => Some (b, a)
  | Empty | Free => Some ([], b)
  | AppendText t => with_text t (guard_fits (a ++ t, b))
  | AppendChar c => guard_fits (a ++ [c], b)
  | AppendStr => guard_fits (a ++ b, b)
  | AppendUlong n =>
      let t := vsf_sysutil_ulong_to_str n in with_text t (guard_fits (a ++ t, b))
  | Upper => Some (t_upper a, b)
  | ReplaceChar c d => Some (t_replace_char a c d, b)
  | ReplaceUnprintable c => Some (t_replace_unprintable a c, b)
  | Rpad w => guard_fits (t_rpad a w, b)
  | Split t rev =>
      with_text t (Some ((if rev then t_split_text_reverse else t_split_text) a t))
  | Left n => with_index n a (a, take (Z.to_nat n) a)
  | Right n => with_index n a (a, drop (Z.to_nat (zlen a - n)) a)
  | MidToEnd n => with_index n a (a, drop (Z.to_nat n) a)
  end.

Definition run (os : list sop) (st : mystr * mystr) : res (mystr * mystr) :=
  foldl (λ m o, res_bind m (exec o)) (Ok st) os.

Definition run_spec (os : list sop) (st : bytes * bytes) : option (bytes * bytes) :=
  foldl (λ m o, m ≫= exec_spec o) (Some st) os.

Definition repr2 (st : mystr * mystr) (p : bytes * bytes) : Prop :=
  repr st.1 p.1 ∧ repr st.2 p.2.

Lemma map_returns {A B} (m : res A) (f : A → B) (P : A → Prop) (Q : B → Prop) :
  returns m P → (∀ a, P a → Q (f a)) → returns (res_map f m) Q.
Proof. intros (a & -> & Ha) H. exists (f a). split; [done|auto]. Qed.

Lemma with_text_inv t (o : option (bytes * bytes)) p :
  with_text t o = Some p → text_ok t ∧ o = Some p.
Proof.
  unfold with_text, text_ok. destruct (Z.leb_spec (zlen t) (INT_MAX / 8)); [|done].
  split; [lia|done].
Qed.

Lemma guard_fits_inv q p : guard_fits q = Some p → p = q ∧ fits q.1.
Proof.
  unfold guard_fits. destruct (_ && _) eqn:E; [|done]. b2p. intros [= <-]. done.
Qed.

Lemma with_index_inv n s q p : with_index n s q = Some p → p = q ∧ 0 <= n <= zlen s.
Proof.
  unfold with_index. destruct (_ && _) eqn:E; [|done]. b2p. intros [= <-]. done.
Qed.

Ltac spec_inv H :=
  repeat match type of H with
  | with_text _ _ = Some _ => apply with_text_inv in H as [? H]
  | guard_fits _ = Some _ => apply guard_fits_inv in H as [-> ?]
  | with_index _ _ _ = Some _ => apply with_index_inv in H as [-> ?]
  | Some _ = Some _ => injection H as <-
  end.

Create HintDb str_ops.
#[export] Hint Resolve alloc_text_ok copy_ok append_text_ok append_memchunk_ok
  append_str_ok update_str_ok rpad_ok left_ok right_ok mid_to_end_ok : str_ops.

Lemma exec_sim o st p p' :
  repr2 st p → exec_spec o p = Some p' → returns (exec o st) (λ st', repr2 st' p').
Proof.
  destruct st as [a b], p as [xs ys]. intros [Ha Hb] H. cbn [fst snd] in *.
  destruct o; cbn [exec exec_spec] in *; spec_inv H; cbn [fst snd] in *;
    try (eapply map_returns; [solve [eauto with str_ops]|by intros ? ?]);
    try (by apply returns_ok).
  - eapply map_returns; [by eapply empty_ok|]. by intros ? [].
  - by eapply split_common_ok.
Qed.

Lemma run_sim os st p p' :
  repr2 st p → run_spec os p = Some p' → returns (run os st) (λ st', repr2 st' p').
Proof.
  unfold run, run_spec. revert st p p'.
  induction os as [|o os IH]; intros st p p' Hr; cbn [foldl].
  - intros [= <-]. by apply returns_ok.
  - cbn [mbind option_bind res_bind]. intros H. destruct (exec_spec o p) as [q|] eqn:E.
    + destruct (exec_sim o st p q Hr E) as (st' & -> & Hst'). by apply (IH _ q).
    + exfalso. clear -H. induction os; cbn in *; [done|auto].
Qed.

Section Properties.
Implicit Types s a b l : mystr.

(** C22: str.c refines byte lists. For every program over two strings built
    from seventeen operations of str.h ([sop]: alloc_text, copy, a swap of the two,
    empty, free, append_text, _char, _str and _ulong, upper, replace_char and
    _unprintable, rpad, split_text in both directions, left, right, mid_to_end;
    trunc, lpad, replace_text and getline have lemmas of their own in this file and
    are no steps of these programs, nor is reserve), run on buffers that represent two byte
    lists: where the abstract run is defined (no length reaches INT_MAX, no
    index is out of range) the buffer code runs to completion - no [bug], no
    access outside a buffer, no read of an uninitialised byte - and leaves
    buffers, with their NUL and within their allocation, that represent the
    abstract result. *)
Theorem str_program_refines os st p p' :
  repr2 st p → run_spec os p = Some p' →
  ∃ st', run os st = Ok st' ∧ repr2 st' p'.
Proof. apply run_sim. Qed.

(** [str_replace_text] terminates and replaces every occurrence from left
    to right, whatever its two static temporaries hold from the last call. *)
Theorem str_replace_text_refines l o1 r o2 s bs from to :
  repr l o1 → repr r o2 → repr s bs → text_ok from → text_ok to →
  fits (t_replace_text bs from to) →
  ∃ s' l' r', str_replace_text l r s from to = Ok (s', l', r') ∧
              repr s' (t_replace_text bs from to).
Proof.
  intros. destruct (replace_text_ok l o1 r o2 s bs from to) as ([[s' l'] r'] & E & Hs');
    [done..|]. eauto.
Qed.

(** [str_contains_line] terminates and answers whether the line is one of
    the newline-separated lines of the text. *)
Theorem str_contains_line_refines c old s bs l lbs :
  repr c old → repr s bs → repr l lbs →
  ∃ s' c', str_contains_line c s l = Ok (bool_decide (lbs ∈ t_lines bs), s', c').
Proof.
  intros Hc Hs Hl.
  destruct (contains_line_ok c old s bs l lbs Hc Hs Hl) as ([[r s'] c'] & E & Hr & _).
  cbn in Hr. exists s', c'. rewrite E. repeat f_equal. rewrite Hr.
  unfold t_contains_line. apply eq_true_iff_eq.
  rewrite existsb_exists, bool_decide_eq_true. unfold t_equal. split.
  - intros (x & Hx & E'). b2p. subst x. by apply list_elem_of_In.
  - intros Hx. exists lbs. split; [by apply list_elem_of_In|]. by apply bool_decide_eq_true.
Qed.

Lemma str_program_refines_witness :
  ∃ st', run [AllocText (lit "retr a.txt"); Split [SP] false; Upper;
              AppendText (lit ":"); AppendStr; AppendUlong 150; MidToEnd 5]
           (INIT_MYSTR, INIT_MYSTR) = Ok st' ∧
         repr2 st' (lit "RETR:a.txt150", lit "a.txt150").
Proof.
  apply (str_program_refines _ _ ([], [])); [by split|by vm_compute].
Defined.

Lemma str_replace_text_refines_witness :
  ∃ s' l' r',
    str_replace_text INIT_MYSTR INIT_MYSTR
      (MkStr (text_buf (lit "a--b--")) 6 7) (lit "--") (lit "+") = Ok (s', l', r') ∧
    repr s' (t_replace_text (lit "a--b--") (lit "--") (lit "+")).
Proof.
  apply (str_replace_text_refines _ [] _ []); [done|done| | | |].
  - by apply (repr_text_buf (lit "a--b--")).
  - by vm_compute.
  - by vm_compute.
  - by vm_compute.
Defined.

Lemma str_contains_line_refines_witness :
  ∃ s' c', str_contains_line INIT_MYSTR (MkStr (text_buf (lit "a.b")) 3 4)
             (MkStr (text_buf (lit "a.b")) 3 4) =
           Ok (bool_decide (lit "a.b" ∈ t_lines (lit "a.b")), s', c').
Proof.
  apply (str_contains_line_refines _ []); [done| |]; by apply (repr_text_buf (lit "a.b")).
Defined.

End Properties.
