(* ===== verification/ProcTitle.v ===== *)
(** * The process title

    sysdeputil.c on Linux: the title is written over the strings of argv and
    environ, which the kernel lays out one after the other. The memory is a
    finite map, and an access outside it leaves C. *)

From Stdlib Require Import Init.Byte Strings.Byte.
From Stdlib Require Import ZArith Lia String.
From stdpp Require Import base list numbers option gmap fin_sets strings.
From S2P Require Import Prelude SysUtil Str Text StrRefine.
Import ResNotations.

(** ** Memory *)

Abbreviation memory := (gmap Z byte).

(** The C string at [p]. *)
Fixpoint string_loop (fuel : nat) (p : Z) (m : memory) : res bytes :=
  match fuel with
  | O => Err Fuel
  | S fuel' =>
      match m !! p with
      | None => Err UB
      | Some c => if bool_decide (c = NUL) then Ok [] else res_map (cons c) (string_loop fuel' (p + 1) m)
      end
  end.

Definition string_at (p : Z) (m : memory) : res bytes := string_loop (S (size m)) p m.

Fixpoint store (p : Z) (bs : bytes) (m : memory) : res memory :=
  match bs with
  | [] => Ok m
  | b :: bs' => match m !! p with None => Err UB | Some _ => store (p + 1) bs' (<[p := b]> m) end
  end.

(** ** sysdeputil.c *)

Record proctitle := MkProctitle {
  mem : memory;
  argv : list Z;
  environ : option (list Z);  (** the pointers before its NULL *)
  s_proctitle_space : Z;
  s_proctitle_inited : bool;
  s_p_proctitle : Z;
  s_proctitle_prefix_str : mystr
}.

Definition with_mem (m : memory) (s : proctitle) : proctitle :=
  MkProctitle m (argv s) (environ s) (s_proctitle_space s) (s_proctitle_inited s) (s_p_proctitle s)
    (s_proctitle_prefix_str s).

Definition vsf_sysutil_set_proctitle_prefix (p_str : mystr) (s : proctitle) : res proctitle :=
  let* prefix := str_copy (s_proctitle_prefix_str s) p_str in
  Ok (MkProctitle (mem s) (argv s) (environ s) (s_proctitle_space s) (s_proctitle_inited s)
        (s_p_proctitle s) prefix).

(** The space of the strings of argv, whose pointers but the first are cleared. *)
Fixpoint argv_loop (n i : nat) (m : memory) (argv : list Z) (space : Z) : res (Z * list Z) :=
  match n with
  | O => Ok (space, argv)
  | S n' =>
      match argv !! i with
      | None => Err UB
      | Some p =>
          let* t := string_at p m in
          let* l := vsf_sysutil_strlen t in
          argv_loop n' (S i) m (if (0 <? i)%nat then <[i := 0]> argv else argv) (u32 (space + (l + 1)))
      end
  end.

Fixpoint environ_loop (m : memory) (p_env : list Z) (space : Z) : res Z :=
  match p_env with
  | [] => Ok space
  | p :: p_env' =>
      let* t := string_at p m in
      let* l := vsf_sysutil_strlen t in
      environ_loop m p_env' (u32 (space + (l + 1)))
  end.

Definition vsf_sysutil_memclr (p_dest size : Z) (m : memory) : res memory :=
  store p_dest (replicate (Z.to_nat size) NUL) m.

Definition vsf_sysutil_setproctitle_init (argc : nat) (s : proctitle) : res proctitle :=
  if s_proctitle_inited s then bug "vsf_sysutil_setproctitle_init called twice"
  else
    match argv s !! 0%nat with
    | None => Err UB
    | Some p =>
        if p =? 0 then die "no argv[0] in vsf_sysutil_setproctitle_init"
        else
          let* (space, argv) := argv_loop argc 0 (mem s) (argv s) (s_proctitle_space s) in
          match environ s with
          | None => Err UB
          | Some p_env =>
              let* space := environ_loop (mem s) p_env space in
              let* m := vsf_sysutil_memclr p space (mem s) in
              Ok (MkProctitle m argv None space true p (s_proctitle_prefix_str s))
          end
    end.

Definition vsf_sysutil_setproctitle_internal (p_buf_text : bytes) (s : proctitle) : res proctitle :=
  if negb (s_proctitle_inited s) then bug "vsf_sysutil_setproctitle: not initialized"
  else
    let* m := vsf_sysutil_memclr (s_p_proctitle s) (s_proctitle_space s) (mem s) in
    if s_proctitle_space s <? 32 then Ok (with_mem m s)
    else
      let* proctitle_str := str_alloc_text INIT_MYSTR (lit "vsftpd: ") in
      let* proctitle_str := str_append_text proctitle_str p_buf_text in
      let to_copy := str_getlen proctitle_str in
      let to_copy := if s_proctitle_space s - 1 <? to_copy then s_proctitle_space s - 1 else to_copy in
      let* (buf, proctitle_str) := str_getbuf proctitle_str in
      if INT_MAX <? to_copy then die "possible negative value to memcpy?"
      else
        let* src := read_cells buf 0 to_copy in
        let* m := store (s_p_proctitle s) src m in
        let* m := store (s_p_proctitle s + to_copy) [NUL] m in
        Ok (with_mem m s).

Definition vsf_sysutil_setproctitle (p_text : bytes) (s : proctitle) : res proctitle :=
  let* proctitle_str := str_copy INIT_MYSTR (s_proctitle_prefix_str s) in
  let* proctitle_str :=
    if negb (str_isempty proctitle_str) then str_append_text proctitle_str (lit ": ")
    else Ok proctitle_str in
  let* proctitle_str := str_append_text proctitle_str p_text in
  let* (text, _) := getbuf_text proctitle_str in
  vsf_sysutil_setproctitle_internal text s.

(** With the string, which may get a buffer. *)
Definition vsf_sysutil_setproctitle_str (p_str : mystr) (s : proctitle) : res (mystr * proctitle) :=
  let* (text, p_str) := getbuf_text p_str in
  let* s := vsf_sysutil_setproctitle text s in
  Ok (p_str, s).

(** ** Memory that holds strings *)

(** The bytes [bs] from [p] on. *)
Definition holds (m : memory) (p : Z) (bs : bytes) : Prop :=
  ∀ i b, bs !! i = Some b → m !! (p + Z.of_nat i) = Some b.

Lemma holds_cons m p b bs : holds m p (b :: bs) ↔ m !! p = Some b ∧ holds m (p + 1) bs.
Proof.
  split.
  - intros H. split; [specialize (H 0%nat b eq_refl); by rewrite Z.add_0_r in H|].
    intros i c Hi. specialize (H (S i) c Hi). by replace (p + 1 + Z.of_nat i) with (p + Z.of_nat (S i)) by lia.
  - intros [H0 H] [|i] c Hi; cbn in Hi.
    + simplify_eq. by rewrite Z.add_0_r.
    + specialize (H i c Hi). by replace (p + Z.of_nat (S i)) with (p + 1 + Z.of_nat i) by lia.
Qed.

Lemma holds_app m p s t : holds m p (s ++ t) ↔ holds m p s ∧ holds m (p + zlen s) t.
Proof.
  revert p; induction s as [|b s IH]; intros p; cbn [app].
  - unfold zlen. cbn. rewrite Z.add_0_r. split; [|tauto]. intros H. split; [|done]. intros i b. by rewrite lookup_nil.
  - rewrite !holds_cons, IH. replace (p + zlen (b :: s)) with (p + 1 + zlen s) by (unfold zlen; cbn; lia). tauto.
Qed.

Lemma holds_size m p bs : holds m p bs → (length bs <= size m)%nat.
Proof.
  intros H. rewrite <- size_dom. transitivity (size (list_to_set (seqZ p (zlen bs)) : gset Z)).
  - rewrite size_list_to_set by apply NoDup_seqZ. rewrite length_seqZ. unfold zlen. lia.
  - apply subseteq_size. intros x Hx%elem_of_list_to_set%elem_of_seqZ. apply elem_of_dom.
    destruct (lookup_lt_is_Some_2 bs (Z.to_nat (x - p))) as [b Hb]; [unfold zlen in Hx; lia|].
    specialize (H _ _ Hb). rewrite Z2Nat.id in H by lia. replace (p + (x - p)) with x in H by lia. eauto.
Qed.

Lemma string_at_holds m p s : NUL ∉ s → holds m p (s ++ [NUL]) → string_at p m = Ok s.
Proof.
  intros Hn Hh. unfold string_at. pose proof (holds_size _ _ _ Hh) as Hf. rewrite length_app in Hf.
  cbn [length] in Hf. revert Hf. generalize (size m). intros fuel Hf.
  assert (length s < S fuel)%nat as Hl by lia. clear Hf. revert fuel p Hn Hh Hl.
  induction s as [|c s IH]; intros fuel p Hn Hh Hl; cbn [app] in Hh;
    apply holds_cons in Hh as [H0 Hh]; cbn [string_loop]; rewrite H0.
  - by rewrite bool_decide_eq_true_2.
  - apply not_elem_of_cons in Hn as [Hc Hn]. rewrite bool_decide_eq_false_2 by done.
    destruct fuel as [|fuel]; [cbn in Hl; lia|]. cbn [length] in Hl. rewrite IH; [done..|lia].
Qed.

(** A store within what is mapped: it changes exactly its bytes. *)
Lemma store_ok p old new m :
  holds m p old → length new = length old →
  returns (store p new m) (λ m', holds m' p new ∧
    ∀ x, ¬ (p ≤ x < p + zlen new) → m' !! x = m !! x).
Proof.
  revert p old m; induction new as [|b new IH]; intros p [|c old] m Ho Hl; try done; cbn [store].
  - apply returns_ok. split; [intros i b; by rewrite lookup_nil|done].
  - apply holds_cons in Ho as [H0 Ho]. rewrite H0.
    assert (∀ i, m !! (p + 1 + Z.of_nat i) = <[p := b]> m !! (p + 1 + Z.of_nat i)) as Hi
      by (intros i; rewrite lookup_insert_ne by lia; done).
    destruct (IH (p + 1) old (<[p := b]> m)) as (m' & -> & Hm' & Hx); [|cbn in Hl; lia|].
    { intros i d Hd. rewrite <- Hi. by apply Ho. }
    apply returns_ok. split.
    + apply holds_cons. split; [|done]. rewrite Hx by lia. by rewrite lookup_insert_eq.
    + intros x Hxr. unfold zlen in *. cbn [length] in Hxr. rewrite Hx by lia.
      rewrite lookup_insert_ne by lia. done.
Qed.

(** ** What the kernel lays out *)

(** The strings, one after the other, and where they begin. *)
Definition strings (ss : list bytes) : bytes := concat ((λ s, s ++ [NUL]) <$> ss).

Fixpoint pointers (p : Z) (ss : list bytes) : list Z :=
  match ss with [] => [] | s :: ss' => p :: pointers (p + zlen s + 1) ss' end.

(** A process before [vsf_sysutil_setproctitle_init]: the strings of argv, then
    those of environ, from [base] on. *)
Record laid_out (base : Z) (args env : list bytes) (s : proctitle) : Prop := {
  laid_mem : holds (mem s) base (strings (args ++ env));
  laid_argv : argv s = pointers base args ++ [0];
  laid_environ : environ s = Some (pointers (base + zlen (strings args)) env);
  laid_fresh : s_proctitle_inited s = false ∧ s_proctitle_space s = 0 ∧
               s_proctitle_prefix_str s = INIT_MYSTR
}.

Definition c_text (s : bytes) : Prop := (NUL ∉ s) ∧ text_ok s.

Lemma strings_cons s ss : strings (s :: ss) = (s ++ [NUL]) ++ strings ss.
Proof. done. Qed.

Lemma strings_app ss tt : strings (ss ++ tt) = strings ss ++ strings tt.
Proof. unfold strings. by rewrite fmap_app, concat_app. Qed.

Lemma pointers_length p ss : length (pointers p ss) = length ss.
Proof. revert p; induction ss as [|s ss IH]; intros p; cbn; [done|]. by rewrite IH. Qed.

Lemma string_length m p s : c_text s → holds m p (s ++ [NUL]) →
  string_at p m = Ok s ∧ vsf_sysutil_strlen s = Ok (zlen s).
Proof. intros [Hn Ht] Hh. split; [by apply string_at_holds|by apply strlen_ok]. Qed.

Lemma zlen_string s : zlen (s ++ [NUL]) = zlen s + 1.
Proof. autorewrite with vsf_rw. lia. Qed.

Lemma environ_loop_ok m ss : ∀ p space,
  Forall c_text ss → holds m p (strings ss) → 0 ≤ space → space + zlen (strings ss) < UINT_MOD →
  environ_loop m (pointers p ss) space = Ok (space + zlen (strings ss)).
Proof.
  induction ss as [|s ss IH]; intros p space Hss Hh H0 Hlt; cbn [pointers environ_loop].
  - unfold zlen. cbn. by rewrite Z.add_0_r.
  - rewrite strings_cons in *. apply Forall_cons in Hss as [Hs Hss]. apply holds_app in Hh as [Hh1 Hh2].
    rewrite zlen_app in *. rewrite zlen_string in *. pose proof (zlen_nonneg s). pose proof (zlen_nonneg (strings ss)).
    destruct (string_length _ _ _ Hs Hh1) as [Ha Hb]. rewrite Ha. cbn [res_bind]. rewrite Hb. cbn [res_bind].
    rewrite u32_small, IH; [f_equal; lia|done| |lia..].
    by replace (p + zlen s + 1) with (p + (zlen s + 1)) by lia.
Qed.

(** The pointers are read before they are cleared. *)
Lemma argv_loop_ok m args env : ∀ p done_ptrs space,
  Forall c_text args → holds m p (strings args) → 0 ≤ space → space + zlen (strings args) < UINT_MOD →
  ∃ argv', argv_loop (length args) (length done_ptrs) m (done_ptrs ++ pointers p args ++ env) space
           = Ok (space + zlen (strings args), argv').
Proof.
  induction args as [|s ss IH]; intros p dp space Hss Hh H0 Hlt; cbn [pointers argv_loop length].
  - exists (dp ++ env). unfold zlen. cbn. by rewrite Z.add_0_r.
  - rewrite strings_cons in *. apply Forall_cons in Hss as [Hs Hss]. apply holds_app in Hh as [Hh1 Hh2].
    rewrite zlen_app in *. rewrite zlen_string in *. pose proof (zlen_nonneg s). pose proof (zlen_nonneg (strings ss)).
    cbn [app]. rewrite list_lookup_middle by done.
    destruct (string_length _ _ _ Hs Hh1) as [Ha Hb]. rewrite Ha. cbn [res_bind]. rewrite Hb. cbn [res_bind]. rewrite u32_small by lia.
    set (q := if (0 <? length dp)%nat then 0 else p).
    replace (if (0 <? length dp)%nat then <[length dp:=0]> (dp ++ p :: pointers (p + zlen s + 1) ss ++ env)
             else dp ++ p :: pointers (p + zlen s + 1) ss ++ env)
      with ((dp ++ [q]) ++ pointers (p + zlen s + 1) ss ++ env).
    2:{ subst q. rewrite <- app_assoc. destruct (0 <? _)%nat; [|done].
        by rewrite insert_app_r_alt, Nat.sub_diag by lia. }
    replace (S (length dp)) with (length (dp ++ [q])) by (rewrite length_app; cbn; lia).
    destruct (IH (p + zlen s + 1) (dp ++ [q]) (space + (zlen s + 1))) as [argv' ->]; [done| |lia..|].
    { by replace (p + zlen s + 1) with (p + (zlen s + 1)) by lia. }
    exists argv'. do 2 f_equal. lia.
Qed.

(** ** The specification *)

(** The line of a title, and the [total] bytes that show it. *)
Definition title_line (prefix text : bytes) : bytes :=
  lit "vsftpd: " ++ cstr (prefix ++ (if decide (prefix = []) then [] else lit ": ") ++ text).

Definition nuls (n : Z) : bytes := replicate (Z.to_nat n) NUL.

Definition title_area (total : Z) (line : bytes) : bytes :=
  if total <? 32 then nuls total
  else let shown := take (Z.to_nat (total - 1)) line in shown ++ nuls (total - zlen shown).

(** The prefix is set, or a title is, as a C string or as a [mystr]. *)
Inductive title_op :=
  | SetPrefix (p : bytes)
  | Title (text : bytes)
  | TitleStr (text : bytes).

Definition op_text (o : title_op) : bytes := match o with SetPrefix p | Title p | TitleStr p => p end.

(** A [mystr] with the text. *)
Definition mystr_of (bs : bytes) : mystr := MkStr (Some ((Some <$> bs) ++ [Some NUL])) (zlen bs) (zlen bs + 1).

Definition title_step (o : title_op) (s : proctitle) : res proctitle :=
  match o with
  | SetPrefix p => vsf_sysutil_set_proctitle_prefix (mystr_of p) s
  | Title t => vsf_sysutil_setproctitle (cstr t) s
  | TitleStr t => let* (_, s) := vsf_sysutil_setproctitle_str (mystr_of t) s in Ok s
  end.

Fixpoint title_steps (ops : list title_op) (s : proctitle) : res proctitle :=
  match ops with [] => Ok s | o :: ops' => let* s := title_step o s in title_steps ops' s end.

(** The prefix and the area. *)
Definition spec_step (total : Z) (o : title_op) (st : bytes * bytes) : bytes * bytes :=
  match o with
  | SetPrefix p => (p, st.2)
  | Title t | TitleStr t => (st.1, title_area total (title_line st.1 (cstr t)))
  end.

Definition spec_area (total : Z) (ops : list title_op) : bytes :=
  (foldl (λ st o, spec_step total o st) ([], nuls total) ops).2.

(** ** The title stays in its place *)

Lemma mystr_of_repr bs : zlen bs < INT_MAX → repr (mystr_of bs) bs.
Proof.
  intros H. split; [done|]. cbn [p_buf alloc_bytes mystr_of].
  split; [autorewrite with vsf_rw; lia|]. split; [autorewrite with vsf_rw; lia|]. by exists [].
Qed.

Lemma zlen_nuls n : 0 ≤ n → zlen (nuls n) = n.
Proof. intros H. unfold nuls, zlen. rewrite length_replicate. lia. Qed.

Lemma zlen_title_area total line : 0 ≤ total → zlen (title_area total line) = total.
Proof.
  intros H. unfold title_area. destruct (total <? 32) eqn:Ht; b2p; [by apply zlen_nuls|].
  cbv zeta. rewrite zlen_app, zlen_nuls; autorewrite with vsf_rw; lia.
Qed.

Lemma cstr_shorter s : (length (cstr s) <= length s)%nat.
Proof. induction s as [|c s IH]; cbn; [done|]. case_bool_decide; cbn; lia. Qed.

Lemma zlen_cstr s : zlen (cstr s) ≤ zlen s.
Proof. pose proof (cstr_shorter s). unfold zlen. lia. Qed.

(** What every step after the first keeps. *)
Record titled (base total : Z) (m0 : memory) (st : bytes * bytes) (s : proctitle) : Prop := {
  titled_inited : s_proctitle_inited s = true;
  titled_base : s_p_proctitle s = base;
  titled_space : s_proctitle_space s = total;
  titled_prefix : repr (s_proctitle_prefix_str s) st.1;
  titled_len : zlen st.1 ≤ 2 ^ 26;
  titled_area : zlen st.2 = total ∧ holds (mem s) base st.2;
  titled_rest : ∀ x, ¬ (base ≤ x < base + total) → mem s !! x = m0 !! x
}.

(** Two stores in the area, at its start and right behind. *)
Lemma holds_over m m' p s t u :
  holds m' p s → (∀ x, ¬ (p ≤ x < p + zlen s) → m' !! x = m !! x) → holds m p (t ++ u) →
  zlen s = zlen t → holds m' p (s ++ u).
Proof.
  intros Hs Hx [_ Hu]%holds_app Hl. apply holds_app. split; [done|]. rewrite Hl.
  intros i b Hb. rewrite Hx by lia. by apply Hu.
Qed.

Lemma nuls_split n k : 0 ≤ k ≤ n → nuls n = nuls k ++ nuls (n - k).
Proof. intros H. unfold nuls. rewrite <- replicate_add. f_equal. lia. Qed.

Lemma clear_ok base total m0 st s :
  titled base total m0 st s →
  returns (vsf_sysutil_memclr base total (mem s)) (λ m, holds m base (nuls total) ∧
    ∀ x, ¬ (base ≤ x < base + total) → m !! x = m0 !! x).
Proof.
  intros [_ _ _ _ _ [Hl Hh] Hrest]. pose proof (zlen_nonneg st.2).
  eapply returns_mono; [apply (store_ok base st.2 _ (mem s) Hh)|].
  - unfold zlen in *. rewrite length_replicate. lia.
  - intros m [Hm Hx]. split; [done|]. intros x Hxr. rewrite Hx, Hrest; [done..|].
    rewrite zlen_replicate. lia.
Qed.

(** The text of a title over an area that is clear. *)
Lemma write_title_ok base total line m :
  0 ≤ total → zlen line < total → holds m base (nuls total) →
  returns (let* m := store base line m in store (base + zlen line) [NUL] m) (λ m',
    holds m' base (line ++ nuls (total - zlen line)) ∧
    ∀ x, ¬ (base ≤ x < base + total) → m' !! x = m !! x).
Proof.
  intros H0 Hl Hh. pose proof (zlen_nonneg line). rewrite (nuls_split _ (zlen line)) in Hh by lia.
  pose proof (proj1 (proj1 (holds_app _ _ _ _) Hh)) as Hold.
  eapply bind_returns; [apply (store_ok _ _ line _ Hold); unfold nuls, zlen; rewrite length_replicate; lia|].
  intros m1 [Hm1 Hx1].
  assert (holds m1 base (line ++ nuls (total - zlen line))) as Hh1
    by (eapply holds_over; [done|done|exact Hh|by rewrite zlen_nuls]).
  pose proof (proj2 (proj1 (holds_app _ _ _ _) Hh1)) as Hend.
  rewrite (nuls_split _ 1) in Hend by lia. apply holds_cons in Hend as [Hend _].
  assert (holds m1 (base + zlen line) [NUL]) as Hnul by (apply holds_cons; split; [done|intros i b; by rewrite lookup_nil]).
  eapply returns_mono; [by apply (store_ok _ _ [NUL] _ Hnul)|]. intros m2 [Hm2 Hx2].
  assert (∀ x, m2 !! x = m1 !! x) as Hsame.
  { intros x. destruct (decide (x = base + zlen line)) as [->|Hne].
    - apply holds_cons in Hm2 as [-> _]. by rewrite Hend.
    - apply Hx2. change (zlen [NUL]) with 1. lia. }
  split.
  - intros i b Hb. rewrite Hsame. by apply Hh1.
  - intros x Hx. rewrite Hsame, Hx1 by lia. done.
Qed.

Lemma setproctitle_internal_ok base total m0 st s text :
  titled base total m0 st s → 0 ≤ total → text_ok text → zlen text ≤ 2 ^ 27 + 2 →
  returns (vsf_sysutil_setproctitle_internal text s)
    (titled base total m0 (st.1, title_area total (lit "vsftpd: " ++ text))).
Proof.
  intros Hs H0 Htext Hlen. unfold vsf_sysutil_setproctitle_internal.
  rewrite (titled_inited _ _ _ _ _ Hs), (titled_base _ _ _ _ _ Hs), (titled_space _ _ _ _ _ Hs). cbn [negb].
  eapply bind_returns; [by eapply clear_ok|]. intros m1 [Hm1 Hx1].
  assert (∀ m area, zlen area = total → holds m base area →
    (∀ x, ¬ (base ≤ x < base + total) → m !! x = m0 !! x) → titled base total m0 (st.1, area) (with_mem m s)) as Hdone
    by (intros m area Ha1 Ha2 Hx; destruct Hs; by split).
  unfold title_area. destruct (total <? 32) eqn:Ht; b2p.
  { apply returns_ok. apply Hdone; [by apply zlen_nuls|done|done]. }
  assert (text_ok (lit "vsftpd: ")) as Hpre by by vm_compute.
  eapply bind_returns; [by apply (alloc_text_ok INIT_MYSTR []); [done|]|]. intros t1 Ht1.
  eapply bind_returns; [apply (append_text_ok _ _ _ Ht1 Htext); unfold fits; rewrite zlen_app;
    change (zlen (lit "vsftpd: ")) with 8; unfold INT_MAX; lia|]. intros t2 Ht2.
  set (line := lit "vsftpd: " ++ text) in *.
  assert (zlen line = 8 + zlen text) as Hline by (unfold line; by rewrite zlen_app).
  unfold str_getlen. rewrite (repr_len _ _ Ht2). set (to_copy := if _ <? zlen line then _ else _).
  assert (to_copy = zlen (take (Z.to_nat (total - 1)) line)) as Hcopy.
  { rewrite zlen_take. subst to_copy. destruct (_ <? zlen line) eqn:Hlt; b2p; lia. }
  eapply bind_returns; [by apply (getbuf_ok _ _ Ht2)|]. intros [buf t3] (Hbuf & _ & Ht3). cbn [fst snd] in *.
  assert (to_copy ≤ zlen line) as Hle by (rewrite Hcopy, zlen_take; lia).
  destruct (INT_MAX <? to_copy) eqn:Hbig; [b2p; unfold INT_MAX in Hbig; lia|]. subst buf.
  rewrite (read_repr _ _ _ _ Ht3) by (rewrite ?Hcopy; pose proof (zlen_nonneg (take (Z.to_nat (total - 1)) line)); lia).
  cbn [res_bind drop]. change (drop (Z.to_nat 0) line) with line.
  assert (take (Z.to_nat to_copy) line = take (Z.to_nat (total - 1)) line) as ->.
  { rewrite Hcopy, zlen_take. destruct (decide (total - 1 ≤ zlen line)); [f_equal; lia|].
    rewrite !take_ge by (unfold zlen in *; lia). done. }
  rewrite Hcopy. set (shown := take _ line) in *. cbv zeta.
  assert (zlen shown < total) as Hshown by (unfold shown; rewrite zlen_take; lia).
  destruct (write_title_ok base total shown m1) as (m2 & Hm2 & Hh2 & Hx2); [done..|].
  destruct (store base shown m1) as [mm|e]; cbn [res_bind] in *; [|done]. rewrite Hm2.
  apply returns_ok, Hdone; [|done|].
  - rewrite zlen_app, zlen_nuls by lia. lia.
  - intros x Hx. by rewrite Hx2, Hx1.
Qed.

Lemma short_text_ok t : zlen t ≤ 2 ^ 27 + 2 → text_ok t.
Proof. unfold text_ok. change (INT_MAX / 8) with 268435455. lia. Qed.

Lemma setproctitle_ok base total m0 st s text :
  titled base total m0 st s → 0 ≤ total → zlen text ≤ 2 ^ 26 →
  returns (vsf_sysutil_setproctitle text s)
    (titled base total m0 (st.1, title_area total (title_line st.1 text))).
Proof.
  intros Hs H0 Hlen. pose proof (titled_prefix _ _ _ _ _ Hs) as Hp. pose proof (titled_len _ _ _ _ _ Hs) as Hpl.
  unfold vsf_sysutil_setproctitle. eapply bind_returns; [by apply (copy_ok INIT_MYSTR [] _ st.1); [done|]|]. intros t1 Ht1.
  set (sep := if decide (st.1 = []) then [] else lit ": ").
  assert (zlen sep ≤ 2) as Hsep by (unfold sep; case_decide; by vm_compute).
  assert (fits (st.1 ++ sep)) as Hf1 by (unfold fits; rewrite zlen_app; unfold INT_MAX; lia).
  eapply (bind_returns _ _ (λ t, repr t (st.1 ++ sep))).
  { unfold str_isempty, sep in *. rewrite (repr_len _ _ Ht1). case_decide as Hd.
    - rewrite Hd in *. apply returns_ok. exact Ht1.
    - destruct (zlen st.1 =? 0) eqn:Hz; [b2p; by apply zlen_zero in Hz|]. cbn [negb].
      by apply append_text_ok; [|vm_compute|]. }
  intros t2 Ht2.
  assert (fits ((st.1 ++ sep) ++ text)) as Hf2 by (unfold fits; rewrite !zlen_app; unfold INT_MAX; lia).
  eapply bind_returns; [apply (append_text_ok _ _ _ Ht2); [apply short_text_ok; lia|done]|]. intros t3 Ht3.
  eapply bind_returns; [by apply (getbuf_text_ok _ _ Ht3)|]. intros [txt t4] [Htxt _]; cbn [fst] in Htxt; subst txt.
  rewrite <- app_assoc in *. pose proof (zlen_cstr (st.1 ++ sep ++ text)) as Hc. rewrite !zlen_app in Hc.
  apply setproctitle_internal_ok; [done|done|apply short_text_ok; lia|lia].
Qed.

Definition op_short (o : title_op) : Prop := zlen (op_text o) ≤ 2 ^ 26.

Lemma title_step_ok base total m0 st s o :
  titled base total m0 st s → 0 ≤ total → op_short o →
  returns (title_step o s) (titled base total m0 (spec_step total o st)).
Proof.
  intros Hs H0 Ho. unfold op_short in Ho.
  assert (repr (mystr_of (op_text o)) (op_text o)) as Hr by (apply mystr_of_repr; unfold INT_MAX; lia).
  destruct o as [p|t|t]; cbn [op_text title_step spec_step] in *.
  - unfold vsf_sysutil_set_proctitle_prefix. destruct Hs.
    eapply bind_returns; [by eapply copy_ok|]. intros q Hq. apply returns_ok. by split.
  - pose proof (zlen_cstr t). apply setproctitle_ok; [done|done|lia].
  - pose proof (zlen_cstr t). unfold vsf_sysutil_setproctitle_str.
    destruct (getbuf_text_ok _ _ Hr) as ([txt q] & Hgt & Htxt & _). cbn [fst] in Htxt. subst txt. rewrite Hgt. cbn [res_bind].
    destruct (setproctitle_ok base total m0 st s (cstr t)) as (s' & -> & Hs'); [done|done|lia|].
    by apply returns_ok.
Qed.

Lemma title_steps_ok base total m0 ops : ∀ st s,
  titled base total m0 st s → 0 ≤ total → Forall op_short ops →
  returns (title_steps ops s) (titled base total m0 (foldl (λ st o, spec_step total o st) st ops)).
Proof.
  induction ops as [|o ops IH]; intros st s Hs H0 Hops; cbn [title_steps foldl]; [by apply returns_ok|].
  apply Forall_cons in Hops as [Ho Hops]. eapply bind_returns; [by eapply title_step_ok|]. intros s' Hs'. by apply IH.
Qed.

Lemma init_ok base args env s :
  let total := zlen (strings (args ++ env)) in
  laid_out base args env s → base ≠ 0 → args ≠ [] → Forall c_text (args ++ env) → total < UINT_MOD →
  returns (vsf_sysutil_setproctitle_init (length args) s) (titled base total (mem s) ([], nuls total)).
Proof.
  intros total [Hm Ha He (Hi & Hsp & Hpr)] Hb Hne Hc Htot. unfold vsf_sysutil_setproctitle_init. rewrite Hi, Ha.
  assert (total = zlen (strings args) + zlen (strings env)) as Hsum by (unfold total; by rewrite strings_app, zlen_app).
  pose proof (zlen_nonneg (strings args)). pose proof (zlen_nonneg (strings env)).
  apply Forall_app in Hc as [Hca Hce]. pose proof Hm as Hm'. rewrite strings_app in Hm'. apply holds_app in Hm' as [Hma Hme].
  destruct args as [|a args]; [done|]. replace ((pointers base (a :: args) ++ [0]) !! 0%nat) with (Some base) by done.
  rewrite (proj2 (Z.eqb_neq base 0) Hb), Hsp.
  destruct (argv_loop_ok (mem s) (a :: args) [0] base [] 0 Hca Hma) as [argv' Hargv]; [lia..|].
  change (length []) with 0%nat in Hargv. rewrite app_nil_l in Hargv. rewrite Hargv. cbn [res_bind]. rewrite He.
  rewrite environ_loop_ok by (done || lia). cbn [res_bind]. rewrite Z.add_0_l, <- Hsum.
  destruct (store_ok base (strings ((a :: args) ++ env)) (nuls total) (mem s) Hm) as (m & Hst & Hh & Hx).
  { unfold nuls, total, zlen. rewrite length_replicate. lia. }
  unfold vsf_sysutil_memclr. unfold nuls in Hst. rewrite Hst. cbn [res_bind]. apply returns_ok. rewrite Hpr.
  rewrite zlen_nuls in Hx by lia. split; try done. split; [apply zlen_nuls; lia|done].
Qed.

(** C35: The title never leaves its place. In a process with the strings of argv and
    environ as the kernel lays them out, the initialisation and then any prefixes
    and titles succeed: no byte outside those strings changes, and over them there
    is the last title - "vsftpd: ", the prefix and the text, cut to one byte less
    than the space - with NULs to the end, or only NULs when there are fewer than
    32 bytes. The strings of argv and environ together are shorter than 2^32 bytes,
    and each prefix or title is at most 2^26 bytes long. *)
Theorem title_in_place (base : Z) (args env : list bytes) (ops : list title_op) (s : proctitle) :
  let total := zlen (strings (args ++ env)) in
  laid_out base args env s → base ≠ 0 → args ≠ [] → Forall c_text (args ++ env) → total < UINT_MOD →
  Forall op_short ops →
  ∃ s1 s2, vsf_sysutil_setproctitle_init (length args) s = Ok s1 ∧ title_steps ops s1 = Ok s2 ∧
    (∀ x, ¬ (base ≤ x < base + total) → mem s2 !! x = mem s !! x) ∧
    zlen (spec_area total ops) = total ∧ holds (mem s2) base (spec_area total ops).
Proof.
  intros total Hlaid Hb Hne Hc Htot Hops. destruct (init_ok base args env s) as (s1 & Hs1 & Ht1); [done..|].
  destruct (title_steps_ok base total (mem s) ops _ _ Ht1) as (s2 & Hs2 & Ht2); [apply zlen_nonneg|done|].
  exists s1, s2. split; [done|]. split; [done|]. destruct Ht2 as [_ _ _ _ _ [Hl Hh] Hx]. done.
Qed.

(** Two arguments and one variable, and two titles, of which the second is cut. *)
Definition lab_args : list bytes := [lit "./vsftpd"; lit "vsftpd.conf"].
Definition lab_env : list bytes := [lit "HOME=/root"; lit "TERM=xterm"].
Definition lab_ops : list title_op :=
  [Title (lit "LISTENER"); SetPrefix (lit "10.1.2.3"); TitleStr (lit "RETR a-very-long-name-of-a-file")].

(** The bytes from [p] on. *)
Definition memory_of (p : Z) (bs : bytes) : memory := list_to_map (imap (λ i b, (p + Z.of_nat i, b)) bs).

Definition lab_process : proctitle :=
  MkProctitle (memory_of 1000 (lit "before" ++ strings (lab_args ++ lab_env) ++ lit "behind"))
    (pointers 1006 lab_args ++ [0]) (Some (pointers (1006 + zlen (strings lab_args)) lab_env)) 0 false 0 INIT_MYSTR.

Definition holds_b (m : memory) (p : Z) (bs : bytes) : bool :=
  forallb (λ ib, bool_decide (m !! (p + Z.of_nat ib.1) = Some ib.2)) (imap pair bs).

Lemma holds_b_holds m p bs : holds_b m p bs = true → holds m p bs.
Proof.
  unfold holds_b. rewrite forallb_forall. intros H i b Hi.
  specialize (H (i, b)). apply (bool_decide_unpack (m !! (p + Z.of_nat i) = Some b)).
  apply Is_true_true, H, list_elem_of_In, list_elem_of_lookup. exists i.
  by rewrite list_lookup_imap, Hi.
Qed.

Lemma title_in_place_witness :
  ∃ s1 s2, vsf_sysutil_setproctitle_init 2 lab_process = Ok s1 ∧ title_steps lab_ops s1 = Ok s2 ∧
    (∀ x, ¬ (1006 ≤ x < 1006 + 43) → mem s2 !! x = mem lab_process !! x) ∧
    zlen (lit "vsftpd: 10.1.2.3: RETR a-very-long-name-of" ++ [NUL]) = 43 ∧
    holds (mem s2) 1006 (lit "vsftpd: 10.1.2.3: RETR a-very-long-name-of" ++ [NUL]).
Proof.
  apply (title_in_place 1006 lab_args lab_env lab_ops lab_process).
  - split; [apply holds_b_holds; vm_compute; reflexivity|reflexivity|reflexivity|done].
  - discriminate.
  - discriminate.
  - vmdec.
  - vmdec.
  - vmdec.
Defined.
