(* ===== verification/DoubleStr.v ===== *)
(** * Doubles in text

    [vsf_sysutil_double_to_str] of sysutil.c and [str_append_double] of str.c. A
    double is the standard library's [spec_float]; printf's "%.2f" rounds its exact
    value to hundredths, half to even. *)

From Stdlib Require Import Init.Byte Strings.Byte.
From Stdlib Require Import ZArith Lia String.
From Stdlib Require Import Floats.SpecFloat.
From stdpp Require Import base list numbers option strings.
From S2P Require Import Prelude SysUtil Str Text StrRefine.
Import ResNotations.

(** [a / b], to the nearest integer, half to even. *)
Definition div_even (a b : Z) : Z :=
  let q := a / b in
  let r := a mod b in
  if (2 * r <? b) || ((2 * r =? b) && Z.even q) then q else q + 1.

(** The hundredths of [m * 2 ^ e]. *)
Definition hundredths (m : positive) (e : Z) : Z :=
  if 0 <=? e then Z.pos m * 100 * 2 ^ e else div_even (Z.pos m * 100) (2 ^ (- e)).

Definition minus (s : bool) : bytes := if s then [x2d] else [].

Definition print_hundredths (n : Z) : bytes :=
  print_base 10 (n / 100) ++ x2e :: [to_char (48 + n mod 100 / 10); to_char (48 + n mod 10)].

(** [snprintf] keeps 31 characters. *)
Definition vsf_sysutil_double_to_str (the_double : spec_float) : bytes :=
  take 31
    match the_double with
    | S754_zero s => minus s ++ print_hundredths 0
    | S754_infinity s => minus s ++ lit "inf"
    | S754_nan => lit "nan"
    | S754_finite s m e => minus s ++ print_hundredths (hundredths m e)
    end.

Definition str_append_double (p_str : mystr) (the_double : spec_float) : res mystr :=
  str_append_text p_str (vsf_sysutil_double_to_str the_double).

(** ** The text is the value *)

Lemma div_even_near a b : 0 < b → 2 * Z.abs (a - div_even a b * b) ≤ b.
Proof.
  intros Hb. unfold div_even. pose proof (Z.div_mod a b ltac:(lia)). pose proof (Z.mod_pos_bound a b Hb).
  destruct (2 * (a mod b) <? b) eqn:H1; cbn [orb]; b2p; [nia|].
  destruct (2 * (a mod b) =? b) eqn:H2; cbn [andb]; b2p; [destruct (Z.even _); nia|nia].
Qed.

(** A tie goes to the even neighbour. *)
Lemma div_even_tie a b : 0 < b → 2 * (a mod b) = b → Z.even (div_even a b) = true.
Proof.
  intros Hb Ht. unfold div_even. rewrite (proj2 (Z.ltb_ge _ _)), (proj2 (Z.eqb_eq _ _)) by lia. cbn [orb andb].
  destruct (Z.even (a / b)) eqn:He; [done|]. rewrite Z.even_add, He. done.
Qed.

(** The digits before and behind the point. *)
Definition print_value (t : bytes) : Z :=
  match rev t with
  | d0 :: d1 :: _ :: units => dec_value (rev units) * 100 + digit_val d1 * 10 + digit_val d0
  | _ => 0
  end.

Lemma print_hundredths_value n : 0 ≤ n → print_value (print_hundredths n) = n.
Proof.
  intros Hn. unfold print_value, print_hundredths. rewrite rev_app_distr. cbn [rev app]. rewrite rev_involutive.
  rewrite print_base_dec_value by (apply Z.div_pos; lia).
  pose proof (Z.mod_pos_bound n 100 ltac:(lia)). pose proof (Z.mod_pos_bound n 10 ltac:(lia)).
  assert (0 ≤ n mod 100 / 10 < 10) by (split; [apply Z.div_pos|apply Z.div_lt_upper_bound]; lia).
  rewrite (proj2 (to_char_digit (n mod 100 / 10) ltac:(lia))), (proj2 (to_char_digit (n mod 10) ltac:(lia))).
  pose proof (Z.div_mod n 100 ltac:(lia)). pose proof (Z.div_mod (n mod 100) 10 ltac:(lia)).
  assert ((n mod 100) mod 10 = n mod 10).
  { apply Z.mod_mod_divide. by exists 10. }
  lia.
Qed.

(** The hundredths that are printed are the nearest to the value [m * 2 ^ e]. *)
Theorem double_text_nearest m e :
  e ≤ 0 → print_value (print_hundredths (hundredths m e)) = hundredths m e ∧
  2 * Z.abs (Z.pos m * 100 - hundredths m e * 2 ^ (- e)) ≤ 2 ^ (- e).
Proof.
  intros He. assert (0 < 2 ^ (- e)) as Hp by (apply Z.pow_pos_nonneg; lia).
  assert (hundredths m e = div_even (Z.pos m * 100) (2 ^ (- e))) as ->.
  { unfold hundredths. destruct (Z.leb_spec 0 e); [|done]. assert (e = 0) as -> by lia.
    unfold div_even. change (2 ^ (- 0)) with 1. change (2 ^ 0) with 1. rewrite Z.div_1_r, Z.mod_1_r.
    change (2 * 0 <? 1) with true. cbn [orb]. lia. }
  split; [|by apply div_even_near]. apply print_hundredths_value. unfold div_even.
  assert (0 ≤ Z.pos m * 100 / 2 ^ (- e)) by (apply Z.div_pos; lia). case_match; lia.
Qed.

(** Appending a double appends its text. *)
Lemma append_double_ok s bs d :
  repr s bs → fits (bs ++ vsf_sysutil_double_to_str d) →
  returns (str_append_double s d) (λ s', repr s' (bs ++ vsf_sysutil_double_to_str d)).
Proof.
  intros Hs Hf. apply append_text_ok; [done| |done].
  unfold text_ok, vsf_sysutil_double_to_str, zlen. rewrite length_take.
  transitivity 31; [lia|by vm_compute].
Qed.

(** 1.5, -0.125 (a tie), and special values. *)
Example double_texts :
  vsf_sysutil_double_to_str <$> [S754_finite false 3 (-1); S754_finite true 1 (-3); S754_zero true; S754_infinity false]
  = lit <$> ["1.50"; "-0.12"; "-0.00"; "inf"]%string.
Proof. by vm_compute. Qed.
