(* ===== verification/SysInfo.v ===== *)
(** * Files, dates and time zones

    sysutil.c: what the program reads off a [struct stat], the texts it makes of
    times, and the time zone that it keeps for the time after a chroot. The
    functions of the C library that depend on the machine (strftime's names,
    localtime, rand) answer as arguments. *)

From Stdlib Require Import Init.Byte Strings.Byte.
From Stdlib Require Import ZArith Lia String.
From stdpp Require Import base list numbers option strings.
From S2P Require Import Prelude SysUtil Str Text StrRefine.
Import ResNotations.

(** ** The mode of a file *)

Definition S_IFMT : Z := 61440.
Definition S_IFSOCK : Z := 49152.
Definition S_IFLNK : Z := 40960.
Definition S_IFREG : Z := 32768.
Definition S_IFBLK : Z := 24576.
Definition S_IFDIR : Z := 16384.
Definition S_IFCHR : Z := 8192.
Definition S_IFIFO : Z := 4096.
Definition S_ISUID : Z := 2048.
Definition S_ISGID : Z := 1024.
Definition S_ISVTX : Z := 512.

(** The fields of [struct stat] that are used. *)
Record statbuf := MkStat {
  st_mode : Z; st_nlink : Z; st_uid : Z; st_gid : Z; st_size : Z; st_mtime : Z
}.

Definition file_type (st : statbuf) : Z := Z.land (st_mode st) S_IFMT.
Definition has_bit (st : statbuf) (bit : Z) : bool := negb (Z.land (st_mode st) bit =? 0).

Definition vsf_sysutil_statbuf_is_regfile (st : statbuf) : bool := file_type st =? S_IFREG.
Definition vsf_sysutil_statbuf_is_symlink (st : statbuf) : bool := file_type st =? S_IFLNK.
Definition vsf_sysutil_statbuf_is_socket (st : statbuf) : bool := file_type st =? S_IFSOCK.
Definition vsf_sysutil_statbuf_is_dir (st : statbuf) : bool := file_type st =? S_IFDIR.

(** [st_uid] and [st_gid] are unsigned, the results are [int]s. *)
Definition vsf_sysutil_statbuf_get_uid (st : statbuf) : Z := s32 (st_uid st).
Definition vsf_sysutil_statbuf_get_gid (st : statbuf) : Z := s32 (st_gid st).
Definition vsf_sysutil_statbuf_get_links (st : statbuf) : Z := u32 (st_nlink st).
Definition vsf_sysutil_statbuf_is_readable_other (st : statbuf) : bool := has_bit st 4.

Definition type_char (st : statbuf) : byte :=
  let t := file_type st in
  if t =? S_IFREG then x2d else if t =? S_IFDIR then x64 else if t =? S_IFLNK then x6c
  else if t =? S_IFIFO then x70 else if t =? S_IFSOCK then x73 else if t =? S_IFCHR then x63
  else if t =? S_IFBLK then x62 else x3f.

(** [if (p_stat->st_mode & bit) perms[i] = c] *)
Definition mark (st : statbuf) (bit : Z) (i : nat) (c : byte) (perms : bytes) : res bytes :=
  if has_bit st bit then arr_set perms i c else Ok perms.

(** A set-id bit or the sticky bit over the execute bit. *)
Definition mark_special (st : statbuf) (bit : Z) (i : nat) (over alone : byte) (perms : bytes) : res bytes :=
  if has_bit st bit then
    let* c := arr_get perms i in
    arr_set perms i (if bool_decide (c = x78) then over else alone)
  else Ok perms.

Definition vsf_sysutil_statbuf_get_perms (st : statbuf) : res bytes :=
  let perms := replicate 10 x2d ++ [NUL] in
  let* perms := arr_set perms 0 x3f in
  let* perms := arr_set perms 0 (type_char st) in
  let* perms := mark st 256 1 x72 perms in
  let* perms := mark st 128 2 x77 perms in
  let* perms := mark st 64 3 x78 perms in
  let* perms := mark st 32 4 x72 perms in
  let* perms := mark st 16 5 x77 perms in
  let* perms := mark st 8 6 x78 perms in
  let* perms := mark st 4 7 x72 perms in
  let* perms := mark st 2 8 x77 perms in
  let* perms := mark st 1 9 x78 perms in
  let* perms := mark_special st S_ISUID 3 x73 x53 perms in
  let* perms := mark_special st S_ISGID 6 x73 x53 perms in
  let* perms := mark_special st S_ISVTX 9 x74 x54 perms in
  let* perms := arr_set perms 10 NUL in
  Ok (cstr perms).

(** ** Dates *)

Record tm := MkTm { tm_sec : Z; tm_min : Z; tm_hour : Z; tm_mday : Z; tm_mon : Z; tm_year : Z }.

(** What the C library knows: [strftime] with a format, into a buffer of a size;
    [None] is its result 0. *)
Class TimeLib := {
  gmtime : Z → tm;
  localtime : Z → tm;
  mktime : tm → Z;
  strftime : Z → string → tm → option bytes
}.

Section Dates.
Context `{L : TimeLib}.

Definition broken_down (t : Z) (use_localtime : bool) : tm := if use_localtime then localtime t else gmtime t.

Definition strftime_or_die (size : Z) (format : string) (t : tm) : res bytes :=
  match strftime size format t with Some s => Ok (cstr s) | None => die "strftime" end.

Definition HALF_YEAR : Z := 60 * 60 * 24 * 182.

Definition vsf_sysutil_statbuf_get_date (st : statbuf) (use_localtime : bool) (curr_time : Z) : res bytes :=
  let p_date_format :=
    if (curr_time <? st_mtime st) || (HALF_YEAR <? curr_time - st_mtime st)
    then "%b %d  %Y"%string else "%b %d %H:%M"%string in
  strftime_or_die 64 p_date_format (broken_down (st_mtime st) use_localtime).

Definition vsf_sysutil_statbuf_get_numeric_date (st : statbuf) (use_localtime : bool) : res bytes :=
  strftime_or_die 15 "%Y%m%d%H%M%S" (broken_down (st_mtime st) use_localtime).

(** The text up to '!', which becomes a space; a 0 behind it too. *)
Fixpoint pad_day (datebuf : bytes) : bytes :=
  match datebuf with
  | [] => []
  | c :: rest =>
      if bool_decide (c = x21)
      then SP :: match rest with d :: rest' => (if bool_decide (d = x30) then SP else d) :: rest' | [] => [] end
      else c :: pad_day rest
  end.

Definition vsf_sysutil_get_current_date (curr_time : Z) : res bytes :=
  let* datebuf := strftime_or_die 64 "%a %b!%d %H:%M:%S %Y" (localtime curr_time) in
  Ok (pad_day datebuf).

(** [vsf_sysutil_strcpy(dest, src, n + 1)] into an array of [n + 1] bytes. *)
Definition piece (n : nat) (s : bytes) : bytes := take n s.

Definition parse_tm (p_text : bytes) (len : Z) : tm :=
  let num i n := vsf_sysutil_atoi (piece n (drop i p_text)) in
  let date := if 8 <=? len then (num 0%nat 4%nat - 1900, num 4%nat 2%nat - 1, num 6%nat 2%nat) else (0, 0, 0) in
  let time := if 14 <=? len then (num 8%nat 2%nat, num 10%nat 2%nat, num 12%nat 2%nat) else (0, 0, 0) in
  MkTm time.2 time.1.2 time.1.1 date.2 date.1.2 date.1.1.

Definition vsf_sysutil_parse_time (p_text : bytes) : res Z :=
  let* len := vsf_sysutil_strlen p_text in
  Ok (mktime (parse_tm p_text len)).

(** What is given to utime. *)
Definition vsf_sysutil_setmodtime (s_timezone the_time : Z) (is_localtime : bool) : Z :=
  if negb is_localtime then the_time - s_timezone else the_time.

(** ** The time zone

    [tzbuf] has 7 bytes, of which strftime's "%z" has set some; the results are
    the text for TZ and [s_timezone]. *)
Definition DIGIT0 : byte := x30.

Definition vsf_sysutil_tzset (tzbuf : bytes) (retval : Z) : res (option bytes * Z) :=
  let* tzbuf := arr_set tzbuf 6 NUL in
  if negb (retval =? 5) then Ok (None, 0)
  else
    let* c := arr_get tzbuf 4 in let* tzbuf := arr_set tzbuf 5 c in
    let* c := arr_get tzbuf 3 in let* tzbuf := arr_set tzbuf 4 c in
    let* tzbuf := arr_set tzbuf 3 x3a in
    let* sign := arr_get tzbuf 0 in
    let* tzbuf := arr_set tzbuf 0 (if bool_decide (sign = x2b) then x2d else x2b) in
    let envtz := take 12 (lit "TZ=UTC" ++ cstr tzbuf) in
    let* h1 := arr_get tzbuf 1 in let* h2 := arr_get tzbuf 2 in
    let* m1 := arr_get tzbuf 4 in let* m2 := arr_get tzbuf 5 in
    let v c := schar c - schar DIGIT0 in
    let s_timezone := s32 ((v h1 * 10 + v h2) * 60 * 60) in
    let s_timezone := s32 (s_timezone + (v m1 * 10 + v m2) * 60) in
    let* sign := arr_get tzbuf 0 in
    Ok (Some envtz, if bool_decide (sign = x2d) then s_timezone * -1 else s_timezone).

End Dates.

(** [rand] has answered [uint_res]. *)
Definition vsf_sysutil_get_random_byte (uint_res : Z) : Z :=
  let c i := Z.land (Z.shiftr (u32 uint_res) i) 255 in
  Z.lxor (Z.lxor (Z.lxor (c 0) (c 8)) (c 16)) (c 24).

(** ** Permissions read back *)

Definition type_of_char (c : byte) : option Z :=
  match c with
  | x2d => Some S_IFREG | x64 => Some S_IFDIR | x6c => Some S_IFLNK | x70 => Some S_IFIFO
  | x73 => Some S_IFSOCK | x63 => Some S_IFCHR | x62 => Some S_IFBLK | _ => None
  end.

(** The bits of a character: [r], [w] or [x] is [bit], and [s], [S], [t] and [T]
    say [special]. *)
Definition bits_of_char (bit special : Z) (c : byte) : Z :=
  match c with
  | x72 | x77 | x78 => bit
  | x73 | x74 => bit + special
  | x53 | x54 => special
  | _ => 0
  end.

Definition mode_of_perms (p : bytes) : option Z :=
  match p with
  | [t; c1; c2; c3; c4; c5; c6; c7; c8; c9] =>
      (λ ty, ty + bits_of_char 256 0 c1 + bits_of_char 128 0 c2 + bits_of_char 64 S_ISUID c3
         + bits_of_char 32 0 c4 + bits_of_char 16 0 c5 + bits_of_char 8 S_ISGID c6
         + bits_of_char 4 0 c7 + bits_of_char 2 0 c8 + bits_of_char 1 S_ISVTX c9) <$> type_of_char t
  | _ => None
  end.

Definition known_type (st : statbuf) : Prop := type_char st ≠ x3f.

Definition perms_read_back (m : Z) : bool :=
  let st := MkStat m 0 0 0 0 0 in
  bool_decide (type_char st = x3f) ||
  match vsf_sysutil_statbuf_get_perms st with
  | Ok p => bool_decide (mode_of_perms p = Some m)
  | Err _ => false
  end.

(** A test of the [n] numbers from [z] on. *)
Fixpoint all_from (f : Z → bool) (n : nat) (z : Z) : bool :=
  match n with O => true | S n' => f z && all_from f n' (z + 1) end.

Lemma all_from_spec f n z x : all_from f n z = true → z ≤ x < z + Z.of_nat n → f x = true.
Proof.
  revert z; induction n as [|n IH]; intros z; cbn [all_from]; [lia|]. intros [Hz Hn]%andb_true_iff Hx.
  destruct (decide (x = z)) as [->|]; [done|]. apply (IH (z + 1) Hn). lia.
Qed.

Lemma perms_read_back_all : all_from perms_read_back (Z.to_nat 65536) 0 = true.
Proof. by vm_compute. Qed.

(** The text shows the whole mode: from the ten characters of a file of a known
    type the type and all twelve permission bits can be read back. *)
Theorem perms_roundtrip (st : statbuf) :
  0 ≤ st_mode st < 65536 → known_type st →
  ∃ p, vsf_sysutil_statbuf_get_perms st = Ok p ∧ mode_of_perms p = Some (st_mode st).
Proof.
  intros Hm Hk. pose proof (all_from_spec _ _ _ (st_mode st) perms_read_back_all ltac:(lia)) as H.
  unfold perms_read_back in H.
  change (type_char (MkStat (st_mode st) 0 0 0 0 0)) with (type_char st) in H.
  change (vsf_sysutil_statbuf_get_perms (MkStat (st_mode st) 0 0 0 0 0)) with (vsf_sysutil_statbuf_get_perms st) in H.
  rewrite bool_decide_eq_false_2 in H by done. cbn [orb] in H.
  destruct (vsf_sysutil_statbuf_get_perms st) as [p|e]; [|done].
  exists p. split; [done|]. by apply bool_decide_eq_true in H.
Qed.

(** ** Dates read back *)

Definition d2 (n : Z) : bytes := [to_char (48 + n / 10); to_char (48 + n mod 10)].
Definition d4 (n : Z) : bytes := d2 (n / 100) ++ d2 (n mod 100).

(** "%Y%m%d%H%M%S", for a year of four digits. *)
Definition numeric_date (t : tm) : bytes :=
  d4 (tm_year t + 1900) ++ d2 (tm_mon t + 1) ++ d2 (tm_mday t) ++ d2 (tm_hour t) ++ d2 (tm_min t) ++ d2 (tm_sec t).

Definition plain_tm (t : tm) : Prop :=
  0 ≤ tm_year t + 1900 ≤ 9999 ∧ 0 ≤ tm_mon t ≤ 11 ∧ 0 ≤ tm_mday t ≤ 31 ∧ 0 ≤ tm_hour t ≤ 23 ∧
  0 ≤ tm_min t ≤ 59 ∧ 0 ≤ tm_sec t ≤ 60.

Lemma atoi_d2 n : 0 ≤ n < 100 → vsf_sysutil_atoi (d2 n) = n.
Proof.
  intros Hn. apply Z.eqb_eq. apply (all_from_spec (λ n, vsf_sysutil_atoi (d2 n) =? n) 100 0); [by vm_compute|lia].
Qed.
Lemma atoi_d4 n : 0 ≤ n < 10000 → vsf_sysutil_atoi (d4 n) = n.
Proof.
  intros Hn. apply Z.eqb_eq.
  apply (all_from_spec (λ n, vsf_sysutil_atoi (d4 n) =? n) (Z.to_nat 10000) 0); [by vm_compute|lia].
Qed.

Theorem parse_time_reads_date (t : tm) :
  plain_tm t → zlen (numeric_date t) = 14 ∧ parse_tm (numeric_date t) 14 = t.
Proof.
  intros (Hy & Hmo & Hd & Hh & Hm & Hs). split; [done|]. destruct t as [s m h d mo y]. unfold parse_tm. cbn [Z.leb].
  change (8 <=? 14) with true. change (14 <=? 14) with true. cbv zeta. cbn [fst snd]. unfold piece, numeric_date in *.
  cbn [tm_sec tm_min tm_hour tm_mday tm_mon tm_year] in *.
  change (take 4 (drop 0 ?s)) with (take 4 s). cbn [d2 d4 app take drop]. fold (d2 (mo + 1)) (d2 d) (d2 h) (d2 m) (d2 s).
  change [to_char (48 + (y + 1900) / 100 / 10); to_char (48 + ((y + 1900) / 100) mod 10);
    to_char (48 + (y + 1900) mod 100 / 10); to_char (48 + ((y + 1900) mod 100) mod 10)] with (d4 (y + 1900)).
  change [to_char (48 + (mo + 1) / 10); to_char (48 + (mo + 1) mod 10)] with (d2 (mo + 1)).
  change [to_char (48 + d / 10); to_char (48 + d mod 10)] with (d2 d).
  change [to_char (48 + h / 10); to_char (48 + h mod 10)] with (d2 h).
  change [to_char (48 + m / 10); to_char (48 + m mod 10)] with (d2 m).
  change [to_char (48 + s / 10); to_char (48 + s mod 10)] with (d2 s).
  rewrite atoi_d4, !atoi_d2 by lia. f_equal; lia.
Qed.

(** A day below 10 gets a space for its 0. *)
Lemma pad_day_at before d rest :
  (x21 ∉ before) → pad_day (before ++ x21 :: d :: rest) = before ++ SP :: (if bool_decide (d = x30) then SP else d) :: rest.
Proof.
  induction before as [|c before IH]; intros H; [done|]. apply not_elem_of_cons in H as [Hc H].
  cbn [app pad_day]. rewrite bool_decide_eq_false_2 by done. by rewrite IH.
Qed.

(** ** The time zone turned round *)

(** Seconds east of UTC: by the text of "%z", and by the text that POSIX gives TZ,
    where the sign says how far UTC is. *)
Definition zone_seconds (hours minutes : bytes) : Z := (dec_value hours * 60 + dec_value minutes) * 60.

Definition strftime_zone (z : bytes) : option Z :=
  match z with
  | [x2b; h1; h2; m1; m2] => Some (zone_seconds [h1; h2] [m1; m2])
  | [x2d; h1; h2; m1; m2] => Some (- zone_seconds [h1; h2] [m1; m2])
  | _ => None
  end.

Definition posix_zone (envtz : bytes) : option Z :=
  match envtz with
  | [x54; x5a; x3d; x55; x54; x43; x2b; h1; h2; x3a; m1; m2] => Some (- zone_seconds [h1; h2] [m1; m2])
  | [x54; x5a; x3d; x55; x54; x43; x2d; h1; h2; x3a; m1; m2] => Some (zone_seconds [h1; h2] [m1; m2])
  | _ => None
  end.

Lemma digit_seconds h1 h2 m1 m2 :
  is_digits [h1; h2; m1; m2] = true →
  let v c := schar c - schar DIGIT0 in
  s32 (s32 ((v h1 * 10 + v h2) * 60 * 60) + (v m1 * 10 + v m2) * 60) = zone_seconds [h1; h2] [m1; m2] ∧
  0 ≤ zone_seconds [h1; h2] [m1; m2] < 400000.
Proof.
  intros Hd v. unfold is_digits in Hd. cbn [forallb] in Hd. rewrite !andb_true_iff in Hd. destruct Hd as (H1 & H2 & H3 & H4 & _).
  assert (∀ c, c_isdigit c = true → v c = digit_val c) as Hv.
  { intros c Hc. rewrite <- (schar_digit_val c Hc). reflexivity. }
  rewrite !Hv by done. pose proof (digit_val_range _ H1). pose proof (digit_val_range _ H2).
  pose proof (digit_val_range _ H3). pose proof (digit_val_range _ H4).
  unfold zone_seconds, dec_value. cbn [fold_left].
  rewrite (s32_small ((_ + _) * 60 * 60)), s32_small by (unfold INT_MIN, INT_MAX; lia). lia.
Qed.

(** The zone survives the chroot. When strftime answers with a "%z" of five
    characters, the text that goes into the environment fits its array and is never
    cut, denotes by POSIX the same distance from UTC that "%z" has said - the sign
    is turned round and a colon is put in - and [s_timezone] is its opposite, so that
    a time without a zone is set as UTC. Every access to the two small arrays is
    within them. *)
Theorem tzset_keeps_zone (sign h1 h2 m1 m2 last : byte) (offset the_time : Z) :
  strftime_zone [sign; h1; h2; m1; m2] = Some offset → is_digits [h1; h2; m1; m2] = true →
  ∃ envtz zone, vsf_sysutil_tzset [sign; h1; h2; m1; m2; NUL; last] 5 = Ok (Some envtz, zone) ∧
    zlen envtz = 12 ∧ posix_zone envtz = Some offset ∧ zone = - offset ∧
    vsf_sysutil_setmodtime zone the_time false = the_time + offset.
Proof.
  intros Hz Hd. destruct (digit_seconds _ _ _ _ Hd) as [Hsec Hrange].
  assert (NUL ∉ [h1; h2; m1; m2]) as Hn by (eapply is_digits_not; [done|by vm_compute]).
  rewrite !not_elem_of_cons in Hn. destruct Hn as (N1 & N2 & N3 & N4 & _).
  assert (sign = x2b ∨ sign = x2d) as [-> | ->] by (destruct sign; try discriminate Hz; auto).
  all: injection Hz as <-; unfold vsf_sysutil_tzset.
  all: cbn [arr_set arr_get length Nat.ltb Nat.leb insert list_insert res_bind Z.eqb Pos.eqb negb lookup list_lookup].
  all: repeat first [rewrite bool_decide_eq_true_2 by done | rewrite bool_decide_eq_false_2 by done].
  all: rewrite Hsec; cbn [cstr]; repeat rewrite bool_decide_eq_false_2 by first [congruence | discriminate].
all: rewrite bool_decide_eq_true_2 by done; eexists _, _; split; [reflexivity|].
  all: unfold vsf_sysutil_setmodtime; cbn; split_and!; (done || lia).
Qed.

Lemma tzset_keeps_zone_witness :
  ∃ envtz zone, vsf_sysutil_tzset [x2b; x30; x35; x33; x30; NUL; x41] 5 = Ok (Some envtz, zone) ∧
    zlen envtz = 12 ∧ posix_zone envtz = Some 19800 ∧ zone = -19800 ∧
    vsf_sysutil_setmodtime zone 1000 false = 1000 + 19800.
Proof. apply (tzset_keeps_zone x2b x30 x35 x33 x30 x41 19800 1000); reflexivity. Defined.

Example zone_text : vsf_sysutil_tzset [x2d; x30; x38; x30; x30; NUL; NUL] 5 = Ok (Some (lit "TZ=UTC+08:00"), 28800).
Proof. reflexivity. Qed.
Example perms_text : vsf_sysutil_statbuf_get_perms (MkStat (S_IFDIR + 1021) 2 0 0 0 0) = Ok (lit "drwxrwxr-t").
Proof. reflexivity. Qed.
Example day_text : pad_day (lit "Mon Jan!05 10:00:00 2015") = lit "Mon Jan  5 10:00:00 2015".
Proof. reflexivity. Qed.

(** A random byte is a byte. *)
Lemma random_byte_range r : 0 ≤ vsf_sysutil_get_random_byte r < 256.
Proof.
  unfold vsf_sysutil_get_random_byte. set (u := u32 r). generalize u. clear. intros u.
  assert (∀ i, 0 ≤ Z.land (Z.shiftr u i) 255 < 2 ^ 8) as H.
  { intros i. change 255 with (Z.ones 8). rewrite Z.land_ones by lia. by apply Z.mod_pos_bound. }
  assert (∀ a b, 0 ≤ a < 2 ^ 8 → 0 ≤ b < 2 ^ 8 → 0 ≤ Z.lxor a b < 2 ^ 8) as Hx.
  { intros a b [Ha1 Ha2] [Hb1 Hb2]. assert (0 ≤ Z.lxor a b) by (by apply Z.lxor_nonneg). split; [done|].
    destruct (decide (Z.lxor a b = 0)) as [->|]; [done|]. apply Z.log2_lt_pow2; [lia|].
    eapply Z.le_lt_trans; [by apply Z.log2_lxor|].
    destruct (decide (a = 0)) as [->|], (decide (b = 0)) as [->|]; cbn [Z.log2 Z.max]; try lia;
      try (apply Z.max_lub_lt); try (apply Z.log2_lt_pow2; lia); done. }
  change 256 with (2 ^ 8). repeat (apply Hx; try apply H).
Qed.
