(* ===== verification/Descriptors.v ===== *)
(** * Descriptors, file modes and exit statuses

    The wrappers of sysutil.c around open, dup2, close, chmod, umask and wait, on a
    process with a table of descriptors and a file system of modes. *)

From Stdlib Require Import Init.Byte Strings.Byte.
From Stdlib Require Import ZArith Lia String.
From stdpp Require Import base list numbers option gmap strings.
From S2P Require Import Prelude SysUtil Text.
Import ResNotations.

(** ** The kernel *)

Definition O_RDONLY : Z := 0.
Definition O_WRONLY : Z := 1.
Definition O_RDWR : Z := 2.
Definition O_CREAT : Z := 64.
Definition O_EXCL : Z := 128.
Definition O_APPEND : Z := 1024.
Definition O_NONBLOCK : Z := 2048.

(** An open file: its path and the flags of the open. *)
Record open_file := OpenFile { of_path : bytes; of_flags : Z }.

(** The files with their modes, the open descriptors and the kernel's umask;
    [s_current_umask] is the program's copy. *)
Record process := MkProcess {
  files : gmap bytes Z;
  fds : gmap Z open_file;
  umask : Z;
  s_current_umask : Z
}.

(** The process may open the file (permissions, limits). *)
Class Openable := may_open : process → bytes → Z → bool.

Definition put_fds (t : gmap Z open_file) (p : process) : process :=
  MkProcess (files p) t (umask p) (s_current_umask p).
Definition put_files (t : gmap bytes Z) (p : process) : process :=
  MkProcess t (fds p) (umask p) (s_current_umask p).

(** The lowest descriptor that is not open. *)
Fixpoint lowest_from (fuel : nat) (n : Z) (t : gmap Z open_file) : Z :=
  match fuel with
  | O => n
  | S fuel' => if decide (is_Some (t !! n)) then lowest_from fuel' (n + 1) t else n
  end.
Definition lowest_free (t : gmap Z open_file) : Z := lowest_from (size t) 0 t.

Definition has (flags bit : Z) : bool := negb (Z.land flags bit =? 0).

Section Calls.
Context `{K : Openable}.

(** open(2): the descriptor or -1. *)
Definition sys_open (path : bytes) (flags mode : Z) (p : process) : Z * process :=
  let opened (p : process) :=
    let fd := lowest_free (fds p) in (fd, put_fds (<[fd := OpenFile path flags]> (fds p)) p) in
  if negb (may_open p path flags) then (-1, p)
  else
    match files p !! path with
    | Some _ => if has flags O_CREAT && has flags O_EXCL then (-1, p) else opened p
    | None =>
        if has flags O_CREAT
        then opened (put_files (<[path := Z.ldiff mode (umask p)]> (files p)) p)
        else (-1, p)
    end.

Definition sys_dup2 (old_fd new_fd : Z) (p : process) : Z * process :=
  match fds p !! old_fd with
  | Some f => (new_fd, put_fds (<[new_fd := f]> (fds p)) p)
  | None => (-1, p)
  end.

Definition sys_close (fd : Z) (p : process) : Z * process :=
  match fds p !! fd with Some _ => (0, put_fds (delete fd (fds p)) p) | None => (-1, p) end.

Definition sys_chmod (path : bytes) (mode : Z) (p : process) : Z * process :=
  match files p !! path with
  | Some _ => (0, put_files (<[path := mode]> (files p)) p)
  | None => (-1, p)
  end.

(** ** sysutil.c *)

Inductive EVSFSysUtilOpenMode := kVSFSysUtilOpenReadOnly | kVSFSysUtilOpenWriteOnly | kVSFSysUtilOpenReadWrite.

Definition vsf_sysutil_translate_openmode (mode : EVSFSysUtilOpenMode) : Z :=
  match mode with
  | kVSFSysUtilOpenReadOnly => O_RDONLY
  | kVSFSysUtilOpenWriteOnly => O_WRONLY
  | kVSFSysUtilOpenReadWrite => O_RDWR
  end.

Definition vsf_sysutil_open_file (p_filename : bytes) (mode : EVSFSysUtilOpenMode) : process → Z * process :=
  sys_open p_filename (Z.lor (vsf_sysutil_translate_openmode mode) O_NONBLOCK) 0.

(** [file_open_mode] is the tunable. *)
Definition vsf_sysutil_create_file_exclusive (file_open_mode : Z) (p_filename : bytes) : process → Z * process :=
  sys_open p_filename (Z.lor (Z.lor (Z.lor O_CREAT O_EXCL) O_WRONLY) O_APPEND) file_open_mode.

Definition vsf_sysutil_create_or_open_file (p_filename : bytes) (mode : Z) : process → Z * process :=
  sys_open p_filename (Z.lor (Z.lor O_CREAT O_WRONLY) O_NONBLOCK) mode.

Definition vsf_sysutil_create_or_open_file_append (p_filename : bytes) (mode : Z) : process → Z * process :=
  sys_open p_filename (Z.lor (Z.lor (Z.lor O_CREAT O_WRONLY) O_NONBLOCK) O_APPEND) mode.

Definition vsf_sysutil_dupfd2 (old_fd new_fd : Z) (p : process) : res process :=
  if old_fd =? new_fd then Ok p
  else let '(retval, p) := sys_dup2 old_fd new_fd p in if negb (retval =? new_fd) then die "dup2" else Ok p.

(** An interrupted close is repeated; close(2) answers here as in the end. *)
Definition vsf_sysutil_close (fd : Z) (p : process) : res process :=
  let '(retval, p) := sys_close fd p in if negb (retval =? 0) then die "close" else Ok p.

Definition vsf_sysutil_close_failok (fd : Z) (p : process) : Z * process := sys_close fd p.

Definition vsf_sysutil_fchmod (fd mode : Z) (p : process) : res process :=
  match fds p !! fd with
  | None => die "fchmod"
  | Some f =>
      let '(retval, p) := sys_chmod (of_path f) (Z.land mode 511) p in
      if negb (retval =? 0) then die "fchmod" else Ok p
  end.

Definition vsf_sysutil_chmod (p_filename : bytes) (mode : Z) (p : process) : Z * process :=
  sys_chmod p_filename (Z.land mode 511) p.

Definition vsf_sysutil_get_umask (p : process) : Z := s_current_umask p.

Definition vsf_sysutil_set_umask (new_umask : Z) (p : process) : process :=
  MkProcess (files p) (fds p) (Z.land new_umask 511) (Z.land new_umask 511).

Definition DEV_NULL : bytes := lit "/dev/null".

Definition vsf_sysutil_reopen_standard_fds (p : process) : res process :=
  let '(fd, p) := sys_open DEV_NULL O_RDWR 0 p in
  if fd <? 0 then die "reopening standard file descriptors to /dev/null failed"
  else
    let* p := vsf_sysutil_dupfd2 fd 0 p in
    let* p := vsf_sysutil_dupfd2 fd 1 p in
    let* p := vsf_sysutil_dupfd2 fd 2 p in
    if 2 <? fd then vsf_sysutil_close fd p else Ok p.

End Calls.

(** The status of wait(2), by the macros of the C library. *)
Definition vsf_sysutil_wait_exited_normally (exit_status : Z) : bool := Z.land exit_status 127 =? 0.
Definition vsf_sysutil_wait_get_exitcode (exit_status : Z) : res Z :=
  if negb (vsf_sysutil_wait_exited_normally exit_status)
  then bug "not a normal exit in vsf_sysutil_wait_get_exitcode"
  else Ok (Z.shiftr (Z.land exit_status 65280) 8).

(** ** The standard descriptors *)

Section Standard.
Context `{K : Openable}.

Lemma lowest_from_free n t fuel :
  (∀ x, 0 ≤ x < n → is_Some (t !! x)) → 0 ≤ n → (size t <= Z.to_nat n + fuel)%nat →
  let r := lowest_from fuel n t in t !! r = None ∧ 0 ≤ r ∧ ∀ x, 0 ≤ x < r → is_Some (t !! x).
Proof.
  revert n; induction fuel as [|fuel IH]; intros n Hx Hn Hsize; cbn [lowest_from].
  - split; [|done]. destruct (t !! n) as [f|] eqn:Hf; [|done]. exfalso.
    assert (list_to_set (seqZ 0 (n + 1)) ⊆ dom t) as Hsub.
    { intros x [H1 H2]%elem_of_list_to_set%elem_of_seqZ. apply elem_of_dom.
      destruct (decide (x = n)) as [->|]; [eauto|apply Hx; lia]. }
    apply subseteq_size in Hsub. rewrite size_list_to_set, length_seqZ, size_dom in Hsub by apply NoDup_seqZ. lia.
  - case_decide as Hsome; [|split; [by apply eq_None_not_Some|done]].
    apply IH; [|lia|lia]. intros x Hxr. destruct (decide (x = n)) as [->|]; [done|apply Hx; lia].
Qed.

Lemma lowest_free_spec t :
  t !! lowest_free t = None ∧ 0 ≤ lowest_free t ∧ ∀ x, 0 ≤ x < lowest_free t → is_Some (t !! x).
Proof. unfold lowest_free. apply lowest_from_free; [intros; lia|lia..]. Qed.

Lemma dupfd2_ok old new f p :
  fds p !! old = Some f → vsf_sysutil_dupfd2 old new p = Ok (put_fds (<[new := f]> (fds p)) p).
Proof.
  intros Hf. unfold vsf_sysutil_dupfd2, sys_dup2. rewrite Hf. destruct (Z.eqb_spec old new) as [->|Hne].
  - rewrite insert_id by done. by destruct p.
  - by rewrite Z.eqb_refl.
Qed.

(** C37: The standard descriptors are closed to the outside. Which of the three are
    open before, and wherever /dev/null is opened: after
    [vsf_sysutil_reopen_standard_fds] the descriptors 0, 1 and 2 are /dev/null and
    every other descriptor is as it was - the one that was opened is not left
    behind. *)
Theorem standard_fds_reopened (p : process) (m : Z) :
  files p !! DEV_NULL = Some m → may_open p DEV_NULL O_RDWR = true →
  ∃ p', vsf_sysutil_reopen_standard_fds p = Ok p' ∧ files p' = files p ∧
    ∀ x, fds p' !! x = if (0 <=? x) && (x <=? 2) then Some (OpenFile DEV_NULL O_RDWR) else fds p !! x.
Proof.
  intros Hm Hopen. unfold vsf_sysutil_reopen_standard_fds, sys_open. rewrite Hopen, Hm.
  cbn [negb]. change (has O_RDWR O_CREAT) with false. cbn [andb].
  destruct (lowest_free_spec (fds p)) as (Hfree & H0 & Hlow). set (fd := lowest_free (fds p)) in *. clearbody fd.
  rewrite (proj2 (Z.ltb_ge fd 0)) by lia. set (f := OpenFile DEV_NULL O_RDWR).
  rewrite (dupfd2_ok fd 0 f) by apply lookup_insert_eq. cbn [res_bind].
  rewrite (dupfd2_ok fd 1 f) by (cbn; destruct (decide (fd = 0)) as [->|];
    [apply lookup_insert_eq|rewrite lookup_insert_ne by done; apply lookup_insert_eq]). cbn [res_bind].
  rewrite (dupfd2_ok fd 2 f).
  2:{ cbn. rewrite !lookup_insert. repeat case_decide; try done. }
  cbn [res_bind]. destruct (Z.ltb_spec 2 fd) as [Hbig|Hsmall].
  - unfold vsf_sysutil_close, sys_close. cbn [fds put_fds].
    rewrite !lookup_insert_ne, lookup_insert_eq by lia. cbn [Z.eqb negb]. eexists. split; [done|]. split; [done|].
    intros x. cbn [fds put_fds]. rewrite lookup_delete. case_decide as Hx.
    + subst x. rewrite (proj2 (Z.leb_gt fd 2)), andb_false_r by lia. done.
    + destruct (Z.leb_spec 0 x), (Z.leb_spec x 2); cbn [andb]; rewrite !lookup_insert;
        repeat case_decide; try done; lia.
  - eexists. split; [done|]. split; [done|]. intros x. cbn [fds put_fds].
    destruct (Z.leb_spec 0 x), (Z.leb_spec x 2); cbn [andb]; rewrite !lookup_insert;
      repeat case_decide; try done; lia.
Qed.

(** ** Modes *)

(** No set-id and no sticky bit. *)
Definition plain_mode (m : Z) : Prop := 0 ≤ m < 512.

Lemma masked_plain m : plain_mode (Z.land m 511).
Proof. unfold plain_mode. change 511 with (Z.ones 9). rewrite Z.land_ones by lia. by apply Z.mod_pos_bound. Qed.

Lemma ldiff_plain m u : plain_mode m → plain_mode (Z.ldiff m u).
Proof.
  unfold plain_mode. intros Hm. assert (Z.ldiff m u = Z.land (Z.ldiff m u) (Z.ones 9)) as ->.
  { apply Z.bits_inj'. intros i Hi. rewrite Z.land_spec, Z.ldiff_spec. destruct (decide (i < 9)).
    - rewrite Z.ones_spec_low by lia. by rewrite andb_true_r.
    - rewrite Z.ones_spec_high by lia. rewrite andb_false_r.
      destruct (decide (m = 0)) as [->|]; [by rewrite Z.bits_0|].
      rewrite Z.bits_above_log2; [done|lia|]. apply Z.log2_lt_pow2; [lia|].
      apply Z.lt_le_trans with (2 ^ 9); [lia|]. apply Z.pow_le_mono_r; lia. }
  rewrite Z.land_ones by lia. by apply Z.mod_pos_bound.
Qed.

(** An exclusive creation never opens a file that is there; the file it makes has
    the mode of the settings less the umask. *)
Lemma create_exclusive_new mode path p fd p' :
  vsf_sysutil_create_file_exclusive mode path p = (fd, p') → 0 ≤ fd →
  files p !! path = None ∧ files p' = <[path := Z.ldiff mode (umask p)]> (files p) ∧ fds p !! fd = None.
Proof.
  unfold vsf_sysutil_create_file_exclusive, sys_open. destruct (negb _); [intros [= <- _]; lia|].
  change (has _ O_CREAT) with true. change (has _ O_EXCL) with true. cbn [andb].
  destruct (files p !! path); [intros [= <- _]; lia|]. intros [= <- <-] _.
  split; [done|]. split; [done|]. apply lowest_free_spec.
Qed.

(** An operation on modes. *)
Inductive mode_op :=
  | OpChmod (path : bytes) (mode : Z)
  | OpFchmod (fd mode : Z)
  | OpCreate (path : bytes)
  | OpUmask (mask : Z).

Definition run_op (file_open_mode : Z) (o : mode_op) (p : process) : process :=
  match o with
  | OpChmod path mode => (vsf_sysutil_chmod path mode p).2
  | OpFchmod fd mode => match vsf_sysutil_fchmod fd mode p with Ok p' => p' | Err _ => p end
  | OpCreate path => (vsf_sysutil_create_file_exclusive file_open_mode path p).2
  | OpUmask mask => vsf_sysutil_set_umask mask p
  end.

(** Whatever modes are asked for, a file that was plain stays plain, and a new one
    is when the setting is: no operation sets a set-id bit. *)
Theorem modes_stay_plain file_open_mode ops p :
  plain_mode file_open_mode → map_Forall (λ _, plain_mode) (files p) →
  map_Forall (λ _, plain_mode) (files (foldl (λ p o, run_op file_open_mode o p) p ops)).
Proof.
  intros Hopen. revert p; induction ops as [|o ops IH]; intros p Hp; cbn [foldl]; [done|]. apply IH.
  assert (∀ path mode, map_Forall (λ _, plain_mode) (files (sys_chmod path (Z.land mode 511) p).2)) as Hch.
  { intros path mode. unfold sys_chmod. destruct (files p !! path); cbn [snd]; [|done].
    apply map_Forall_insert_2; [apply masked_plain|done]. }
  destruct o as [path mode|fd mode|path|mask]; cbn [run_op].
  - by apply Hch.
  - unfold vsf_sysutil_fchmod. destruct (fds p !! fd) as [f|]; [|done]. specialize (Hch (of_path f) mode).
    destruct (sys_chmod _ _ p) as [r q]. cbn [snd] in Hch. by destruct (negb _).
  - unfold vsf_sysutil_create_file_exclusive, sys_open. destruct (negb _); [done|].
    destruct (files p !! path); [by destruct (_ && _)|]. change (has _ O_CREAT) with true. cbn [snd].
    cbn. apply map_Forall_insert_2; [by apply ldiff_plain|done].
  - done.
Qed.

End Standard.

(** ** Exit statuses *)

(** The status of a normal exit with a code, as wait reports it, and of a death by
    a signal. *)
Theorem exit_status_read (code signal : Z) :
  0 ≤ code < 256 → 0 < signal < 128 →
  vsf_sysutil_wait_get_exitcode (Z.shiftl code 8) = Ok code ∧
  vsf_sysutil_wait_exited_normally signal = false.
Proof.
  intros Hc Hs. unfold vsf_sysutil_wait_get_exitcode, vsf_sysutil_wait_exited_normally.
  assert (Z.land (Z.shiftl code 8) 127 = 0) as ->.
  { change 127 with (Z.ones 7). rewrite Z.land_ones, Z.shiftl_mul_pow2 by lia.
    change (2 ^ 8) with (2 * 2 ^ 7). rewrite Z.mul_assoc. by apply Z.mod_mul. }
  cbn [Z.eqb negb]. split.
  - f_equal. change 65280 with (Z.shiftl (Z.ones 8) 8). rewrite <- Z.shiftl_land, Z.shiftr_shiftl_l, Z.sub_diag, Z.shiftl_0_r by lia.
    rewrite Z.land_ones by lia. by apply Z.mod_small.
  - change 127 with (Z.ones 7). rewrite Z.land_ones by lia. rewrite Z.mod_small by lia. apply Z.eqb_neq. lia.
Qed.

(** Standard input is closed, and 5 is a log file. *)
Definition daemon : process :=
  MkProcess {[DEV_NULL := 438; lit "/var/log" := 384]}
    {[1 := OpenFile (lit "/dev/tty") 2; 2 := OpenFile (lit "/dev/tty") 2; 5 := OpenFile (lit "/var/log") 1]} 18 18.

Definition all_open : Openable := λ _ _ _, true.

Lemma standard_fds_reopened_witness :
  ∃ p', vsf_sysutil_reopen_standard_fds (K := all_open) daemon = Ok p' ∧ files p' = files daemon ∧
    ∀ x, fds p' !! x = if (0 <=? x) && (x <=? 2) then Some (OpenFile DEV_NULL O_RDWR) else fds daemon !! x.
Proof. apply (standard_fds_reopened (K := all_open) daemon 438); reflexivity. Defined.
