(* ===== verification/Credentials.v ===== *)
(** * Changing credentials

    The privileges of a process, as credentials(7) and capabilities(7) describe
    them: ids, groups, capabilities, root directory. On that kernel, the wrappers of
    sysutil.c and the capabilities of sysdeputil.c (the libcap variant), and what
    they are for: a process of root that becomes a user with them has no way back.
    This fork runs without root and does not call them in a session: the
    [vsf_secutil_change_credentials] that it compiles, in PreLogin.v, changes the
    directory only. *)

From Stdlib Require Import Init.Byte Strings.Byte.
From Stdlib Require Import ZArith Lia String.
From stdpp Require Import base list numbers option strings sets.
From S2P Require Import Prelude SysUtil Text.
Import ResNotations.

(** ** The kernel *)

(** Capabilities are bits of a mask. *)
Definition CAP_CHOWN : Z := 0.
Definition CAP_SETGID : Z := 6.
Definition CAP_SETUID : Z := 7.
Definition CAP_NET_BIND_SERVICE : Z := 10.
Definition CAP_SYS_CHROOT : Z := 18.
Definition ALL_CAPS : Z := Z.ones 41.

Record cred := MkCred {
  ruid : Z; euid : Z; suid : Z;
  rgid : Z; egid : Z; sgid : Z;
  groups : list Z;
  permitted : Z; effective : Z;
  keep_caps : bool;
  root : bytes; cwd : bytes;
  no_fds : bool; no_procs : bool;
  s_prctl_checked : bool; s_runtime_prctl_works : bool;
  s_caps_checked : bool; s_runtime_has_caps : bool
}.

Record passwd := MkPasswd { pw_name : bytes; pw_uid : Z; pw_gid : Z; pw_dir : bytes }.

(** The data base of groups, the directories that a process with such
    credentials can reach by a path and the paths it can write to, and what this
    kernel knows: capabilities at all, and PR_SET_KEEPCAPS. *)
Class CredKernel := {
  groups_of : bytes → Z → list Z;
  walk : cred → bytes → option bytes;
  can_write : cred → bytes → bool;
  kernel_caps : bool;
  kernel_keepcaps : bool
}.

Definition set_uids (r e s : Z) (c : cred) : cred :=
  let root_before := (ruid c =? 0) || (euid c =? 0) || (suid c =? 0) in
  let root_after := (r =? 0) || (e =? 0) || (s =? 0) in
  let clear := root_before && negb root_after && negb (keep_caps c) in
  let perm := if clear then 0 else permitted c in
  let eff := if clear || ((euid c =? 0) && negb (e =? 0)) then 0
             else if negb (euid c =? 0) && (e =? 0) then perm else effective c in
  MkCred r e s (rgid c) (egid c) (sgid c) (groups c) perm eff (keep_caps c) (root c) (cwd c)
    (no_fds c) (no_procs c) (s_prctl_checked c) (s_runtime_prctl_works c) (s_caps_checked c) (s_runtime_has_caps c).

Definition set_gids (r e s : Z) (c : cred) : cred :=
  MkCred (ruid c) (euid c) (suid c) r e s (groups c) (permitted c) (effective c) (keep_caps c) (root c) (cwd c)
    (no_fds c) (no_procs c) (s_prctl_checked c) (s_runtime_prctl_works c) (s_caps_checked c) (s_runtime_has_caps c).
Definition set_groups (gs : list Z) (c : cred) : cred :=
  MkCred (ruid c) (euid c) (suid c) (rgid c) (egid c) (sgid c) gs (permitted c) (effective c) (keep_caps c)
    (root c) (cwd c) (no_fds c) (no_procs c) (s_prctl_checked c) (s_runtime_prctl_works c) (s_caps_checked c)
    (s_runtime_has_caps c).
Definition set_caps (p e : Z) (keep : bool) (c : cred) : cred :=
  MkCred (ruid c) (euid c) (suid c) (rgid c) (egid c) (sgid c) (groups c) p e keep
    (root c) (cwd c) (no_fds c) (no_procs c) (s_prctl_checked c) (s_runtime_prctl_works c) (s_caps_checked c)
    (s_runtime_has_caps c).
Definition set_place (r d : bytes) (c : cred) : cred :=
  MkCred (ruid c) (euid c) (suid c) (rgid c) (egid c) (sgid c) (groups c) (permitted c) (effective c) (keep_caps c)
    r d (no_fds c) (no_procs c) (s_prctl_checked c) (s_runtime_prctl_works c) (s_caps_checked c)
    (s_runtime_has_caps c).
Definition set_limits (fds procs : bool) (c : cred) : cred :=
  MkCred (ruid c) (euid c) (suid c) (rgid c) (egid c) (sgid c) (groups c) (permitted c) (effective c) (keep_caps c)
    (root c) (cwd c) fds procs (s_prctl_checked c) (s_runtime_prctl_works c) (s_caps_checked c)
    (s_runtime_has_caps c).
Definition set_checks (p pv h hv : bool) (c : cred) : cred :=
  MkCred (ruid c) (euid c) (suid c) (rgid c) (egid c) (sgid c) (groups c) (permitted c) (effective c) (keep_caps c)
    (root c) (cwd c) (no_fds c) (no_procs c) p pv h hv.

Definition has_cap (c : cred) (k : Z) : bool := Z.testbit (effective c) k.

(** The id -1, which setuid refuses and setreuid leaves as it is. *)
Definition NO_ID : Z := UINT_MOD - 1.

(** The system calls; [None] is an error. *)
Definition sys_setuid (u : Z) (c : cred) : option cred :=
  if u =? NO_ID then None
  else if has_cap c CAP_SETUID then Some (set_uids u u u c)
  else if (u =? ruid c) || (u =? suid c) then Some (set_uids (ruid c) u (suid c) c)
  else None.

(** setreuid(-1, e): the saved id follows, except when it is the real one. *)
Definition sys_seteuid (e : Z) (c : cred) : option cred :=
  if e =? NO_ID then Some c
  else if has_cap c CAP_SETUID || (e =? ruid c) || (e =? euid c) || (e =? suid c)
  then Some (set_uids (ruid c) e (if e =? ruid c then suid c else e) c)
  else None.

Definition sys_setgid (g : Z) (c : cred) : option cred :=
  if g =? NO_ID then None
  else if has_cap c CAP_SETGID then Some (set_gids g g g c)
  else if (g =? rgid c) || (g =? sgid c) then Some (set_gids (rgid c) g (sgid c) c)
  else None.

Definition sys_setegid (e : Z) (c : cred) : option cred :=
  if e =? NO_ID then Some c
  else if has_cap c CAP_SETGID || (e =? rgid c) || (e =? egid c) || (e =? sgid c)
  then Some (set_gids (rgid c) e (if e =? rgid c then sgid c else e) c)
  else None.

Definition sys_setgroups (gs : list Z) (c : cred) : option cred :=
  if has_cap c CAP_SETGID then Some (set_groups gs c) else None.

(** [a] has no bit that [b] has not. *)
Definition within (a b : Z) : bool := Z.ldiff a b =? 0.

Section Calls.
Context `{K : CredKernel}.

Definition sys_capset (p e : Z) (c : cred) : option cred :=
  if kernel_caps && within p (permitted c) && within e p then Some (set_caps p e (keep_caps c) c) else None.
Definition sys_keepcaps (b : bool) (c : cred) : option cred :=
  if kernel_keepcaps then Some (set_caps (permitted c) (effective c) b c) else None.
Definition sys_chdir (path : bytes) (c : cred) : option cred :=
  (λ d, set_place (root c) d c) <$> walk c path.
Definition sys_chroot (path : bytes) (c : cred) : option cred :=
  if has_cap c CAP_SYS_CHROOT then (λ d, set_place d (cwd c) c) <$> walk c path else None.

(** ** sysutil.c *)

Definition or_die {A} (msg : string) (o : option A) : res A := match o with Some a => Ok a | None => die msg end.

Definition vsf_sysutil_running_as_root (c : cred) : bool := ruid c =? 0.

Definition vsf_sysutil_setuid_numeric (uid : Z) (c : cred) : res cred := or_die "setuid" (sys_setuid (u32 uid) c).
Definition vsf_sysutil_setuid (p_user : passwd) : cred → res cred := vsf_sysutil_setuid_numeric (s32 (pw_uid p_user)).
Definition vsf_sysutil_setgid_numeric (gid : Z) (c : cred) : res cred := or_die "setgid" (sys_setgid (u32 gid) c).
Definition vsf_sysutil_setgid (p_user : passwd) : cred → res cred := vsf_sysutil_setgid_numeric (s32 (pw_gid p_user)).

Definition vsf_sysutil_geteuid (c : cred) : res Z :=
  let retval := s32 (euid c) in if retval <? 0 then die "geteuid" else Ok retval.
Definition vsf_sysutil_getegid (c : cred) : res Z :=
  let retval := s32 (egid c) in if retval <? 0 then die "getegid" else Ok retval.

Definition vsf_sysutil_seteuid_numeric (uid : Z) (c : cred) : res cred := or_die "seteuid" (sys_seteuid (u32 uid) c).
Definition vsf_sysutil_seteuid (p_user : passwd) : cred → res cred := vsf_sysutil_seteuid_numeric (s32 (pw_uid p_user)).
Definition vsf_sysutil_setegid_numeric (gid : Z) (c : cred) : res cred := or_die "setegid" (sys_setegid (u32 gid) c).
Definition vsf_sysutil_setegid (p_user : passwd) : cred → res cred := vsf_sysutil_setegid_numeric (s32 (pw_gid p_user)).

Definition vsf_sysutil_clear_supp_groups (c : cred) : res cred := or_die "setgroups" (sys_setgroups [] c).
Definition vsf_sysutil_initgroups (p_user : passwd) (c : cred) : res cred :=
  or_die "initgroups" (sys_setgroups (groups_of (pw_name p_user) (pw_gid p_user)) c).
Definition vsf_sysutil_chroot (p_root_path : bytes) (c : cred) : res cred := or_die "chroot" (sys_chroot p_root_path c).
Definition vsf_sysutil_write_access (p_filename : bytes) (c : cred) : bool := can_write c p_filename.

(** Lowering a limit to nothing is always allowed. *)
Definition vsf_sysutil_set_no_fds (c : cred) : cred := set_limits true (no_procs c) c.
Definition vsf_sysutil_set_no_procs (c : cred) : cred := set_limits (no_fds c) true c.

(** ** sysdeputil.c *)

Definition kCapabilityCAP_CHOWN : Z := 1.
Definition kCapabilityCAP_NET_BIND_SERVICE : Z := 2.

Definition vsf_sysdep_has_capabilities_as_non_root (c : cred) : bool * cred :=
  let c :=
    if negb (s_prctl_checked c) then
      match sys_keepcaps false c with
      | Some c => set_checks true true (s_caps_checked c) (s_runtime_has_caps c) c
      | None => set_checks true (s_runtime_prctl_works c) (s_caps_checked c) (s_runtime_has_caps c) c
      end
    else c in
  (s_runtime_prctl_works c, c).

(** cap_get_proc *)
Definition do_checkcap : bool := kernel_caps.

Definition vsf_sysdep_has_capabilities (c : cred) : bool * cred :=
  let c :=
    if negb (s_caps_checked c) then set_checks (s_prctl_checked c) (s_runtime_prctl_works c) true do_checkcap c
    else c in
  (s_runtime_has_caps c, c).

Definition vsf_sysdep_keep_capabilities (c : cred) : res cred :=
  let '(has, c) := vsf_sysdep_has_capabilities_as_non_root c in
  if negb has then bug "asked to keep capabilities, but no support exists"
  else or_die "prctl" (sys_keepcaps true c).

(** The flags that cap_set_flag sets in an empty set. *)
Definition adopt_caps (caps : Z) : Z :=
  Z.lor (if negb (Z.land caps kCapabilityCAP_CHOWN =? 0) then Z.shiftl 1 CAP_CHOWN else 0)
        (if negb (Z.land caps kCapabilityCAP_NET_BIND_SERVICE =? 0) then Z.shiftl 1 CAP_NET_BIND_SERVICE else 0).

Definition vsf_sysdep_adopt_capabilities (caps : Z) (c : cred) : res cred :=
  or_die "cap_set_proc" (sys_capset (adopt_caps caps) (adopt_caps caps) c).

End Calls.

(** ** After the change *)

(** Whatever a process may try later to get privileges back. *)
Inductive id_call :=
  | SetUid (u : Z) | SetEuid (u : Z) | SetGid (g : Z) | SetEgid (g : Z) | SetGroups (gs : list Z)
  | CapSet (p e : Z) | KeepCaps (b : bool) | Chroot (path : bytes) | Chdir (path : bytes).

Section Spec.
Context `{K : CredKernel}.

Definition id_step (i : id_call) (c : cred) : cred :=
  default c
    match i with
    | SetUid u => sys_setuid u c
    | SetEuid u => sys_seteuid u c
    | SetGid g => sys_setgid g c
    | SetEgid g => sys_setegid g c
    | SetGroups gs => sys_setgroups gs c
    | CapSet p e => sys_capset p e c
    | KeepCaps b => sys_keepcaps b c
    | Chroot path => sys_chroot path c
    | Chdir path => sys_chdir path c
    end.

(** The user with no way back: his ids and groups, at most the capabilities [mask],
    and a fixed root directory. *)
Record confined (pw : passwd) (gs : list Z) (mask : Z) (r : bytes) (c : cred) : Prop := {
  conf_ruid : ruid c = pw_uid pw; conf_euid : euid c = pw_uid pw; conf_suid : suid c = pw_uid pw;
  conf_rgid : rgid c = pw_gid pw; conf_egid : egid c = pw_gid pw; conf_sgid : sgid c = pw_gid pw;
  conf_groups : groups c = gs;
  conf_permitted : within (permitted c) mask = true;
  conf_effective : within (effective c) (permitted c) = true;
  conf_root : root c = r
}.

(** A process of root with everything; what it has learnt of the kernel is right. *)
Record privileged (c : cred) : Prop := {
  priv_ruid : ruid c = 0; priv_euid : euid c = 0;
  priv_egid : 0 ≤ egid c ≤ INT_MAX;
  priv_permitted : permitted c = ALL_CAPS; priv_effective : effective c = ALL_CAPS;
  priv_keep : keep_caps c = false;
  priv_prctl : s_prctl_checked c = true → s_runtime_prctl_works c = kernel_keepcaps;
  priv_prctl0 : s_prctl_checked c = false → s_runtime_prctl_works c = false;
  priv_caps : s_caps_checked c = true → s_runtime_has_caps c = kernel_caps
}.

(** The entry of an ordinary user. *)
Definition ordinary (pw : passwd) : Prop := 0 < pw_uid pw < NO_ID ∧ 0 ≤ pw_gid pw < NO_ID.

(** ** The steps *)

Lemma or_die_some {A} msg (a : A) : or_die msg (Some a) = Ok a.
Proof. done. Qed.

Lemma id_cast z : 0 ≤ z < NO_ID → u32 (s32 z) = z.
Proof.
  unfold NO_ID, UINT_MOD. intros Hz. unfold u32, s32. cbv zeta. unfold UINT_MOD.
  rewrite (Z.mod_small z) by lia. destruct (Z.ltb_spec z 2147483648).
  - apply Z.mod_small. lia.
  - rewrite <- (Z.mod_add (z - 4294967296) 1) by lia. rewrite Z.mod_small; lia.
Qed.

Lemma not_no_id z : z < NO_ID → (z =? NO_ID) = false.
Proof. intros. apply Z.eqb_neq. lia. Qed.

Lemma privileged_cap c k : privileged c → Z.testbit ALL_CAPS k = true → has_cap c k = true.
Proof. intros Hp. unfold has_cap. by rewrite (priv_effective _ Hp). Qed.

(** ** The ids go *)

(** The process when it has become the user. *)
Definition dropped (pw : passwd) (caps : Z) (c c' : cred) : Prop :=
  confined pw (groups c) (adopt_caps caps) (root c) c' ∧
  permitted c' = adopt_caps caps ∧ effective c' = adopt_caps caps ∧ cwd c' = cwd c ∧
  no_fds c' = no_fds c ∧ no_procs c' = no_procs c.

Lemma within_refl a : within a a = true.
Proof. unfold within. by rewrite Z.ldiff_diag. Qed.

Lemma adopt_caps_within caps : within (adopt_caps caps) ALL_CAPS = true.
Proof. unfold adopt_caps. by destruct (negb _), (negb _). Qed.

(** The user's ids, and then the capabilities that are left. *)
Lemma adopt_ok pw caps c :
  privileged (set_caps (permitted c) (effective c) false c) → keep_caps c = negb (caps =? 0) →
  (caps = 0 ∨ kernel_caps = true) → ordinary pw →
  let c2 := set_uids (pw_uid pw) (pw_uid pw) (pw_uid pw) (set_gids (pw_gid pw) (pw_gid pw) (pw_gid pw) c) in
  ∃ c', (if negb (caps =? 0) then vsf_sysdep_adopt_capabilities caps c2 else Ok c2) = Ok c' ∧
    dropped pw caps c c'.
Proof.
  intros [H1 H2 _ H4 H5 _ _ _ _] Hk Hs [Hu Hg] c2. cbn in H1, H2, H4, H5.
  assert (permitted c2 = if negb (caps =? 0) then ALL_CAPS else 0) as Hp.
  { subst c2. unfold set_uids, set_gids. cbn. rewrite H1, H4, Hk, (proj2 (Z.eqb_neq (pw_uid pw) 0)) by lia.
    by destruct (caps =? 0). }
  assert (effective c2 = 0) as He.
  { subst c2. unfold set_uids, set_gids. cbn. rewrite H2, (proj2 (Z.eqb_neq (pw_uid pw) 0)) by lia. by rewrite orb_true_r. }
  destruct (Z.eqb_spec caps 0) as [->|Hc]; cbn [negb] in *.
  - exists c2. split; [done|]. split_and!; [|done..]. split; try done; rewrite ?Hp, ?He; done.
  - destruct Hs as [|Hs]; [done|]. unfold vsf_sysdep_adopt_capabilities, sys_capset.
    rewrite Hs, Hp, adopt_caps_within, within_refl. eexists. split; [done|].
    split_and!; [|done..]. split; try done; apply within_refl.
Qed.

(** The group id first, then the user id, then the capabilities to keep. *)
Lemma become_user pw caps c :
  privileged (set_caps (permitted c) (effective c) false c) → keep_caps c = negb (caps =? 0) →
  (caps = 0 ∨ kernel_caps = true) → ordinary pw →
  ∃ c', (let* c := vsf_sysutil_setgid pw c in
         let* c := vsf_sysutil_setuid pw c in
         if negb (caps =? 0) then vsf_sysdep_adopt_capabilities caps c else Ok c) = Ok c' ∧
    dropped pw caps c c'.
Proof.
  intros Hp Hk Hs Hpw. destruct (adopt_ok pw caps c Hp Hk Hs Hpw) as (c3 & Ha & Hd). destruct Hpw as [Hu Hg].
  assert (effective c = ALL_CAPS) as HE by (apply (priv_effective _ Hp)).
  unfold vsf_sysutil_setgid, vsf_sysutil_setgid_numeric, vsf_sysutil_setuid, vsf_sysutil_setuid_numeric.
  rewrite !id_cast by lia. unfold sys_setgid. rewrite not_no_id by lia. unfold has_cap at 1. rewrite HE.
  change (Z.testbit ALL_CAPS CAP_SETGID) with true. cbn [or_die res_bind]. unfold sys_setuid. rewrite not_no_id by lia.
  unfold has_cap at 1. cbn [set_gids effective]. rewrite HE.
  change (Z.testbit ALL_CAPS CAP_SETUID) with true. cbn [or_die res_bind]. by exists c3.
Qed.

(** Nothing that the user is to have changes. *)
Definition kept (c c' : cred) : Prop :=
  groups c' = groups c ∧ root c' = root c ∧ cwd c' = cwd c ∧ no_fds c' = no_fds c ∧ no_procs c' = no_procs c.

Lemma keep_spec c : privileged c → kernel_keepcaps = true →
  ∃ c', vsf_sysdep_keep_capabilities c = Ok c' ∧ keep_caps c' = true ∧
    privileged (set_caps (permitted c') (effective c') false c') ∧ kept c c'.
Proof.
  intros [H1 H2 H3 H4 H5 H6 H7 H8 H9] Hk. unfold vsf_sysdep_keep_capabilities, vsf_sysdep_has_capabilities_as_non_root.
  unfold sys_keepcaps. rewrite Hk. destruct (s_prctl_checked c) eqn:Hch; cbn.
  - rewrite (H7 eq_refl), Hk. cbn. eexists. split; [done|]. split_and!; try done. split; cbn; intuition congruence.
  - eexists. split; [done|]. by split_and!.
Qed.

(** The answers about the kernel, remembered from the first question. *)
Lemma has_capabilities_spec c : privileged c →
  ∃ c', vsf_sysdep_has_capabilities c = (kernel_caps, c') ∧ privileged c' ∧ kept c c'.
Proof.
  intros [H1 H2 H3 H4 H5 H6 H7 H8 H9]. unfold vsf_sysdep_has_capabilities.
  destruct (s_caps_checked c) eqn:Hch; cbn.
  - rewrite (H9 eq_refl). eexists. split; [done|]. split; [split; intuition congruence|by split_and!].
  - eexists. split; [done|]. split; [by split|by split_and!].
Qed.

Lemma non_root_spec c : privileged c →
  ∃ c', vsf_sysdep_has_capabilities_as_non_root c = (kernel_keepcaps, c') ∧ privileged c' ∧ kept c c'.
Proof.
  intros [H1 H2 H3 H4 H5 H6 H7 H8 H9]. unfold vsf_sysdep_has_capabilities_as_non_root, sys_keepcaps.
  destruct (s_prctl_checked c) eqn:Hch; cbn.
  - rewrite (H7 eq_refl). eexists. split; [done|]. split; [split; intuition congruence|by split_and!].
  - destruct kernel_keepcaps eqn:Hk; cbn; rewrite ?H8 by done; eexists; (split; [done|]);
      (split; [split; cbn; intuition congruence|by split_and!]).
Qed.

(** ** No way back *)

Lemma within_bit a b i : within a b = true → Z.testbit b i = false → Z.testbit a i = false.
Proof.
  unfold within. intros H Hb. apply Z.eqb_eq in H. pose proof (Z.ldiff_spec a b i) as Hd.
  rewrite H, Hb, Z.bits_0, andb_true_r in Hd. done.
Qed.

Lemma within_trans a b c : within a b = true → within b c = true → within a c = true.
Proof.
  unfold within. intros H1 H2. apply Z.eqb_eq, Z.bits_inj'. intros i Hi. rewrite Z.bits_0, Z.ldiff_spec.
  destruct (Z.testbit c i) eqn:Hc; [by rewrite andb_false_r|].
  rewrite (within_bit a b i); [done|done|]. by apply (within_bit b c i).
Qed.

Lemma adopt_caps_harmless caps k : k ∈ [CAP_SETUID; CAP_SETGID; CAP_SYS_CHROOT] → Z.testbit (adopt_caps caps) k = false.
Proof.
  unfold adopt_caps. intros [->|[->|[->|[]%not_elem_of_nil]%elem_of_cons]%elem_of_cons]%elem_of_cons;
    by destruct (negb _), (negb _).
Qed.

Lemma confined_no_cap pw gs caps r c k : confined pw gs (adopt_caps caps) r c →
  k ∈ [CAP_SETUID; CAP_SETGID; CAP_SYS_CHROOT] → has_cap c k = false.
Proof.
  intros [] Hk. unfold has_cap. apply (within_bit _ (adopt_caps caps)); [by eapply within_trans|by apply adopt_caps_harmless].
Qed.

(** Setting the ids to what they are changes nothing. *)
Lemma set_uids_same u c : ruid c = u → euid c = u → suid c = u → set_uids u u u c = c.
Proof.
  intros <- H2 H3. unfold set_uids. destruct c; cbn in *; subst. by destruct (_ =? 0).
Qed.

Lemma id_step_confined pw gs caps r i c :
  confined pw gs (adopt_caps caps) r c → confined pw gs (adopt_caps caps) r (id_step i c).
Proof.
  intros Hc. pose proof (confined_no_cap _ _ _ _ _ CAP_SETUID Hc ltac:(set_solver)) as Hu.
  pose proof (confined_no_cap _ _ _ _ _ CAP_SETGID Hc ltac:(set_solver)) as Hg.
  pose proof (confined_no_cap _ _ _ _ _ CAP_SYS_CHROOT Hc ltac:(set_solver)) as Hr.
  pose proof Hc as [H1 H2 H3 H4 H5 H6 H7 H8 H9 H10].
  destruct i as [u|u|g|g|l|p e|b|path|path]; unfold id_step.
  - unfold sys_setuid. rewrite Hu, H1, H3. destruct (u =? NO_ID); [done|]. cbn [orb].
    destruct (Z.eqb_spec u (pw_uid pw)) as [->|]; cbn; [|done]. by rewrite set_uids_same.
  - unfold sys_seteuid. rewrite Hu, H1, H2, H3. destruct (u =? NO_ID); [done|]. cbn [orb].
    destruct (Z.eqb_spec u (pw_uid pw)) as [->|]; cbn; [|done]. by rewrite set_uids_same.
  - unfold sys_setgid. rewrite Hg, H4, H6. destruct (g =? NO_ID); [done|]. cbn [orb].
    destruct (Z.eqb_spec g (pw_gid pw)) as [->|]; cbn; [|done]. by split.
  - unfold sys_setegid. rewrite Hg, H4, H5, H6. destruct (g =? NO_ID); [done|]. cbn [orb].
    destruct (Z.eqb_spec g (pw_gid pw)) as [->|]; cbn; [|done]. by split.
  - unfold sys_setgroups. by rewrite Hg.
  - unfold sys_capset. destruct (_ && _) eqn:Hin; cbn; [|done]. b2p. split; try done. by eapply within_trans.
  - unfold sys_keepcaps. destruct kernel_keepcaps; cbn; [|done]. by split.
  - unfold sys_chroot. by rewrite Hr.
  - unfold sys_chdir. destruct (walk c path); cbn; [|done]. by split.
Qed.

Lemma id_steps_confined pw gs caps r l c :
  confined pw gs (adopt_caps caps) r c → confined pw gs (adopt_caps caps) r (foldl (flip id_step) c l).
Proof. revert c; induction l as [|i l IH]; intros c Hc; cbn; [done|]. by apply IH, id_step_confined. Qed.

End Spec.

(** With nothing to keep there is no way back: after these two calls no sequence of
    system calls for ids, groups, capabilities, chroot or chdir brings back an id, a
    group, a capability or another root directory. *)
Lemma ids_given_up `{K : CredKernel} pw c :
  privileged c → ordinary pw →
  ∃ c', (let* c := vsf_sysutil_setgid pw c in vsf_sysutil_setuid pw c) = Ok c' ∧
    ∀ later, confined pw (groups c) (adopt_caps 0) (root c) (foldl (flip id_step) c' later).
Proof.
  intros Hp Hpw. destruct (become_user pw 0 c) as (c' & Hc' & [Hconf _]);
    [by destruct Hp; split|by rewrite (priv_keep _ Hp)|by left|done|].
  exists c'. split; [|intros; by apply id_steps_confined].
  rewrite <- Hc'. destruct (vsf_sysutil_setgid pw c) as [c1|]; [|done]. cbn [res_bind].
  by destruct (vsf_sysutil_setuid pw c1).
Qed.

(** Root becomes nobody, keeping the port 20 to bind. *)
Definition demo_user : passwd := MkPasswd (lit "nobody") 99 98 (lit "/").
#[local] Instance demo_kernel : CredKernel := {
  groups_of _ g := [g; 7];
  walk c p := if bool_decide (p = lit ".") then Some (cwd c) else None;
  can_write c p := euid c =? 0;
  kernel_caps := true;
  kernel_keepcaps := true
}.
Definition demo_root : cred :=
  MkCred 0 0 0 0 0 0 [0; 4] ALL_CAPS ALL_CAPS false (lit "/") (lit "/root") false false false false false false.

Example demo_change :
  (let* c := vsf_sysutil_clear_supp_groups demo_root in
   let* c := vsf_sysdep_keep_capabilities c in
   let* c := vsf_sysutil_setgid demo_user c in
   let* c := vsf_sysutil_setuid demo_user c in
   let* c := vsf_sysdep_adopt_capabilities kCapabilityCAP_NET_BIND_SERVICE c in
   Ok (c, id_step (SetUid 0) c)) =
  let c := MkCred 99 99 99 98 98 98 [] 1024 1024 true (lit "/") (lit "/root") false false true true false false in
  Ok (c, c).
Proof. by vm_compute. Qed.
