(* ===== verification/Auth.v ===== *)
(** * Authentication by PAM

    sysdeputil.c: [vsf_sysdep_check_auth], the conversation with PAM, the utmp
    entry, and the clean-up that [vsf_sysutil_exit] of sysutil.c runs. (The login of
    privops.c asks COS instead; its call of [vsf_sysdep_check_auth] is disabled.)
    PAM answers as a parameter; an automaton says what it asks of its callers. *)

From Stdlib Require Import Init.Byte Strings.Byte.
From Stdlib Require Import ZArith Lia String.
From stdpp Require Import base list numbers option strings.
From S2P Require Import Prelude SysUtil Str Text.

(** ** The calls of the library *)

Inductive pam_item := PAM_RHOST | PAM_TTY | PAM_RUSER.

Inductive pam_call :=
  | PamStart (service user : bytes)
  | PamSetItem (item : pam_item) (value : bytes)
  | PamAuthenticate
  | PamGetUser
  | PamAcctMgmt
  | PamSetCred (establish : bool)
  | PamOpenSession
  | PamCloseSession
  | PamEnd (status : Z)
  | UtInsert (line user host : bytes)
  | UtRemove.

Record pam_answer := PamAnswer { pam_ret : Z; pam_text : bytes }.

Abbreviation pam_trace := (list (pam_call * pam_answer)).

Class Pam := pam : pam_trace → pam_call → pam_answer.

Definition PAM_SUCCESS : Z := 0.
Definition ok_answer (a : pam_answer) : bool := pam_ret a =? PAM_SUCCESS.

(** ** The state *)

(** [s_pamh] is a handle or NULL; [s_exit_func] is [vsf_auth_shutdown] or NULL. *)
Record auth_state := AuthState {
  s_pamh : bool; s_pword_str : bytes; s_exit_func : bool; s_uwtmp_inserted : bool;
  pam_calls : pam_trace
}.

Definition auth_start : auth_state := AuthState false [] false false [].

Definition A (X : Type) : Type := auth_state → res X * auth_state.
#[global] Instance A_ret : MRet A := λ X x s, (Ok x, s).
#[global] Instance A_bind : MBind A := λ X Y k m s,
  match m s with (Ok x, s') => k x s' | (Err e, s') => (Err e, s') end.

Definition abug {X} (msg : string) : A X := λ s, (bug msg, s).
Definition reads {X} (f : auth_state → X) : A X := λ s, (Ok (f s), s).
Definition set_pamh (b : bool) : A unit := λ s,
  (Ok tt, AuthState b (s_pword_str s) (s_exit_func s) (s_uwtmp_inserted s) (pam_calls s)).
Definition set_pword (p : bytes) : A unit := λ s,
  (Ok tt, AuthState (s_pamh s) p (s_exit_func s) (s_uwtmp_inserted s) (pam_calls s)).
Definition vsf_sysutil_set_exit_func (b : bool) : A unit := λ s,
  (Ok tt, AuthState (s_pamh s) (s_pword_str s) b (s_uwtmp_inserted s) (pam_calls s)).
Definition set_uwtmp (b : bool) : A unit := λ s,
  (Ok tt, AuthState (s_pamh s) (s_pword_str s) (s_exit_func s) b (pam_calls s)).

Section Code.
Context `{P : Pam}.
(** tunable_pam_service_name, tunable_session_support and the process id. *)
Context (pam_service_name : option bytes) (session_support : bool) (pid : Z).

Definition call (c : pam_call) : A pam_answer := λ s,
  let a := pam (pam_calls s) c in
  (Ok a, AuthState (s_pamh s) (s_pword_str s) (s_exit_func s) (s_uwtmp_inserted s) ((c, a) :: pam_calls s)).

(** The fields of [struct utmpx]: 32 bytes for the line and the user, 256 for the
    host, each with a NUL. *)
Definition vsf_insert_uwtmp (p_user_str p_host_str : bytes) : A unit :=
  inserted ← reads s_uwtmp_inserted;
  if inserted : bool then abug "vsf_insert_uwtmp"
  else
    let line_str : bytes := lit "vsftpd:" ++ vsf_sysutil_ulong_to_str pid in
    if 32 <=? zlen line_str then mret tt
    else
      set_uwtmp true;;
      call (UtInsert line_str (take 31 (cstr p_user_str)) (take 255 (cstr p_host_str)));;
      mret tt.

Definition vsf_remove_uwtmp : A unit :=
  inserted ← reads s_uwtmp_inserted;
  if negb inserted then mret tt
  else set_uwtmp false;; call UtRemove;; mret tt.

(** [(void) pam_end(s_pamh, retval); s_pamh = 0; return result] *)
Definition end_with (retval : Z) (result : bool) (user : bytes) : A (bool * bytes) :=
  call (PamEnd retval);;
  set_pamh false;;
  mret (result, user).

(** A step of the authentication, and the failure exit that every step has. *)
Definition step (c : pam_call) (user : bytes) (k : pam_answer → A (bool * bytes)) : A (bool * bytes) :=
  a ← call c;
  if negb (ok_answer a) then end_with (pam_ret a) false user else k a.

(** The result and the user's name, which PAM may change. *)
Definition vsf_sysdep_check_auth (p_user_str p_pass_str p_remote_host : bytes) : A (bool * bytes) :=
  pamh ← reads s_pamh;
  if pamh : bool then abug "vsf_sysdep_check_auth"
  else
    set_pword p_pass_str;;
    started ← match pam_service_name with
              | Some name => a ← call (PamStart name (cstr p_user_str)); mret (ok_answer a)
              | None => mret false
              end;
    if negb started then set_pamh false;; mret (false, p_user_str)
    else
      set_pamh true;;
      step (PamSetItem PAM_RHOST (cstr p_remote_host)) p_user_str (λ _,
      step (PamSetItem PAM_TTY (lit "ftp")) p_user_str (λ _,
      step (PamSetItem PAM_RUSER (cstr p_user_str)) p_user_str (λ _,
      step PamAuthenticate p_user_str (λ _,
      step PamGetUser p_user_str (λ item,
      let p_user_str := pam_text item in
      step PamAcctMgmt p_user_str (λ _,
      step (PamSetCred true) p_user_str (λ cred,
      if negb session_support then end_with (pam_ret cred) true p_user_str
      else
        vsf_insert_uwtmp p_user_str p_remote_host;;
        a ← call PamOpenSession;
        if negb (ok_answer a) then
          vsf_remove_uwtmp;;
          call (PamSetCred false);;
          end_with (pam_ret a) false p_user_str
        else
          vsf_sysutil_set_exit_func true;;
          mret (true, p_user_str)))))))).

Definition vsf_auth_shutdown : A unit :=
  pamh ← reads s_pamh;
  if negb pamh then abug "vsf_auth_shutdown"
  else
    call PamCloseSession;;
    call (PamSetCred false);;
    call (PamEnd PAM_SUCCESS);;
    set_pamh false;;
    vsf_remove_uwtmp.

(** Up to [_exit]. *)
Definition vsf_sysutil_exit : A unit :=
  f ← reads s_exit_func;
  if f : bool then vsf_sysutil_set_exit_func false;; vsf_auth_shutdown else mret tt.

(** The passwords that are tried, until one is accepted, and the end of the
    process. *)
Fixpoint logins (attempts : list (bytes * bytes)) (host : bytes) : A bool :=
  match attempts with
  | [] => mret false
  | (user, pass) :: attempts' =>
      '(accepted, _) ← vsf_sysdep_check_auth user pass host;
      if accepted : bool then mret true else logins attempts' host
  end.

Definition session (attempts : list (bytes * bytes)) (host : bytes) : A bool :=
  accepted ← logins attempts host;
  vsf_sysutil_exit;;
  mret accepted.

End Code.

(** ** The conversation *)

Inductive msg_style := PAM_PROMPT_ECHO_OFF | PAM_PROMPT_ECHO_ON | PAM_ERROR_MSG | PAM_TEXT_INFO.

(** The response to each message, or [None] for PAM_CONV_ERR; [leaked] counts the
    copies of the password that are left behind then. *)
Fixpoint conv_loop (pword : bytes) (msgs : list msg_style) (p_resps : list (option bytes))
    : option (list (option bytes)) * nat :=
  match msgs with
  | [] => (Some p_resps, O)
  | PAM_PROMPT_ECHO_OFF :: msgs' => conv_loop pword msgs' (p_resps ++ [Some pword])
  | (PAM_TEXT_INFO | PAM_ERROR_MSG) :: msgs' => conv_loop pword msgs' (p_resps ++ [None])
  | PAM_PROMPT_ECHO_ON :: _ => (None, length (base.filter (λ r, is_Some r) p_resps))
  end.

(** No messages make a malloc of 0 bytes, which is a bug() here. *)
Definition pam_conv_func (msgs : list msg_style) : A (option (list (option bytes)) * nat) :=
  if (length msgs =? 0)%nat then abug "zero or big size in vsf_sysutil_malloc"
  else pword ← reads s_pword_str; mret (conv_loop (cstr pword) msgs []).

(** ** What PAM asks of its callers *)

(** Where a transaction stands. [Refused]: the session could not be opened, the
    credentials are still there; [Closing]: the same after a session; [Over]: only
    [pam_end] is left. *)
Inductive transaction :=
  | Idle | Started | Authenticated | AccountOk | Credited | InSession | Refused | Closing | Over.

(** The transaction after a call, if it may be made then. *)
Definition pam_step (t : transaction) (c : pam_call) (ok : bool) : option transaction :=
  match t, c with
  | Idle, PamStart _ _ => Some (if ok then Started else Idle)
  | Started, PamSetItem _ _ => Some (if ok then Started else Over)
  | Started, PamAuthenticate => Some (if ok then Authenticated else Over)
  | Authenticated, PamGetUser => Some (if ok then Authenticated else Over)
  | Authenticated, PamAcctMgmt => Some (if ok then AccountOk else Over)
  | AccountOk, PamSetCred true => Some (if ok then Credited else Over)
  | Credited, PamOpenSession => Some (if ok then InSession else Refused)
  | Credited, PamEnd _ => Some Idle
  | InSession, PamCloseSession => Some Closing
  | (Refused | Closing), PamSetCred false => Some Over
  | Over, PamEnd _ => Some Idle
  | _, _ => None
  end.

(** The entry in utmp is made once, before the session, and removed once. *)
Definition ut_step (u : bool) (c : pam_call) : option bool :=
  match c with
  | UtInsert _ _ _ => if u then None else Some true
  | UtRemove => if u then Some false else None
  | _ => Some u
  end.

Definition ut_call (c : pam_call) : bool :=
  match c with UtInsert _ _ _ | UtRemove => true | _ => false end.

(** Whether the latest transaction has got its credentials. *)
Definition grant_step (g : bool) (c : pam_call) (ok : bool) : bool :=
  match c with PamStart _ _ => false | PamSetCred true => ok | _ => g end.

(** Where a trace ends, latest call first: the transaction, whether utmp has the
    entry, and whether the credentials were given. *)
Fixpoint after (h : pam_trace) : option (transaction * bool * bool) :=
  match h with
  | [] => Some (Idle, false, false)
  | (c, a) :: h' =>
      '(t, u, g) ← after h';
      u' ← ut_step u c;
      let g' := grant_step g c (ok_answer a) in
      if ut_call c then Some (t, u', g') else (λ t', (t', u', g')) <$> pam_step t c (ok_answer a)
  end.

#[global] Instance transaction_eq_dec : EqDecision transaction.
Proof. solve_decision. Defined.

(** ** The program keeps to it *)

(** The trace is in order, and the statics of the program say where it stands. *)
Definition stands (t : transaction) (u g : bool) (s : auth_state) : Prop :=
  after (pam_calls s) = Some (t, u, g) ∧ s_uwtmp_inserted s = u ∧
  s_pamh s = negb (bool_decide (t = Idle)) ∧ s_exit_func s = bool_decide (t = InSession).

(** The run returns, with [Q]. *)
Definition awp {X} (m : A X) (Q : X → auth_state → Prop) (s : auth_state) : Prop :=
  match m s with (Ok x, s') => Q x s' | (Err _, _) => False end.

Lemma awp_bind {X Y} (m : A X) (k : X → A Y) Q s : awp m (λ x, awp (k x) Q) s → awp (m ≫= k) Q s.
Proof. unfold awp, mbind, A_bind. by destruct (m s) as [[]]. Qed.

Lemma awp_ret {X} (x : X) (Q : X → auth_state → Prop) s : Q x s → awp (mret x) Q s.
Proof. done. Qed.

Lemma awp_mono {X} (m : A X) (P Q : X → auth_state → Prop) s :
  awp m P s → (∀ x s', P x s' → Q x s') → awp m Q s.
Proof. unfold awp. destruct (m s) as [[]]; auto. Qed.

Section Order.
Context `{P : Pam}.
Context (pam_service_name : option bytes) (session_support : bool) (pid : Z).

(** A call that may be made leads on. *)
Lemma after_call c a h t u g u' t' :
  after h = Some (t, u, g) → ut_step u c = Some u' →
  (if ut_call c then Some t else pam_step t c (ok_answer a)) = Some t' →
  after ((c, a) :: h) = Some (t', u', grant_step g c (ok_answer a)).
Proof.
  intros Hh Hu Ht. cbn [after]. rewrite Hh. cbn. rewrite Hu. cbn. destruct (ut_call c); [by injection Ht as ->|].
  by rewrite Ht.
Qed.

Lemma awp_call c (Q : pam_answer → auth_state → Prop) s :
  (∀ a, Q a (AuthState (s_pamh s) (s_pword_str s) (s_exit_func s) (s_uwtmp_inserted s) ((c, a) :: pam_calls s))) →
  awp (call c) Q s.
Proof. intros HQ. unfold awp, call. apply HQ. Qed.

(** Only [pam_end] is left, whatever came before. *)
Lemma end_with_stands retval result user t g (Q : bool * bytes → auth_state → Prop) s :
  after (pam_calls s) = Some (t, false, g) → t = Over ∨ t = Credited →
  s_uwtmp_inserted s = false → s_exit_func s = false →
  (∀ s', stands Idle false g s' → Q (result, user) s') → awp (end_with retval result user) Q s.
Proof.
  intros Ha Ht Hu Hf HQ. unfold end_with. apply awp_bind, awp_call. intros a.
  apply awp_bind. unfold awp at 1. cbn. apply HQ. split; [|done]. cbn [pam_calls].
  refine (after_call (PamEnd retval) a _ t false g false Idle Ha eq_refl _). by destruct Ht as [-> | ->].
Qed.

Lemma step_stands c user k t t' g (Q : bool * bytes → auth_state → Prop) s :
  stands t false g s → t ≠ Idle → t ≠ InSession → t' ≠ Idle → t' ≠ InSession →
  ut_call c = false → pam_step t c true = Some t' → pam_step t c false = Some Over →
  (∀ s', stands Idle false (grant_step g c false) s' → Q (false, user) s') →
  (∀ a s', stands t' false (grant_step g c true) s' → awp (k a) Q s') →
  awp (step c user k) Q s.
Proof.
  intros (Ha & Hu & Hh & Hf) Ht1 Ht2 Ht1' Ht2' Hc Hok Hbad HQ Hk. unfold step. apply awp_bind, awp_call. intros a.
  rewrite !bool_decide_eq_false_2 in * by done.
  assert (ut_step false c = Some false) as Huc by (by destruct c).
  destruct (ok_answer a) eqn:Hoka; cbn [negb].
  - apply Hk. split; [|by rewrite !bool_decide_eq_false_2]. cbn [pam_calls]. rewrite <- Hoka.
    eapply after_call; [exact Ha|done|]. by rewrite Hc, Hoka.
  - eapply (end_with_stands _ _ _ Over (grant_step g c false)); [|by left|done|done|exact HQ]. cbn [pam_calls].
    replace (grant_step g c false) with (grant_step g c (ok_answer a)) by (by rewrite Hoka).
    eapply after_call; [exact Ha|done|]. by rewrite Hc, Hoka.
Qed.

(** A login attempt ends without a transaction, or in a session. *)
Definition attempt_done (r : bool * bytes) (s : auth_state) : Prop :=
  if r.1 then (if session_support then ∃ u, stands InSession u true s else stands Idle false true s)
  else ∃ g', stands Idle false g' s.

Lemma insert_stands user host g (Q : unit → auth_state → Prop) s :
  stands Credited false g s → (∀ u s', stands Credited u g s' → Q tt s') →
  awp (vsf_insert_uwtmp pid user host) Q s.
Proof.
  intros (Ha & Hu & Hh & Hf) HQ. unfold vsf_insert_uwtmp. apply awp_bind. unfold awp at 1. cbn. rewrite Hu.
  destruct (32 <=? _).
  - apply awp_ret, (HQ false). by split.
  - apply awp_bind. unfold awp at 1. cbn. apply awp_bind, awp_call. intros a. apply awp_ret, (HQ true).
    split; [|done]. cbn [pam_calls]. exact (after_call (UtInsert _ _ _) a _ Credited false g true Credited Ha eq_refl eq_refl).
Qed.

Lemma remove_stands t u g h s (Q : unit → auth_state → Prop) :
  after (pam_calls s) = Some (t, u, g) → s_uwtmp_inserted s = u → s_pamh s = h → s_exit_func s = false →
  (∀ s', after (pam_calls s') = Some (t, false, g) → s_uwtmp_inserted s' = false → s_pamh s' = h →
     s_exit_func s' = false → Q tt s') →
  awp vsf_remove_uwtmp Q s.
Proof.
  intros Ha Hu Hh Hf HQ. unfold vsf_remove_uwtmp. apply awp_bind. unfold awp at 1. cbn. rewrite Hu. destruct u; cbn [negb].
  - apply awp_bind. unfold awp at 1. cbn. apply awp_bind, awp_call. intros a. apply awp_ret, HQ; try done.
    exact (after_call UtRemove a _ t true g false t Ha eq_refl eq_refl).
  - by apply awp_ret, HQ.
Qed.

Lemma open_session_stands user host s :
  session_support = true → stands Credited false true s →
  awp (vsf_insert_uwtmp pid user host;;
       a ← call PamOpenSession;
       if negb (ok_answer a) then
         vsf_remove_uwtmp;; call (PamSetCred false);; end_with (pam_ret a) false user
       else vsf_sysutil_set_exit_func true;; mret (true, user)) attempt_done s.
Proof.
  intros Hses Hs. apply awp_bind. eapply insert_stands; [exact Hs|]. intros u s1 (Ha & Hu & Hh & Hf).
  apply awp_bind, awp_call. intros a.
  assert (∀ t', (if ok_answer a then InSession else Refused) = t' →
    after ((PamOpenSession, a) :: pam_calls s1) = Some (t', u, true)) as Hafter.
  { intros t' <-. refine (after_call PamOpenSession a _ Credited u true u _ Ha eq_refl _). by destruct (ok_answer a). }
  destruct (ok_answer a) eqn:Hok; cbn [negb].
  - apply awp_bind. unfold awp at 1. cbn [vsf_sysutil_set_exit_func]. apply awp_ret. unfold attempt_done. cbn [fst]. rewrite Hses. exists u.
    split; [exact (Hafter _ eq_refl)|done].
  - apply awp_bind. eapply remove_stands; [exact (Hafter _ eq_refl)|exact Hu|exact Hh|exact Hf|].
    intros s2 Ha2 Hu2 Hh2 Hf2. apply awp_bind, awp_call. intros b.
    eapply (end_with_stands _ _ _ Over true); [|by left|exact Hu2|exact Hf2|].
    + exact (after_call (PamSetCred false) b _ Refused false true false Over Ha2 eq_refl eq_refl).
    + intros s3 Hs3. unfold attempt_done. cbn [fst]. eauto.
Qed.

Lemma check_auth_stands user pass host g s :
  stands Idle false g s →
  awp (vsf_sysdep_check_auth pam_service_name session_support pid user pass host) attempt_done s.
Proof.
  intros (Ha & Hu & Hh & Hf). unfold vsf_sysdep_check_auth. apply awp_bind. unfold awp at 1. cbn [reads].
  rewrite Hh. cbn [bool_decide negb decide transaction_eq_dec]. apply awp_bind. unfold awp at 1. cbn [set_pword].
  assert (∀ g' s', stands Idle false g' s' → attempt_done (false, user) s') as Hfail
    by (intros g' s' Hs'; unfold attempt_done; cbn [fst]; eauto).
  apply awp_bind. destruct pam_service_name as [name|].
  2:{ apply awp_ret. cbn [negb]. apply awp_bind. unfold awp at 1. cbn [set_pamh]. apply awp_ret, (Hfail g). by split. }
  apply awp_bind, awp_call. intros a. apply awp_ret. cbn [pam_calls s_pword_str s_exit_func s_uwtmp_inserted s_pamh].
  pose proof (after_call (PamStart name (cstr user)) a _ Idle false g false
    (if ok_answer a then Started else Idle) Ha eq_refl eq_refl) as Ha1. cbn [grant_step] in Ha1.
  destruct (ok_answer a); cbn [negb].
  2:{ apply awp_bind. unfold awp at 1. cbn [set_pamh]. apply awp_ret, (Hfail false). split; [exact Ha1|by split]. }
  apply awp_bind. unfold awp at 1. cbn [set_pamh].
  assert (∀ t t' c user' k g' s', stands t false g' s' → t ≠ Idle → t ≠ InSession → t' ≠ Idle → t' ≠ InSession →
    ut_call c = false → pam_step t c true = Some t' → pam_step t c false = Some Over →
    (∀ x s'', stands t' false (grant_step g' c true) s'' → awp (k x) attempt_done s'') →
    awp (step c user' k) attempt_done s') as Hstep.
  { intros. eapply step_stands; try eassumption. intros s'' Hs''. unfold attempt_done. cbn [fst]. eauto. }
  eapply (Hstep Started Started); [by split|done..|]. intros _ s1 H1.
  eapply (Hstep Started Started); [exact H1|done..|]. intros _ s2 H2.
  eapply (Hstep Started Started); [exact H2|done..|]. intros _ s3 H3.
  eapply (Hstep Started Authenticated); [exact H3|done..|]. intros _ s4 H4.
  eapply (Hstep Authenticated Authenticated); [exact H4|done..|]. intros item s5 H5. cbv zeta.
  eapply (Hstep Authenticated AccountOk); [exact H5|done..|]. intros _ s6 H6.
  eapply (Hstep AccountOk Credited); [exact H6|done..|]. intros cred s7 H7. cbn [grant_step] in H7.
  destruct session_support eqn:Hses; cbn [negb]; [by apply open_session_stands|].
  destruct H7 as (Ha7 & Hu7 & Hh7 & Hf7).
  eapply (end_with_stands _ _ _ Credited true); [exact Ha7|by right|exact Hu7|exact Hf7|].
  intros s8 Hs8. unfold attempt_done. cbn [fst]. rewrite Hses. exact Hs8.
Qed.

Lemma logins_stand attempts host g s :
  stands Idle false g s →
  awp (logins pam_service_name session_support pid attempts host)
    (λ b s', ∃ x, attempt_done (b, x) s') s.
Proof.
  revert g s; induction attempts as [|[user pass] attempts IH]; intros g s Hs; cbn [logins].
  - apply awp_ret. exists []. exists g. exact Hs.
  - apply awp_bind. eapply awp_mono; [by eapply check_auth_stands|]. intros [[] x] s1 H1.
    + apply awp_ret. eauto.
    + destruct H1 as [g' H1]. by eapply IH.
Qed.

Lemma exit_stands b s :
  (∃ x, attempt_done (b, x) s) →
  awp vsf_sysutil_exit (λ _ s', ∃ g, stands Idle false g s' ∧ (b = true → g = true)) s.
Proof.
  intros [x H]. unfold vsf_sysutil_exit. apply awp_bind. unfold awp at 1. cbn [reads].
  assert (∀ g, stands Idle false g s → (b = true → g = true) →
    awp (mret ()) (λ (_ : unit) s', ∃ g, stands Idle false g s' ∧ (b = true → g = true)) s) as Hidle
    by (intros g Hs Hb; apply awp_ret; eauto).
  unfold attempt_done in H. cbn [fst] in H. destruct b; [destruct session_support|].
  - destruct H as (u & Ha & Hu & Hh & Hf). rewrite Hf. cbn [bool_decide decide transaction_eq_dec].
    apply awp_bind. unfold awp at 1. cbn [vsf_sysutil_set_exit_func]. unfold vsf_auth_shutdown.
    apply awp_bind. unfold awp at 1. cbn [reads s_pamh]. rewrite Hh. cbn [negb bool_decide decide transaction_eq_dec].
    apply awp_bind, awp_call. intros a1. apply awp_bind, awp_call. intros a2. apply awp_bind, awp_call. intros a3.
    cbn [pam_calls s_pword_str s_exit_func s_uwtmp_inserted s_pamh].
    pose proof (after_call PamCloseSession a1 _ InSession u true u Closing Ha eq_refl eq_refl) as H1.
    pose proof (after_call (PamSetCred false) a2 _ Closing u true u Over H1 eq_refl eq_refl) as H2.
    pose proof (after_call (PamEnd PAM_SUCCESS) a3 _ Over u true u Idle H2 eq_refl eq_refl) as H3.
    apply awp_bind. unfold awp at 1. cbn [set_pamh].
    eapply (remove_stands Idle u true false); [exact H3|exact Hu|done|done|]. intros s' Ha' Hu' Hh' Hf'.
    exists true. split; [by split|done].
  - pose proof H as (_ & _ & _ & Hf). rewrite Hf. by eapply Hidle.
  - destruct H as [g H]. pose proof H as (_ & _ & _ & Hf). rewrite Hf. by eapply Hidle.
Qed.

End Order.

(** C15: PAM's transactions are well formed. Whatever PAM answers and however many
    passwords are tried, the calls of [vsf_sysdep_check_auth] and of the clean-up
    in [vsf_sysutil_exit] are in the order that PAM asks for: every transaction
    that is started is ended once, a session that is opened is closed and its
    credentials are deleted, and the utmp entry is made once and removed once, also
    when the session cannot be opened. No bug() is hit, and a login is accepted only
    if the password, the account and the credentials were. *)
Theorem pam_well_formed `{P : Pam} (pam_service_name : option bytes) (session_support : bool) (pid : Z)
    (attempts : list (bytes * bytes)) (host : bytes) :
  ∃ accepted granted s, session pam_service_name session_support pid attempts host auth_start = (Ok accepted, s) ∧
    after (pam_calls s) = Some (Idle, false, granted) ∧ s_pamh s = false ∧ (accepted = true → granted = true).
Proof.
  assert (awp (session pam_service_name session_support pid attempts host)
    (λ b s', ∃ g, stands Idle false g s' ∧ (b = true → g = true)) auth_start) as H.
  { unfold session. apply awp_bind. eapply awp_mono; [eapply (logins_stand _ _ _ _ _ false); by split|].
    intros b s Hs. apply awp_bind. eapply awp_mono; [eapply exit_stands; exact Hs|]. intros [] s' Hs'. by apply awp_ret. }
  unfold awp in H. destruct (session _ _ _ _ _ _) as [[b|] s]; [|done].
  destruct H as (g & (Ha & _ & Hh & _) & Hb). exists b, g, s. split_and!; [done|done|by rewrite Hh|done].
Qed.

(** The password goes out only as the answer to a prompt that does not echo. *)
Lemma conv_loop_answers pword msgs resps out n :
  conv_loop pword msgs resps = (Some out, n) →
  ∃ new, out = resps ++ new ∧
    Forall2 (λ m r, r = match m with PAM_PROMPT_ECHO_OFF => Some pword | _ => None end) msgs new.
Proof.
  revert resps; induction msgs as [|m msgs IH]; intros resps; cbn [conv_loop].
  - intros [= <- _]. exists []. by rewrite app_nil_r.
  - destruct m; intros H; try discriminate; apply IH in H as (new & -> & H2);
      eexists (_ :: new); (split; [by rewrite <- app_assoc|by constructor]).
Qed.

(** The copies of the password are not freed when a later prompt is refused. *)
Lemma conv_leaks : conv_loop (lit "secret") [PAM_PROMPT_ECHO_OFF; PAM_PROMPT_ECHO_ON] [] = (None, 1%nat).
Proof. reflexivity. Qed.

(** PAM refuses the first password. *)
Definition demo_pam : Pam := λ h c,
  match c with
  | PamAuthenticate => PamAnswer (if (length h <? 5)%nat then 7 else 0) []
  | PamGetUser => PamAnswer 0 (lit "bob")
  | _ => PamAnswer 0 []
  end.

Definition demo_logins : res bool * auth_state :=
  session (P := demo_pam) (Some (lit "ftp")) true 42 [(lit "bob", lit "a"); (lit "bob", lit "b")] (lit "10.0.0.7") auth_start.

Example demo_session :
  demo_logins.1 = Ok true ∧ length (pam_calls demo_logins.2) = 20%nat ∧
  take 7 (fst <$> pam_calls demo_logins.2) =
    [UtRemove; PamEnd 0; PamSetCred false; PamCloseSession; PamOpenSession;
     UtInsert (lit "vsftpd:42") (lit "bob") (lit "10.0.0.7"); PamSetCred true].
Proof. by vm_compute. Qed.
