(* ===== verification/Sendfile.v ===== *)
(** * Sending a file with sendfile

    [vsf_sysutil_sendfile] of sysdeputil.c with its copying fall-back, and
    [do_file_send_sendfile] of ftpdataio.c. (The call of the latter is disabled in
    [vsf_ftpdataio_transfer_file]; downloads run through [do_file_send_rwloop].) *)

From Stdlib Require Import Init.Byte Strings.Byte.
From Stdlib Require Import ZArith Lia String.
From stdpp Require Import base list numbers option strings.
From S2P Require Import Prelude SysUtil Str Text StrRefine.

(** ** The kernel *)

Inductive sf_error := ErrINTR | ErrNOSYS | ErrINVAL | ErrOPNOTSUPP | ErrOther.
Inductive sf_call := CallSendfile | CallRead | CallWrite.

#[global] Instance sf_error_eq_dec : EqDecision sf_error.
Proof. solve_decision. Defined.

(** The result and errno of the [i]-th call. A result that is not negative says how
    much the kernel is ready to move; it moves at most what it is asked for and
    what is there. Reads and writes are those of [vsf_sysutil_read] and
    [vsf_sysutil_write], which repeat an interrupted call. *)
Class SendKernel := sf_answer : sf_call → nat → Z * sf_error.

(** The position in the file, what has gone out, and the statics of
    [do_sendfile]. *)
Record sf_state := SfState {
  file_pos : Z; out : bytes; s_sendfile_checked : bool; s_runtime_sendfile_works : bool; tick : nat
}.

Definition F (X : Type) : Type := sf_state → res X * sf_state.
#[global] Instance F_ret : MRet F := λ X x s, (Ok x, s).
#[global] Instance F_bind : MBind F := λ X Y k m s,
  match m s with (Ok x, s') => k x s' | (Err e, s') => (Err e, s') end.

Definition fail {X} (e : res X) : F X := λ s, (e, s).
Definition look {X} (f : sf_state → X) : F X := λ s, (Ok (f s), s).
Definition set_statics (checked works : bool) : F unit := λ s,
  (Ok tt, SfState (file_pos s) (out s) checked works (tick s)).

Section Code.
Context `{K : SendKernel}.
(** The bytes of the file, and tunable_use_sendfile. *)
Context (O : bytes) (use_sendfile : bool).

Definition moved (n r : Z) (s : bytes) : bytes := take (Z.to_nat (Z.min r n)) s.

Definition sendfile (num_send : Z) : F (Z * sf_error) := λ s,
  let '(r, e) := sf_answer CallSendfile (tick s) in
  let d := if r <? 0 then [] else moved num_send r (drop (Z.to_nat (file_pos s)) O) in
  (Ok (if r <? 0 then r else zlen d, e),
   SfState (file_pos s + zlen d) (out s ++ d) (s_sendfile_checked s) (s_runtime_sendfile_works s) (S (tick s))).

Definition vsf_sysutil_read (size : Z) : F (Z * bytes) := λ s,
  let r := (sf_answer CallRead (tick s)).1 in
  let d := if r <? 0 then [] else moved size r (drop (Z.to_nat (file_pos s)) O) in
  (Ok (if r <? 0 then r else zlen d, d),
   SfState (file_pos s + zlen d) (out s) (s_sendfile_checked s) (s_runtime_sendfile_works s) (S (tick s))).

Definition vsf_sysutil_write (p_buf : bytes) : F Z := λ s,
  let r := (sf_answer CallWrite (tick s)).1 in
  let d := if r <? 0 then [] else moved (zlen p_buf) r p_buf in
  (Ok (if r <? 0 then r else zlen d),
   SfState (file_pos s) (out s ++ d) (s_sendfile_checked s) (s_runtime_sendfile_works s) (S (tick s))).

Fixpoint write_loop (fuel : nat) (p_buf : bytes) (num_written : Z) : F Z :=
  match fuel with
  | 0%nat => fail (Err Fuel)
  | S fuel' =>
      retval ← vsf_sysutil_write p_buf;
      if retval <? 0 then mret retval
      else if retval =? 0 then mret num_written
      else if zlen p_buf <? retval then fail (die "retval too big in vsf_sysutil_write_loop")
      else
        let rest := drop (Z.to_nat retval) p_buf in
        if zlen rest =? 0 then mret (num_written + retval)
        else write_loop fuel' rest (num_written + retval)
  end.

Definition vsf_sysutil_write_loop (p_buf : bytes) : F Z :=
  if INT_MAX <? zlen p_buf then fail (die "size too big in vsf_sysutil_write_loop")
  else write_loop (S (length p_buf)) p_buf 0.

Definition vsf_sysutil_lseek_to (seek_pos : Z) : F unit := λ s,
  if seek_pos <? 0 then (die "negative seek_pos in vsf_sysutil_lseek_to", s)
  else (Ok tt, SfState seek_pos (out s) (s_sendfile_checked s) (s_runtime_sendfile_works s) (tick s)).

Definition VSFTP_DATA_BUFSIZE : Z := 65536.

(** The fall-back: read and write, a buffer at a time. *)
Fixpoint copy_loop (fuel : nat) (num_send total_written : Z) : F Z :=
  match fuel with
  | 0%nat => fail (Err Fuel)
  | S fuel' =>
      let num_read_this_time := if num_send <? VSFTP_DATA_BUFSIZE then num_send else VSFTP_DATA_BUFSIZE in
      '(retval, p_recvbuf) ← vsf_sysutil_read num_read_this_time;
      if retval <? 0 then mret retval
      else if retval =? 0 then mret (-1)
      else
        let num_read := retval in
        num_written ← vsf_sysutil_write_loop p_recvbuf;
        if num_written <? 0 then mret num_written
        else
          let total_written := total_written + num_written in
          if negb (num_written =? num_read) then mret num_written
          else if num_send <? num_written then fail (bug "num_written bigger than num_send in do_sendfile")
          else
            let num_send := num_send - num_written in
            if num_send =? 0 then mret total_written else copy_loop fuel' num_send total_written
  end.

Fixpoint sendfile_retry (fuel : nat) (num_send : Z) : F (Z * sf_error) :=
  match fuel with
  | 0%nat => fail (Err Fuel)
  | S fuel' =>
      '(retval, error) ← sendfile num_send;
      if (retval <? 0) && bool_decide (error = ErrINTR) then sendfile_retry fuel' num_send
      else mret (retval, error)
  end.

Definition do_sendfile (fuel : nat) (num_send : Z) : F Z :=
  checked ← look s_sendfile_checked;
  works ← look s_runtime_sendfile_works;
  if use_sendfile && (negb checked || works) then
    '(retval, error) ← sendfile_retry fuel num_send;
    let works := works || (negb checked && (negb (retval <? 0) || negb (bool_decide (error = ErrNOSYS)))) in
    set_statics true works;;
    if negb (retval <? 0) then mret retval
    else if works && negb (bool_decide (error = ErrINVAL)) && negb (bool_decide (error = ErrOPNOTSUPP))
    then mret retval
    else copy_loop fuel num_send 0
  else copy_loop fuel num_send 0.

Fixpoint sendfile_loop (fuel : nat) (p_offset num_send max_chunk : Z) : F (Z * Z) :=
  if num_send <=? 0 then mret (0, p_offset)
  else
    match fuel with
    | 0%nat => fail (Err Fuel)
    | S fuel' =>
        let send_this_time := if max_chunk <? num_send then max_chunk else u32 num_send in
        vsf_sysutil_lseek_to p_offset;;
        retval ← do_sendfile fuel send_this_time;
        if (retval <? 0) || (retval =? 0) then mret (retval, p_offset)
        else sendfile_loop fuel' (p_offset + retval) (num_send - retval) max_chunk
    end.

(** The result and the new offset. *)
Definition vsf_sysutil_sendfile (fuel : nat) (p_offset num_send max_chunk : Z) : F (Z * Z) :=
  if (p_offset <? 0) || (num_send <? 0) then fail (die "invalid offset or send count in vsf_sysutil_sendfile")
  else sendfile_loop fuel p_offset num_send (if max_chunk =? 0 then INT_MAX else max_chunk).

Record transfer_ret := TransferRet { retval : Z; transferred : Z }.

(** [chunk_size] is [get_chunk_size()] when there is a rate limit, else 0. *)
Definition do_file_send_sendfile (fuel : nat) (curr_file_offset bytes_to_send chunk_size : Z) : F transfer_ret :=
  '(retval, offset) ← vsf_sysutil_sendfile fuel curr_file_offset bytes_to_send chunk_size;
  let bytes_sent := offset - curr_file_offset in
  if (retval <? 0) || negb (bytes_sent =? bytes_to_send) then mret (TransferRet (-2) bytes_sent)
  else mret (TransferRet 0 bytes_sent).

End Code.

(** ** What goes out *)

Section Exact.
Context `{K : SendKernel} (O : bytes) (use_sendfile : bool).
(** A write of something never takes nothing. *)
Context (Hwrite : ∀ i, (sf_answer CallWrite i).1 ≠ 0).

(** sendfile is not interrupted. *)
Definition undisturbed : Prop := ∀ i, (sf_answer CallSendfile i).2 ≠ ErrINTR.

(** If the run returns, then [Q]; undisturbed, it does not want fuel. *)
Definition fwp {X} (m : F X) (Q : X → sf_state → Prop) (s : sf_state) : Prop :=
  match m s with (Ok x, s') => Q x s' | (Err e, _) => undisturbed → e ≠ Fuel end.

Lemma fwp_bind {X Y} (m : F X) (k : X → F Y) Q s : fwp m (λ x, fwp (k x) Q) s → fwp (m ≫= k) Q s.
Proof. unfold fwp, mbind, F_bind. by destruct (m s) as [[]]. Qed.

Lemma fwp_mono {X} (m : F X) (P Q : X → sf_state → Prop) s :
  fwp m P s → (∀ x s', P x s' → Q x s') → fwp m Q s.
Proof. unfold fwp. destruct (m s) as [[]]; auto. Qed.

(** The next [k] bytes of the file have gone out, and the position is past them. *)
Definition advanced (off : Z) (k : nat) (s s' : sf_state) : Prop :=
  out s' = out s ++ take k (drop (Z.to_nat off) O) ∧ (k <= length (drop (Z.to_nat off) O))%nat.

Lemma moved_prefix n r s :
  0 ≤ n → 0 ≤ r → ∃ k, moved n r s = take k s ∧ (k <= length s)%nat ∧ Z.of_nat k ≤ n ∧
    zlen (moved n r s) = Z.of_nat k ∧ Z.of_nat k ≤ r.
Proof.
  intros Hn Hr. unfold moved. exists (Z.to_nat (Z.min r n) `min` length s)%nat.
  rewrite zlen_take. unfold zlen. split_and!; try lia.
  destruct (decide (Z.to_nat (Z.min r n) <= length s)%nat).
  - by rewrite Nat.min_l.
  - rewrite Nat.min_r, !take_ge by lia. done.
Qed.

Lemma write_loop_all fuel buf k (Q : Z → sf_state → Prop) s :
  buf ≠ [] → 0 ≤ k → (length buf <= fuel)%nat →
  (∀ v p s', out s' = out s ++ p → p `prefix_of` buf → file_pos s' = file_pos s →
     v < 0 ∨ (v = k + zlen buf ∧ p = buf) → Q v s') →
  fwp (write_loop fuel buf k) Q s.
Proof.
  revert buf k s; induction fuel as [|fuel IH]; intros buf k s Hb Hk Hf HQ; [destruct buf; cbn in Hf; [done|lia]|].
  cbn [write_loop]. apply fwp_bind. unfold fwp at 1, vsf_sysutil_write. pose proof (Hwrite (tick s)) as Hw.
  set (r := (sf_answer CallWrite (tick s)).1) in *. clearbody r. destruct (r <? 0) eqn:Hr; b2p.
  { rewrite (proj2 (Z.ltb_lt r 0)) by done. apply (HQ r []); cbn; rewrite ?app_nil_r; auto using prefix_nil. }
  destruct (moved_prefix (zlen buf) r buf) as (n & Hm & Hn1 & Hn2 & Hz & Hn3); [unfold zlen; lia|lia|].
  assert (0 < n)%nat as Hn0.
  { unfold moved in Hz. rewrite zlen_take in Hz. unfold zlen in Hz. destruct buf; [done|]. cbn [length] in *. lia. }
  rewrite Hz, Hm. rewrite (proj2 (Z.ltb_ge _ 0)), (proj2 (Z.eqb_neq _ 0)), (proj2 (Z.ltb_ge (zlen buf) _)) by (unfold zlen; lia).
  rewrite Nat2Z.id. destruct (zlen (drop n buf) =? 0) eqn:Hend; b2p.
  - apply zlen_zero in Hend. assert (take n buf = buf) as Hall
      by (rewrite <- (take_drop n buf) at 2; by rewrite Hend, app_nil_r).
    apply (HQ _ buf); cbn; [by rewrite Hall|done|done|right]. split; [|done].
    rewrite <- Hall. rewrite zlen_take. unfold zlen. lia.
  - assert (drop n buf ≠ []) as Hne by (intros Hnil; by rewrite Hnil in Hend).
    apply IH; [done|lia|rewrite length_drop; lia|]. intros v p s' Hout Hp Hpos Hv.
    apply (HQ v (take n buf ++ p)).
    + rewrite Hout. cbn. by rewrite app_assoc.
    + rewrite <- (take_drop n buf) at 2. by apply prefix_app.
    + done.
    + destruct Hv as [?|[-> ->]]; [by left|right]. split; [|by rewrite take_drop].
      rewrite zlen_drop. unfold zlen in *. lia.
Qed.

(** A part is sent and then more of it. *)
Lemma advanced_trans off k1 k2 s s1 s2 :
  0 ≤ off → advanced off k1 s s1 → advanced (off + Z.of_nat k1) k2 s1 s2 → advanced off (k1 + k2) s s2.
Proof.
  unfold advanced. intros H0 [H1 L1] [H2 L2].
  replace (Z.to_nat (off + Z.of_nat k1)) with (Z.to_nat off + k1)%nat in * by lia. rewrite <- drop_drop in *.
  set (d := drop (Z.to_nat off) O) in *. split.
  - rewrite H2, H1, <- app_assoc. f_equal. rewrite <- (take_drop k1 d) at 3.
    rewrite take_app_add' by (by rewrite length_take_le). done.
  - rewrite length_drop in L2. lia.
Qed.

(** What a call of [do_sendfile] for [n] bytes has done: it has sent a part, and if
    its result is not negative, then the result counts it. *)
Definition part_sent (off n total : Z) (s : sf_state) (v : Z) (s' : sf_state) : Prop :=
  ∃ k, advanced off k s s' ∧ Z.of_nat k ≤ n ∧ (v < 0 ∨ v = total + Z.of_nat k).

Lemma part_nothing off n total v s s' : 0 ≤ n → v < 0 → out s' = out s → part_sent off n total s v s'.
Proof. intros Hn Hv Ho. exists 0%nat. split_and!; [split; [by rewrite Ho, app_nil_r|lia]|lia|by left]. Qed.

Lemma copy_loop_part fuel n total off s :
  0 < n → n ≤ Z.of_nat fuel → n ≤ INT_MAX → 0 ≤ off → file_pos s = off → 0 ≤ total →
  fwp (copy_loop O fuel n total) (part_sent off n total s) s.
Proof.
  revert n total off s; induction fuel as [|fuel IH]; intros n total off s Hn Hf Hmax Hoff Hpos Htot; [lia|].
  cbn [copy_loop]. set (want := if n <? _ then _ else _).
  assert (0 < want ≤ n) as Hwant by (subst want; unfold VSFTP_DATA_BUFSIZE; destruct (n <? 65536) eqn:?; b2p; lia).
  clearbody want. apply fwp_bind. unfold fwp at 1, vsf_sysutil_read. rewrite Hpos.
  set (r := (sf_answer CallRead (tick s)).1). clearbody r. set (d := drop (Z.to_nat off) O).
  destruct (r <? 0) eqn:Hr; b2p.
  { rewrite (proj2 (Z.ltb_lt r 0)) by done. apply part_nothing; [lia|done|done]. }
  destruct (moved_prefix want r d) as (k & Hm & Hk1 & Hk2 & Hz & _); [lia|lia|]. rewrite Hz, Hm.
  rewrite (proj2 (Z.ltb_ge _ 0)) by lia. destruct (Z.of_nat k =? 0) eqn:Hk0; b2p.
  { apply part_nothing; [lia|lia|done]. }
  apply fwp_bind. unfold vsf_sysutil_write_loop.
  assert (zlen (take k d) = Z.of_nat k) as Hlen by (by rewrite <- Hm).
  rewrite (proj2 (Z.ltb_ge INT_MAX _)) by lia.
  apply write_loop_all; [intros Hnil; rewrite Hnil in Hlen; unfold zlen in Hlen; cbn in Hlen; lia|lia|lia|].
  intros v p s1 Hout Hpre Hpos1 Hv. cbn [out file_pos] in *.
  assert (advanced off (length p) s s1 ∧ (length p <= k)%nat) as [Hadv Hpk].
  { pose proof Hpre as Hpre2. apply prefix_length in Hpre2. rewrite length_take_le in Hpre2 by done.
    split; [|done]. split; [|fold d; lia]. rewrite Hout. f_equal. fold d. destruct Hpre as [q Hq].
    rewrite <- (Nat.min_l _ _ Hpre2), <- take_take, Hq. by rewrite take_app_length. }
  destruct (v <? 0) eqn:Hv0; b2p; [exists (length p); split_and!; [done|lia|by left]|].
  destruct Hv as [?|[-> ->]]; [lia|]. rewrite Hlen, Z.add_0_l, Z.eqb_refl. cbn [negb].
  rewrite length_take_le in Hadv by done.
  rewrite (proj2 (Z.ltb_ge n (Z.of_nat k))) by lia. destruct (n - Z.of_nat k =? 0) eqn:Hend; b2p.
  { exists k. split_and!; [done|lia|by right]. }
  eapply fwp_mono; [apply (IH (n - Z.of_nat k) (total + Z.of_nat k) (off + Z.of_nat k)); [lia..| |lia]|].
  { rewrite Hpos1. lia. }
  intros v s2 (k2 & Hadv2 & Hk & Hv). exists (k + k2)%nat. split; [by eapply advanced_trans|]. split; lia.
Qed.

(** The retries end when sendfile is not interrupted. *)
Lemma sendfile_retry_part fuel n off s :
  0 ≤ n → 0 ≤ off → file_pos s = off → (0 < fuel)%nat →
  fwp (sendfile_retry O fuel n) (λ r s', part_sent off n 0 s r.1 s' ∧ (r.1 < 0 → out s' = out s ∧ file_pos s' = off)) s.
Proof.
  revert s; induction fuel as [|fuel IH]; intros s Hn Hoff Hpos Hf; [lia|]. cbn [sendfile_retry].
  apply fwp_bind. unfold fwp at 1, sendfile. destruct (sf_answer CallSendfile (tick s)) as [r e] eqn:Ha. rewrite Hpos.
  destruct (r <? 0) eqn:Hr; b2p.
  - rewrite (proj2 (Z.ltb_lt r 0)) by done. cbn [andb]. case_bool_decide as He.
    + destruct fuel as [|fuel].
      { cbn. intros Hun. specialize (Hun (tick s)). by rewrite Ha in Hun. }
      set (s1 := SfState _ _ _ _ _). eapply fwp_mono; [apply (IH s1); [done|done| |lia]|].
      { cbn. change (zlen []) with 0. lia. }
      intros [v e'] s' [(k & [H1 H2] & Hk & Hv) Hneg]. cbn in H1, Hneg. rewrite app_nil_r in *.
      split; [by exists k|done].
    + unfold fwp. cbn. rewrite app_nil_r. split; [|intros _; split; [done|]; change (zlen []) with 0; lia]. apply part_nothing; [done|done|done].
  - destruct (moved_prefix n r (drop (Z.to_nat off) O)) as (k & Hm & Hk1 & Hk2 & Hz & _); [lia|lia|].
    rewrite Hz, Hm. rewrite (proj2 (Z.ltb_ge _ 0)) by lia. cbn [andb]. unfold fwp. cbn. split; [|lia].
    exists k. split_and!; [done|lia|lia].
Qed.

Lemma do_sendfile_part fuel n off s :
  0 < n → n ≤ Z.of_nat fuel → n ≤ INT_MAX → 0 ≤ off → file_pos s = off →
  fwp (do_sendfile O use_sendfile fuel n) (λ v s', part_sent off n 0 s v s') s.
Proof.
  intros Hn Hf Hmax Hoff Hpos. unfold do_sendfile. apply fwp_bind. unfold fwp at 1. cbn [look].
  apply fwp_bind. unfold fwp at 1. cbn [look]. destruct (use_sendfile && _); [|by apply copy_loop_part].
  apply fwp_bind. eapply fwp_mono; [apply (sendfile_retry_part fuel n off); lia|].
  intros [v e] s1 [Hpart Hneg]. cbn [fst] in *. apply fwp_bind. unfold fwp at 1. cbn [set_statics].
  destruct (v <? 0) eqn:Hv; cbn [negb].
  2:{ exact Hpart. }
  destruct (_ && _); [exact Hpart|]. b2p. destruct (Hneg Hv) as [Hout Hpos1].
  eapply fwp_mono; [apply (copy_loop_part fuel n 0 off); cbn [file_pos]; (done || lia)|].
  intros v' s2 (k & [H1 H2] & Hk). cbn [out] in H1. exists k. split; [|done]. split; [by rewrite H1, Hout|done].
Qed.

(** The offset says how much has gone out, unless the result is an error. *)
Lemma sendfile_loop_part fuel off n chunk s :
  0 ≤ n → 0 < chunk ≤ INT_MAX → n ≤ Z.of_nat fuel → 0 ≤ off →
  fwp (sendfile_loop O use_sendfile fuel off n chunk) (λ r s', ∃ k, advanced off k s s' ∧ Z.of_nat k ≤ n ∧
    (r.1 < 0 ∨ r.2 = off + Z.of_nat k) ∧ r.2 ≤ off + Z.of_nat k) s.
Proof.
  revert off n s; induction fuel as [|fuel IH]; intros off n s Hn Hc Hf Hoff; cbn [sendfile_loop];
    (destruct (n <=? 0) eqn:Hn0; b2p;
     [unfold fwp; cbn; exists 0%nat; split_and!; [split; [by rewrite app_nil_r|lia]|lia|right; lia|lia]|]); [lia|].
  set (this := if chunk <? n then chunk else u32 n).
  assert (0 < this ≤ chunk ∧ this ≤ n) as Hthis.
  { subst this. destruct (chunk <? n) eqn:?; b2p; [lia|]. rewrite u32_small by (unfold INT_MAX, UINT_MOD in *; lia). lia. }
  clearbody this. apply fwp_bind. unfold fwp at 1, vsf_sysutil_lseek_to. rewrite (proj2 (Z.ltb_ge off 0)) by lia.
  apply fwp_bind. eapply fwp_mono; [apply (do_sendfile_part (S fuel) this off); cbn [file_pos]; lia|].
  intros v s1 (k & [H1 H2] & Hk & Hv). cbn [out] in H1.
  assert (advanced off k s s1) as Hadv by (by split).
  destruct (v <? 0) eqn:Hv0; cbn [orb]; b2p.
  { unfold fwp. cbn. exists k. split_and!; [done|lia|by left|lia]. }
  destruct (v =? 0) eqn:Hz; b2p.
  { unfold fwp. cbn. exists k. split_and!; [done|lia|right; lia|lia]. }
  destruct Hv as [?|Hv]; [lia|]. eapply fwp_mono; [apply (IH (off + v) (n - v) s1); lia|].
  intros [r o] s2 (k2 & Hadv2 & Hk2 & Ho & Hle). cbn [fst snd] in *.
  replace (off + v) with (off + Z.of_nat k) in * by lia.
  exists (k + k2)%nat. split; [by eapply advanced_trans|]. split_and!; lia.
Qed.

End Exact.

(** A file is sent exactly. Whether the system has sendfile or not, whatever parts
    it and write take, and also when sendfile refuses this kind of file and the
    program copies instead: what [do_file_send_sendfile] sends is a first part of
    the [n] bytes from the offset, in order and each once; the result is 0 only if
    it is all of them, and then they are counted. It ends if sendfile is not
    interrupted for ever. (A write that takes nothing is excluded: then the copying
    loop forgets what it wrote before, see [short_write_resends].) *)
Theorem sendfile_exact `{K : SendKernel} (O : bytes) (use_sendfile : bool) (fuel : nat)
    (offset n chunk_size : Z) (s : sf_state) :
  (∀ i, (sf_answer CallWrite i).1 ≠ 0) →
  0 ≤ offset → 0 ≤ n ≤ Z.of_nat fuel → 0 ≤ chunk_size ≤ INT_MAX →
  fwp (do_file_send_sendfile O use_sendfile fuel offset n chunk_size) (λ r s', ∃ part,
    out s' = out s ++ part ∧ part `prefix_of` take (Z.to_nat n) (drop (Z.to_nat offset) O) ∧
    (retval r = 0 → zlen part = n ∧ transferred r = n) ∧ (retval r = 0 ∨ retval r = -2)) s.
Proof.
  intros Hw Hoff Hn Hc. unfold do_file_send_sendfile, vsf_sysutil_sendfile.
  rewrite (proj2 (Z.ltb_ge offset 0)), (proj2 (Z.ltb_ge n 0)) by lia. cbn [orb]. apply fwp_bind.
  set (chunk := if chunk_size =? 0 then _ else _).
  assert (0 < chunk ≤ INT_MAX) by (subst chunk; destruct (chunk_size =? 0) eqn:?; b2p; unfold INT_MAX in *; lia).
  eapply fwp_mono; [apply (sendfile_loop_part O use_sendfile Hw fuel offset n chunk); lia|].
  intros [r o] s' (k & [Hout Hk] & Hkn & Ho & Hle). cbn [fst snd] in *. set (d := drop (Z.to_nat offset) O) in *.
  assert (take k d `prefix_of` take (Z.to_nat n) d) as Hpre.
  { exists (drop k (take (Z.to_nat n) d)). rewrite <- (take_drop k (take _ d)) at 1. f_equal.
    rewrite take_take. f_equal. lia. }
  destruct ((r <? 0) || negb (o - offset =? n)) eqn:Hres; unfold fwp; cbn [mret F_ret];
    exists (take k d); (split; [done|]); (split; [done|]); cbn [retval transferred]; [split; [lia|by right]|].
  b2p. split; [|by left]. intros _. split; [|lia].
  rewrite zlen_take. unfold zlen. lia.
Qed.

(** sendfile refuses the file; reads and writes move three and two bytes. *)
Definition slow_kernel : SendKernel := λ c _,
  match c with CallSendfile => (-1, ErrINVAL) | CallRead => (3, ErrOther) | CallWrite => (2, ErrOther) end.

Definition sf_start : sf_state := SfState 0 [] false false 0.

Example slow_sends :
  (λ r, (r.1, out r.2)) (do_file_send_sendfile (K := slow_kernel) (lit "hello world") true 9 2 7 0 sf_start)
  = (Ok (TransferRet 0 7), lit "llo wor").
Proof. by vm_compute. Qed.

Lemma sendfile_exact_witness :
  fwp (K := slow_kernel) (do_file_send_sendfile (K := slow_kernel) (lit "hello world") true 9 2 7 0) (λ r s', ∃ part,
    out s' = out sf_start ++ part ∧ part `prefix_of` take 7 (drop 2 (lit "hello world")) ∧
    (retval r = 0 → zlen part = 7 ∧ transferred r = 7) ∧ (retval r = 0 ∨ retval r = -2)) sf_start.
Proof.
  apply (sendfile_exact (K := slow_kernel) (lit "hello world") true 9 2 7 0 sf_start);
    [done|discriminate|vmdec|vmdec].
Defined.

(** Writes take what they are given, but the second block's takes one byte and then
    nothing. *)
Definition choking_kernel : SendKernel := λ c i,
  match c with
  | CallSendfile => (-1, ErrNOSYS)
  | CallRead => (65536, ErrOther)
  | CallWrite => (if (i =? 3)%nat then 1 else if (i =? 4)%nat then 0 else 65536, ErrOther)
  end.

(** The 65538 bytes of the file are reported as sent, but more went out: the return
    value counts the last block only, and the bytes before it are sent again. *)
Lemma short_write_resends :
  (λ r, (r.1, zlen (out r.2)))
    (do_file_send_sendfile (K := choking_kernel) (replicate 65538 x61) false 70000 0 65538 0 sf_start)
  = (Ok (TransferRet 0 65538), 131074).
Proof. by vm_compute. Qed.
