(* ===== verification/StrList.v ===== *)
(** * strlist.c: lists of strings

    A growing array of (string, sort key) nodes, used to collect and sort the
    names of a directory. Strings are byte lists ([StrRefine]); the array is
    its allocated length and its used nodes. The C library's [qsort] is a
    parameter with its contract. *)

From Stdlib Require Import Init.Byte Strings.Byte.
From Stdlib Require Import ZArith Lia String.
From stdpp Require Import base list numbers option sorting.
From S2P Require Import Prelude SysUtil Text.
Import ResNotations.

Record mystr_list_node := LNode { str : bytes; sort_key_str : bytes }.

Record mystr_list := MkList { alloc_len : Z; list_len : Z; p_nodes : list mystr_list_node }.

Definition INIT_MYSTR_LIST : mystr_list := MkList 0 0 [].

Definition kMaxStrlist : Z := 10 * 1000 * 1000.

(** [sizeof(struct mystr_list_node)] on x86-64. *)
Definition node_size : Z := 32.

Definition str_list_free (p_list : mystr_list) : mystr_list := INIT_MYSTR_LIST.

Definition str_list_get_length (p_list : mystr_list) : Z := list_len p_list.

Fixpoint contains_loop (nodes : list mystr_list_node) (p_str : bytes) : bool :=
  match nodes with
  | [] => false
  | n :: nodes' => if t_equal p_str (str n) then true else contains_loop nodes' p_str
  end.

Definition str_list_contains_str (p_list : mystr_list) (p_str : bytes) : bool :=
  contains_loop (take (Z.to_nat (list_len p_list)) (p_nodes p_list)) p_str.

(** The size test of [vsf_sysutil_malloc] and [vsf_sysutil_realloc]. *)
Definition alloc_ok (size : Z) : res unit :=
  if (size =? 0) || (INT_MAX <? size) then bug "zero or big size" else Ok tt.

Definition str_list_add (p_list : mystr_list) (p_str : bytes)
    (p_sort_key_str : option bytes) : res mystr_list :=
  let* al :=
    if list_len p_list =? alloc_len p_list then
      if alloc_len p_list =? 0 then
        alloc_ok (u32 (32 * node_size)) ;;* Ok 32
      else
        let al := u32 (alloc_len p_list * 2) in
        if kMaxStrlist <? al then die "excessive strlist"
        else alloc_ok (u32 (al * node_size)) ;;* Ok al
    else Ok (alloc_len p_list) in
  (* the node written is [p_nodes[list_len]] *)
  if al <=? list_len p_list then Err UB
  else
    let node := LNode p_str (default [] p_sort_key_str) in
    Ok (MkList al (u32 (list_len p_list + 1)) (p_nodes p_list ++ [node])).

Definition str_list_get_pstr (p_list : mystr_list) (indexx : Z) : res bytes :=
  if list_len p_list <=? indexx then bug "indexx out of range in str_list_get_str"
  else match p_nodes p_list !! Z.to_nat indexx with
       | Some n => Ok (str n)
       | None => Err UB
       end.

(** The string a node is ordered by. *)
Definition node_key (n : mystr_list_node) : bytes :=
  if negb (length (sort_key_str n) =? 0)%nat then sort_key_str n else str n.

Definition sort_compare_common (p1 p2 : mystr_list_node) (reverse : bool) : Z :=
  if reverse then t_strcmp (node_key p2) (node_key p1)
  else t_strcmp (node_key p1) (node_key p2).

Definition sort_compare_func (p1 p2 : mystr_list_node) : Z :=
  sort_compare_common p1 p2 false.

Definition sort_compare_func_reverse (p1 p2 : mystr_list_node) : Z :=
  sort_compare_common p1 p2 true.

(** ** The order of [str_strcmp] *)

Fixpoint lex_le (s1 s2 : bytes) : bool :=
  match s1, s2 with
  | [], _ => true
  | _ :: _, [] => false
  | a :: s1', b :: s2' =>
      (uchar a <? uchar b) || ((uchar a =? uchar b) && lex_le s1' s2')
  end.

Lemma t_strcmp_cons a b s1 s2 :
  t_strcmp (a :: s1) (b :: s2) =
  if uchar a =? uchar b then t_strcmp s1 s2 else uchar a - uchar b.
Proof.
  unfold t_strcmp. cbn [length Nat.min take vsf_sysutil_memcmp].
  destruct (Z.eqb_spec (uchar a) (uchar b)) as [E|E].
  - change (S (length s1) =? S (length s2))%nat with (length s1 =? length s2)%nat.
    destruct (_ || _); [done|]. lia.
  - rewrite (proj2 (Z.eqb_neq _ _)) by lia. done.
Qed.

Lemma t_strcmp_le s1 s2 : (t_strcmp s1 s2 <=? 0) = lex_le s1 s2.
Proof.
  revert s2; induction s1 as [|a s1 IH]; intros [|b s2]; try done.
  rewrite t_strcmp_cons. cbn [lex_le]. rewrite <- IH.
  destruct (Z.eqb_spec (uchar a) (uchar b)) as [E|E].
  - rewrite (proj2 (Z.ltb_ge _ _)) by lia. done.
  - cbn [andb]. rewrite orb_false_r.
    destruct (Z.leb_spec (uchar a - uchar b) 0), (Z.ltb_spec (uchar a) (uchar b)); lia.
Qed.

Lemma lex_le_trans s1 s2 s3 : lex_le s1 s2 = true → lex_le s2 s3 = true → lex_le s1 s3 = true.
Proof.
  revert s2 s3; induction s1 as [|a s1 IH]; intros [|b s2] [|c s3]; cbn; try done.
  rewrite !orb_true_iff, !andb_true_iff, !Z.ltb_lt, !Z.eqb_eq.
  intros [?|[? ?]] [?|[? ?]]; [left; lia..|right]. split; [lia|eauto].
Qed.

Lemma lex_le_total s1 s2 : lex_le s1 s2 = true ∨ lex_le s2 s1 = true.
Proof.
  revert s2; induction s1 as [|a s1 IH]; intros [|b s2]; cbn; auto.
  rewrite !orb_true_iff, !andb_true_iff, !Z.ltb_lt, !Z.eqb_eq.
  destruct (Z.lt_total (uchar a) (uchar b)) as [|[E|]]; [tauto| |tauto].
  destruct (IH s2); auto.
Qed.

Lemma lex_le_antisym s1 s2 : lex_le s1 s2 = true → lex_le s2 s1 = true → s1 = s2.
Proof.
  revert s2; induction s1 as [|a s1 IH]; intros [|b s2]; cbn; try done.
  rewrite !orb_true_iff, !andb_true_iff, !Z.ltb_lt, !Z.eqb_eq.
  intros [?|[E ?]] [?|[? ?]]; [lia..|]. apply uchar_inj in E as ->. f_equal. auto.
Qed.

(** ** Sorting *)

(** [qsort]'s contract: a rearrangement, in order when the comparison is a
    total preorder. *)
Definition cmp_le {A} (cmp : A → A → Z) (x y : A) : Prop := cmp x y <= 0.

Class Qsort := {
  qsort : (mystr_list_node → mystr_list_node → Z) →
          list mystr_list_node → list mystr_list_node;
  qsort_perm (cmp : mystr_list_node → mystr_list_node → Z) l : qsort cmp l ≡ₚ l;
  qsort_sorted (cmp : mystr_list_node → mystr_list_node → Z) l :
    Total (cmp_le cmp) → Transitive (cmp_le cmp) →
    StronglySorted (cmp_le cmp) (qsort cmp l)
}.

Definition str_list_sort `{Qsort} (p_list : mystr_list) (reverse : bool) : mystr_list :=
  let cmp := if reverse then sort_compare_func_reverse else sort_compare_func in
  MkList (alloc_len p_list) (list_len p_list) (qsort cmp (p_nodes p_list)).

Lemma compare_le (rev : bool) n1 n2 :
  cmp_le (if rev then sort_compare_func_reverse else sort_compare_func) n1 n2 ↔
  (if rev then lex_le (node_key n2) (node_key n1)
   else lex_le (node_key n1) (node_key n2)) = true.
Proof.
  unfold cmp_le. rewrite <- Z.leb_le.
  destruct rev; unfold sort_compare_func_reverse, sort_compare_func, sort_compare_common;
    by rewrite t_strcmp_le.
Qed.

Lemma compare_preorder rev :
  let cmp := if rev : bool then sort_compare_func_reverse else sort_compare_func in
  Total (cmp_le cmp) ∧ Transitive (cmp_le cmp).
Proof.
  split.
  - intros n1 n2. rewrite !compare_le. destruct rev; apply lex_le_total.
  - intros n1 n2 n3. rewrite !compare_le. destruct rev; eauto using lex_le_trans.
Qed.

(** ** Growth *)

(** The capacities the array goes through. *)
Definition capacity (al : Z) : Prop := al = 0 ∨ ∃ k, 0 <= k <= 18 ∧ al = 32 * 2 ^ k.

Record list_wf (l : mystr_list) : Prop := {
  wf_cap : capacity (alloc_len l);
  wf_len : 0 <= list_len l <= alloc_len l;
  wf_nodes : Z.of_nat (length (p_nodes l)) = list_len l
}.

Definition max_entries : Z := 8388608.

Lemma capacity_max al : capacity al → 0 <= al <= max_entries.
Proof.
  unfold max_entries. intros [->|(k & Hk & ->)]; [lia|].
  split; [lia|]. change 8388608 with (32 * 2 ^ 18).
  apply Z.mul_le_mono_nonneg_l; [lia|]. apply Z.pow_le_mono_r; lia.
Qed.

Lemma capacity_double al :
  capacity al → al ≠ 0 →
  if kMaxStrlist <? u32 (al * 2) then al = max_entries
  else capacity (u32 (al * 2)) ∧ al < max_entries ∧ u32 (al * 2) = al * 2.
Proof.
  intros Hc Hne. pose proof (capacity_max al Hc) as Hm. unfold max_entries, kMaxStrlist in *.
  rewrite u32_small by (unfold UINT_MOD; lia).
  destruct Hc as [|(k & Hk & ->)]; [done|].
  destruct (decide (k = 18)) as [->|]; [done|].
  assert (H : 2 ^ k <= 2 ^ 17) by (apply Z.pow_le_mono_r; lia).
  change (2 ^ 17) with 131072 in H.
  rewrite (proj2 (Z.ltb_ge _ _)) by lia. split_and!; [|lia|done].
  right. exists (k + 1). rewrite Z.pow_add_r by lia. lia.
Qed.

Lemma alloc_ok_nodes al : 0 < al <= max_entries → alloc_ok (u32 (al * node_size)) = Ok tt.
Proof.
  unfold alloc_ok, max_entries, node_size, INT_MAX. intros.
  rewrite u32_small by (unfold UINT_MOD; lia). by ztest.
Qed.

Lemma str_list_add_ok l s k :
  list_wf l →
  if list_len l <? max_entries
  then ∃ l', str_list_add l s k = Ok l' ∧ list_wf l' ∧
             p_nodes l' = p_nodes l ++ [LNode s (default [] k)]
  else str_list_add l s k = die "excessive strlist".
Proof.
  intros [Hc Hl Hn]. pose proof (capacity_max _ Hc) as Hm. unfold str_list_add.
  assert (Hput : ∀ al, capacity al → list_len l < al →
    ∃ l', (if al <=? list_len l then Err UB
           else Ok (MkList al (u32 (list_len l + 1)) (p_nodes l ++ [LNode s (default [] k)]))) =
          Ok l' ∧ list_wf l' ∧ p_nodes l' = p_nodes l ++ [LNode s (default [] k)]).
  { intros al Ha Hlt. pose proof (capacity_max _ Ha). unfold max_entries in *.
    rewrite (proj2 (Z.leb_gt _ _)), u32_small by (unfold UINT_MOD; lia).
    eexists; split; [done|]. split; [|done].
    split; cbn; [done|lia|rewrite length_app; cbn; lia]. }
  destruct (Z.eqb_spec (list_len l) (alloc_len l)) as [E|E].
  - destruct (Z.eqb_spec (alloc_len l) 0) as [E0|E0].
    + rewrite (proj2 (Z.ltb_lt _ _)) by (unfold max_entries; lia).
      cbn [res_bind]. apply Hput; [right; by exists 0|lia].
    + pose proof (capacity_double _ Hc E0) as Hd.
      destruct (kMaxStrlist <? u32 (alloc_len l * 2)).
      * rewrite (proj2 (Z.ltb_ge _ _)) by lia. done.
      * destruct Hd as (Hd & Hlt & Hu). rewrite (proj2 (Z.ltb_lt _ _)) by lia.
        pose proof (capacity_max _ Hd). rewrite alloc_ok_nodes by lia.
        cbn [res_bind]. apply Hput; [done|lia].
  - rewrite (proj2 (Z.ltb_lt _ _)) by lia. cbn [res_bind]. apply Hput; [done|lia].
Qed.

(** [str_list_add] keeps the array well formed - the node is written inside
    the allocation, the capacity is 32 times a power of two and never overflows -
    and appends the node; it refuses, by dying, exactly when 8388608 entries are
    present, the last capacity below the limit of ten million. *)
Theorem str_list_add_bounds l s k :
  list_wf l →
  (list_len l < max_entries →
   ∃ l', str_list_add l s k = Ok l' ∧ list_wf l' ∧
         p_nodes l' = p_nodes l ++ [LNode s (default [] k)]) ∧
  (max_entries <= list_len l → str_list_add l s k = die "excessive strlist").
Proof.
  intros H. pose proof (str_list_add_ok l s k H) as Ha. split; intros Hl.
  - by rewrite (proj2 (Z.ltb_lt _ _)) in Ha by done.
  - by rewrite (proj2 (Z.ltb_ge _ _)) in Ha by done.
Qed.

(** [str_list_sort] rearranges the nodes into the byte order of their keys
    (the sort key where there is one, else the name), descending when asked to
    reverse; so any two entries are in order. *)
Theorem str_list_sort_sorted `{Qsort} l rev i j n1 n2 :
  let l' := str_list_sort l rev in
  p_nodes l' ≡ₚ p_nodes l ∧
  (p_nodes l' !! i = Some n1 → p_nodes l' !! j = Some n2 → (i < j)%nat →
   if rev : bool then lex_le (node_key n2) (node_key n1) = true
   else lex_le (node_key n1) (node_key n2) = true).
Proof.
  cbn. split; [apply qsort_perm|]. intros Hi Hj Hij.
  destruct (compare_preorder rev) as [Ht Htr].
  pose proof (qsort_sorted _ (p_nodes l) Ht Htr) as Hs.
  rewrite <- (take_drop_middle _ i n1 Hi) in Hs.
  apply StronglySorted_app_1_r in Hs. apply StronglySorted_inv in Hs as [_ Hs].
  rewrite Forall_forall in Hs.
  assert (Hn : n2 ∈ drop (S i) (qsort (if rev then sort_compare_func_reverse
                                       else sort_compare_func) (p_nodes l))).
  { apply list_elem_of_lookup. exists (j - S i)%nat. rewrite lookup_drop.
    by replace (S i + (j - S i))%nat with j by lia. }
  apply Hs, compare_le in Hn. by destruct rev.
Qed.

Lemma str_list_add_bounds_witness :
  ∃ l', str_list_add INIT_MYSTR_LIST (lit "a") None = Ok l' ∧ list_wf l'.
Proof.
  destruct (str_list_add_bounds INIT_MYSTR_LIST (lit "a") None) as [H _].
  - split; cbn; [by left|lia|done].
  - destruct H as (l' & E & Hw & _); [by vm_compute|]. eauto.
Defined.

(** An implementation of the contract. *)
#[global] Instance cmp_le_dec {A} (cmp : A → A → Z) : RelDecision (cmp_le cmp) :=
  λ x y, Z_le_dec (cmp x y) 0.

#[local] Instance merge_qsort : Qsort.
Proof.
  refine {| qsort := λ cmp, merge_sort (cmp_le cmp) |}.
  - intros. apply merge_sort_Permutation.
  - intros. by apply StronglySorted_merge_sort.
Defined.

Lemma str_list_sort_sorted_witness :
  lex_le (node_key (LNode (lit "a") [])) (node_key (LNode (lit "b") [])) = true.
Proof.
  apply (str_list_sort_sorted (MkList 32 2 [LNode (lit "b") []; LNode (lit "a") []])
           false 0 1); [by vm_compute|by vm_compute|lia].
Defined.
