(* ===== verification/IpAddr.v ===== *)
(** * ipaddrparse.c and the socket addresses of sysutil.c

    Parsing of dotted quads, comma-separated byte lists (PORT) and IPv6
    literals, and the [vsf_sysutil_sockaddr_*] functions. A parser's result is
    [None] for the NULL pointer, else the bytes that the returned pointer
    heads. *)

From Stdlib Require Import Init.Byte Strings.Byte.
From Stdlib Require Import ZArith Lia String.
From stdpp Require Import base list numbers option.
From S2P Require Import Prelude SysUtil Text.
Import ResNotations.

Definition DOT : byte := x2e.
Definition COLON : byte := x3a.
Definition COMMA : byte := x2c.

(** ** ipaddrparse.c *)

(** The loop over the items: [left] of them to parse, [s_tmp_str] what is left
    of the text. *)
Fixpoint parse_sep_loop (s_tmp_str : bytes) (sep : byte) (left : nat) : option bytes :=
  match left with
  | O => Some []
  | S left' =>
      let '(tmp, rhs) := t_split_char s_tmp_str sep in
      let last_item := (left' =? 0)%nat in
      if (negb last_item && (length rhs =? 0)%nat) || (last_item && negb (length rhs =? 0)%nat)
      then None
      else
        let this_number := t_atoi tmp in
        if (this_number <? 0) || (255 <? this_number) then None
        else
          match parse_sep_loop rhs sep left' with
          | None => None
          | Some items => Some (to_char this_number :: items)
          end
  end.

Definition vsf_sysutil_parse_uchar_string_sep (p_str : bytes) (sep : byte) (items : nat)
  : option bytes :=
  parse_sep_loop p_str sep items.

Definition vsf_sysutil_parse_ipv4 (p_str : bytes) : option bytes :=
  vsf_sysutil_parse_uchar_string_sep p_str DOT 4.

Fixpoint parse_hex_loop (p_in_str : bytes) (val : Z) : option Z :=
  match p_in_str with
  | [] => Some val
  | c :: r =>
      let ch := uchar (vsf_sysutil_toupper c) in
      let digit :=
        if (48 <=? ch) && (ch <=? 57) then Some (ch - 48)
        else if (65 <=? ch) && (ch <=? 70) then Some (ch - 65 + 10)
        else None in
      match digit with
      | None => None
      | Some ch =>
          let val := Z.lor (u32 (Z.shiftl val 4)) ch in
          if 65535 <? val then None else parse_hex_loop r val
      end
  end.

(** Appends to [p_out_str]. *)
Definition ipv6_parse_hex (p_out_str p_in_str : bytes) : option bytes :=
  match parse_hex_loop p_in_str 0 with
  | None => None
  | Some val => Some (p_out_str ++ [to_char (Z.shiftr val 8); to_char (Z.land val 255)])
  end.

Record quad_state := Quad { q_val : Z; q_final : Z; q_seen : bool; q_dots : Z }.

Fixpoint dotquad_loop (p_in_str : bytes) (st : quad_state) : option quad_state :=
  match p_in_str with
  | [] => Some st
  | c :: r =>
      let ch := schar c in
      if ch =? 46 then
        if negb (q_seen st) || (q_dots st =? 3) then None
        else dotquad_loop r
               (Quad 0 (Z.lor (u32 (Z.shiftl (q_final st) 8)) (q_val st)) false (q_dots st + 1))
      else if (48 <=? ch) && (ch <=? 57) then
        let val := u32 (u32 (q_val st * 10) + (ch - 48)) in
        if 255 <? val then None
        else dotquad_loop r (Quad val (q_final st) true (q_dots st))
      else None
  end.

Definition ipv4_parse_dotquad (p_out_str p_in_str : bytes) : option bytes :=
  match dotquad_loop p_in_str (Quad 0 0 false 0) with
  | None => None
  | Some st =>
      if negb (q_dots st =? 3) || negb (q_seen st) then None
      else
        let final_val := Z.lor (u32 (Z.shiftl (q_final st) 8)) (q_val st) in
        Some (p_out_str ++
              [to_char (Z.shiftr final_val 24);
               to_char (Z.land (Z.shiftr final_val 16) 255);
               to_char (Z.land (Z.shiftr final_val 8) 255);
               to_char (Z.land final_val 255)])
  end.

(** Each round of the [while] consumes a field; [fuel] is the length of the
    text. *)
Fixpoint parse_main_loop (fuel : nat) (p_out_str s_lhs_str : bytes) : option bytes :=
  match fuel, s_lhs_str with
  | _, [] => Some p_out_str
  | O, _ => None
  | S fuel', _ =>
      let '(lhs, rhs) := t_split_char s_lhs_str COLON in
      if (length lhs =? 0)%nat then None
      else
        match (match t_locate_char lhs DOT with
               | Some _ => ipv4_parse_dotquad p_out_str lhs
               | None => ipv6_parse_hex p_out_str lhs
               end) with
        | None => None
        | Some out => parse_main_loop fuel' out rhs
        end
  end.

Definition ipv6_parse_main (p_out_str p_in_str : bytes) : option bytes :=
  parse_main_loop (length p_in_str) p_out_str p_in_str.

Definition vsf_sysutil_parse_ipv6 (p_str : bytes) : option bytes :=
  let '(lhs, rhs) := t_split_text p_str (lit "::") in
  match ipv6_parse_main [] lhs with
  | None => None
  | Some ret =>
      match ipv6_parse_main [] rhs with
      | None => None
      | Some rhs_ret =>
          let lhs_len := Z.of_nat (length ret) in
          let rhs_len := Z.of_nat (length rhs_ret) in
          if 16 <? lhs_len + rhs_len then None
          else if 0 <? rhs_len then
            Some (ret ++ replicate (Z.to_nat (16 - (lhs_len + rhs_len))) NUL ++ rhs_ret)
          else Some ret
      end
  end.

(** ** Socket addresses *)

Inductive family := AF_UNSPEC | AF_INET | AF_INET6.

#[global] Instance family_eq_dec : EqDecision family.
Proof. solve_decision. Defined.

(** The union: [sin_addr] has 4 bytes, [sin6_addr] 16. *)
Record sockaddr := MkAddr {
  sa_family : family;
  sin_addr : bytes;
  sin6_addr : bytes;
  sa_port : Z;
  sin6_scope_id : Z
}.

Definition vsf_sysutil_sockaddr_alloc : sockaddr :=
  MkAddr AF_UNSPEC (replicate 4 NUL) (replicate 16 NUL) 0 0.

Definition set_family (a : sockaddr) (f : family) : sockaddr :=
  MkAddr f (sin_addr a) (sin6_addr a) (sa_port a) (sin6_scope_id a).

Definition vsf_sysutil_sockaddr_alloc_ipv4 : sockaddr :=
  set_family vsf_sysutil_sockaddr_alloc AF_INET.

Definition vsf_sysutil_sockaddr_alloc_ipv6 : sockaddr :=
  set_family vsf_sysutil_sockaddr_alloc AF_INET6.

(** The clone has the address and not the port. *)
Definition vsf_sysutil_sockaddr_clone (p_src : sockaddr) : res sockaddr :=
  let a := vsf_sysutil_sockaddr_alloc in
  match sa_family p_src with
  | AF_INET => Ok (MkAddr AF_INET (sin_addr p_src) (sin6_addr a) (sa_port a) (sin6_scope_id a))
  | AF_INET6 =>
      Ok (MkAddr AF_INET6 (sin_addr a) (sin6_addr p_src) (sa_port a) (sin6_scope_id p_src))
  | AF_UNSPEC => die "can only support ipv4 and ipv6 currently"
  end.

Definition v4_pattern : bytes := replicate 10 NUL ++ [xff; xff].

(** The IPv4 address inside a mapped IPv6 address. *)
Definition vsf_sysutil_sockaddr_ipv6_v4 (p_addr : sockaddr) : option bytes :=
  if bool_decide (sa_family p_addr ≠ AF_INET6) then None
  else if negb (vsf_sysutil_memcmp v4_pattern (take 12 (sin6_addr p_addr)) =? 0) then None
  else Some (drop 12 (sin6_addr p_addr)).

Definition vsf_sysutil_sockaddr_ipv4_v6 (p_addr : sockaddr) : option bytes :=
  if bool_decide (sa_family p_addr ≠ AF_INET) then None
  else Some (v4_pattern ++ sin_addr p_addr).

Definition vsf_sysutil_sockaddr_addr_equal (p1 p2 : sockaddr) : bool :=
  let mapped (p6 p4 : sockaddr) :=
    match vsf_sysutil_sockaddr_ipv6_v4 p6 with
    | Some v4 => vsf_sysutil_memcmp v4 (sin_addr p4) =? 0
    | None => false
    end in
  match sa_family p1, sa_family p2 with
  | AF_INET, AF_INET6 => mapped p2 p1
  | AF_INET6, AF_INET => mapped p1 p2
  | AF_INET, AF_INET => vsf_sysutil_memcmp (sin_addr p1) (sin_addr p2) =? 0
  | AF_INET6, AF_INET6 => vsf_sysutil_memcmp (sin6_addr p1) (sin6_addr p2) =? 0
  | _, _ => false
  end.

Definition vsf_sysutil_sockaddr_is_ipv6 (p : sockaddr) : bool :=
  bool_decide (sa_family p = AF_INET6).

(** [memcpy] of [n] bytes from a buffer that has only those of [p_raw]. *)
Definition copy_bytes (p_raw : bytes) (n : nat) : res bytes :=
  if (length p_raw <? n)%nat then Err UB else Ok (take n p_raw).

Definition vsf_sysutil_sockaddr_set_ipv4addr (p : sockaddr) (p_raw : bytes) : res sockaddr :=
  match sa_family p with
  | AF_INET =>
      let* a := copy_bytes p_raw 4 in
      Ok (MkAddr AF_INET a (sin6_addr p) (sa_port p) (sin6_scope_id p))
  | AF_INET6 =>
      let* a := copy_bytes p_raw 4 in
      Ok (MkAddr AF_INET6 (sin_addr p) (v4_pattern ++ a) (sa_port p) (sin6_scope_id p))
  | AF_UNSPEC => bug "bad family"
  end.

Definition vsf_sysutil_sockaddr_set_ipv6addr (p : sockaddr) (p_raw : bytes) : res sockaddr :=
  match sa_family p with
  | AF_INET6 =>
      let* a := copy_bytes p_raw 16 in
      Ok (MkAddr AF_INET6 (sin_addr p) a (sa_port p) (sin6_scope_id p))
  | _ => bug "bad family"
  end.

(** The bytes that the listener uses as a key: it reads the larger address
    size, so an IPv4 address is followed by the zero padding of the structure. *)
Definition vsf_sysutil_sockaddr_get_raw_addr (p : sockaddr) : res bytes :=
  match sa_family p with
  | AF_INET => Ok (sin_addr p ++ replicate 12 NUL)
  | AF_INET6 => Ok (sin6_addr p)
  | AF_UNSPEC => bug "bad family"
  end.

Definition vsf_sysutil_sockaddr_set_any (p : sockaddr) : res sockaddr :=
  match sa_family p with
  | AF_INET =>
      Ok (MkAddr AF_INET (replicate 4 NUL) (sin6_addr p) (sa_port p) (sin6_scope_id p))
  | AF_INET6 =>
      Ok (MkAddr AF_INET6 (sin_addr p) (replicate 16 NUL) (sa_port p) (sin6_scope_id p))
  | AF_UNSPEC => bug "bad family"
  end.

Definition vsf_sysutil_sockaddr_get_port (p : sockaddr) : res Z :=
  match sa_family p with
  | AF_UNSPEC => bug "bad family"
  | _ => Ok (sa_port p)
  end.

(** The argument is an [unsigned short]. *)
Definition vsf_sysutil_sockaddr_set_port (p : sockaddr) (the_port : Z) : res sockaddr :=
  match sa_family p with
  | AF_UNSPEC => bug "bad family"
  | f => Ok (MkAddr f (sin_addr p) (sin6_addr p) (u16 the_port) (sin6_scope_id p))
  end.

(** ** Byte lists and their text *)

(** The decimal numbers of [items], joined by [sep]. *)
Fixpoint print_sep (items : bytes) (sep : byte) : bytes :=
  match items with
  | [] => []
  | [b] => print_base 10 (uchar b)
  | b :: items' => print_base 10 (uchar b) ++ sep :: print_sep items' sep
  end.

Lemma print_sep_nonempty b items sep : print_sep (b :: items) sep ≠ [].
Proof.
  pose proof (print_base_spec 10 (uchar b) ltac:(lia) ltac:(apply uchar_range)) as (H & _).
  destruct items; cbn [print_sep]; [done|]. intros [E _]%app_nil. done.
Qed.

Lemma parse_sep_print items sep :
  items ≠ [] → c_isdigit sep = false → sep ≠ NUL →
  parse_sep_loop (print_sep items sep) sep (length items) = Some items.
Proof.
  intros Hne Hd Hn. induction items as [|b items IH]; [done|].
  pose proof (uchar_range b) as Hb. pose proof (print_base_digits (uchar b) ltac:(lia)) as Hp.
  pose proof (is_digits_not _ sep Hp Hd) as Hsep.
  assert (Ha : t_atoi (print_base 10 (uchar b)) = uchar b)
    by (apply t_atoi_print; unfold INT_MAX; lia).
  destruct items as [|b' items].
  - cbn [length parse_sep_loop print_sep]. rewrite t_split_char_none by done. cbn [length Nat.eqb negb andb orb].
    rewrite Ha. ztest. cbn [orb parse_sep_loop]. by rewrite to_char_uchar.
  - change (print_sep (b :: b' :: items) sep)
      with (print_base 10 (uchar b) ++ sep :: print_sep (b' :: items) sep).
    specialize (IH ltac:(done)).
    change (length (b :: b' :: items)) with (S (length (b' :: items))).
    assert (Hn0 : length (b' :: items) ≠ 0%nat) by done.
    set (n := length (b' :: items)) in *. cbn [parse_sep_loop].
    rewrite t_split_char_app by done. rewrite (proj2 (Nat.eqb_neq n 0)) by done.
    cbn [negb andb].
    pose proof (print_sep_nonempty b' items sep) as Hr.
    destruct (Nat.eqb_spec (length (print_sep (b' :: items) sep)) 0) as [E|E].
    { by apply length_zero_iff_nil in E. }
    cbn [orb]. rewrite Ha. ztest. cbn [orb].
    rewrite IH. by rewrite to_char_uchar.
Qed.

Lemma parse_sep_length s sep n items :
  parse_sep_loop s sep n = Some items → length items = n.
Proof.
  revert s items; induction n as [|n IH]; intros s items; cbn [parse_sep_loop].
  - by intros [= <-].
  - destruct (t_split_char s sep) as [tmp rhs]. do 2 (destruct (_ || _); [done|]).
    destruct (parse_sep_loop rhs sep n) as [its|] eqn:E; [|done].
    intros [= <-]. cbn. by rewrite (IH rhs its).
Qed.

(** ** IPv6 texts *)

Lemma ipv6_parse_hex_app out s r :
  ipv6_parse_hex out s = Some r → ∃ x, r = out ++ x ∧ length x = 2%nat.
Proof.
  unfold ipv6_parse_hex. destruct (parse_hex_loop s 0); [|done]. intros [= <-]. eauto.
Qed.

Lemma ipv4_parse_dotquad_app out s r :
  ipv4_parse_dotquad out s = Some r → ∃ x, r = out ++ x ∧ length x = 4%nat.
Proof.
  unfold ipv4_parse_dotquad. destruct (dotquad_loop _ _); [|done].
  destruct (_ || _); [done|]. intros [= <-]. eauto.
Qed.

Lemma parse_main_app fuel : ∀ out s r,
  parse_main_loop fuel out s = Some r →
  ∃ x, r = out ++ x ∧ (s ≠ [] → x ≠ []).
Proof.
  induction fuel as [|fuel IH]; intros out s r; (destruct s as [|c s]; cbn [parse_main_loop];
    [intros [= <-]; exists []; by rewrite app_nil_r|]); [done|].
  destruct (t_split_char (c :: s) COLON) as [lhs rhs].
  destruct (length lhs =? 0)%nat; [done|].
  assert (Hf : ∀ o, match t_locate_char lhs DOT with
     | Some _ => ipv4_parse_dotquad out lhs
     | None => ipv6_parse_hex out lhs
     end = Some o → ∃ x, o = out ++ x ∧ x ≠ []).
  { intros o. destruct (t_locate_char lhs DOT).
    - intros (x & -> & Hx)%ipv4_parse_dotquad_app. exists x. split; [done|]. by destruct x.
    - intros (x & -> & Hx)%ipv6_parse_hex_app. exists x. split; [done|]. by destruct x. }
  destruct (match t_locate_char lhs DOT with Some _ => _ | None => _ end) as [o|]; [|done].
  destruct (Hf o eq_refl) as (x & -> & Hx). intros (y & -> & _)%IH.
  exists (x ++ y). rewrite app_assoc. split; [done|]. intros _. by destruct x.
Qed.

(** The fuel of [ipv6_parse_main] is enough: more changes nothing. *)
Lemma parse_main_fuel n : ∀ m out s,
  (length s ≤ n)%nat → (length s ≤ m)%nat →
  parse_main_loop n out s = parse_main_loop m out s.
Proof.
  induction n as [|n IH]; intros m out s Hn Hm.
  - destruct s; [by destruct m|cbn in *; lia].
  - destruct s as [|c s]; [by destruct m|]. destruct m as [|m]; [cbn in *; lia|].
    cbn [parse_main_loop].
    pose proof (t_split_text_rhs (c :: s) (char_text COLON)) as [_ Hr].
    specialize (Hr ltac:(done)). unfold t_split_char.
    destruct (t_split_text (c :: s) (char_text COLON)) as [lhs rhs]. cbn [snd] in Hr.
    destruct (length lhs =? 0)%nat; [done|].
    destruct (match t_locate_char lhs DOT with Some _ => _ | None => _ end); [|done].
    cbn [length] in *. apply IH; lia.
Qed.

(** ** The comparison of addresses *)

(** An address as the IPv6 address it is or is mapped to. *)
Definition canonical (p : sockaddr) : bytes :=
  match sa_family p with
  | AF_INET => v4_pattern ++ sin_addr p
  | _ => sin6_addr p
  end.

Definition addr_wf (p : sockaddr) : Prop :=
  sa_family p ≠ AF_UNSPEC ∧ length (sin_addr p) = 4%nat ∧ length (sin6_addr p) = 16%nat.

Lemma mapped_spec p6 (a : bytes) :
  sa_family p6 = AF_INET6 → length (sin6_addr p6) = 16%nat → length a = 4%nat →
  match vsf_sysutil_sockaddr_ipv6_v4 p6 with
  | Some v4 => vsf_sysutil_memcmp v4 a =? 0
  | None => false
  end = bool_decide (sin6_addr p6 = v4_pattern ++ a).
Proof.
  intros Hf H6 Ha. unfold vsf_sysutil_sockaddr_ipv6_v4. rewrite Hf.
  rewrite bool_decide_eq_false_2 by naive_solver.
  pose proof (memcmp_eq_iff v4_pattern (take 12 (sin6_addr p6))) as Hm.
  rewrite length_take, H6 in Hm. specialize (Hm eq_refl).
  pose proof (take_drop 12 (sin6_addr p6)) as Htd.
  destruct (Z.eqb_spec (vsf_sysutil_memcmp v4_pattern (take 12 (sin6_addr p6))) 0) as [E|E];
    cbn [negb].
  - apply Hm in E.
    pose proof (memcmp_eq_iff (drop 12 (sin6_addr p6)) a) as Hd.
    rewrite length_drop, H6 in Hd. specialize (Hd ltac:(lia)).
    apply eq_true_iff_eq. rewrite Z.eqb_eq, bool_decide_eq_true, Hd.
    rewrite <- E in Htd. split.
    + intros <-. done.
    + rewrite <- Htd at 1. apply app_inv_head.
  - symmetry. apply bool_decide_eq_false. intros Heq. apply E, Hm.
    rewrite Heq. by rewrite take_app_length'.
Qed.

Lemma addr_equal_spec p q :
  addr_wf p → addr_wf q →
  vsf_sysutil_sockaddr_addr_equal p q = bool_decide (canonical p = canonical q).
Proof.
  intros (Hp & Hp4 & Hp6) (Hq & Hq4 & Hq6).
  unfold vsf_sysutil_sockaddr_addr_equal, canonical.
  destruct (sa_family p) eqn:Ep, (sa_family q) eqn:Eq; try done.
  - apply eq_true_iff_eq. rewrite Z.eqb_eq, bool_decide_eq_true, memcmp_eq_iff by lia.
    split; [by intros ->|]. apply app_inv_head.
  - rewrite mapped_spec by done. apply bool_decide_ext. done.
  - rewrite mapped_spec by done. done.
  - apply eq_true_iff_eq. rewrite Z.eqb_eq, bool_decide_eq_true, memcmp_eq_iff by lia. done.
Qed.

(** A byte list printed as decimal numbers with a separator - the argument
    of PORT (',', six items) or a dotted quad ('.', four items) - parses back to
    itself. *)
Theorem uchar_string_roundtrip items sep :
  items ≠ [] → c_isdigit sep = false → sep ≠ NUL →
  vsf_sysutil_parse_uchar_string_sep (print_sep items sep) sep (length items) = Some items.
Proof. apply parse_sep_print. Qed.

(** An IPv6 text never yields more than 16 bytes, and yields exactly 16
    when something follows its "::". *)
Theorem ipv6_parse_bounds s b :
  vsf_sysutil_parse_ipv6 s = Some b →
  (length b <= 16)%nat ∧ ((t_split_text s (lit "::")).2 ≠ [] → length b = 16%nat).
Proof.
  unfold vsf_sysutil_parse_ipv6. destruct (t_split_text s (lit "::")) as [lhs rhs].
  destruct (ipv6_parse_main [] lhs) as [r|]; [|done].
  destruct (ipv6_parse_main [] rhs) as [r'|] eqn:E; [|done].
  apply parse_main_app in E as (x & -> & Hx). cbn [app snd].
  destruct (Z.ltb_spec 16 (Z.of_nat (length r) + Z.of_nat (length x))); [done|].
  destruct (Z.ltb_spec 0 (Z.of_nat (length x))); intros [= <-].
  - rewrite !length_app, length_replicate. lia.
  - split; [lia|]. intros Hr%Hx. destruct x; [done|]. cbn in *. lia.
Qed.

(** Without that, a short text is accepted with fewer bytes: the address
    that EPRT and the listener then copy is read past the end of the buffer. *)
Theorem ipv6_short_text_overread p :
  sa_family p = AF_INET6 →
  ∃ b, vsf_sysutil_parse_ipv6 (lit "1") = Some b ∧ length b = 2%nat ∧
       vsf_sysutil_sockaddr_set_ipv6addr p b = Err UB.
Proof.
  intros Hf. exists [x00; x01]. split; [by vm_compute|]. split; [done|].
  unfold vsf_sysutil_sockaddr_set_ipv6addr. by rewrite Hf.
Qed.

(** Two addresses compare equal exactly when they are the same address, an
    IPv4 address counting as its IPv6-mapped form: the test is an equivalence
    across the two families. *)
Theorem addr_equal_canonical p q :
  addr_wf p → addr_wf q →
  vsf_sysutil_sockaddr_addr_equal p q = true ↔ canonical p = canonical q.
Proof. intros. rewrite addr_equal_spec by done. apply bool_decide_eq_true. Qed.

Lemma uchar_string_roundtrip_witness :
  vsf_sysutil_parse_uchar_string_sep (lit "10,0,0,255,4,1") COMMA 6 =
  Some [x0a; x00; x00; xff; x04; x01].
Proof.
  apply (uchar_string_roundtrip [x0a; x00; x00; xff; x04; x01] COMMA);
    [done|by vm_compute|done].
Defined.

Lemma ipv6_parse_bounds_witness :
  ∃ b, vsf_sysutil_parse_ipv6 (lit "fe80::1:2") = Some b ∧ length b = 16%nat.
Proof.
  destruct (vsf_sysutil_parse_ipv6 (lit "fe80::1:2")) as [b|] eqn:E;
    [|by vm_compute in E].
  exists b. split; [done|]. by apply (ipv6_parse_bounds (lit "fe80::1:2")).
Defined.

Lemma ipv6_short_text_overread_witness :
  ∃ b, vsf_sysutil_parse_ipv6 (lit "1") = Some b ∧
       vsf_sysutil_sockaddr_set_ipv6addr vsf_sysutil_sockaddr_alloc_ipv6 b = Err UB.
Proof.
  destruct (ipv6_short_text_overread vsf_sysutil_sockaddr_alloc_ipv6 eq_refl)
    as (b & H1 & _ & H2). eauto.
Defined.

Definition v4_10_0_0_1 : sockaddr :=
  MkAddr AF_INET [x0a; x00; x00; x01] (replicate 16 NUL) 21 0.
Definition v6_10_0_0_1 : sockaddr :=
  MkAddr AF_INET6 (replicate 4 NUL) (v4_pattern ++ [x0a; x00; x00; x01]) 4021 0.

Lemma addr_equal_canonical_witness :
  vsf_sysutil_sockaddr_addr_equal v4_10_0_0_1 v6_10_0_0_1 = true.
Proof. apply (addr_equal_canonical v4_10_0_0_1 v6_10_0_0_1); by repeat split. Defined.
