(* ===== verification/Timeouts.v ===== *)
(** * Waiting for a connection

    [vsf_sysutil_accept_timeout] and [vsf_sysutil_connect_timeout] of sysutil.c,
    call by call: select with its timeout, the signals that interrupt it, the
    switch to non-blocking mode and back. (The session models make one call of
    each.) *)

From Stdlib Require Import Init.Byte Strings.Byte.
From Stdlib Require Import ZArith Lia String.
From stdpp Require Import base list numbers option sets strings.
From S2P Require Import Prelude SysUtil Text IpAddr.

(** ** The calls *)

(** A timeout is in microseconds. [CheckPending] is
    [vsf_sysutil_check_pending_actions]: handlers may run and set errno. *)
Inductive wait_call :=
  | Select (fd : Z) (write : bool) (timeout : Z)
  | AcceptOn (fd : Z)
  | ConnectTo (fd : Z) (addr : sockaddr)
  | GetFlags (fd : Z)
  | SetFlags (fd flags : Z)
  | SocketError (fd : Z)
  | CheckPending.

(** [w_left]: what select leaves in its timeout; [w_value]: what getsockopt
    stores. *)
Record wait_answer := WaitAnswer {
  w_ret : Z; w_errno : Z; w_left : Z; w_addr : sockaddr; w_socklen : Z; w_value : Z
}.

Abbreviation trace := (list (wait_call * wait_answer)).

Class Kernel := kernel : trace → wait_call → wait_answer.

(** The calls so far, latest first, and errno. *)
Record wait_state := WaitState { calls : trace; errno : Z }.

Definition W (A : Type) : Type := wait_state → res A * wait_state.
#[global] Instance W_ret : MRet W := λ A a s, (Ok a, s).
#[global] Instance W_bind : MBind W := λ A B k m s,
  match m s with (Ok a, s') => k a s' | (Err e, s') => (Err e, s') end.

Definition stop {A} (e : res A) : W A := λ s, (e, s).
Definition set_errno (e : Z) : W unit := λ s, (Ok tt, WaitState (calls s) e).
Definition get_errno : W Z := λ s, (Ok (errno s), s).

Definition EINTR : Z := 4.
Definition EAGAIN : Z := 11.
Definition EINPROGRESS : Z := 115.
Definition O_NONBLOCK : Z := 2048.

Section Code.
Context `{K : Kernel}.

Definition perform (c : wait_call) : W wait_answer := λ s,
  let a := kernel (calls s) c in
  (Ok a, WaitState ((c, a) :: calls s) (if w_ret a <? 0 then w_errno a else errno s)).

Definition vsf_sysutil_check_pending : W unit := λ s,
  let a := kernel (calls s) CheckPending in
  (Ok tt, WaitState ((CheckPending, a) :: calls s) (w_errno a)).

(** [fcntl] with the flags that are there, changed by [f]. *)
Definition change_flags (fd : Z) (f : Z → Z) : W unit :=
  curr_flags ← perform (GetFlags fd);
  if w_ret curr_flags <? 0 then stop (die "fcntl")
  else
    retval ← perform (SetFlags fd (f (w_ret curr_flags)));
    if negb (w_ret retval =? 0) then stop (die "fcntl") else mret tt.

Definition vsf_sysutil_activate_noblock (fd : Z) : W unit := change_flags fd (λ fl, Z.lor fl O_NONBLOCK).
Definition vsf_sysutil_deactivate_noblock (fd : Z) : W unit := change_flags fd (λ fl, Z.ldiff fl O_NONBLOCK).

(** The loop around select: again when a signal came. *)
Fixpoint select_loop (fuel : nat) (fd : Z) (write : bool) (timeout : Z) : W Z :=
  match fuel with
  | O => stop (Err Fuel)
  | S fuel' =>
      a ← perform (Select fd write timeout);
      saved_errno ← get_errno;
      vsf_sysutil_check_pending;;
      if (w_ret a <? 0) && (saved_errno =? EINTR) then select_loop fuel' fd write (w_left a)
      else mret (w_ret a)
  end.

Definition MICROS : Z := 1000000.

(** Only the part of the address that its family has is copied. *)
Definition copy_address (a : sockaddr) : sockaddr :=
  if bool_decide (sa_family a = AF_INET) then MkAddr AF_INET (sin_addr a) (replicate 16 NUL) (sa_port a) 0
  else MkAddr (sa_family a) (replicate 4 NUL) (sin6_addr a) (sa_port a) (sin6_scope_id a).

Definition supported (a : sockaddr) : bool := bool_decide (sa_family a = AF_INET) || bool_decide (sa_family a = AF_INET6).

Definition accept_now (fd : Z) (p_sockaddr : bool) : W (Z * option sockaddr) :=
  a ← perform (AcceptOn fd);
  vsf_sysutil_check_pending;;
  if w_ret a <? 0 then mret (w_ret a, None)
  else if w_socklen a =? 0 then mret (-1, None)
  else if negb (supported (w_addr a)) then stop (die "can only support ipv4 and ipv6 currently")
  else mret (w_ret a, if p_sockaddr : bool then Some (copy_address (w_addr a)) else None).

Definition vsf_sysutil_accept_timeout (fuel : nat) (fd : Z) (p_sockaddr : bool) (wait_seconds : Z)
    : W (Z * option sockaddr) :=
  if 0 <? wait_seconds then
    retval ← select_loop fuel fd false (wait_seconds * MICROS);
    if retval <=? 0 then
      (if retval =? 0 then set_errno EAGAIN else mret tt);;
      mret (-1, None)
    else accept_now fd p_sockaddr
  else accept_now fd p_sockaddr.

(** The rest of a connect that is in progress. *)
Definition finish_connect (fuel : nat) (fd wait_seconds : Z) : W Z :=
  retval ← select_loop fuel fd true (wait_seconds * MICROS);
  if retval <=? 0 then
    (if retval =? 0 then set_errno EAGAIN else mret tt);;
    mret (-1)
  else
    a ← perform (SocketError fd);
    if negb (w_ret a =? 0) then stop (die "getsockopt")
    else if negb (w_value a =? 0) then set_errno (w_value a);; mret (-1)
    else mret 0.

Definition vsf_sysutil_connect_timeout (fuel : nat) (fd : Z) (p_addr : sockaddr) (wait_seconds : Z) : W Z :=
  if negb (supported p_addr) then stop (die "can only support ipv4 and ipv6 currently")
  else
    (if 0 <? wait_seconds then vsf_sysutil_activate_noblock fd else mret tt);;
    a ← perform (ConnectTo fd p_addr);
    err ← get_errno;
    retval ← (if (w_ret a <? 0) && (err =? EINPROGRESS) then finish_connect fuel fd wait_seconds
              else mret (w_ret a));
    (if 0 <? wait_seconds then vsf_sysutil_deactivate_noblock fd else mret tt);;
    mret retval.

End Code.

(** ** The wait is bounded *)

(** What Linux documents of select: it leaves in the timeout what is left of it,
    and an interruption takes time. *)
Class LinuxSelect `{K : Kernel} : Prop := select_law h fd w t :
  0 ≤ t →
  let a := kernel h (Select fd w t) in
  0 ≤ w_left a ≤ t ∧ (w_ret a < 0 → w_errno a = EINTR → w_left a < t).

(** The microseconds that selects have taken. *)
Fixpoint waited (h : trace) : Z :=
  match h with
  | [] => 0
  | (Select _ _ t, a) :: h' => waited h' + (t - w_left a)
  | _ :: h' => waited h'
  end.

(** The run ends otherwise than by want of fuel, and if it returns, then [Q]. *)
Definition ends {A} (m : W A) (Q : A → wait_state → Prop) (s : wait_state) : Prop :=
  match m s with (Ok a, s') => Q a s' | (Err e, _) => e ≠ Fuel end.

(** From [s] to [s'] the calls [new] were made, in at most [t] of waiting. *)
Definition made (new : trace) (t : Z) (s s' : wait_state) : Prop :=
  calls s' = new ++ calls s ∧ waited (calls s') ≤ waited (calls s) + t.

Section Rules.
Context `{K : Kernel} {L : LinuxSelect}.

Lemma ends_bind {A B} (m : W A) (k : A → W B) Q s :
  ends m (λ a, ends (k a) Q) s → ends (m ≫= k) Q s.
Proof. unfold ends, mbind, W_bind. destruct (m s) as [[a|e] s']; done. Qed.

Lemma ends_mono {A} (m : W A) (P Q : A → wait_state → Prop) s :
  ends m P s → (∀ a s', P a s' → Q a s') → ends m Q s.
Proof. unfold ends. destruct (m s) as [[a|e] s']; auto. Qed.

Lemma ends_stop {A} msg (Q : A → wait_state → Prop) s : ends (stop (die msg)) Q s.
Proof. done. Qed.

Lemma ends_perform c (Q : wait_answer → wait_state → Prop) s :
  match c with Select _ _ _ => False | _ => True end →
  (∀ s', made [(c, kernel (calls s) c)] 0 s s' → 
     (w_ret (kernel (calls s) c) < 0 → errno s' = w_errno (kernel (calls s) c)) → Q (kernel (calls s) c) s') →
  ends (perform c) Q s.
Proof.
  intros Hc HQ. unfold ends, perform. apply HQ.
  - split; [done|]. destruct c; try done; cbn; lia.
  - intros Hneg. cbn. by rewrite (proj2 (Z.ltb_lt _ 0)).
Qed.

Lemma made_trans n1 t1 n2 t2 s s1 s2 :
  made n1 t1 s s1 → made n2 t2 s1 s2 → made (n2 ++ n1) (t1 + t2) s s2.
Proof. intros [H1 W1] [H2 W2]. split; [by rewrite H2, H1, app_assoc|lia]. Qed.

Lemma ends_pending (Q : unit → wait_state → Prop) s :
  (∀ s' a, made [(CheckPending, a)] 0 s s' → Q tt s') → ends vsf_sysutil_check_pending Q s.
Proof. intros HQ. unfold ends, vsf_sysutil_check_pending. eapply HQ. split; [reflexivity|cbn; lia]. Qed.

(** The loop ends within its timeout, however often it is interrupted. *)
Lemma select_loop_ends fuel fd wr t (Q : Z → wait_state → Prop) s :
  0 ≤ t < Z.of_nat fuel →
  (∀ v s' new, made new t s s' → Q v s') → ends (select_loop fuel fd wr t) Q s.
Proof.
  revert t s; induction fuel as [|fuel IH]; intros t s Ht HQ; [lia|]. cbn [select_loop].
  apply ends_bind. unfold ends at 1, perform. destruct (select_law (calls s) fd wr t) as [Hl Hi]; [lia|].
  set (a := kernel (calls s) (Select fd wr t)) in *.
  apply ends_bind. unfold ends at 1, get_errno. cbn [errno]. apply ends_bind, ends_pending. intros s1 pa Hs1.
  assert (made ([(CheckPending, pa)] ++ [(Select fd wr t, a)]) (t - w_left a) s s1) as Hm.
  { destruct Hs1 as [H1 W1]. split; [by rewrite H1|]. rewrite H1 in *. cbn in *. lia. }
  destruct ((w_ret a <? 0) && _) eqn:Hagain.
  - apply andb_true_iff in Hagain as [Hneg He]. rewrite Hneg in He. b2p. specialize (Hi Hneg He).
    apply IH; [lia|]. intros v s2 new Hs2. pose proof (made_trans _ _ _ _ _ _ _ Hm Hs2) as Hall.
    replace (t - w_left a + w_left a) with t in Hall by lia. exact (HQ _ _ _ Hall).
  - unfold ends. cbn. eapply HQ. destruct Hm as [H1 W1]. split; [exact H1|lia].
Qed.

Lemma change_flags_ends fd f (Q : unit → wait_state → Prop) s :
  (∀ s' a b, w_ret b = 0 → made [(SetFlags fd (f (w_ret a)), b); (GetFlags fd, a)] 0 s s' → Q tt s') →
  ends (change_flags fd f) Q s.
Proof.
  intros HQ. unfold change_flags. apply ends_bind, ends_perform; [done|]. intros s1 H1 _.
  set (a := kernel (calls s) (GetFlags fd)) in *.
  destruct (w_ret a <? 0) eqn:Ha; [apply ends_stop|].
  apply ends_bind, ends_perform; [done|]. intros s2 H2 _.
  set (b := kernel (calls s1) _) in *.
  destruct (negb (w_ret b =? 0)) eqn:Hb; [apply ends_stop|]. b2p.
  unfold ends. cbn. apply (HQ s2 a b); [done|]. exact (made_trans _ _ _ _ _ _ _ H1 H2).
Qed.

End Rules.

Section Waiting.
Context `{K : Kernel} {L : LinuxSelect} (fuel : nat).

(** The calls that report a connection: accept gave the descriptor and an
    address of a known family; connect succeeded, or select reported the end of
    it and the socket has no error. *)
Definition accepted (fd v : Z) (p : option sockaddr) (new : trace) : Prop :=
  ∃ a, (AcceptOn fd, a) ∈ new ∧ v = w_ret a ∧ supported (w_addr a) = true ∧
       (p = None ∨ p = Some (copy_address (w_addr a))).

Definition connected (fd : Z) (addr : sockaddr) (new : trace) : Prop :=
  (∃ a, (ConnectTo fd addr, a) ∈ new ∧ w_ret a = 0) ∨
  (∃ a, (SocketError fd, a) ∈ new ∧ w_ret a = 0 ∧ w_value a = 0).

(** The last change of the flags has taken non-blocking mode off. *)
Definition blocking (fd : Z) (new : trace) : Prop :=
  ∃ fl a older, new = (SetFlags fd (Z.ldiff fl O_NONBLOCK), a) :: older ∧ w_ret a = 0.

Lemma accept_now_ends fd b s0 old t s :
  made old t s0 s →
  ends (accept_now fd b) (λ r s', ∃ new, made new t s0 s' ∧ (0 ≤ r.1 → accepted fd r.1 r.2 new)) s.
Proof.
  intros Hold. unfold accept_now. apply ends_bind, ends_perform; [done|]. intros s1 H1 _.
  set (a := kernel (calls s) (AcceptOn fd)) in *.
  apply ends_bind, ends_pending. intros s2 pa H2.
  pose proof (made_trans _ _ _ _ _ _ _ (made_trans _ _ _ _ _ _ _ Hold H1) H2) as H. rewrite !Z.add_0_r in H.
  destruct (w_ret a <? 0) eqn:Hr; b2p; [unfold ends; cbn; eexists; split; [exact H|cbn; lia]|].
  destruct (w_socklen a =? 0); [unfold ends; cbn; eexists; split; [exact H|cbn; lia]|].
  destruct (supported (w_addr a)) eqn:Hs; cbn [negb]; [|apply ends_stop].
  unfold ends. cbn. eexists. split; [exact H|]. intros _. exists a.
  split; [set_solver|]. split; [done|]. split; [done|]. destruct b; auto.
Qed.

Lemma made_refl s : made [] 0 s s.
Proof. split; [done|lia]. Qed.

Lemma made_errno new t e s s' : made new t s s' → made new t s (WaitState (calls s') e).
Proof. done. Qed.

Lemma ends_errno (b : bool) e (Q : unit → wait_state → Prop) s :
  (∀ e', Q tt (WaitState (calls s) e')) → ends (if b then set_errno e else mret tt) Q s.
Proof. intros HQ. destruct s as [h e0]. destruct b; unfold ends; cbn; apply HQ. Qed.

(** Waiting for a client takes at most the time that is given for it, whatever
    signals arrive; a descriptor that is returned is one that accept gave, with
    an address of the two families that are supported. *)
Lemma accept_timeout_ends fd b wait s :
  0 ≤ wait → wait * MICROS < Z.of_nat fuel →
  ends (vsf_sysutil_accept_timeout fuel fd b wait)
    (λ r s', ∃ new, made new (wait * MICROS) s s' ∧ (0 ≤ r.1 → accepted fd r.1 r.2 new)) s.
Proof.
  intros Hw Hf. unfold vsf_sysutil_accept_timeout. destruct (0 <? wait) eqn:H0; b2p.
  2:{ assert (wait = 0) as -> by lia. apply (accept_now_ends _ _ _ [] 0), made_refl. }
  apply ends_bind, select_loop_ends; [unfold MICROS in *; lia|]. intros v s1 new H1.
  destruct (v <=? 0) eqn:Hv; [|by eapply accept_now_ends].
  apply ends_bind, ends_errno. intros e'. unfold ends. cbn. eexists. split; [by apply made_errno|cbn; lia].
Qed.

Lemma finish_connect_ends fd wait s0 old addr s :
  0 ≤ wait → wait * MICROS < Z.of_nat fuel → made old 0 s0 s →
  ends (finish_connect fuel fd wait)
    (λ v s', ∃ new, made new (wait * MICROS) s0 s' ∧ (v = 0 → connected fd addr new)) s.
Proof.
  intros Hw Hf Hold. unfold finish_connect.
  apply ends_bind, select_loop_ends; [unfold MICROS in *; lia|]. intros v s1 sel H1.
  pose proof (made_trans _ _ _ _ _ _ _ Hold H1) as H. rewrite Z.add_0_l in H.
  destruct (v <=? 0) eqn:Hv.
  { apply ends_bind, ends_errno. intros e'. unfold ends. cbn. eexists. split; [by apply made_errno|done]. }
  apply ends_bind, ends_perform; [done|]. intros s2 H2 _. set (a := kernel (calls s1) (SocketError fd)) in *.
  pose proof (made_trans _ _ _ _ _ _ _ H H2) as H'. rewrite Z.add_0_r in H'.
  destruct (w_ret a =? 0) eqn:Hr; cbn [negb]; [|apply ends_stop].
  destruct (w_value a =? 0) eqn:Hval; cbn [negb]; b2p.
  - unfold ends. cbn. eexists. split; [exact H'|]. intros _. right. exists a. split; [set_solver|done].
  - unfold ends. cbn. eexists. split; [by apply made_errno|done].
Qed.

Lemma connect_timeout_ends fd addr wait s :
  0 < wait → wait * MICROS < Z.of_nat fuel →
  ends (vsf_sysutil_connect_timeout fuel fd addr wait)
    (λ v s', ∃ new, made new (wait * MICROS) s s' ∧ blocking fd new ∧ (v = 0 → connected fd addr new)) s.
Proof.
  intros Hw Hf. unfold vsf_sysutil_connect_timeout. rewrite (proj2 (Z.ltb_lt 0 wait)) by done.
  destruct (negb (supported addr)); [apply ends_stop|].
  apply ends_bind, change_flags_ends. intros s1 fa fb _ H1.
  apply ends_bind, ends_perform; [done|]. intros s2 H2 _. set (a := kernel (calls s1) (ConnectTo fd addr)) in *.
  pose proof (made_trans _ _ _ _ _ _ _ H1 H2) as H. apply ends_bind. unfold ends at 1. cbn [get_errno].
  apply ends_bind. eapply (ends_mono _ (λ v s', ∃ new, made new (wait * MICROS) s s' ∧ (v = 0 → connected fd addr new))).
  - destruct (_ && _).
    + eapply finish_connect_ends; [lia|lia|exact H].
    + unfold ends. cbn. eexists. split; [destruct H; split; [done|unfold MICROS; lia]|].
      intros Hv. left. exists a. split; [set_solver|done].
  - intros v s3 (new & H3 & Hc). apply ends_bind, change_flags_ends. intros s4 ga gb Hgb H4.
    pose proof (made_trans _ _ _ _ _ _ _ H3 H4) as H5. rewrite Z.add_0_r in H5.
    unfold ends. cbn. eexists. split; [exact H5|]. split; [by eexists _, _, _|].
    intros Hv. destruct (Hc Hv) as [(x & Hx & ?)|(x & Hx & ?)]; [left|right]; exists x; (split; [set_solver|done]).
Qed.

End Waiting.

(** C24: Waits are bounded. On a select that counts down its timeout - as Linux does
    - and however many signals interrupt it, [vsf_sysutil_accept_timeout] and
    [vsf_sysutil_connect_timeout], given a positive number of seconds, end after
    at most that much time spent in select, the only call that is counted. A
    descriptor that the first returns is one accept gave, with an IPv4 or IPv6
    address, of which the caller gets the part of its family; the second reports
    success only if the connection stands, and whenever it returns the socket is
    in blocking mode again. *)
Theorem waits_bounded `{K : Kernel} {L : LinuxSelect} (fuel : nat) (fd wait : Z) (addr : sockaddr)
    (b : bool) (s : wait_state) :
  0 < wait → wait * MICROS < Z.of_nat fuel →
  ends (vsf_sysutil_accept_timeout fuel fd b wait) (λ r s', ∃ new,
    made new (wait * MICROS) s s' ∧ (0 ≤ r.1 → accepted fd r.1 r.2 new)) s ∧
  ends (vsf_sysutil_connect_timeout fuel fd addr wait) (λ v s', ∃ new,
    made new (wait * MICROS) s s' ∧ blocking fd new ∧ (v = 0 → connected fd addr new)) s.
Proof.
  intros Hw Hf. split; [apply accept_timeout_ends; lia|by apply connect_timeout_ends].
Qed.

(** A kernel on which the first two selects are interrupted after a tenth of what
    is left, a client has come, and a connect is refused while it is in progress. *)
Definition busy_kernel : Kernel := λ h c,
  let client := MkAddr AF_INET [x0a; x00; x00; x07] (replicate 16 NUL) 40000 0 in
  let ans r e l v := WaitAnswer r e l client 16 v in
  match c with
  | Select _ _ t =>
      if (length h <? 6)%nat && (0 <? t) then ans (-1) EINTR (t - 1 - t / 10) 0 else ans 1 0 t 0
  | AcceptOn _ => ans 8 0 0 0
  | ConnectTo _ _ => ans (-1) EINPROGRESS 0 0
  | GetFlags _ => ans 2 0 0 0
  | SocketError _ => ans 0 0 0 111
  | _ => ans 0 0 0 0
  end.

Lemma busy_select : LinuxSelect (K := busy_kernel).
Proof.
  intros h fd w t Ht. unfold kernel, busy_kernel. destruct (_ && _) eqn:Hi; cbn [w_left w_ret w_errno]; [|lia].
  b2p. pose proof (Z.div_pos t 10 Ht ltac:(lia)). pose proof (Z.mul_div_le t 10 ltac:(lia)). lia.
Qed.

Example busy_runs :
  (vsf_sysutil_accept_timeout (K := busy_kernel) 100 5 false 0 (WaitState [] 0)).1 = Ok (8, None) ∧
  (select_loop (K := busy_kernel) 100 5 false 50 (WaitState [] 0)).1 = Ok 1 ∧
  waited (calls (select_loop (K := busy_kernel) 100 5 false 50 (WaitState [] 0)).2) = 15.
Proof. by vm_compute. Qed.

Lemma waits_bounded_witness :
  let fuel := Z.to_nat 60000001 in
  ends (vsf_sysutil_accept_timeout (K := busy_kernel) fuel 5 true 60) (λ r s', ∃ new,
    made new (60 * MICROS) (WaitState [] 0) s' ∧ (0 ≤ r.1 → accepted 5 r.1 r.2 new)) (WaitState [] 0) ∧
  ends (vsf_sysutil_connect_timeout (K := busy_kernel) fuel 5 (MkAddr AF_INET [] [] 20 0) 60) (λ v s', ∃ new,
    made new (60 * MICROS) (WaitState [] 0) s' ∧ blocking 5 new ∧
    (v = 0 → connected 5 (MkAddr AF_INET [] [] 20 0) new)) (WaitState [] 0).
Proof.
  apply (waits_bounded (K := busy_kernel) (L := busy_select) (Z.to_nat 60000001) 5 60
    (MkAddr AF_INET [] [] 20 0) true (WaitState [] 0)); [reflexivity|].
  rewrite Z2Nat.id by discriminate. reflexivity.
Defined.
