(* ===== verification/Filter.v ===== *)
(** * ls.c: matching of file names

    [vsf_filename_passes_filter], with its iteration counter threaded through
    the recursion for brace lists. Names and filters are byte lists
    ([StrRefine]); the searched text of [str_locate_str] is the C string of the
    buffer. *)

From Stdlib Require Import Init.Byte Strings.Byte.
From Stdlib Require Import ZArith Lia String.
From stdpp Require Import base list numbers option.
From S2P Require Import Prelude SysUtil Text.
Import ResNotations.

Definition VSFTP_MATCHITERS_MAX : Z := 1000.

Definition STAR : byte := x2a.
Definition QMARK : byte := x3f.
Definition LBRACE : byte := x7b.
Definition RBRACE : byte := x7d.
Definition COMMA : byte := x2c.
Definition tokens : bytes := [STAR; QMARK; LBRACE].

(** The [while] over the alternatives of a brace list: [n] bounds the rounds by
    the length of the list. *)
Fixpoint brace_loop (try : bytes → Z → res (bool * Z)) (filter_remain : bytes)
    (n : nat) (brace_list temp : bytes) (iters : Z) : res (bool * Z) :=
  match brace_list with
  | [] => Ok (false, iters)
  | _ =>
      let* (r, iters) := try (brace_list ++ filter_remain) iters in
      if (r : bool) then Ok (true, iters)
      else
        let '(brace_list, temp) := t_split_char temp COMMA in
        match n with
        | O => Err UB
        | S n' => brace_loop try filter_remain n' brace_list temp iters
        end
  end.

(** The main [while], from its test: the remainders of name and filter, the
    counter, [last_token] and [must_match_at_current_pos]. Every round counts
    in [iters], the rounds of a recursive call too, so that the distance to the
    limit bounds them. *)
Fixpoint filter_loop (fuel : nat) (name_remain filter_remain : bytes) (iters : Z)
    (last_token : byte) (must_match : bool) : res (bool * Z) :=
  match fuel with
  | O => Err UB
  | S fuel' =>
      if negb (length filter_remain =? 0)%nat && (iters <? VSFTP_MATCHITERS_MAX) then
        let iters := iters + 1 in
        let* (match_needed, filter_remain, last_token) :=
          match t_locate_chars filter_remain tokens with
          | Some (indexx, c) =>
              let* m := t_left filter_remain (Z.of_nat indexx) in
              let* f := t_mid_to_end filter_remain (Z.of_nat indexx + 1) in
              Ok (m, f, c)
          | None => Ok (filter_remain, [], NUL)
          end in
        let* name :=
          if negb (length match_needed =? 0)%nat then
            match t_locate name_remain (cstr match_needed) with
            | None => Ok None
            | Some indexx =>
                if must_match && (0 <? indexx)%nat then Ok None
                else
                  let* n := t_mid_to_end name_remain
                              (Z.of_nat indexx + Z.of_nat (length match_needed)) in
                  Ok (Some n)
            end
          else Ok (Some name_remain) in
        match name with
        | None => Ok (false, iters)
        | Some name_remain =>
            if bool_decide (last_token = QMARK) then
              if (length name_remain =? 0)%nat then Ok (false, iters)
              else
                let* n := t_right name_remain (Z.of_nat (length name_remain) - 1) in
                filter_loop fuel' n filter_remain iters last_token true
            else if bool_decide (last_token = LBRACE) then
              match t_locate_char filter_remain RBRACE with
              | Some _ =>
                  let '(brace_list, filter_remain) := t_split_char filter_remain RBRACE in
                  let n := length brace_list in
                  let '(brace_list, temp) := t_split_char brace_list COMMA in
                  brace_loop (λ f it, filter_loop fuel' name_remain f it NUL true)
                    filter_remain n brace_list temp iters
              | None =>
                  match name_remain with
                  | [] => Ok (false, iters)
                  | c :: _ =>
                      if bool_decide (c ≠ LBRACE) then Ok (false, iters)
                      else
                        let* n := t_right name_remain
                                    (Z.of_nat (length name_remain) - 1) in
                        filter_loop fuel' n filter_remain iters last_token true
                  end
              end
            else filter_loop fuel' name_remain filter_remain iters last_token false
        end
      else if (0 <? length name_remain)%nat && bool_decide (last_token ≠ STAR) then
        Ok (false, iters)
      else Ok (negb (iters =? VSFTP_MATCHITERS_MAX), iters)
  end.

(** Result: the return value and [*iters]. *)
Definition vsf_filename_passes_filter (p_filename_str p_filter_str : bytes) (iters : Z)
  : res (bool * Z) :=
  filter_loop (S (Z.to_nat (VSFTP_MATCHITERS_MAX - iters)))
    p_filename_str p_filter_str iters NUL true.

(** ** What a filter means *)

(** The comma-separated fields of a text. *)
Fixpoint fields (s : bytes) : list bytes :=
  match s with
  | [] => [[]]
  | c :: s' =>
      if bool_decide (c = COMMA) then [] :: fields s'
      else match fields s' with
           | f :: fs => (c :: f) :: fs
           | [] => [[c]]
           end
  end.

(** [glob f n]: the filter [f] matches the name [n]. Braces do not nest; one
    without its closing brace stands for itself. *)
Inductive glob : bytes → bytes → Prop :=
  | glob_nil : glob [] []
  | glob_lit c f n : c ∉ tokens → glob f n → glob (c :: f) (c :: n)
  | glob_any c f n : glob f n → glob (QMARK :: f) (c :: n)
  | glob_star f n1 n2 : glob f n2 → glob (STAR :: f) (n1 ++ n2)
  | glob_alt b f a n :
      RBRACE ∉ b → a ∈ fields b → a ≠ [] → glob (a ++ f) n →
      glob (LBRACE :: b ++ RBRACE :: f) n
  | glob_open f n : RBRACE ∉ f → glob f n → glob (LBRACE :: f) (LBRACE :: n).

Lemma glob_app_lit m f n : Forall (λ d, d ∉ tokens) m → glob f n → glob (m ++ f) (m ++ n).
Proof. induction 1; [done|]. intros. cbn. apply glob_lit; auto. Qed.

(** A name part that a star before the filter may skip. *)
Definition skips (must_match : bool) (f n : bytes) : Prop :=
  if must_match then glob f n else ∃ n1 n2, n = n1 ++ n2 ∧ glob f n2.

(** ** Helpers *)

Lemma mid_ok s i : 0 <= i <= Z.of_nat (length s) → t_mid_to_end s i = Ok (drop (Z.to_nat i) s).
Proof. intros. unfold t_mid_to_end. by ztest. Qed.

Lemma left_take s i : 0 <= i <= Z.of_nat (length s) → t_left s i = Ok (take (Z.to_nat i) s).
Proof. intros. unfold t_left. by ztest. Qed.

Lemma right_tail c s : t_right (c :: s) (Z.of_nat (length (c :: s)) - 1) = Ok s.
Proof.
  unfold t_right. ztest. f_equal.
  replace (length (c :: s) - Z.to_nat (Z.of_nat (length (c :: s)) - 1))%nat with 1%nat
    by (cbn; lia). done.
Qed.

(** The round's split of the filter at the next token. *)
Lemma token_split f :
  match t_locate_chars f tokens with
  | Some (indexx, c) =>
      ∃ m f', f = m ++ c :: f' ∧ c ∈ tokens ∧ Forall (λ d, d ∉ tokens) m ∧
        t_left f (Z.of_nat indexx) = Ok m ∧
        t_mid_to_end f (Z.of_nat indexx + 1) = Ok f'
  | None => Forall (λ d, d ∉ tokens) f
  end.
Proof.
  unfold t_locate_chars. destruct (t_locate_chars_from f tokens 0) as [[i c]|] eqn:E.
  - apply t_locate_chars_from_Some in E as (m & f' & -> & -> & Hc & Hm).
    exists m, f'. split_and!; [done..| |].
    + rewrite left_take by (rewrite length_app; lia).
      rewrite Nat2Z.id. by rewrite Nat.add_0_l, take_app_length.
    + rewrite mid_ok by (rewrite length_app; cbn; lia).
      replace (Z.to_nat (Z.of_nat (0 + length m) + 1)) with (length m + 1)%nat by lia.
      rewrite <- drop_drop, drop_app_length. done.
  - by apply t_locate_chars_from_None in E.
Qed.

(** The round's match of the text before the token. *)
Definition match_text (name m : bytes) (must : bool) : res (option bytes) :=
  if negb (length m =? 0)%nat then
    match t_locate name (cstr m) with
    | None => Ok None
    | Some indexx =>
        if must && (0 <? indexx)%nat then Ok None
        else
          let* n := t_mid_to_end name (Z.of_nat indexx + Z.of_nat (length m)) in
          Ok (Some n)
    end
  else Ok (Some name).

Lemma match_text_ok name m must :
  NUL ∉ m →
  ∃ o, match_text name m must = Ok o ∧
    match o with
    | Some name' => ∃ pre, name = pre ++ m ++ name' ∧ (must = true → pre = [])
    | None => True
    end.
Proof.
  intros Hm. unfold match_text. destruct (Nat.eqb_spec (length m) 0) as [E|E]; cbn [negb].
  - apply length_zero_iff_nil in E as ->. eexists; split; [done|]. by exists [].
  - rewrite cstr_no_nul by done. destruct (t_locate name m) as [i|] eqn:El.
    2:{ by eexists. }
    pose proof (t_locate_length _ _ _ El) as [_ Hb].
    apply t_locate_Some in El as (_ & Hs%starts_with_spec & _).
    destruct (must && (0 <? i)%nat) eqn:Em; [by eexists|].
    rewrite mid_ok by lia. cbn [res_bind].
    replace (Z.to_nat (Z.of_nat i + Z.of_nat (length m))) with (i + length m)%nat by lia.
    eexists; split; [done|]. exists (take i name). split.
    + rewrite <- drop_drop, <- Hs, take_drop. done.
    + intros ->. cbn [andb] in Em. apply Nat.ltb_ge in Em. by replace i with 0%nat by lia.
Qed.

Lemma fields_app a b : COMMA ∉ a → fields (a ++ COMMA :: b) = a :: fields b.
Proof.
  induction a as [|c a IH]; intros Ha; cbn [app fields].
  - by rewrite bool_decide_eq_true_2.
  - apply not_elem_of_cons in Ha as [Hc Ha].
    rewrite bool_decide_eq_false_2 by done. by rewrite IH.
Qed.

Lemma fields_one s : COMMA ∉ s → fields s = [s].
Proof.
  induction s as [|c s IH]; intros Hs; cbn [fields]; [done|].
  apply not_elem_of_cons in Hs as [Hc Hs].
  rewrite bool_decide_eq_false_2 by done. by rewrite IH.
Qed.

Lemma t_split_comma s :
  (t_split_char s COMMA = (s, []) ∧ fields s = [s]) ∨
  (∃ a b, s = a ++ COMMA :: b ∧ t_split_char s COMMA = (a, b) ∧ fields s = a :: fields b).
Proof.
  destruct (decide (COMMA ∈ s)) as [Hi|Hn].
  - right. apply list_elem_of_split_l in Hi as (a & b & -> & Ha). exists a, b.
    split_and!; [done|by apply t_split_char_app|by apply fields_app].
  - left. split; [by apply t_split_char_none|by apply fields_one].
Qed.

Lemma comma_fields s h t :
  t_split_char s COMMA = (h, t) →
  h ∈ fields s ∧ (∀ x, x ∈ fields t → x ≠ [] → x ∈ fields s) ∧
  (h ≠ [] → (length t < length s)%nat).
Proof.
  destruct (t_split_comma s) as [(-> & Hf)|(a & b & -> & -> & Hf)]; intros [= <- <-];
    rewrite Hf.
  - split_and!; [left| |by destruct s; cbn; [|lia]].
    intros x [->|Hx]%elem_of_cons; [done|by apply not_elem_of_nil in Hx].
  - split_and!; [left|by right|]. intros _. rewrite length_app. cbn. lia.
Qed.

(** The counter never passes the limit. *)
Definition keeps_limit (try : bytes → Z → res (bool * Z)) : Prop :=
  ∀ g it b it', try g it = Ok (b, it') → it <= VSFTP_MATCHITERS_MAX →
    it <= it' <= VSFTP_MATCHITERS_MAX.

Lemma brace_loop_limit try f n : ∀ bl temp it b it',
  keeps_limit try → brace_loop try f n bl temp it = Ok (b, it') →
  it <= VSFTP_MATCHITERS_MAX → it <= it' <= VSFTP_MATCHITERS_MAX.
Proof.
  induction n as [|n IH]; intros bl temp it b it' Ht H Hit;
    (destruct bl as [|c bl]; cbn [brace_loop] in H; [injection H as <- <-; lia|]);
    (destruct (try ((c :: bl) ++ f) it) as [[r it1]|] eqn:Et; cbn [res_bind] in H; [|done]);
    pose proof (Ht _ _ _ _ Et Hit) as Hit1;
    (destruct r; [injection H as <- <-; lia|]);
    destruct (t_split_char temp COMMA) as [h t]; [done|].
  apply IH in H; [lia|done|lia].
Qed.

Lemma brace_loop_sound try f n : ∀ bl temp it it' (F : bytes → Prop),
  keeps_limit try → it <= VSFTP_MATCHITERS_MAX →
  brace_loop try f n bl temp it = Ok (true, it') → F bl →
  (∀ x, x ∈ fields temp → x ≠ [] → F x) →
  ∃ a it1 it2, F a ∧ a ≠ [] ∧ it1 <= VSFTP_MATCHITERS_MAX ∧
               try (a ++ f) it1 = Ok (true, it2).
Proof.
  induction n as [|n IH]; intros bl temp it it' F Hlim Hit H Hbl Htemp;
    (destruct bl as [|c bl]; cbn [brace_loop] in H; [done|]);
    (destruct (try ((c :: bl) ++ f) it) as [[[] it1]|] eqn:Et; cbn [res_bind] in H;
     [by exists (c :: bl), it, it1| |done]);
    destruct (t_split_char temp COMMA) as [h t] eqn:Es; [done|].
  apply comma_fields in Es as (Hh & Ht & _). pose proof (Hlim _ _ _ _ Et Hit).
  destruct h as [|d h]; [by destruct n|].
  apply (IH (d :: h) t it1 it' F Hlim ltac:(lia) H); auto.
Qed.

Lemma brace_loop_total try f (P : bytes → Prop) (lo hi : Z) n : ∀ bl temp it,
  (∀ g it, P g → lo <= it <= hi → ∃ b it', try g it = Ok (b, it') ∧ it <= it' <= hi) →
  (∀ x, x ∈ fields temp → x ≠ [] → P (x ++ f)) → (bl ≠ [] → P (bl ++ f)) →
  lo <= it <= hi → (bl ≠ [] → (length temp < n)%nat) →
  ∃ b it', brace_loop try f n bl temp it = Ok (b, it') ∧ it <= it' <= hi.
Proof.
  induction n as [|n IH]; intros bl temp it Htry Htemp Hbl Hit Hn;
    (destruct bl as [|c bl]; cbn [brace_loop];
     [exists false, it; split; [done|lia]|]); [specialize (Hn ltac:(done)); lia|].
  destruct (Htry ((c :: bl) ++ f) it) as (b & it1 & -> & Hit1); [auto|done|].
  cbn [res_bind]. destruct b; [exists true, it1; done|].
  specialize (Hn ltac:(done)).
  destruct (t_split_char temp COMMA) as [h t] eqn:Es.
  apply comma_fields in Es as (Hh & Ht & Hl).
  destruct (IH h t it1) as (b & it2 & -> & Hit2); [done|auto|auto|lia| |].
  - intros Hne. specialize (Hl Hne). lia.
  - exists b, it2. split; [done|lia].
Qed.

(** One round of the loop, with its parts named. *)
Definition round_tokens (f : bytes) : res (bytes * bytes * byte) :=
  match t_locate_chars f tokens with
  | Some (indexx, c) =>
      let* m := t_left f (Z.of_nat indexx) in
      let* f := t_mid_to_end f (Z.of_nat indexx + 1) in
      Ok (m, f, c)
  | None => Ok (f, [], NUL)
  end.

Definition round_brace (fuel : nat) (name f : bytes) (it : Z) : res (bool * Z) :=
  match t_locate_char f RBRACE with
  | Some _ =>
      let '(brace_list, f) := t_split_char f RBRACE in
      let n := length brace_list in
      let '(brace_list, temp) := t_split_char brace_list COMMA in
      brace_loop (λ g it, filter_loop fuel name g it NUL true) f n brace_list temp it
  | None =>
      match name with
      | [] => Ok (false, it)
      | c :: _ =>
          if bool_decide (c ≠ LBRACE) then Ok (false, it)
          else
            let* n := t_right name (Z.of_nat (length name) - 1) in
            filter_loop fuel n f it LBRACE true
      end
  end.

Definition round_rest (fuel : nat) (name f : bytes) (it : Z) (c : byte) : res (bool * Z) :=
  if bool_decide (c = QMARK) then
    if (length name =? 0)%nat then Ok (false, it)
    else
      let* n := t_right name (Z.of_nat (length name) - 1) in
      filter_loop fuel n f it c true
  else if bool_decide (c = LBRACE) then round_brace fuel name f it
  else filter_loop fuel name f it c false.

Lemma filter_loop_round fuel name f it lt must :
  f ≠ [] → it < VSFTP_MATCHITERS_MAX →
  filter_loop (S fuel) name f it lt must =
  (let* (m, f', c) := round_tokens f in
   let* o := match_text name m must in
   match o with
   | None => Ok (false, it + 1)
   | Some name' => round_rest fuel name' f' (it + 1) c
   end).
Proof.
  intros Hf Hit. cbn [filter_loop]. rewrite (proj2 (Z.ltb_lt _ _)) by done.
  destruct (Nat.eqb_spec (length f) 0) as [E|E];
    [by apply length_zero_iff_nil in E|]. cbn [negb andb].
  fold (round_tokens f). destruct (round_tokens f) as [[[m f'] c]|]; [|done].
  cbn [res_bind]. fold (match_text name m must).
  destruct (match_text name m must) as [[name'|]|]; try done. cbn [res_bind].
  unfold round_rest, round_brace. case_bool_decide; [done|]. case_bool_decide; [|done].
  by subst.
Qed.

Lemma filter_loop_exit fuel name f it lt must :
  f = [] ∨ VSFTP_MATCHITERS_MAX <= it →
  filter_loop (S fuel) name f it lt must =
  if (0 <? length name)%nat && bool_decide (lt ≠ STAR) then Ok (false, it)
  else Ok (negb (it =? VSFTP_MATCHITERS_MAX), it).
Proof.
  intros H. cbn [filter_loop].
  assert (negb (length f =? 0)%nat && (it <? VSFTP_MATCHITERS_MAX) = false) as ->; [|done].
  destruct H as [->|H]; [done|]. rewrite (proj2 (Z.ltb_ge _ _)) by done.
  apply andb_false_r.
Qed.

Lemma round_tokens_ok f :
  NUL ∉ f →
  ∃ m f' c, round_tokens f = Ok (m, f', c) ∧ Forall (λ d, d ∉ tokens) m ∧
    NUL ∉ m ∧ NUL ∉ f' ∧
    ((c ∈ tokens ∧ f = m ++ c :: f') ∨ (c = NUL ∧ f = m ∧ f' = [])).
Proof.
  intros Hn. unfold round_tokens. pose proof (token_split f) as H.
  destruct (t_locate_chars f tokens) as [[i c]|].
  - destruct H as (m & f' & -> & Hc & Hm & -> & ->). cbn [res_bind].
    rewrite elem_of_app, elem_of_cons in Hn. exists m, f', c. split_and!; tauto || auto.
  - exists f, [], NUL. split_and!; [done..|apply not_elem_of_nil|auto].
Qed.

Lemma locate_rbrace f :
  match t_locate_char f RBRACE with
  | Some _ => ∃ b g, f = b ++ RBRACE :: g ∧ RBRACE ∉ b ∧ t_split_char f RBRACE = (b, g)
  | None => RBRACE ∉ f
  end.
Proof.
  destruct (decide (RBRACE ∈ f)) as [Hi|Hn].
  - apply list_elem_of_split_l in Hi as (b & g & -> & Hb).
    unfold t_locate_char, t_locate, char_text. rewrite bool_decide_eq_false_2 by done.
    rewrite bool_decide_eq_false_2, find_from_char by done.
    exists b, g. split_and!; [done..|by apply t_split_char_app].
  - unfold t_locate_char, t_locate, char_text. rewrite bool_decide_eq_false_2 by done.
    by rewrite bool_decide_eq_false_2, find_from_char_None by done.
Qed.

Lemma fields_elem b a x : a ∈ fields b → x ∈ a → x ∈ b.
Proof.
  revert a; induction b as [|c b IH]; intros a; cbn [fields].
  - intros [->|?%not_elem_of_nil]%elem_of_cons; done.
  - case_bool_decide.
    + intros [->|Ha]%elem_of_cons; [by intros ?%not_elem_of_nil|]. right. eauto.
    + destruct (fields b) as [|g gs]; intros [->|Ha]%elem_of_cons.
      * intros [->|?%not_elem_of_nil]%elem_of_cons; [left|done].
      * by apply not_elem_of_nil in Ha.
      * intros [->|Hx]%elem_of_cons; [left|right]. apply (IH g); [left|done].
      * right. apply (IH a); [by right|done].
Qed.

(** What is known of [last_token] and [must_match] at the test of the loop. *)
Definition consistent (lt : byte) (must : bool) (f : bytes) : Prop :=
  if must then lt ≠ STAR else lt = STAR ∨ f = [].

Definition sound_at (fuel : nat) : Prop := ∀ name f it lt must it',
  NUL ∉ f → it <= VSFTP_MATCHITERS_MAX → consistent lt must f →
  filter_loop fuel name f it lt must = Ok (true, it') →
  skips (bool_decide (lt ≠ STAR)) f name.

Definition limit_at (fuel : nat) : Prop := ∀ name f it lt must b it',
  filter_loop fuel name f it lt must = Ok (b, it') → it <= VSFTP_MATCHITERS_MAX →
  it <= it' <= VSFTP_MATCHITERS_MAX.

Lemma round_rest_limit fuel name f it c b it' :
  limit_at fuel → round_rest fuel name f it c = Ok (b, it') →
  it <= VSFTP_MATCHITERS_MAX → it <= it' <= VSFTP_MATCHITERS_MAX.
Proof.
  intros IH. unfold round_rest. case_bool_decide.
  - destruct name as [|x name]; [intros [= <- <-]; lia|]. rewrite right_tail.
    cbn [length Nat.eqb res_bind]. apply IH.
  - case_bool_decide; [|apply IH]. unfold round_brace.
    destruct (t_locate_char f RBRACE).
    + destruct (t_split_char f RBRACE) as [bl g]. destruct (t_split_char bl COMMA).
      intros Hb. eapply brace_loop_limit; [|done]. intros g' i b' i' H'. by eapply IH.
    + destruct name as [|x name]; [intros [= <- <-]; lia|].
      case_bool_decide; [intros [= <- <-]; lia|]. rewrite right_tail. apply IH.
Qed.

Lemma filter_loop_limit fuel : limit_at fuel.
Proof.
  induction fuel as [|fuel IH]; intros name f it lt must b it' H Hit; [done|].
  destruct (decide (f = [] ∨ VSFTP_MATCHITERS_MAX <= it)) as [Hx|Hx].
  - rewrite filter_loop_exit in H by done.
    destruct (_ && _); injection H as <- <-; lia.
  - rewrite filter_loop_round in H by (auto || lia).
    destruct (round_tokens f) as [[[m f'] c]|]; [|done]. cbn [res_bind] in H.
    destruct (match_text name m must) as [[name'|]|]; [| |done]; cbn [res_bind] in H.
    + apply round_rest_limit in H; [lia|done|lia].
    + injection H as <- <-. lia.
Qed.

Lemma round_rest_sound fuel name f it c it' :
  sound_at fuel → NUL ∉ f → c ∈ tokens → it <= VSFTP_MATCHITERS_MAX →
  round_rest fuel name f it c = Ok (true, it') → glob (c :: f) name.
Proof.
  intros IH Hn Hc Hit. unfold round_rest. case_bool_decide as E1; [subst c|].
  - destruct name as [|x name]; [done|]. rewrite right_tail. cbn [length Nat.eqb res_bind].
    intros H%IH; [|done..]. by apply glob_any.
  - case_bool_decide as E2; [subst c|].
    + unfold round_brace. pose proof (locate_rbrace f) as Hl.
      destruct (t_locate_char f RBRACE).
      * destruct Hl as (b & g & -> & Hb & ->).
        destruct (t_split_char b COMMA) as [h t] eqn:Es.
        apply comma_fields in Es as (Hh & Ht & _). intros H.
        apply (brace_loop_sound _ _ _ _ _ _ _ (λ x, x ∈ fields b)) in H
          as (a & it1 & it2 & Ha & Hne & Hit1 & Htry);
          [|intros ????; apply filter_loop_limit|done..].
        apply IH in Htry; [by eapply glob_alt| |done..].
        rewrite elem_of_app, elem_of_cons in Hn. rewrite elem_of_app.
        intros [Hx|Hx]; [|tauto]. apply Hn. left. by eapply fields_elem.
      * destruct name as [|x name]; [done|]. case_bool_decide as Ex; [done|].
        subst x. rewrite right_tail. cbn [res_bind].
        intros H%IH; [|done..]. by apply glob_open.
    + assert (c = STAR) as ->.
      { unfold tokens in Hc. rewrite !elem_of_cons in Hc.
        destruct Hc as [?|[?|[?|?%not_elem_of_nil]]]; done. }
      intros H%IH; [|done|done|by left]. cbn in H. destruct H as (n1 & n2 & -> & H).
      by apply glob_star.
Qed.

Lemma filter_loop_sound fuel : sound_at fuel.
Proof.
  induction fuel as [|fuel IH]; intros name f it lt must it' Hn Hit Hc H; [done|].
  destruct (decide (f = [] ∨ VSFTP_MATCHITERS_MAX <= it)) as [Hx|Hx].
  - rewrite filter_loop_exit in H by done.
    destruct (Z.eqb_spec it VSFTP_MATCHITERS_MAX) as [E|E]; [by destruct (_ && _)|].
    destruct Hx as [->|Hx]; [|lia]. unfold skips. case_bool_decide as El.
    + destruct name; [constructor|by cbn in H].
    + exists name, []. rewrite app_nil_r. split; [done|constructor].
  - rewrite filter_loop_round in H by (auto || lia).
    destruct (round_tokens_ok f Hn) as (m & f' & c & E & Hm & Hnm & Hnf & Hf).
    rewrite E in H. cbn [res_bind] in H.
    destruct (match_text_ok name m must Hnm) as ([name'|] & E' & Hname); rewrite E' in H;
      cbn [res_bind] in H; [|done]. destruct Hname as (pre & -> & Hpre).
    assert (Hg : glob f (m ++ name')).
    { destruct Hf as [[Ht ->]|(-> & -> & ->)].
      - apply glob_app_lit; [done|]. eapply (round_rest_sound fuel name' f' (it + 1)); [done..|lia|done].
      - unfold round_rest in H. rewrite !bool_decide_eq_false_2 in H by done.
        apply IH in H; [|done|lia|by right].
        rewrite <- (app_nil_r m) at 1. by apply glob_app_lit. }
    unfold skips. case_bool_decide as El.
    + destruct must; [by rewrite Hpre|]. destruct Hc as [?|Hc]; [done|]. exfalso. apply Hx. by left.
    + exists pre, (m ++ name'). done.
Qed.

(** ** Termination *)

Lemma filter_loop_total fuel : ∀ name f it lt must,
  NUL ∉ f → it <= VSFTP_MATCHITERS_MAX → VSFTP_MATCHITERS_MAX - it < Z.of_nat fuel →
  ∃ b it', filter_loop fuel name f it lt must = Ok (b, it') ∧
           it <= it' <= VSFTP_MATCHITERS_MAX.
Proof.
  induction fuel as [|fuel IH]; intros name f it lt must Hn Hit Hfu; [lia|].
  assert (Hgo : ∃ b it', filter_loop (S fuel) name f it lt must = Ok (b, it')).
  { destruct (decide (f = [] ∨ VSFTP_MATCHITERS_MAX <= it)) as [Hx|Hx].
    { rewrite filter_loop_exit by done. destruct (_ && _); eauto. }
    rewrite filter_loop_round by (auto || lia).
    destruct (round_tokens_ok f Hn) as (m & f' & c & -> & _ & Hnm & Hnf & _).
    cbn [res_bind].
    destruct (match_text_ok name m must Hnm) as ([name'|] & -> & _); [|eauto].
    cbn [res_bind]. unfold round_rest.
    assert (Hrec : ∀ n g i l mu, NUL ∉ g → it + 1 <= i <= VSFTP_MATCHITERS_MAX →
      ∃ b it', filter_loop fuel n g i l mu = Ok (b, it') ∧ i <= it' <= VSFTP_MATCHITERS_MAX).
    { intros. apply IH; [done|lia|lia]. }
    case_bool_decide; [|case_bool_decide].
    - destruct name' as [|x name']; [eauto|]. rewrite right_tail.
      cbn [length Nat.eqb res_bind].
      destruct (Hrec name' f' (it + 1) c true) as (b & i & -> & _); [done|lia|eauto].
    - unfold round_brace. pose proof (locate_rbrace f') as Hl.
      destruct (t_locate_char f' RBRACE).
      + destruct Hl as (b & g & -> & Hb & ->).
        destruct (t_split_char b COMMA) as [h t] eqn:Es.
        apply comma_fields in Es as (Hh & Ht & Hlen).
        assert (Hfield : ∀ x, x ∈ fields b → NUL ∉ x ++ g).
        { rewrite elem_of_app, elem_of_cons in Hnf. intros x Hxb.
          rewrite elem_of_app. intros [Hi|Hi]; [|tauto].
          apply Hnf. left. by eapply fields_elem. }
        destruct (brace_loop_total
          (λ g it, filter_loop fuel name' g it NUL true) g (λ g, NUL ∉ g)
          (it + 1) VSFTP_MATCHITERS_MAX (length b) h t (it + 1))
          as (r & i & -> & _); [auto..|lia|auto|eauto].
      + destruct name' as [|x name']; [eauto|]. case_bool_decide; [eauto|].
        rewrite right_tail. cbn [res_bind].
        destruct (Hrec name' f' (it + 1) LBRACE true) as (b & i & -> & _);
          [done|lia|eauto].
    - destruct (Hrec name' f' (it + 1) c false) as (b & i & -> & _); [done|lia|eauto]. }
  destruct Hgo as (b & it' & Hgo). exists b, it'. split; [done|].
  by eapply filter_loop_limit.
Qed.

(** The matcher always returns. On a filter without NUL characters it
    finishes within the iteration limit, whatever stars and braces the client
    sends, with no [bug] from a string function, and leaves the counter at most
    at the limit. *)
Theorem filter_terminates name f iters :
  NUL ∉ f → 0 <= iters <= VSFTP_MATCHITERS_MAX →
  ∃ b iters', vsf_filename_passes_filter name f iters = Ok (b, iters') ∧
              iters <= iters' <= VSFTP_MATCHITERS_MAX.
Proof. intros. apply filter_loop_total; [done|lia|lia]. Qed.

(** C39: what passes a filter matches it: the name is described by the filter, a
    text without NUL, with stars, question marks and (flat) brace lists read the
    usual way. *)
Theorem filter_sound name f iters iters' :
  NUL ∉ f → iters <= VSFTP_MATCHITERS_MAX →
  vsf_filename_passes_filter name f iters = Ok (true, iters') → glob f name.
Proof.
  intros Hn Hi H. by apply (filter_loop_sound _ name f iters NUL true iters') in H.
Qed.

(** a filter without special characters passes exactly the name it spells. *)
Theorem filter_literal name f iters :
  Forall (λ c, c ∉ tokens) f → NUL ∉ f → f ≠ [] → 0 <= iters < VSFTP_MATCHITERS_MAX - 1 →
  ∃ iters', vsf_filename_passes_filter name f iters = Ok (bool_decide (name = f), iters').
Proof.
  intros Hf Hn Hne Hi. unfold vsf_filename_passes_filter.
  rewrite filter_loop_round by (done || lia).
  destruct (Z.to_nat (VSFTP_MATCHITERS_MAX - iters)) as [|k] eqn:Ek; [lia|].
  assert (round_tokens f = Ok (f, [], NUL)) as ->.
  { unfold round_tokens. pose proof (token_split f) as H.
    destruct (t_locate_chars f tokens) as [[i c]|]; [|done].
    destruct H as (m & f' & -> & Hc & _). apply Forall_app in Hf as [_ Hf].
    by inversion Hf. }
  cbn [res_bind]. destruct (match_text_ok name f true Hn) as (o & E & Ho). rewrite E.
  cbn [res_bind]. destruct o as [name'|].
  - destruct Ho as (pre & -> & Hpre). rewrite Hpre by done. cbn [app].
    unfold round_rest. rewrite !bool_decide_eq_false_2 by done.
    rewrite filter_loop_exit by (by left).
    replace (bool_decide (NUL ≠ STAR)) with true by done.
    rewrite andb_true_r. destruct name' as [|x name']; cbn [length].
    + rewrite app_nil_r, bool_decide_eq_true_2 by done.
      change (0 <? 0)%nat with false. rewrite (proj2 (Z.eqb_neq _ _)) by lia. by eexists.
    + change (0 <? S (length name'))%nat with true. rewrite bool_decide_eq_false_2; [by eexists|].
      intros H%(f_equal length). rewrite length_app in H. cbn in H. lia.
  - rewrite bool_decide_eq_false_2; [by eexists|]. intros ->.
    unfold match_text in E. rewrite cstr_no_nul in E by done.
    destruct (Nat.eqb_spec (length f) 0); [done|]. cbn [negb] in E.
    assert (t_locate f f = Some 0%nat) as Hl.
    { apply t_locate_Some. split_and!; [done| |lia].
      rewrite drop_0. rewrite <- (app_nil_r f) at 2. apply starts_with_refl. }
    rewrite Hl in E. cbn [andb] in E. rewrite mid_ok in E by lia. done.
Qed.

(** the matcher does not backtrack: after a star it takes the first
    occurrence of the next text, so a name that matches the filter can be
    refused. *)
Theorem filter_incomplete :
  glob (lit "*ab") (lit "abab") ∧
  ∃ it, vsf_filename_passes_filter (lit "abab") (lit "*ab") 0 = Ok (false, it).
Proof.
  split.
  - apply (glob_star [x61; x62] [x61; x62] [x61; x62]).
    repeat (apply glob_lit; [vmdec|]). constructor.
  - eexists. by vm_compute.
Qed.

Lemma filter_terminates_witness :
  ∃ b it, vsf_filename_passes_filter (lit "aaaa") (lit "{*a,*b}{*a,*b}{*a,*b}") 0 = Ok (b, it).
Proof.
  destruct (filter_terminates (lit "aaaa") (lit "{*a,*b}{*a,*b}{*a,*b}") 0)
    as (b & it & E & _); [vmdec|vmdec|eauto].
Defined.

Lemma filter_sound_witness : glob (lit "{jpg,p*}.??") (lit "photo.gz").
Proof.
  apply (filter_sound (lit "photo.gz") (lit "{jpg,p*}.??") 0 5);
    [vmdec|vmdec|by vm_compute].
Defined.

Lemma filter_literal_witness :
  ∃ it, vsf_filename_passes_filter (lit "a.txt") (lit "a.txt") 0 =
        Ok (bool_decide (lit "a.txt" = lit "a.txt"), it).
Proof.
  apply (filter_literal (lit "a.txt") (lit "a.txt") 0);
    [vmdec|vmdec|done|vmdec].
Defined.
