(* ===== verification/Tunables.v ===== *)
(** * tunables.c and the tables of parseconf.c

    The runtime variables [tunable_*] by name, their defaults, and the three
    tables that map a setting of the configuration file to a variable. *)

From Stdlib Require Import Init.Byte Strings.Byte.
From Stdlib Require Import ZArith Lia String.
From stdpp Require Import base list numbers option gmap strings.
From S2P Require Import Prelude.

(** A [const char*] tunable is [None] when it is the NULL pointer. *)
Record tunables := Tunables {
  t_bool : gmap string Z;
  t_uint : gmap string Z;
  t_str : gmap string (option bytes)
}.

Definition tb (t : tunables) (v : string) : bool := negb (default 0 (t_bool t !! v) =? 0).
Definition tu (t : tunables) (v : string) : Z := default 0 (t_uint t !! v).
Definition ts (t : tunables) (v : string) : option bytes := default None (t_str t !! v).

Definition set_bool (t : tunables) (v : string) (z : Z) : tunables :=
  Tunables (<[v := z]> (t_bool t)) (t_uint t) (t_str t).
Definition set_uint (t : tunables) (v : string) (z : Z) : tunables :=
  Tunables (t_bool t) (<[v := z]> (t_uint t)) (t_str t).
Definition set_str (t : tunables) (v : string) (s : option bytes) : tunables :=
  Tunables (t_bool t) (t_uint t) (<[v := s]> (t_str t)).

(** ** Defaults *)

Definition default_bools : list (string * Z) :=
  [("anonymous_enable", 1); ("local_enable", 0); ("pasv_enable", 1); ("port_enable", 1);
   ("chroot_local_user", 0); ("write_enable", 0); ("anon_upload_enable", 0);
   ("anon_mkdir_write_enable", 0); ("anon_other_write_enable", 0); ("chown_uploads", 0);
   ("connect_from_port_20", 0); ("xferlog_enable", 0); ("dirmessage_enable", 0);
   ("anon_world_readable_only", 1); ("async_abor_enable", 0); ("ascii_upload_enable", 0);
   ("ascii_download_enable", 0); ("one_process_model", 0); ("xferlog_std_format", 0);
   ("pasv_promiscuous", 0); ("deny_email_enable", 0); ("chroot_list_enable", 0);
   ("setproctitle_enable", 0); ("text_userdb_names", 0); ("ls_recurse_enable", 0);
   ("log_ftp_protocol", 0); ("guest_enable", 0); ("userlist_enable", 0);
   ("userlist_deny", 1); ("use_localtime", 0); ("check_shell", 1); ("hide_ids", 0);
   ("listen", 1); ("port_promiscuous", 0); ("passwd_chroot_enable", 0);
   ("no_anon_password", 0); ("tcp_wrappers", 0); ("use_sendfile", 1);
   ("force_dot_files", 0); ("listen_ipv6", 0); ("dual_log_enable", 0);
   ("syslog_enable", 0); ("background", 0); ("virtual_use_local_privs", 0);
   ("session_support", 0); ("download_enable", 1); ("dirlist_enable", 1);
   ("chmod_enable", 1); ("secure_email_list_enable", 0); ("run_as_launching_user", 0);
   ("no_log_lock", 0); ("ssl_enable", 0); ("allow_anon_ssl", 0);
   ("force_local_logins_ssl", 1); ("force_local_data_ssl", 1); ("sslv2", 0); ("sslv3", 0);
   ("tlsv1", 1); ("tilde_user_enable", 0); ("force_anon_logins_ssl", 0);
   ("force_anon_data_ssl", 0); ("mdtm_write", 1); ("lock_upload_files", 1);
   ("pasv_addr_resolve", 0); ("debug_ssl", 0); ("require_cert", 0); ("validate_cert", 0);
   ("strict_ssl_read_eof", 1); ("strict_ssl_write_shutdown", 0); ("ssl_request_cert", 1);
   ("delete_failed_uploads", 0); ("implicit_ssl", 0); ("ptrace_sandbox", 0);
   ("require_ssl_reuse", 1); ("isolate", 1); ("isolate_network", 1); ("ftp_enable", 1);
   ("http_enable", 0); ("seccomp_sandbox", 1); ("allow_writeable_chroot", 0);
   ("cos_take_sha", 0)]%string.

(** Octal constants of the source are written in decimal. *)
Definition default_uints : list (string * Z) :=
  [("accept_timeout", 60); ("connect_timeout", 60); ("local_umask", 63);
   ("anon_umask", 63); ("ftp_data_port", 20); ("idle_session_timeout", 300);
   ("data_connection_timeout", 300); ("pasv_min_port", 5001); ("pasv_max_port", 0);
   ("anon_max_rate", 0); ("local_max_rate", 0); ("listen_port", 21); ("max_clients", 2000);
   ("file_open_mode", 438); ("max_per_ip", 50); ("trans_chunk_size", 0);
   ("delay_failed_login", 1); ("delay_successful_login", 0); ("max_login_fails", 3);
   ("chown_upload_mode", 384); ("cos_conn_timeout_ms", 10000);
   ("cos_req_timeout_ms", 60000); ("cos_sign_expire_s", 300);
   ("cos_upload_slice_size", 1048576); ("max_upload_file_size", 0); ("list_max_count", 0);
   ("cos_download_chunk_size", 0)]%string.

Definition default_strs : list (string * option bytes) :=
  [("secure_chroot_dir", Some (lit "/usr/share/empty"));
   ("ftp_username", Some (lit "ftp")); ("chown_username", Some (lit "root"));
   ("xferlog_file", Some (lit "/var/log/xferlog"));
   ("vsftpd_log_file", Some (lit "/var/log/vsftpd.log"));
   ("message_file", Some (lit ".message")); ("nopriv_user", Some (lit "nobody"));
   ("ftpd_banner", None); ("banned_email_file", Some (lit "/etc/vsftpd.banned_emails"));
   ("chroot_list_file", Some (lit "/etc/vsftpd.chroot_list"));
   ("pam_service_name", Some (lit "ftp")); ("guest_username", Some (lit "ftp"));
   ("userlist_file", Some (lit "/etc/vsftpd.user_list")); ("anon_root", None);
   ("local_root", None); ("banner_file", None); ("pasv_address", None);
   ("listen_address", None); ("user_config_dir", None); ("listen_address6", None);
   ("cmds_allowed", None); ("cmds_denied", None); ("hide_file", None); ("deny_file", None);
   ("user_sub_token", None);
   ("email_password_file", Some (lit "/etc/vsftpd.email_passwords"));
   ("rsa_cert_file", Some (lit "/usr/share/ssl/certs/vsftpd.pem"));
   ("dsa_cert_file", None); ("ssl_ciphers", Some (lit "ECDHE-RSA-AES256-GCM-SHA384"));
   ("rsa_private_key_file", None); ("dsa_private_key_file", None); ("ca_certs_file", None);
   ("cos_appid", Some (lit EmptyString)); ("cos_secretid", Some (lit EmptyString));
   ("cos_secretkey", Some (lit EmptyString)); ("cos_bucket", Some (lit EmptyString));
   ("cos_download_domain", Some (lit "cdn")); ("user_home_dir", Some (lit "/tempdir"));
   ("cos_region", Some (lit "gz")); ("login_users", None)]%string.

Definition tunables_load_defaults : tunables :=
  Tunables (list_to_map default_bools) (list_to_map default_uints)
    (list_to_map default_strs).

(** ** The tables: setting name, variable *)

Definition parseconf_bool_array : list (string * string) :=
  [("anonymous_enable", "anonymous_enable"); ("local_enable", "local_enable");
   ("pasv_enable", "pasv_enable"); ("port_enable", "port_enable");
   ("chroot_local_user", "chroot_local_user"); ("write_enable", "write_enable");
   ("anon_upload_enable", "anon_upload_enable");
   ("anon_mkdir_write_enable", "anon_mkdir_write_enable");
   ("anon_other_write_enable", "anon_other_write_enable");
   ("chown_uploads", "chown_uploads"); ("connect_from_port_20", "connect_from_port_20");
   ("xferlog_enable", "xferlog_enable"); ("dirmessage_enable", "dirmessage_enable");
   ("anon_world_readable_only", "anon_world_readable_only");
   ("async_abor_enable", "async_abor_enable");
   ("ascii_upload_enable", "ascii_upload_enable");
   ("ascii_download_enable", "ascii_download_enable");
   ("one_process_model", "one_process_model");
   ("xferlog_std_format", "xferlog_std_format"); ("pasv_promiscuous", "pasv_promiscuous");
   ("deny_email_enable", "deny_email_enable");
   ("chroot_list_enable", "chroot_list_enable");
   ("setproctitle_enable", "setproctitle_enable");
   ("text_userdb_names", "text_userdb_names"); ("ls_recurse_enable", "ls_recurse_enable");
   ("log_ftp_protocol", "log_ftp_protocol"); ("guest_enable", "guest_enable");
   ("userlist_enable", "userlist_enable"); ("userlist_deny", "userlist_deny");
   ("use_localtime", "use_localtime"); ("check_shell", "check_shell");
   ("hide_ids", "hide_ids"); ("listen", "listen");
   ("port_promiscuous", "port_promiscuous");
   ("passwd_chroot_enable", "passwd_chroot_enable");
   ("no_anon_password", "no_anon_password"); ("tcp_wrappers", "tcp_wrappers");
   ("use_sendfile", "use_sendfile"); ("force_dot_files", "force_dot_files");
   ("listen_ipv6", "listen_ipv6"); ("dual_log_enable", "dual_log_enable");
   ("syslog_enable", "syslog_enable"); ("background", "background");
   ("virtual_use_local_privs", "virtual_use_local_privs");
   ("session_support", "session_support"); ("download_enable", "download_enable");
   ("dirlist_enable", "dirlist_enable"); ("chmod_enable", "chmod_enable");
   ("secure_email_list_enable", "secure_email_list_enable");
   ("run_as_launching_user", "run_as_launching_user"); ("no_log_lock", "no_log_lock");
   ("ssl_enable", "ssl_enable"); ("allow_anon_ssl", "allow_anon_ssl");
   ("force_local_logins_ssl", "force_local_logins_ssl");
   ("force_local_data_ssl", "force_local_data_ssl"); ("ssl_sslv2", "sslv2");
   ("ssl_sslv3", "sslv3"); ("ssl_tlsv1", "tlsv1");
   ("tilde_user_enable", "tilde_user_enable");
   ("force_anon_logins_ssl", "force_anon_logins_ssl");
   ("force_anon_data_ssl", "force_anon_data_ssl"); ("mdtm_write", "mdtm_write");
   ("lock_upload_files", "lock_upload_files"); ("pasv_addr_resolve", "pasv_addr_resolve");
   ("debug_ssl", "debug_ssl"); ("require_cert", "require_cert");
   ("validate_cert", "validate_cert"); ("strict_ssl_read_eof", "strict_ssl_read_eof");
   ("strict_ssl_write_shutdown", "strict_ssl_write_shutdown");
   ("ssl_request_cert", "ssl_request_cert");
   ("delete_failed_uploads", "delete_failed_uploads"); ("implicit_ssl", "implicit_ssl");
   ("ptrace_sandbox", "ptrace_sandbox"); ("require_ssl_reuse", "require_ssl_reuse");
   ("isolate", "isolate"); ("isolate_network", "isolate_network");
   ("ftp_enable", "ftp_enable"); ("http_enable", "http_enable");
   ("seccomp_sandbox", "seccomp_sandbox");
   ("allow_writeable_chroot", "allow_writeable_chroot"); ("cos_take_sha", "cos_take_sha")]%string.

Definition parseconf_uint_array : list (string * string) :=
  [("accept_timeout", "accept_timeout"); ("connect_timeout", "connect_timeout");
   ("local_umask", "local_umask"); ("anon_umask", "anon_umask");
   ("ftp_data_port", "ftp_data_port"); ("idle_session_timeout", "idle_session_timeout");
   ("data_connection_timeout", "data_connection_timeout");
   ("pasv_min_port", "pasv_min_port"); ("pasv_max_port", "pasv_max_port");
   ("anon_max_rate", "anon_max_rate"); ("local_max_rate", "local_max_rate");
   ("listen_port", "listen_port"); ("max_clients", "max_clients");
   ("file_open_mode", "file_open_mode"); ("max_per_ip", "max_per_ip");
   ("trans_chunk_size", "trans_chunk_size"); ("delay_failed_login", "delay_failed_login");
   ("delay_successful_login", "delay_successful_login");
   ("max_login_fails", "max_login_fails"); ("chown_upload_mode", "chown_upload_mode");
   ("max_upload_file_size", "max_upload_file_size"); ("list_max_count", "list_max_count");
   ("cos_download_chunk_size", "cos_download_chunk_size");
   ("cos_upload_slice_size", "cos_upload_slice_size");
   ("cos_conn_timeout_ms", "cos_conn_timeout_ms");
   ("cos_req_timeout_ms", "cos_req_timeout_ms"); ("cos_sign_expire_s", "cos_sign_expire_s")]%string.

Definition parseconf_str_array : list (string * string) :=
  [("secure_chroot_dir", "secure_chroot_dir"); ("ftp_username", "ftp_username");
   ("chown_username", "chown_username"); ("xferlog_file", "xferlog_file");
   ("vsftpd_log_file", "vsftpd_log_file"); ("message_file", "message_file");
   ("nopriv_user", "nopriv_user"); ("ftpd_banner", "ftpd_banner");
   ("banned_email_file", "banned_email_file"); ("chroot_list_file", "chroot_list_file");
   ("pam_service_name", "pam_service_name"); ("guest_username", "guest_username");
   ("userlist_file", "userlist_file"); ("anon_root", "anon_root");
   ("local_root", "local_root"); ("banner_file", "banner_file");
   ("pasv_address", "pasv_address"); ("listen_address", "listen_address");
   ("user_config_dir", "user_config_dir"); ("listen_address6", "listen_address6");
   ("cmds_allowed", "cmds_allowed"); ("hide_file", "hide_file");
   ("deny_file", "deny_file"); ("user_sub_token", "user_sub_token");
   ("email_password_file", "email_password_file"); ("rsa_cert_file", "rsa_cert_file");
   ("dsa_cert_file", "dsa_cert_file"); ("ssl_ciphers", "ssl_ciphers");
   ("rsa_private_key_file", "rsa_private_key_file");
   ("dsa_private_key_file", "dsa_private_key_file"); ("ca_certs_file", "ca_certs_file");
   ("cmds_denied", "cmds_denied"); ("cos_appid", "cos_appid");
   ("cos_secretid", "cos_secretid"); ("cos_secretkey", "cos_secretkey");
   ("cos_bucket", "cos_bucket"); ("cos_region", "cos_region");
   ("cos_download_domain", "cos_download_domain"); ("cos_user_home_dir", "user_home_dir");
   ("login_users", "login_users")]%string.

