(* ===== verification/ParseConf.v ===== *)
(** * parseconf.c: the configuration file

    [vsf_parseconf_load_setting] on one "name=value" line and
    [vsf_parseconf_load_file] on a file. The file system is a parameter: what
    reading the file gives and whether it passes the ownership check. *)

From Stdlib Require Import Init.Byte Strings.Byte.
From Stdlib Require Import ZArith Lia String.
From stdpp Require Import base list numbers option gmap strings.
From S2P Require Import Prelude SysUtil Text StrRefine Tunables.
Import ResNotations.

Definition EQUALS : byte := x3d.
Definition HASH : byte := x23.

Definition die2 {A} (msg : string) (t : bytes) : res A := Err (Die (lit msg ++ t)).

(** The scan of a table for a setting name. *)
Fixpoint find_setting (table : list (string * string)) (s : bytes) : option string :=
  match table with
  | [] => None
  | (name, var) :: table' =>
      if t_equal s (lit name) then Some var else find_setting table' s
  end.

Fixpoint skip_isspace (p : bytes) : bytes :=
  match p with
  | c :: p' => if vsf_sysutil_isspace c then skip_isspace p' else p
  | [] => []
  end.

Definition bool_value (value : bytes) : option Z :=
  let v := t_upper value in
  if t_equal v (lit "YES") || t_equal v (lit "TRUE") || t_equal v (lit "1") then Some 1
  else if t_equal v (lit "NO") || t_equal v (lit "FALSE") || t_equal v (lit "0") then Some 0
  else None.

Definition uint_value (value : bytes) : Z :=
  match value with
  | c :: _ => if uchar c =? 48 then t_octal_to_uint value else u32 (t_atoi value)
  | [] => u32 (t_atoi value)
  end.

Definition vsf_parseconf_load_setting (t : tunables) (p_setting : bytes)
    (errs_fatal : bool) : res tunables :=
  let '(setting, value) := t_split_char (skip_isspace p_setting) EQUALS in
  match find_setting parseconf_str_array setting with
  | Some var =>
      Ok (set_str t var (match value with [] => None | _ => Some (cstr value) end))
  | None =>
      match value with
      | [] =>
          if errs_fatal then die2 "missing value in config file for: " (cstr setting)
          else Ok t
      | _ =>
          match find_setting parseconf_bool_array setting with
          | Some var =>
              match bool_value value with
              | Some z => Ok (set_bool t var z)
              | None =>
                  if errs_fatal then die2 "bad bool value in config file for: " (cstr setting)
                  else Ok t
              end
          | None =>
              match find_setting parseconf_uint_array setting with
              | Some var => Ok (set_uint t var (uint_value value))
              | None =>
                  if errs_fatal then
                    die2 "unrecognised variable in config file: " (cstr setting)
                  else Ok t
              end
          end
      end
  end.

(** A line that is not a setting. *)
Definition skipped_line (line : bytes) : bool :=
  match line with
  | [] => true
  | c :: _ => bool_decide (c = HASH) || t_all_space line
  end.

Fixpoint load_lines (t : tunables) (lines : list bytes) (errs_fatal : bool) : res tunables :=
  match lines with
  | [] => Ok t
  | line :: lines' =>
      let* t := if skipped_line line then Ok t
                else vsf_parseconf_load_setting t (cstr line) errs_fatal in
      load_lines t lines' errs_fatal
  end.

(** What the file system answers. *)
Record conf_files := ConfFiles {
  (** [str_fileread] with the limit VSFTP_CONF_FILE_MAX *)
  conf_read : bytes → option bytes;
  (** the stat succeeds, the owner is the user and it is a regular file *)
  conf_owned : bytes → bool
}.

(** State: [s_p_saved_filename] and the variables. *)
Definition vsf_parseconf_load_file (fs : conf_files) (saved : option bytes) (t : tunables)
    (p_filename : option bytes) (errs_fatal : bool) : res (option bytes * tunables) :=
  let '(filename, saved) :=
    match p_filename with
    | None => (saved, saved)
    | Some f => (Some f, Some f)
    end in
  match filename with
  | None => bug "null filename in vsf_parseconf_load_file"
  | Some f =>
      match conf_read fs f with
      | None =>
          if errs_fatal then die2 "cannot read config file: " f else Ok (saved, t)
      | Some text =>
          if negb (conf_owned fs f) then
            die "config file not owned by correct user, or not a file"
          else
            let* t := load_lines t (t_lines text) errs_fatal in
            Ok (saved, t)
      end
  end.

(** ** The tables *)

Definition all_settings : list (string * string) :=
  parseconf_str_array ++ parseconf_bool_array ++ parseconf_uint_array.

(** No setting name occurs twice, in one table or across them. *)
Lemma settings_nodup : NoDup (fst <$> all_settings).
Proof. vmdec. Qed.

Lemma variables_nodup : NoDup (snd <$> all_settings).
Proof. vmdec. Qed.

Lemma lit_inj a b : lit a = lit b → a = b.
Proof.
  unfold lit. intros H. rewrite <- (String.string_of_list_byte_of_string a).
  rewrite H. apply String.string_of_list_byte_of_string.
Qed.

Lemma find_setting_Some table name var :
  NoDup (fst <$> table) → (name, var) ∈ table → find_setting table (lit name) = Some var.
Proof.
  induction table as [|[n v] table IH]; cbn; intros Hn Hi; [by apply not_elem_of_nil in Hi|].
  apply NoDup_cons in Hn as [Hn Hn']. unfold t_equal. case_bool_decide as E.
  - apply lit_inj in E as ->. apply elem_of_cons in Hi as [[= ->]|Hi]; [done|].
    exfalso. apply Hn. by apply (list_elem_of_fmap_2 fst) in Hi.
  - apply elem_of_cons in Hi as [[= -> ->]|Hi]; [done|auto].
Qed.

Lemma find_setting_None table name :
  name ∉ fst <$> table → find_setting table (lit name) = None.
Proof.
  induction table as [|[n v] table IH]; cbn; intros Hn; [done|].
  apply not_elem_of_cons in Hn as [Hn Hn']. unfold t_equal.
  rewrite bool_decide_eq_false_2; [auto|]. intros E%lit_inj. done.
Qed.

(** A name of the configuration language: no space or '#' in front, no '=' and
    no NUL. *)
Definition plain_name (name : string) : Prop :=
  EQUALS ∉ lit name ∧ skip_isspace (lit name ++ [EQUALS]) = lit name ++ [EQUALS] ∧
  NUL ∉ lit name ∧ hd NUL (lit name) ≠ HASH.

#[global] Instance plain_name_dec name : Decision (plain_name name).
Proof. unfold plain_name. apply _. Defined.

Lemma settings_plain : Forall plain_name (fst <$> all_settings).
Proof. vmdec. Qed.

Lemma skip_isspace_app a b :
  a ≠ [] → skip_isspace a = a → skip_isspace (a ++ b) = a ++ b.
Proof.
  destruct a as [|c a]; [done|]. intros _. cbn.
  destruct (vsf_sysutil_isspace c); [|done]. intros E. exfalso.
  assert (Hl : ∀ l, (length (skip_isspace l) ≤ length l)%nat).
  { induction l as [|d l IH]; cbn; [done|]. destruct (vsf_sysutil_isspace d); cbn; lia. }
  specialize (Hl a). rewrite E in Hl. cbn in Hl. lia.
Qed.

Lemma split_setting name value :
  plain_name name →
  t_split_char (skip_isspace (lit name ++ EQUALS :: value)) EQUALS = (lit name, value).
Proof.
  intros (He & Hs & _).
  assert (skip_isspace (lit name ++ EQUALS :: value) = lit name ++ EQUALS :: value) as ->.
  { replace (lit name ++ EQUALS :: value) with ((lit name ++ [EQUALS]) ++ value)
      by (by rewrite <- app_assoc).
    apply skip_isspace_app; [|done]. by destruct (lit name). }
  by apply t_split_char_app.
Qed.

(** Where a setting name is in the tables. *)
Lemma setting_lookup name var :
  ((name, var) ∈ parseconf_str_array →
   find_setting parseconf_str_array (lit name) = Some var ∧ plain_name name) ∧
  ((name, var) ∈ parseconf_bool_array →
   find_setting parseconf_str_array (lit name) = None ∧
   find_setting parseconf_bool_array (lit name) = Some var ∧ plain_name name) ∧
  ((name, var) ∈ parseconf_uint_array →
   find_setting parseconf_str_array (lit name) = None ∧
   find_setting parseconf_bool_array (lit name) = None ∧
   find_setting parseconf_uint_array (lit name) = Some var ∧ plain_name name).
Proof.
  pose proof settings_nodup as Hn. pose proof settings_plain as Hp.
  unfold all_settings in *. rewrite !fmap_app in *.
  apply NoDup_app in Hn as (Hs & Hsb & Hn). apply NoDup_app in Hn as (Hb & Hbu & Hu).
  rewrite Forall_forall in Hp. setoid_rewrite elem_of_app in Hp.
  setoid_rewrite elem_of_app in Hp. setoid_rewrite elem_of_app in Hsb.
  split_and!; intros Hi; pose proof (list_elem_of_fmap_2 fst _ _ Hi) as Hf; cbn in Hf;
    split_and?; eauto using find_setting_Some.
  all: apply find_setting_None; intros Hx.
  - apply (Hsb _ Hx). auto.
  - apply (Hsb _ Hx). auto.
  - by apply (Hbu _ Hx).
Qed.

(** ** Octal values *)

Lemma octal_loop_spec s : ∀ seen r,
  forallb (digit_below 8) s = true → 0 <= r → (seen = false → r = 0) →
  r * 8 ^ Z.of_nat (length s) + base_value 8 s < UINT_MOD →
  octal_loop s seen r = r * 8 ^ Z.of_nat (length s) + base_value 8 s.
Proof.
  induction s as [|c s IH]; intros seen r Hs Hr Hseen Hb; cbn [octal_loop].
  - cbn in *. lia.
  - cbn [forallb] in Hs. apply andb_true_iff in Hs as [Hc Hs].
    unfold digit_below in Hc. apply andb_true_iff in Hc as [Hd Hlt].
    apply Z.ltb_lt in Hlt. unfold digit_val in *.
    pose proof Hd as Hd'. unfold c_isdigit in Hd'. b2p.
    rewrite Hd. ztest. cbn [negb orb].
    assert (Hv : base_value 8 (c :: s) =
                 (uchar c - 48) * 8 ^ Z.of_nat (length s) + base_value 8 s).
    { unfold base_value at 1. cbn [fold_left]. rewrite fold_base_app. unfold digit_val. lia. }
    assert (Hpos : 0 <= base_value 8 s).
    { clear -Hs. unfold base_value.
      assert (∀ acc, 0 <= acc → 0 <= fold_left (λ acc b, acc * 8 + digit_val b) s acc); [|auto with lia].
      induction s as [|d s IHs]; intros acc Ha; cbn in *; [done|].
      apply andb_true_iff in Hs as [Hd Hs]. apply IHs; [done|].
      unfold digit_below, c_isdigit in Hd. b2p. unfold digit_val. lia. }
    assert (Hp : 8 ^ Z.of_nat (length (c :: s)) = 8 * 8 ^ Z.of_nat (length s)).
    { cbn [length]. rewrite Nat2Z.inj_succ, Z.pow_succ_r by lia. done. }
    assert (0 < 8 ^ Z.of_nat (length s)) by (apply Z.pow_pos_nonneg; lia).
    rewrite Hv, Hp in *.
    destruct (seen || negb (uchar c =? 48)) eqn:Es.
    + assert (r * 8 + (uchar c - 48) < UINT_MOD) by nia.
      rewrite Z.shiftl_mul_pow2 by lia. change (2 ^ 3) with 8.
      rewrite (u32_small (r * 8)) by nia. rewrite u32_small by nia.
      rewrite IH; [lia|done|lia|done|nia].
    + apply orb_false_iff in Es as [-> Es]. b2p. specialize (Hseen eq_refl). subst r.
      replace (uchar c) with 48 in * by lia. rewrite IH; [lia|done|lia|done|lia].
Qed.

(** The value of a number written in octal as [vsf_sysutil_uint_to_octal]
    writes it. *)
Lemma uint_value_octal z :
  0 <= z < UINT_MOD → uint_value (vsf_sysutil_uint_to_octal z) = z.
Proof.
  intros Hz. unfold vsf_sysutil_uint_to_octal.
  destruct (Z.eqb_spec z 0) as [->|]; [done|].
  destruct (print_base_spec 8 z ltac:(lia) ltac:(lia)) as (_ & Hd & Hv).
  change (to_char 48) with x30. unfold uint_value. cbn [uchar]. change (uchar x30 =? 48) with true.
  cbn iota. unfold t_octal_to_uint. rewrite cstr_no_nul.
  - unfold vsf_sysutil_octal_to_uint.
    assert (E : base_value 8 (x30 :: print_base 8 z) = z).
    { unfold base_value at 1. cbn [fold_left]. rewrite fold_base_app, Hv.
      change (0 * 8 + digit_val x30) with 0. lia. }
    rewrite octal_loop_spec, E; [lia| |lia|done|lia].
    cbn [forallb]. by rewrite Hd.
  - apply not_elem_of_cons. split; [done|]. intros Hi.
    rewrite forallb_forall in Hd. apply list_elem_of_In, Hd in Hi. by vm_compute in Hi.
Qed.

Lemma uint_value_decimal z :
  0 < z <= INT_MAX → uchar (hd NUL (print_base 10 z)) ≠ 48 →
  uint_value (print_base 10 z) = z.
Proof.
  intros Hz Hh. unfold uint_value. pose proof (t_atoi_print z ltac:(lia)) as Ha.
  destruct (print_base 10 z) as [|c s]; cbn [hd] in Hh;
    rewrite ?(proj2 (Z.eqb_neq _ _) Hh), Ha; apply u32_small; unfold INT_MAX, UINT_MOD in *; lia.
Qed.

(** ** Files *)

Lemma load_lines_app t l1 l2 fatal :
  load_lines t (l1 ++ l2) fatal =
  (let* t := load_lines t l1 fatal in load_lines t l2 fatal).
Proof.
  revert t; induction l1 as [|l l1 IH]; intros t; cbn [app load_lines]; [done|].
  destruct (if skipped_line l then _ else _); [|done]. cbn. apply IH.
Qed.

Lemma load_setting_lenient t s : ∃ t', vsf_parseconf_load_setting t s false = Ok t'.
Proof.
  unfold vsf_parseconf_load_setting. destruct (t_split_char _ _) as [n [|c v]];
    destruct (find_setting parseconf_str_array n); eauto.
  destruct (find_setting parseconf_bool_array n); [destruct (bool_value _); eauto|].
  destruct (find_setting parseconf_uint_array n); eauto.
Qed.

Lemma load_lines_lenient t ls : ∃ t', load_lines t ls false = Ok t'.
Proof.
  revert t; induction ls as [|l ls IH]; intros t; cbn [load_lines]; [eauto|].
  destruct (skipped_line l); [apply IH|].
  destruct (load_setting_lenient t (cstr l)) as (t' & ->). apply IH.
Qed.

(** A line "name=value" sets the variable of that name to that value and
    changes no other: a string verbatim; a boolean for YES, TRUE, 1, NO, FALSE
    and 0 in any case; a number from its decimal text, or from its octal text
    when it starts with 0. *)
Theorem setting_effect t fatal name var value :
  value ≠ [] →
  ((name, var) ∈ parseconf_str_array →
   vsf_parseconf_load_setting t (lit name ++ EQUALS :: value) fatal =
   Ok (set_str t var (Some (cstr value)))) ∧
  ((name, var) ∈ parseconf_bool_array → ∀ z, bool_value value = Some z →
   vsf_parseconf_load_setting t (lit name ++ EQUALS :: value) fatal =
   Ok (set_bool t var z)) ∧
  ((name, var) ∈ parseconf_uint_array → ∀ z, 0 <= z < UINT_MOD →
   value = vsf_sysutil_uint_to_octal z ∨
   (value = print_base 10 z ∧ 0 < z <= INT_MAX ∧ uchar (hd NUL value) ≠ 48) →
   vsf_parseconf_load_setting t (lit name ++ EQUALS :: value) fatal =
   Ok (set_uint t var z)).
Proof.
  intros Hv. pose proof (setting_lookup name var) as (Hs & Hb & Hu).
  unfold vsf_parseconf_load_setting. split_and!; intros Hi.
  - destruct (Hs Hi) as (E & Hp). rewrite (split_setting _ _ Hp), E. by destruct value.
  - intros z Hz. destruct (Hb Hi) as (E1 & E2 & Hp).
    rewrite (split_setting _ _ Hp), E1, E2, Hz. by destruct value.
  - intros z Hz Ht. destruct (Hu Hi) as (E1 & E2 & E3 & Hp).
    rewrite (split_setting _ _ Hp), E1, E2, E3.
    assert (uint_value value = z) as ->.
    { destruct Ht as [->|(-> & Hb' & Hh)]; [by apply uint_value_octal|].
      by apply uint_value_decimal. }
    by destruct value.
Qed.

Lemma setting_line_kept name value :
  plain_name name → skipped_line (lit name ++ EQUALS :: value) = false.
Proof.
  intros (_ & _ & _ & Hh). unfold skipped_line.
  assert (Hsp : t_all_space (lit name ++ EQUALS :: value) = false).
  { unfold t_all_space. rewrite forallb_app. cbn [forallb].
    change (vsf_sysutil_isspace EQUALS) with false. by rewrite andb_false_r. }
  destruct (lit name) as [|c n]; cbn [app hd] in *; rewrite Hsp.
  - done.
  - by rewrite bool_decide_eq_false_2.
Qed.

(** Reloading with [errs_fatal = 0] (SIGHUP) never stops on the contents of
    the file, whatever lines it has, and the last line that sets a variable
    decides. *)
Theorem lenient_load_last_wins t ls name var value :
  (name, var) ∈ parseconf_str_array → value ≠ [] → NUL ∉ value →
  ∃ t', load_lines t (ls ++ [lit name ++ EQUALS :: value]) false = Ok t' ∧
        ts t' var = Some value.
Proof.
  intros Hi Hv Hn. rewrite load_lines_app.
  destruct (load_lines_lenient t ls) as (t1 & ->). cbn [res_bind load_lines].
  destruct (setting_lookup name var) as (Hs & _). destruct (Hs Hi) as (E & Hp).
  pose proof Hp as (_ & _ & Hnn & _).
  rewrite setting_line_kept, cstr_no_nul by
    (done || (rewrite elem_of_app, elem_of_cons; intros [?|[?|?]]; done)).
  unfold vsf_parseconf_load_setting. rewrite (split_setting _ _ Hp), E. cbn [res_bind].
  eexists; split; [done|]. unfold ts, set_str. cbn [t_str]. rewrite lookup_insert_eq. cbn.
  rewrite cstr_no_nul by done. by destruct value.
Qed.

(** The reload is not as forgiving as the listener's comment says ("we
    don't crash out the listener if an invalid config was added"): a file that
    is readable but has another owner, or is not a regular file, stops the
    process even with [errs_fatal = 0]. *)
Theorem reload_ownership_dies fs saved t f text :
  saved = Some f → conf_read fs f = Some text → conf_owned fs f = false →
  vsf_parseconf_load_file fs saved t None false =
  die "config file not owned by correct user, or not a file".
Proof.
  intros -> Hr Ho. unfold vsf_parseconf_load_file. by rewrite Hr, Ho.
Qed.

Lemma setting_effect_witness :
  vsf_parseconf_load_setting tunables_load_defaults (lit "local_umask=022") true =
  Ok (set_uint tunables_load_defaults "local_umask" 18) ∧
  vsf_parseconf_load_setting tunables_load_defaults (lit "write_enable=yes") true =
  Ok (set_bool tunables_load_defaults "write_enable" 1).
Proof.
  split.
  - apply (setting_effect tunables_load_defaults true "local_umask" "local_umask" (lit "022"));
      [done|vmdec|vmdec|left; by vm_compute].
  - apply (setting_effect tunables_load_defaults true "write_enable" "write_enable" (lit "yes"));
      [done|vmdec|by vm_compute].
Defined.

Lemma lenient_load_last_wins_witness :
  ∃ t', load_lines tunables_load_defaults
          ([lit "nonsense"; lit "ftpd_banner=old"] ++ [lit "ftpd_banner=hello"]) false = Ok t' ∧
        ts t' "ftpd_banner" = Some (lit "hello").
Proof.
  apply (lenient_load_last_wins tunables_load_defaults
           [lit "nonsense"; lit "ftpd_banner=old"] "ftpd_banner" "ftpd_banner" (lit "hello"));
    [vmdec|done|vmdec].
Defined.

Lemma reload_ownership_dies_witness :
  vsf_parseconf_load_file (ConfFiles (λ _, Some []) (λ _, false)) (Some (lit "/etc/vsftpd.conf"))
    tunables_load_defaults None false =
  die "config file not owned by correct user, or not a file".
Proof. by apply (reload_ownership_dies _ _ _ (lit "/etc/vsftpd.conf") []). Defined.
