(* ===== verification/Ascii.v ===== *)
(** * ascii.c: line ends of ASCII mode transfers

    The two converters on the character arrays they are given, and the stream
    transducers they implement: a transfer is cut into chunks by the network
    or the file reads, and the [prev_cr] flag carries the state across the
    cuts. *)

From Stdlib Require Import Init.Byte Strings.Byte.
From Stdlib Require Import ZArith Lia String.
From stdpp Require Import base list numbers option.
From S2P Require Import Prelude.
Import ResNotations.

Record ascii_to_bin_ret := A2B {
  a2b_stored : nat;
  a2b_last_was_cr : bool;
  (** [ret.p_buf] as an offset into the array: 0 or 1 *)
  a2b_p_buf : nat
}.

(** The [while] of [vsf_ascii_ascii_to_bin]: [n] characters left, starting at
    [indexx]; reads and writes share the array. *)
Fixpoint ascii_to_bin_loop (n in_len indexx : nat) (p_buf : bytes)
    (p_out written : nat) (last_was_cr : bool) : res (bytes * nat * bool) :=
  match n with
  | O => Ok (p_buf, written, last_was_cr)
  | S n' =>
      let* the_char := arr_get p_buf (indexx + 1) in
      if bool_decide (the_char ≠ CR) then
        let* p_buf := arr_set p_buf p_out the_char in
        ascii_to_bin_loop n' in_len (S indexx) p_buf (S p_out) (S written) last_was_cr
      else if (indexx =? in_len - 1)%nat then
        ascii_to_bin_loop n' in_len (S indexx) p_buf p_out written true
      else
        let* next := arr_get p_buf (indexx + 2) in
        if bool_decide (next ≠ LF) then
          let* p_buf := arr_set p_buf p_out the_char in
          ascii_to_bin_loop n' in_len (S indexx) p_buf (S p_out) (S written) last_was_cr
        else ascii_to_bin_loop n' in_len (S indexx) p_buf p_out written last_was_cr
  end.

Definition vsf_ascii_ascii_to_bin (p_buf : bytes) (in_len : nat) (prev_cr : bool)
  : res (ascii_to_bin_ret * bytes) :=
  let p_out := 1%nat in
  let* flush :=
    if prev_cr then
      if (in_len =? 0)%nat then Ok true
      else let* c := arr_get p_buf p_out in Ok (bool_decide (c ≠ LF))
    else Ok false in
  let* (p_buf, ret_p_buf, written) :=
    if (flush : bool) then
      let* p_buf := arr_set p_buf 0 CR in Ok (p_buf, 0%nat, 1%nat)
    else Ok (p_buf, p_out, 0%nat) in
  let* (p_buf, written, last_was_cr) :=
    ascii_to_bin_loop in_len in_len 0 p_buf p_out written false in
  Ok (A2B written last_was_cr ret_p_buf, p_buf).

(** The characters a caller takes from the result. *)
Definition a2b_text (r : ascii_to_bin_ret * bytes) : bytes :=
  take (a2b_stored r.1) (drop (a2b_p_buf r.1) r.2).

Record bin_to_ascii_ret := B2A { b2a_stored : nat; b2a_last_was_cr : bool }.

Fixpoint bin_to_ascii_loop (p_in p_out : bytes) (written : nat) (last_char : byte)
    (last_was_cr : bool) : res (bin_to_ascii_ret * bytes) :=
  match p_in with
  | [] => Ok (B2A written last_was_cr, p_out)
  | the_char :: p_in =>
      let* (p_out, written) :=
        if bool_decide (the_char = LF) && bool_decide (last_char ≠ CR) then
          let* p_out := arr_set p_out written CR in Ok (p_out, S written)
        else Ok (p_out, written) in
      let* p_out := arr_set p_out written the_char in
      bin_to_ascii_loop p_in p_out (S written) the_char (bool_decide (the_char = CR))
  end.

Definition vsf_ascii_bin_to_ascii (p_in p_out : bytes) (prev_cr : bool)
  : res (bin_to_ascii_ret * bytes) :=
  let '(last_char, last_was_cr) := if prev_cr then (CR, true) else (NUL, false) in
  bin_to_ascii_loop p_in p_out 0 last_char last_was_cr.

(** ** The transducers *)

(** Decoding: the flag says that a CR was read and not yet written. *)
Fixpoint dec (pending : bool) (s : bytes) : bytes * bool :=
  match s with
  | [] => ([], pending)
  | c :: s' =>
      let '(o, f) := dec (bool_decide (c = CR)) s' in
      ((if pending && bool_decide (c ≠ LF) then [CR] else [])
       ++ (if bool_decide (c = CR) then [] else [c]) ++ o, f)
  end.

Definition flush (pending : bool) : bytes := if pending then [CR] else [].

(** Encoding: the flag says that the last character was a CR. *)
Fixpoint enc (prev_cr : bool) (s : bytes) : bytes * bool :=
  match s with
  | [] => ([], prev_cr)
  | c :: s' =>
      let '(o, f) := enc (bool_decide (c = CR)) s' in
      ((if bool_decide (c = LF) && negb prev_cr then [CR; LF] else [c]) ++ o, f)
  end.

(** What a whole transfer must do. *)
Fixpoint crlf_to_lf (s : bytes) : bytes :=
  match s with
  | [] => []
  | c :: s' =>
      match s' with
      | d :: _ => if bool_decide (c = CR) && bool_decide (d = LF)
                  then crlf_to_lf s' else c :: crlf_to_lf s'
      | [] => [c]
      end
  end.

Lemma dec_app p a b :
  dec p (a ++ b) = ((dec p a).1 ++ (dec (dec p a).2 b).1, (dec (dec p a).2 b).2).
Proof.
  revert p; induction a as [|c a IH]; intros p; cbn [dec app fst snd].
  - by destruct (dec p b).
  - rewrite IH. destruct (dec _ a) as [o f]. cbn. by rewrite <- !app_assoc.
Qed.

Lemma enc_app p a b :
  enc p (a ++ b) = ((enc p a).1 ++ (enc (enc p a).2 b).1, (enc (enc p a).2 b).2).
Proof.
  revert p; induction a as [|c a IH]; intros p; cbn [enc app fst snd].
  - by destruct (enc p b).
  - rewrite IH. destruct (enc _ a) as [o f]. cbn. by rewrite <- !app_assoc.
Qed.

Lemma dec_crlf p s :
  (dec p s).1 ++ flush (dec p s).2 = crlf_to_lf (flush p ++ s).
Proof.
  revert p; induction s as [|c s IH]; intros p; cbn [dec].
  - by destruct p.
  - specialize (IH (bool_decide (c = CR))).
    destruct (dec (bool_decide (c = CR)) s) as [o f]. cbn [fst snd] in *.
    rewrite <- !app_assoc, IH.
    destruct p; cbn [flush app andb].
    + case_bool_decide as Hc; case_bool_decide as Hd; subst;
        cbn [crlf_to_lf app flush]; rewrite ?bool_decide_eq_true_2 by done;
        rewrite ?(bool_decide_eq_false_2 (c = LF)) by done;
        rewrite ?(bool_decide_eq_false_2 (c = CR)) by done;
        rewrite ?andb_false_r; try done; destruct s; done.
    + case_bool_decide; subst; cbn [flush app]; [done|].
      cbn [crlf_to_lf]. rewrite bool_decide_eq_false_2 by done. by destruct s.
Qed.

(** A pending CR is settled by the next character. *)
Lemma dec_pending (p : bool) c s :
  dec p (c :: s) =
  ((if p && bool_decide (c ≠ LF) then [CR] else []) ++ (dec false (c :: s)).1,
   (dec false (c :: s)).2).
Proof. cbn. by destruct (dec _ s). Qed.

(** Writing the character just read at [p_out], which is not after it. *)
Lemma shift_char (pre gap r : bytes) (c : byte) (p : nat) :
  p = length pre →
  ∃ gap', arr_set (pre ++ gap ++ c :: r) p c = Ok ((pre ++ [c]) ++ gap' ++ r) ∧
          length gap' = length gap.
Proof.
  intros ->. destruct gap as [|g gap].
  - exists []. cbn [app]. rewrite arr_set_app by done. by rewrite <- app_assoc.
  - exists (gap ++ [c]). cbn [app]. rewrite arr_set_app by done.
    rewrite <- !app_assoc, length_app. cbn. split; [done|lia].
Qed.

(** What the loop makes of [r], behind the text [pre] that is finished and the
    [gap] that the removed characters have left. *)
Definition loop_decodes (r : bytes) : Prop := ∀ pre gap tail in_len indexx written,
  (indexx + 1 = length pre + length gap)%nat → (in_len = indexx + length r)%nat →
  ∃ rest,
    ascii_to_bin_loop (length r) in_len indexx (pre ++ gap ++ r ++ tail)
      (length pre) written false =
    Ok (pre ++ (dec false r).1 ++ rest, (written + length (dec false r).1)%nat,
        (dec false r).2) ∧
    (length (dec false r).1 + length rest = length gap + length r + length tail)%nat.

(** A character that is kept: it moves to the front of the gap. *)
Lemma keep_char c r pre gap tail in_len indexx written :
  loop_decodes r → (indexx + 1 = length pre + length gap)%nat → (in_len = indexx + S (length r))%nat →
  ∃ rest,
    res_bind (arr_set (pre ++ gap ++ c :: r ++ tail) (length pre) c)
      (λ b, ascii_to_bin_loop (length r) in_len (S indexx) b (S (length pre))
              (S written) false) =
    Ok (pre ++ (c :: (dec false r).1) ++ rest,
        (written + length (c :: (dec false r).1))%nat, (dec false r).2) ∧
    (length (c :: (dec false r).1) + length rest =
     length gap + S (length r) + length tail)%nat.
Proof.
  intros IH Hi Hl.
  destruct (shift_char pre gap (r ++ tail) c (length pre) eq_refl) as (gap' & -> & Hg). cbn [res_bind].
  replace (S (length pre)) with (length (pre ++ [c])) by (rewrite length_app; cbn; lia).
  destruct (IH (pre ++ [c]) gap' tail in_len (S indexx) (S written))
    as (rest & -> & Hr); [rewrite length_app; cbn; lia|cbn in *; lia|].
  exists rest. rewrite <- !app_assoc. cbn. split; [|lia]. repeat f_equal; lia.
Qed.

Lemma ascii_to_bin_loop_ok r : loop_decodes r.
Proof.
  induction r as [|c r IH]; intros pre gap tail in_len indexx written Hi Hl;
    cbn [length ascii_to_bin_loop].
  { exists (gap ++ tail). cbn. rewrite Nat.add_0_r, length_app. split; [done|lia]. }
  pose proof (keep_char c r pre gap tail in_len indexx written IH Hi Hl) as Hstep.
  cbn [app]. rewrite (app_assoc pre), arr_get_app by (rewrite length_app; lia).
  rewrite <- app_assoc. cbn [res_bind].
  destruct (decide (c = CR)) as [->|Hc].
  - rewrite bool_decide_eq_false_2 by (intros H; by apply H).
    destruct r as [|d r].
    + rewrite (proj2 (Nat.eqb_eq indexx (in_len - 1))) by (cbn in *; lia).
      cbn [length ascii_to_bin_loop dec].
      exists (gap ++ CR :: tail). rewrite !(bool_decide_eq_true_2 (CR = CR)) by done. cbn.
      rewrite !length_app. cbn. split; [|lia]. repeat f_equal; lia.
    + rewrite (proj2 (Nat.eqb_neq indexx (in_len - 1))) by (cbn in *; lia).
      replace (pre ++ gap ++ CR :: (d :: r) ++ tail)
        with ((pre ++ gap ++ [CR]) ++ d :: r ++ tail)
        by (rewrite <- !app_assoc; done).
      rewrite arr_get_app by (rewrite !length_app; cbn; lia). cbn [res_bind].
      replace ((pre ++ gap ++ [CR]) ++ d :: r ++ tail)
        with (pre ++ gap ++ CR :: (d :: r) ++ tail)
        by (rewrite <- !app_assoc; done).
      assert (E : dec false (CR :: d :: r) = dec true (d :: r)).
      { cbn [dec]. rewrite (bool_decide_eq_true_2 (CR = CR)) by done.
        by destruct (dec _ r). }
      rewrite E, dec_pending. cbn [andb fst snd].
      case_bool_decide as Hd; [exact Hstep|]. cbn [app].
      replace (pre ++ gap ++ CR :: d :: r ++ tail)
        with (pre ++ (gap ++ [CR]) ++ (d :: r) ++ tail)
        by (rewrite <- !app_assoc; done).
      destruct (IH pre (gap ++ [CR]) tail in_len (S indexx) written)
        as (rest & -> & Hr); [rewrite length_app; cbn; lia|cbn in *; lia|].
      exists rest. split; [done|]. rewrite length_app in Hr. cbn [length] in *. lia.
  - rewrite bool_decide_eq_true_2 by done.
    assert (E : dec false (c :: r) = (c :: (dec false r).1, (dec false r).2)).
    { cbn [dec]. rewrite !bool_decide_eq_false_2 by done. by destruct (dec false r). }
    rewrite E. exact Hstep.
Qed.

(** The array needs one cell before the [in_len] characters. *)
Lemma ascii_to_bin_ok g s tail p :
  s ≠ [] →
  ∃ r, vsf_ascii_ascii_to_bin (g :: s ++ tail) (length s) p = Ok r ∧
       a2b_text r = (dec p s).1 ∧ a2b_last_was_cr r.1 = (dec p s).2.
Proof.
  intros Hs. destruct s as [|c s]; [done|]. unfold vsf_ascii_ascii_to_bin.
  rewrite dec_pending. cbn [fst snd].
  pose proof (λ x w, ascii_to_bin_loop_ok (c :: s) [x] [] tail (length (c :: s)) 0%nat w
                     eq_refl eq_refl) as H.
  cbn [length Nat.eqb]. cbn [length app] in H.
  assert (Hg : arr_get (g :: c :: s ++ tail) 1 = Ok c) by done.
  cbn [app]. destruct (p && bool_decide (c ≠ LF)) eqn:Ep.
  - apply andb_true_iff in Ep as [-> Ep]. rewrite Hg. cbn [res_bind]. rewrite Ep.
    change (arr_set (g :: c :: s ++ tail) 0 CR) with (Ok (CR :: c :: s ++ tail)).
    cbn [res_bind]. destruct (H CR 1%nat) as (rest & -> & _). cbn [res_bind].
    eexists; split; [done|]. unfold a2b_text. cbn [a2b_stored a2b_p_buf a2b_last_was_cr fst snd drop].
    split; [|done]. cbn [Nat.add take app]. f_equal. by rewrite take_app_length.
  - assert (E : (if p then let* c0 := arr_get (g :: c :: s ++ tail) 1 in
                   Ok (bool_decide (c0 ≠ LF)) else Ok false) = Ok false).
    { destruct p; [|done]. rewrite Hg. cbn [andb] in Ep. cbn. by rewrite Ep. }
    rewrite E. cbn [res_bind]. destruct (H g 0%nat) as (rest & -> & _). cbn [res_bind].
    eexists; split; [done|]. unfold a2b_text.
    cbn [a2b_stored a2b_p_buf a2b_last_was_cr fst snd Nat.add].
    split; [|done]. set (o := (dec false (c :: s)).1). by rewrite skipn_cons, drop_0, take_app_length.
Qed.

(** The call at the end of a transfer, with no character. *)
Lemma ascii_to_bin_flush g tail :
  ∃ r, vsf_ascii_ascii_to_bin (g :: tail) 0 true = Ok r ∧
       a2b_text r = flush true ∧ a2b_last_was_cr r.1 = false.
Proof. eexists. done. Qed.

Lemma bin_to_ascii_loop_ok s : ∀ pre rest last lwc,
  lwc = bool_decide (last = CR) → (2 * length s <= length rest)%nat →
  ∃ rest',
    bin_to_ascii_loop s (pre ++ rest) (length pre) last lwc =
    Ok (B2A (length pre + length (enc lwc s).1) (enc lwc s).2,
        pre ++ (enc lwc s).1 ++ rest').
Proof.
  induction s as [|c s IH]; intros pre rest last lwc Hlwc Hr; cbn [bin_to_ascii_loop enc].
  { exists rest. cbn. by rewrite Nat.add_0_r. }
  destruct rest as [|x [|y rest]]; [cbn in Hr; lia..|].
  assert (Hlast : bool_decide (last ≠ CR) = negb lwc).
  { rewrite Hlwc. by rewrite bool_decide_not. }
  rewrite Hlast. destruct (bool_decide (c = LF) && negb lwc) eqn:E.
  - apply andb_true_iff in E as [->%bool_decide_eq_true _].
    rewrite arr_set_app by done. cbn [res_bind].
    replace (pre ++ CR :: y :: rest) with ((pre ++ [CR]) ++ y :: rest)
      by (by rewrite <- app_assoc).
    rewrite arr_set_app by (rewrite length_app; cbn; lia). cbn [res_bind].
    replace ((pre ++ [CR]) ++ LF :: rest) with ((pre ++ [CR; LF]) ++ rest)
      by (by rewrite <- !app_assoc).
    replace (S (S (length pre))) with (length (pre ++ [CR; LF]))
      by (rewrite length_app; cbn; lia).
    destruct (IH (pre ++ [CR; LF]) rest LF (bool_decide (LF = CR))) as (rest' & ->);
      [done|cbn in Hr; lia|].
    exists rest'. destruct (enc _ s) as [o f]. cbn [fst snd].
    rewrite !length_app, <- !app_assoc. cbn [length app]. do 3 f_equal; lia.
  - cbn [res_bind]. rewrite arr_set_app by done. cbn [res_bind].
    replace (pre ++ c :: y :: rest) with ((pre ++ [c]) ++ y :: rest)
      by (by rewrite <- app_assoc).
    replace (S (length pre)) with (length (pre ++ [c]))
      by (rewrite length_app; cbn; lia).
    destruct (IH (pre ++ [c]) (y :: rest) c (bool_decide (c = CR))) as (rest' & ->);
      [done|cbn in *; lia|].
    exists rest'. destruct (enc _ s) as [o f]. cbn [fst snd].
    rewrite !length_app, <- !app_assoc. cbn [length app]. do 3 f_equal; lia.
Qed.

Lemma bin_to_ascii_ok s out p :
  (2 * length s <= length out)%nat →
  ∃ rest, vsf_ascii_bin_to_ascii s out p =
          Ok (B2A (length (enc p s).1) (enc p s).2, (enc p s).1 ++ rest).
Proof.
  intros Hl. unfold vsf_ascii_bin_to_ascii.
  destruct p; by apply (bin_to_ascii_loop_ok s []).
Qed.

(** ** Whole transfers *)

(** The conversions of one upload: a chunk lies after one spare cell, and the
    call with no character at the end of the data happens only with a CR
    pending. *)
Fixpoint decode_chunks (prev_cr : bool) (chunks : list bytes) : res bytes :=
  match chunks with
  | [] =>
      if prev_cr then
        let* r := vsf_ascii_ascii_to_bin [NUL] 0 true in Ok (a2b_text r)
      else Ok []
  | c :: chunks' =>
      let* r := vsf_ascii_ascii_to_bin (NUL :: c) (length c) prev_cr in
      let* o := decode_chunks (a2b_last_was_cr r.1) chunks' in
      Ok (a2b_text r ++ o)
  end.

(** The conversions of one download, into a buffer of twice the chunk. *)
Fixpoint encode_chunks (prev_cr : bool) (chunks : list bytes) : res bytes :=
  match chunks with
  | [] => Ok []
  | c :: chunks' =>
      let* (r, buf) :=
        vsf_ascii_bin_to_ascii c (replicate (2 * length c) NUL) prev_cr in
      let* o := encode_chunks (b2a_last_was_cr r) chunks' in
      Ok (take (b2a_stored r) buf ++ o)
  end.

Lemma decode_chunks_dec p chunks :
  Forall (λ c, c ≠ []) chunks →
  decode_chunks p chunks =
  Ok ((dec p (concat chunks)).1 ++ flush (dec p (concat chunks)).2).
Proof.
  intros H. revert p; induction H as [|c cs Hc Hcs IH]; intros p; cbn [decode_chunks concat].
  - by destruct p.
  - destruct (ascii_to_bin_ok NUL c [] p Hc) as (r & E & Ht & Hf).
    rewrite app_nil_r in E. rewrite E. cbn [res_bind]. rewrite IH, Hf, Ht, dec_app.
    cbn [res_bind fst snd]. by rewrite <- app_assoc.
Qed.

Lemma encode_chunks_enc p chunks :
  encode_chunks p chunks = Ok (enc p (concat chunks)).1.
Proof.
  revert p; induction chunks as [|c cs IH]; intros p; cbn [encode_chunks concat]; [done|].
  destruct (bin_to_ascii_ok c (replicate (2 * length c) NUL) p) as (rest & ->);
    [by rewrite length_replicate|].
  cbn [res_bind b2a_last_was_cr b2a_stored]. rewrite IH, take_app_length, enc_app. done.
Qed.

Fixpoint has_crlf (s : bytes) : bool :=
  match s with
  | c :: ((d :: _) as s') =>
      bool_decide (c = CR) && bool_decide (d = LF) || has_crlf s'
  | _ => false
  end.

Lemma crlf_to_lf_enc p s :
  has_crlf (flush p ++ s) = false → crlf_to_lf (enc p s).1 = s.
Proof.
  revert p; induction s as [|c s IH]; intros p Hp; [done|].
  assert (Hs : has_crlf (c :: s) = false).
  { destruct p; [|done]. cbn in Hp. by apply orb_false_iff in Hp as []. }
  assert (Hc : has_crlf (flush (bool_decide (c = CR)) ++ s) = false).
  { case_bool_decide; subst; [done|]. destruct s; [done|].
    cbn in Hs. by apply orb_false_iff in Hs as []. }
  specialize (IH _ Hc). cbn [enc].
  destruct (bool_decide (c = LF) && negb p) eqn:E.
  - b2p. subst. destruct (enc _ s) as [o f]. cbn [fst app] in *.
    change (crlf_to_lf (CR :: LF :: o)) with (crlf_to_lf (LF :: o)).
    rewrite <- IH. by destruct o.
  - assert (Ho : bool_decide (c = CR) = true →
                 ∀ d o, (enc true s).1 = d :: o → d ≠ LF).
    { intros Ecr d o. destruct s as [|e s]; [done|]. cbn [enc negb].
      rewrite andb_false_r. destruct (enc _ s). cbn. intros [= <- _] ->.
      cbn in Hs. by rewrite Ecr in Hs. }
    destruct (bool_decide (c = CR)) eqn:Ecr;
      destruct (enc _ s) as [o f]; cbn [fst app] in *;
      (destruct o as [|d o]; cbn [crlf_to_lf]; [by rewrite <- IH|]).
    + rewrite Ecr, bool_decide_eq_false_2; [by rewrite <- IH|]. by eapply Ho.
    + rewrite Ecr. by rewrite <- IH.
Qed.

(** An ASCII upload, however the network cuts it into chunks, stores the
    text with every CRLF turned into LF and every other character, a lone CR
    included, kept; the conversion works in place and never leaves the
    buffer. *)
Theorem ascii_upload_correct chunks :
  Forall (λ c, c ≠ []) chunks →
  decode_chunks false chunks = Ok (crlf_to_lf (concat chunks)).
Proof. intros H. rewrite decode_chunks_dec by done. by rewrite dec_crlf. Qed.

Lemma enc_length p s : (length (enc p s).1 <= 2 * length s)%nat.
Proof.
  revert p; induction s as [|c s IH]; intros p; cbn [enc length]; [done|].
  specialize (IH (bool_decide (c = CR))). destruct (enc _ s) as [o f]. cbn in *.
  rewrite length_app. case_match; cbn; lia.
Qed.

(** C34: An ASCII download can be undone, and fits its buffer. However the file
    reads cut it into chunks, the conversion of every chunk succeeds in an output
    buffer of twice the chunk (a write outside it would be an error), so the whole
    is at most twice as long. Unless the file itself has a CRLF, a receiver that
    undoes the conversion as [vsf_ascii_ascii_to_bin] does, again with any cuts
    into chunks that are not empty, gets the file back. *)
Theorem ascii_roundtrip chunks :
  ∃ wire, encode_chunks false chunks = Ok wire ∧
    (length wire <= 2 * length (concat chunks))%nat ∧
    (has_crlf (concat chunks) = false → ∀ wire_chunks,
       concat wire_chunks = wire → Forall (λ c, c ≠ []) wire_chunks →
       decode_chunks false wire_chunks = Ok (concat chunks)).
Proof.
  exists (enc false (concat chunks)).1. split; [apply encode_chunks_enc|].
  split; [apply enc_length|]. intros Hc wire_chunks Hw Hne.
  rewrite decode_chunks_dec, dec_crlf, Hw by done. cbn [flush app].
  by rewrite crlf_to_lf_enc.
Qed.

Lemma ascii_upload_correct_witness :
  decode_chunks false [[x61; CR]; [LF; CR]; [x62; CR]] = Ok [x61; LF; CR; x62; CR].
Proof.
  rewrite (ascii_upload_correct [[x61; CR]; [LF; CR]; [x62; CR]]);
    [done|by repeat constructor].
Defined.

Lemma ascii_roundtrip_witness :
  decode_chunks false [[x61; CR]; [LF; CR; x62]] = Ok [x61; LF; CR; x62].
Proof.
  destruct (ascii_roundtrip [[x61; LF]; [CR; x62]]) as (wire & Hw & _ & H).
  apply (H eq_refl [[x61; CR]; [LF; CR; x62]]); [|by repeat constructor].
  cbn in Hw. by injection Hw as <-.
Defined.
