(* ===== verification/Session.v ===== *)
(** * The session: state, environment and effects

    [struct vsf_session] of session.h, the calls by which the session talks to
    the operating system, to the COS service and to the client, and the
    state-and-error monad in which the session code is written.

    What answers a call (the kernel, the COS gateway, the SSL library) is not
    this program: it is the parameter [Env], a function of everything that
    happened before. Each call and its answer are recorded in the history, so a
    safety theorem about every [Env] is a theorem about every behaviour of the
    outside. *)

From Stdlib Require Import Init.Byte Strings.Byte.
From Stdlib Require Import ZArith Lia String.
From stdpp Require Import base list numbers option gmap strings.
From S2P Require Import Prelude SysUtil Text StrList IpAddr Tunables.

(** ** session.h

    A flag is a [bool], an absent [p_port_sockaddr] is [None], the SSL object of
    the data connection is reduced to its presence. *)

Record vsf_session := Session {
  p_local_addr : sockaddr;
  p_remote_addr : sockaddr;
  idle_timeout : bool;
  data_timeout : bool;
  pasv_listen_fd : Z;
  p_port_sockaddr : option sockaddr;
  data_fd : Z;
  data_progress : bool;
  bw_rate_max : Z;
  bw_send_start_sec : Z;
  bw_send_start_usec : Z;
  is_anonymous : bool;
  is_guest : bool;
  user_str : bytes;
  anon_pass_str : bytes;
  restart_pos : Z;
  is_ascii : bool;
  abor_received : bool;
  epsv_all : bool;
  is_http : bool;
  http_get_arg : bytes;
  p_visited_dir_list : option mystr_list;
  anon_ftp_uid : Z;
  guest_user_uid : Z;
  anon_upload_chown_uid : Z;
  banned_email_str : bytes;
  email_passwords_str : bytes;
  userlist_str : bytes;
  banner_str : bytes;
  tcp_wrapper_ok : bool;
  xferlog_fd : Z;
  vsftpd_log_fd : Z;
  remote_ip_str : bytes;
  log_type : Z;
  log_start_sec : Z;
  log_start_usec : Z;
  log_str : bytes;
  transfer_size : Z;
  ftp_cmd_str : bytes;
  ftp_arg_str : bytes;
  num_clients : Z;
  num_this_ip : Z;
  home_str : bytes;
  control_use_ssl : bool;
  data_use_ssl : bool;
  p_data_ssl : bool;
  ssl_slave_active : bool;
  login_fails : Z;
  permissions : Z
}.

Definition set_p_local_addr (v : sockaddr) (s : vsf_session) : vsf_session :=
  Session v (p_remote_addr s) (idle_timeout s) (data_timeout s) (pasv_listen_fd s)
    (p_port_sockaddr s) (data_fd s) (data_progress s) (bw_rate_max s) (bw_send_start_sec
    s) (bw_send_start_usec s) (is_anonymous s) (is_guest s) (user_str s) (anon_pass_str
    s) (restart_pos s) (is_ascii s) (abor_received s) (epsv_all s) (is_http s)
    (http_get_arg s) (p_visited_dir_list s) (anon_ftp_uid s) (guest_user_uid s)
    (anon_upload_chown_uid s) (banned_email_str s) (email_passwords_str s) (userlist_str
    s) (banner_str s) (tcp_wrapper_ok s) (xferlog_fd s) (vsftpd_log_fd s) (remote_ip_str
    s) (log_type s) (log_start_sec s) (log_start_usec s) (log_str s) (transfer_size s)
    (ftp_cmd_str s) (ftp_arg_str s) (num_clients s) (num_this_ip s) (home_str s)
    (control_use_ssl s) (data_use_ssl s) (p_data_ssl s) (ssl_slave_active s)
    (login_fails s) (permissions s).
Definition set_p_remote_addr (v : sockaddr) (s : vsf_session) : vsf_session :=
  Session (p_local_addr s) v (idle_timeout s) (data_timeout s) (pasv_listen_fd s)
    (p_port_sockaddr s) (data_fd s) (data_progress s) (bw_rate_max s) (bw_send_start_sec
    s) (bw_send_start_usec s) (is_anonymous s) (is_guest s) (user_str s) (anon_pass_str
    s) (restart_pos s) (is_ascii s) (abor_received s) (epsv_all s) (is_http s)
    (http_get_arg s) (p_visited_dir_list s) (anon_ftp_uid s) (guest_user_uid s)
    (anon_upload_chown_uid s) (banned_email_str s) (email_passwords_str s) (userlist_str
    s) (banner_str s) (tcp_wrapper_ok s) (xferlog_fd s) (vsftpd_log_fd s) (remote_ip_str
    s) (log_type s) (log_start_sec s) (log_start_usec s) (log_str s) (transfer_size s)
    (ftp_cmd_str s) (ftp_arg_str s) (num_clients s) (num_this_ip s) (home_str s)
    (control_use_ssl s) (data_use_ssl s) (p_data_ssl s) (ssl_slave_active s)
    (login_fails s) (permissions s).
Definition set_idle_timeout (v : bool) (s : vsf_session) : vsf_session :=
  Session (p_local_addr s) (p_remote_addr s) v (data_timeout s) (pasv_listen_fd s)
    (p_port_sockaddr s) (data_fd s) (data_progress s) (bw_rate_max s) (bw_send_start_sec
    s) (bw_send_start_usec s) (is_anonymous s) (is_guest s) (user_str s) (anon_pass_str
    s) (restart_pos s) (is_ascii s) (abor_received s) (epsv_all s) (is_http s)
    (http_get_arg s) (p_visited_dir_list s) (anon_ftp_uid s) (guest_user_uid s)
    (anon_upload_chown_uid s) (banned_email_str s) (email_passwords_str s) (userlist_str
    s) (banner_str s) (tcp_wrapper_ok s) (xferlog_fd s) (vsftpd_log_fd s) (remote_ip_str
    s) (log_type s) (log_start_sec s) (log_start_usec s) (log_str s) (transfer_size s)
    (ftp_cmd_str s) (ftp_arg_str s) (num_clients s) (num_this_ip s) (home_str s)
    (control_use_ssl s) (data_use_ssl s) (p_data_ssl s) (ssl_slave_active s)
    (login_fails s) (permissions s).
Definition set_data_timeout (v : bool) (s : vsf_session) : vsf_session :=
  Session (p_local_addr s) (p_remote_addr s) (idle_timeout s) v (pasv_listen_fd s)
    (p_port_sockaddr s) (data_fd s) (data_progress s) (bw_rate_max s) (bw_send_start_sec
    s) (bw_send_start_usec s) (is_anonymous s) (is_guest s) (user_str s) (anon_pass_str
    s) (restart_pos s) (is_ascii s) (abor_received s) (epsv_all s) (is_http s)
    (http_get_arg s) (p_visited_dir_list s) (anon_ftp_uid s) (guest_user_uid s)
    (anon_upload_chown_uid s) (banned_email_str s) (email_passwords_str s) (userlist_str
    s) (banner_str s) (tcp_wrapper_ok s) (xferlog_fd s) (vsftpd_log_fd s) (remote_ip_str
    s) (log_type s) (log_start_sec s) (log_start_usec s) (log_str s) (transfer_size s)
    (ftp_cmd_str s) (ftp_arg_str s) (num_clients s) (num_this_ip s) (home_str s)
    (control_use_ssl s) (data_use_ssl s) (p_data_ssl s) (ssl_slave_active s)
    (login_fails s) (permissions s).
Definition set_pasv_listen_fd (v : Z) (s : vsf_session) : vsf_session :=
  Session (p_local_addr s) (p_remote_addr s) (idle_timeout s) (data_timeout s) v
    (p_port_sockaddr s) (data_fd s) (data_progress s) (bw_rate_max s) (bw_send_start_sec
    s) (bw_send_start_usec s) (is_anonymous s) (is_guest s) (user_str s) (anon_pass_str
    s) (restart_pos s) (is_ascii s) (abor_received s) (epsv_all s) (is_http s)
    (http_get_arg s) (p_visited_dir_list s) (anon_ftp_uid s) (guest_user_uid s)
    (anon_upload_chown_uid s) (banned_email_str s) (email_passwords_str s) (userlist_str
    s) (banner_str s) (tcp_wrapper_ok s) (xferlog_fd s) (vsftpd_log_fd s) (remote_ip_str
    s) (log_type s) (log_start_sec s) (log_start_usec s) (log_str s) (transfer_size s)
    (ftp_cmd_str s) (ftp_arg_str s) (num_clients s) (num_this_ip s) (home_str s)
    (control_use_ssl s) (data_use_ssl s) (p_data_ssl s) (ssl_slave_active s)
    (login_fails s) (permissions s).
Definition set_p_port_sockaddr (v : option sockaddr) (s : vsf_session) : vsf_session :=
  Session (p_local_addr s) (p_remote_addr s) (idle_timeout s) (data_timeout s)
    (pasv_listen_fd s) v (data_fd s) (data_progress s) (bw_rate_max s)
    (bw_send_start_sec s) (bw_send_start_usec s) (is_anonymous s) (is_guest s) (user_str
    s) (anon_pass_str s) (restart_pos s) (is_ascii s) (abor_received s) (epsv_all s)
    (is_http s) (http_get_arg s) (p_visited_dir_list s) (anon_ftp_uid s) (guest_user_uid
    s) (anon_upload_chown_uid s) (banned_email_str s) (email_passwords_str s)
    (userlist_str s) (banner_str s) (tcp_wrapper_ok s) (xferlog_fd s) (vsftpd_log_fd s)
    (remote_ip_str s) (log_type s) (log_start_sec s) (log_start_usec s) (log_str s)
    (transfer_size s) (ftp_cmd_str s) (ftp_arg_str s) (num_clients s) (num_this_ip s)
    (home_str s) (control_use_ssl s) (data_use_ssl s) (p_data_ssl s) (ssl_slave_active
    s) (login_fails s) (permissions s).
Definition set_data_fd (v : Z) (s : vsf_session) : vsf_session :=
  Session (p_local_addr s) (p_remote_addr s) (idle_timeout s) (data_timeout s)
    (pasv_listen_fd s) (p_port_sockaddr s) v (data_progress s) (bw_rate_max s)
    (bw_send_start_sec s) (bw_send_start_usec s) (is_anonymous s) (is_guest s) (user_str
    s) (anon_pass_str s) (restart_pos s) (is_ascii s) (abor_received s) (epsv_all s)
    (is_http s) (http_get_arg s) (p_visited_dir_list s) (anon_ftp_uid s) (guest_user_uid
    s) (anon_upload_chown_uid s) (banned_email_str s) (email_passwords_str s)
    (userlist_str s) (banner_str s) (tcp_wrapper_ok s) (xferlog_fd s) (vsftpd_log_fd s)
    (remote_ip_str s) (log_type s) (log_start_sec s) (log_start_usec s) (log_str s)
    (transfer_size s) (ftp_cmd_str s) (ftp_arg_str s) (num_clients s) (num_this_ip s)
    (home_str s) (control_use_ssl s) (data_use_ssl s) (p_data_ssl s) (ssl_slave_active
    s) (login_fails s) (permissions s).
Definition set_data_progress (v : bool) (s : vsf_session) : vsf_session :=
  Session (p_local_addr s) (p_remote_addr s) (idle_timeout s) (data_timeout s)
    (pasv_listen_fd s) (p_port_sockaddr s) (data_fd s) v (bw_rate_max s)
    (bw_send_start_sec s) (bw_send_start_usec s) (is_anonymous s) (is_guest s) (user_str
    s) (anon_pass_str s) (restart_pos s) (is_ascii s) (abor_received s) (epsv_all s)
    (is_http s) (http_get_arg s) (p_visited_dir_list s) (anon_ftp_uid s) (guest_user_uid
    s) (anon_upload_chown_uid s) (banned_email_str s) (email_passwords_str s)
    (userlist_str s) (banner_str s) (tcp_wrapper_ok s) (xferlog_fd s) (vsftpd_log_fd s)
    (remote_ip_str s) (log_type s) (log_start_sec s) (log_start_usec s) (log_str s)
    (transfer_size s) (ftp_cmd_str s) (ftp_arg_str s) (num_clients s) (num_this_ip s)
    (home_str s) (control_use_ssl s) (data_use_ssl s) (p_data_ssl s) (ssl_slave_active
    s) (login_fails s) (permissions s).
Definition set_bw_rate_max (v : Z) (s : vsf_session) : vsf_session :=
  Session (p_local_addr s) (p_remote_addr s) (idle_timeout s) (data_timeout s)
    (pasv_listen_fd s) (p_port_sockaddr s) (data_fd s) (data_progress s) v
    (bw_send_start_sec s) (bw_send_start_usec s) (is_anonymous s) (is_guest s) (user_str
    s) (anon_pass_str s) (restart_pos s) (is_ascii s) (abor_received s) (epsv_all s)
    (is_http s) (http_get_arg s) (p_visited_dir_list s) (anon_ftp_uid s) (guest_user_uid
    s) (anon_upload_chown_uid s) (banned_email_str s) (email_passwords_str s)
    (userlist_str s) (banner_str s) (tcp_wrapper_ok s) (xferlog_fd s) (vsftpd_log_fd s)
    (remote_ip_str s) (log_type s) (log_start_sec s) (log_start_usec s) (log_str s)
    (transfer_size s) (ftp_cmd_str s) (ftp_arg_str s) (num_clients s) (num_this_ip s)
    (home_str s) (control_use_ssl s) (data_use_ssl s) (p_data_ssl s) (ssl_slave_active
    s) (login_fails s) (permissions s).
Definition set_bw_send_start_sec (v : Z) (s : vsf_session) : vsf_session :=
  Session (p_local_addr s) (p_remote_addr s) (idle_timeout s) (data_timeout s)
    (pasv_listen_fd s) (p_port_sockaddr s) (data_fd s) (data_progress s) (bw_rate_max s)
    v (bw_send_start_usec s) (is_anonymous s) (is_guest s) (user_str s) (anon_pass_str
    s) (restart_pos s) (is_ascii s) (abor_received s) (epsv_all s) (is_http s)
    (http_get_arg s) (p_visited_dir_list s) (anon_ftp_uid s) (guest_user_uid s)
    (anon_upload_chown_uid s) (banned_email_str s) (email_passwords_str s) (userlist_str
    s) (banner_str s) (tcp_wrapper_ok s) (xferlog_fd s) (vsftpd_log_fd s) (remote_ip_str
    s) (log_type s) (log_start_sec s) (log_start_usec s) (log_str s) (transfer_size s)
    (ftp_cmd_str s) (ftp_arg_str s) (num_clients s) (num_this_ip s) (home_str s)
    (control_use_ssl s) (data_use_ssl s) (p_data_ssl s) (ssl_slave_active s)
    (login_fails s) (permissions s).
Definition set_bw_send_start_usec (v : Z) (s : vsf_session) : vsf_session :=
  Session (p_local_addr s) (p_remote_addr s) (idle_timeout s) (data_timeout s)
    (pasv_listen_fd s) (p_port_sockaddr s) (data_fd s) (data_progress s) (bw_rate_max s)
    (bw_send_start_sec s) v (is_anonymous s) (is_guest s) (user_str s) (anon_pass_str s)
    (restart_pos s) (is_ascii s) (abor_received s) (epsv_all s) (is_http s)
    (http_get_arg s) (p_visited_dir_list s) (anon_ftp_uid s) (guest_user_uid s)
    (anon_upload_chown_uid s) (banned_email_str s) (email_passwords_str s) (userlist_str
    s) (banner_str s) (tcp_wrapper_ok s) (xferlog_fd s) (vsftpd_log_fd s) (remote_ip_str
    s) (log_type s) (log_start_sec s) (log_start_usec s) (log_str s) (transfer_size s)
    (ftp_cmd_str s) (ftp_arg_str s) (num_clients s) (num_this_ip s) (home_str s)
    (control_use_ssl s) (data_use_ssl s) (p_data_ssl s) (ssl_slave_active s)
    (login_fails s) (permissions s).
Definition set_is_anonymous (v : bool) (s : vsf_session) : vsf_session :=
  Session (p_local_addr s) (p_remote_addr s) (idle_timeout s) (data_timeout s)
    (pasv_listen_fd s) (p_port_sockaddr s) (data_fd s) (data_progress s) (bw_rate_max s)
    (bw_send_start_sec s) (bw_send_start_usec s) v (is_guest s) (user_str s)
    (anon_pass_str s) (restart_pos s) (is_ascii s) (abor_received s) (epsv_all s)
    (is_http s) (http_get_arg s) (p_visited_dir_list s) (anon_ftp_uid s) (guest_user_uid
    s) (anon_upload_chown_uid s) (banned_email_str s) (email_passwords_str s)
    (userlist_str s) (banner_str s) (tcp_wrapper_ok s) (xferlog_fd s) (vsftpd_log_fd s)
    (remote_ip_str s) (log_type s) (log_start_sec s) (log_start_usec s) (log_str s)
    (transfer_size s) (ftp_cmd_str s) (ftp_arg_str s) (num_clients s) (num_this_ip s)
    (home_str s) (control_use_ssl s) (data_use_ssl s) (p_data_ssl s) (ssl_slave_active
    s) (login_fails s) (permissions s).
Definition set_is_guest (v : bool) (s : vsf_session) : vsf_session :=
  Session (p_local_addr s) (p_remote_addr s) (idle_timeout s) (data_timeout s)
    (pasv_listen_fd s) (p_port_sockaddr s) (data_fd s) (data_progress s) (bw_rate_max s)
    (bw_send_start_sec s) (bw_send_start_usec s) (is_anonymous s) v (user_str s)
    (anon_pass_str s) (restart_pos s) (is_ascii s) (abor_received s) (epsv_all s)
    (is_http s) (http_get_arg s) (p_visited_dir_list s) (anon_ftp_uid s) (guest_user_uid
    s) (anon_upload_chown_uid s) (banned_email_str s) (email_passwords_str s)
    (userlist_str s) (banner_str s) (tcp_wrapper_ok s) (xferlog_fd s) (vsftpd_log_fd s)
    (remote_ip_str s) (log_type s) (log_start_sec s) (log_start_usec s) (log_str s)
    (transfer_size s) (ftp_cmd_str s) (ftp_arg_str s) (num_clients s) (num_this_ip s)
    (home_str s) (control_use_ssl s) (data_use_ssl s) (p_data_ssl s) (ssl_slave_active
    s) (login_fails s) (permissions s).
Definition set_user_str (v : bytes) (s : vsf_session) : vsf_session :=
  Session (p_local_addr s) (p_remote_addr s) (idle_timeout s) (data_timeout s)
    (pasv_listen_fd s) (p_port_sockaddr s) (data_fd s) (data_progress s) (bw_rate_max s)
    (bw_send_start_sec s) (bw_send_start_usec s) (is_anonymous s) (is_guest s) v
    (anon_pass_str s) (restart_pos s) (is_ascii s) (abor_received s) (epsv_all s)
    (is_http s) (http_get_arg s) (p_visited_dir_list s) (anon_ftp_uid s) (guest_user_uid
    s) (anon_upload_chown_uid s) (banned_email_str s) (email_passwords_str s)
    (userlist_str s) (banner_str s) (tcp_wrapper_ok s) (xferlog_fd s) (vsftpd_log_fd s)
    (remote_ip_str s) (log_type s) (log_start_sec s) (log_start_usec s) (log_str s)
    (transfer_size s) (ftp_cmd_str s) (ftp_arg_str s) (num_clients s) (num_this_ip s)
    (home_str s) (control_use_ssl s) (data_use_ssl s) (p_data_ssl s) (ssl_slave_active
    s) (login_fails s) (permissions s).
Definition set_anon_pass_str (v : bytes) (s : vsf_session) : vsf_session :=
  Session (p_local_addr s) (p_remote_addr s) (idle_timeout s) (data_timeout s)
    (pasv_listen_fd s) (p_port_sockaddr s) (data_fd s) (data_progress s) (bw_rate_max s)
    (bw_send_start_sec s) (bw_send_start_usec s) (is_anonymous s) (is_guest s) (user_str
    s) v (restart_pos s) (is_ascii s) (abor_received s) (epsv_all s) (is_http s)
    (http_get_arg s) (p_visited_dir_list s) (anon_ftp_uid s) (guest_user_uid s)
    (anon_upload_chown_uid s) (banned_email_str s) (email_passwords_str s) (userlist_str
    s) (banner_str s) (tcp_wrapper_ok s) (xferlog_fd s) (vsftpd_log_fd s) (remote_ip_str
    s) (log_type s) (log_start_sec s) (log_start_usec s) (log_str s) (transfer_size s)
    (ftp_cmd_str s) (ftp_arg_str s) (num_clients s) (num_this_ip s) (home_str s)
    (control_use_ssl s) (data_use_ssl s) (p_data_ssl s) (ssl_slave_active s)
    (login_fails s) (permissions s).
Definition set_restart_pos (v : Z) (s : vsf_session) : vsf_session :=
  Session (p_local_addr s) (p_remote_addr s) (idle_timeout s) (data_timeout s)
    (pasv_listen_fd s) (p_port_sockaddr s) (data_fd s) (data_progress s) (bw_rate_max s)
    (bw_send_start_sec s) (bw_send_start_usec s) (is_anonymous s) (is_guest s) (user_str
    s) (anon_pass_str s) v (is_ascii s) (abor_received s) (epsv_all s) (is_http s)
    (http_get_arg s) (p_visited_dir_list s) (anon_ftp_uid s) (guest_user_uid s)
    (anon_upload_chown_uid s) (banned_email_str s) (email_passwords_str s) (userlist_str
    s) (banner_str s) (tcp_wrapper_ok s) (xferlog_fd s) (vsftpd_log_fd s) (remote_ip_str
    s) (log_type s) (log_start_sec s) (log_start_usec s) (log_str s) (transfer_size s)
    (ftp_cmd_str s) (ftp_arg_str s) (num_clients s) (num_this_ip s) (home_str s)
    (control_use_ssl s) (data_use_ssl s) (p_data_ssl s) (ssl_slave_active s)
    (login_fails s) (permissions s).
Definition set_is_ascii (v : bool) (s : vsf_session) : vsf_session :=
  Session (p_local_addr s) (p_remote_addr s) (idle_timeout s) (data_timeout s)
    (pasv_listen_fd s) (p_port_sockaddr s) (data_fd s) (data_progress s) (bw_rate_max s)
    (bw_send_start_sec s) (bw_send_start_usec s) (is_anonymous s) (is_guest s) (user_str
    s) (anon_pass_str s) (restart_pos s) v (abor_received s) (epsv_all s) (is_http s)
    (http_get_arg s) (p_visited_dir_list s) (anon_ftp_uid s) (guest_user_uid s)
    (anon_upload_chown_uid s) (banned_email_str s) (email_passwords_str s) (userlist_str
    s) (banner_str s) (tcp_wrapper_ok s) (xferlog_fd s) (vsftpd_log_fd s) (remote_ip_str
    s) (log_type s) (log_start_sec s) (log_start_usec s) (log_str s) (transfer_size s)
    (ftp_cmd_str s) (ftp_arg_str s) (num_clients s) (num_this_ip s) (home_str s)
    (control_use_ssl s) (data_use_ssl s) (p_data_ssl s) (ssl_slave_active s)
    (login_fails s) (permissions s).
Definition set_abor_received (v : bool) (s : vsf_session) : vsf_session :=
  Session (p_local_addr s) (p_remote_addr s) (idle_timeout s) (data_timeout s)
    (pasv_listen_fd s) (p_port_sockaddr s) (data_fd s) (data_progress s) (bw_rate_max s)
    (bw_send_start_sec s) (bw_send_start_usec s) (is_anonymous s) (is_guest s) (user_str
    s) (anon_pass_str s) (restart_pos s) (is_ascii s) v (epsv_all s) (is_http s)
    (http_get_arg s) (p_visited_dir_list s) (anon_ftp_uid s) (guest_user_uid s)
    (anon_upload_chown_uid s) (banned_email_str s) (email_passwords_str s) (userlist_str
    s) (banner_str s) (tcp_wrapper_ok s) (xferlog_fd s) (vsftpd_log_fd s) (remote_ip_str
    s) (log_type s) (log_start_sec s) (log_start_usec s) (log_str s) (transfer_size s)
    (ftp_cmd_str s) (ftp_arg_str s) (num_clients s) (num_this_ip s) (home_str s)
    (control_use_ssl s) (data_use_ssl s) (p_data_ssl s) (ssl_slave_active s)
    (login_fails s) (permissions s).
Definition set_epsv_all (v : bool) (s : vsf_session) : vsf_session :=
  Session (p_local_addr s) (p_remote_addr s) (idle_timeout s) (data_timeout s)
    (pasv_listen_fd s) (p_port_sockaddr s) (data_fd s) (data_progress s) (bw_rate_max s)
    (bw_send_start_sec s) (bw_send_start_usec s) (is_anonymous s) (is_guest s) (user_str
    s) (anon_pass_str s) (restart_pos s) (is_ascii s) (abor_received s) v (is_http s)
    (http_get_arg s) (p_visited_dir_list s) (anon_ftp_uid s) (guest_user_uid s)
    (anon_upload_chown_uid s) (banned_email_str s) (email_passwords_str s) (userlist_str
    s) (banner_str s) (tcp_wrapper_ok s) (xferlog_fd s) (vsftpd_log_fd s) (remote_ip_str
    s) (log_type s) (log_start_sec s) (log_start_usec s) (log_str s) (transfer_size s)
    (ftp_cmd_str s) (ftp_arg_str s) (num_clients s) (num_this_ip s) (home_str s)
    (control_use_ssl s) (data_use_ssl s) (p_data_ssl s) (ssl_slave_active s)
    (login_fails s) (permissions s).
Definition set_is_http (v : bool) (s : vsf_session) : vsf_session :=
  Session (p_local_addr s) (p_remote_addr s) (idle_timeout s) (data_timeout s)
    (pasv_listen_fd s) (p_port_sockaddr s) (data_fd s) (data_progress s) (bw_rate_max s)
    (bw_send_start_sec s) (bw_send_start_usec s) (is_anonymous s) (is_guest s) (user_str
    s) (anon_pass_str s) (restart_pos s) (is_ascii s) (abor_received s) (epsv_all s) v
    (http_get_arg s) (p_visited_dir_list s) (anon_ftp_uid s) (guest_user_uid s)
    (anon_upload_chown_uid s) (banned_email_str s) (email_passwords_str s) (userlist_str
    s) (banner_str s) (tcp_wrapper_ok s) (xferlog_fd s) (vsftpd_log_fd s) (remote_ip_str
    s) (log_type s) (log_start_sec s) (log_start_usec s) (log_str s) (transfer_size s)
    (ftp_cmd_str s) (ftp_arg_str s) (num_clients s) (num_this_ip s) (home_str s)
    (control_use_ssl s) (data_use_ssl s) (p_data_ssl s) (ssl_slave_active s)
    (login_fails s) (permissions s).
Definition set_http_get_arg (v : bytes) (s : vsf_session) : vsf_session :=
  Session (p_local_addr s) (p_remote_addr s) (idle_timeout s) (data_timeout s)
    (pasv_listen_fd s) (p_port_sockaddr s) (data_fd s) (data_progress s) (bw_rate_max s)
    (bw_send_start_sec s) (bw_send_start_usec s) (is_anonymous s) (is_guest s) (user_str
    s) (anon_pass_str s) (restart_pos s) (is_ascii s) (abor_received s) (epsv_all s)
    (is_http s) v (p_visited_dir_list s) (anon_ftp_uid s) (guest_user_uid s)
    (anon_upload_chown_uid s) (banned_email_str s) (email_passwords_str s) (userlist_str
    s) (banner_str s) (tcp_wrapper_ok s) (xferlog_fd s) (vsftpd_log_fd s) (remote_ip_str
    s) (log_type s) (log_start_sec s) (log_start_usec s) (log_str s) (transfer_size s)
    (ftp_cmd_str s) (ftp_arg_str s) (num_clients s) (num_this_ip s) (home_str s)
    (control_use_ssl s) (data_use_ssl s) (p_data_ssl s) (ssl_slave_active s)
    (login_fails s) (permissions s).
Definition set_p_visited_dir_list (v : option mystr_list) (s : vsf_session) : vsf_session :=
  Session (p_local_addr s) (p_remote_addr s) (idle_timeout s) (data_timeout s)
    (pasv_listen_fd s) (p_port_sockaddr s) (data_fd s) (data_progress s) (bw_rate_max s)
    (bw_send_start_sec s) (bw_send_start_usec s) (is_anonymous s) (is_guest s) (user_str
    s) (anon_pass_str s) (restart_pos s) (is_ascii s) (abor_received s) (epsv_all s)
    (is_http s) (http_get_arg s) v (anon_ftp_uid s) (guest_user_uid s)
    (anon_upload_chown_uid s) (banned_email_str s) (email_passwords_str s) (userlist_str
    s) (banner_str s) (tcp_wrapper_ok s) (xferlog_fd s) (vsftpd_log_fd s) (remote_ip_str
    s) (log_type s) (log_start_sec s) (log_start_usec s) (log_str s) (transfer_size s)
    (ftp_cmd_str s) (ftp_arg_str s) (num_clients s) (num_this_ip s) (home_str s)
    (control_use_ssl s) (data_use_ssl s) (p_data_ssl s) (ssl_slave_active s)
    (login_fails s) (permissions s).
Definition set_anon_ftp_uid (v : Z) (s : vsf_session) : vsf_session :=
  Session (p_local_addr s) (p_remote_addr s) (idle_timeout s) (data_timeout s)
    (pasv_listen_fd s) (p_port_sockaddr s) (data_fd s) (data_progress s) (bw_rate_max s)
    (bw_send_start_sec s) (bw_send_start_usec s) (is_anonymous s) (is_guest s) (user_str
    s) (anon_pass_str s) (restart_pos s) (is_ascii s) (abor_received s) (epsv_all s)
    (is_http s) (http_get_arg s) (p_visited_dir_list s) v (guest_user_uid s)
    (anon_upload_chown_uid s) (banned_email_str s) (email_passwords_str s) (userlist_str
    s) (banner_str s) (tcp_wrapper_ok s) (xferlog_fd s) (vsftpd_log_fd s) (remote_ip_str
    s) (log_type s) (log_start_sec s) (log_start_usec s) (log_str s) (transfer_size s)
    (ftp_cmd_str s) (ftp_arg_str s) (num_clients s) (num_this_ip s) (home_str s)
    (control_use_ssl s) (data_use_ssl s) (p_data_ssl s) (ssl_slave_active s)
    (login_fails s) (permissions s).
Definition set_guest_user_uid (v : Z) (s : vsf_session) : vsf_session :=
  Session (p_local_addr s) (p_remote_addr s) (idle_timeout s) (data_timeout s)
    (pasv_listen_fd s) (p_port_sockaddr s) (data_fd s) (data_progress s) (bw_rate_max s)
    (bw_send_start_sec s) (bw_send_start_usec s) (is_anonymous s) (is_guest s) (user_str
    s) (anon_pass_str s) (restart_pos s) (is_ascii s) (abor_received s) (epsv_all s)
    (is_http s) (http_get_arg s) (p_visited_dir_list s) (anon_ftp_uid s) v
    (anon_upload_chown_uid s) (banned_email_str s) (email_passwords_str s) (userlist_str
    s) (banner_str s) (tcp_wrapper_ok s) (xferlog_fd s) (vsftpd_log_fd s) (remote_ip_str
    s) (log_type s) (log_start_sec s) (log_start_usec s) (log_str s) (transfer_size s)
    (ftp_cmd_str s) (ftp_arg_str s) (num_clients s) (num_this_ip s) (home_str s)
    (control_use_ssl s) (data_use_ssl s) (p_data_ssl s) (ssl_slave_active s)
    (login_fails s) (permissions s).
Definition set_anon_upload_chown_uid (v : Z) (s : vsf_session) : vsf_session :=
  Session (p_local_addr s) (p_remote_addr s) (idle_timeout s) (data_timeout s)
    (pasv_listen_fd s) (p_port_sockaddr s) (data_fd s) (data_progress s) (bw_rate_max s)
    (bw_send_start_sec s) (bw_send_start_usec s) (is_anonymous s) (is_guest s) (user_str
    s) (anon_pass_str s) (restart_pos s) (is_ascii s) (abor_received s) (epsv_all s)
    (is_http s) (http_get_arg s) (p_visited_dir_list s) (anon_ftp_uid s) (guest_user_uid
    s) v (banned_email_str s) (email_passwords_str s) (userlist_str s) (banner_str s)
    (tcp_wrapper_ok s) (xferlog_fd s) (vsftpd_log_fd s) (remote_ip_str s) (log_type s)
    (log_start_sec s) (log_start_usec s) (log_str s) (transfer_size s) (ftp_cmd_str s)
    (ftp_arg_str s) (num_clients s) (num_this_ip s) (home_str s) (control_use_ssl s)
    (data_use_ssl s) (p_data_ssl s) (ssl_slave_active s) (login_fails s) (permissions
    s).
Definition set_banned_email_str (v : bytes) (s : vsf_session) : vsf_session :=
  Session (p_local_addr s) (p_remote_addr s) (idle_timeout s) (data_timeout s)
    (pasv_listen_fd s) (p_port_sockaddr s) (data_fd s) (data_progress s) (bw_rate_max s)
    (bw_send_start_sec s) (bw_send_start_usec s) (is_anonymous s) (is_guest s) (user_str
    s) (anon_pass_str s) (restart_pos s) (is_ascii s) (abor_received s) (epsv_all s)
    (is_http s) (http_get_arg s) (p_visited_dir_list s) (anon_ftp_uid s) (guest_user_uid
    s) (anon_upload_chown_uid s) v (email_passwords_str s) (userlist_str s) (banner_str
    s) (tcp_wrapper_ok s) (xferlog_fd s) (vsftpd_log_fd s) (remote_ip_str s) (log_type
    s) (log_start_sec s) (log_start_usec s) (log_str s) (transfer_size s) (ftp_cmd_str
    s) (ftp_arg_str s) (num_clients s) (num_this_ip s) (home_str s) (control_use_ssl s)
    (data_use_ssl s) (p_data_ssl s) (ssl_slave_active s) (login_fails s) (permissions
    s).
Definition set_email_passwords_str (v : bytes) (s : vsf_session) : vsf_session :=
  Session (p_local_addr s) (p_remote_addr s) (idle_timeout s) (data_timeout s)
    (pasv_listen_fd s) (p_port_sockaddr s) (data_fd s) (data_progress s) (bw_rate_max s)
    (bw_send_start_sec s) (bw_send_start_usec s) (is_anonymous s) (is_guest s) (user_str
    s) (anon_pass_str s) (restart_pos s) (is_ascii s) (abor_received s) (epsv_all s)
    (is_http s) (http_get_arg s) (p_visited_dir_list s) (anon_ftp_uid s) (guest_user_uid
    s) (anon_upload_chown_uid s) (banned_email_str s) v (userlist_str s) (banner_str s)
    (tcp_wrapper_ok s) (xferlog_fd s) (vsftpd_log_fd s) (remote_ip_str s) (log_type s)
    (log_start_sec s) (log_start_usec s) (log_str s) (transfer_size s) (ftp_cmd_str s)
    (ftp_arg_str s) (num_clients s) (num_this_ip s) (home_str s) (control_use_ssl s)
    (data_use_ssl s) (p_data_ssl s) (ssl_slave_active s) (login_fails s) (permissions
    s).
Definition set_userlist_str (v : bytes) (s : vsf_session) : vsf_session :=
  Session (p_local_addr s) (p_remote_addr s) (idle_timeout s) (data_timeout s)
    (pasv_listen_fd s) (p_port_sockaddr s) (data_fd s) (data_progress s) (bw_rate_max s)
    (bw_send_start_sec s) (bw_send_start_usec s) (is_anonymous s) (is_guest s) (user_str
    s) (anon_pass_str s) (restart_pos s) (is_ascii s) (abor_received s) (epsv_all s)
    (is_http s) (http_get_arg s) (p_visited_dir_list s) (anon_ftp_uid s) (guest_user_uid
    s) (anon_upload_chown_uid s) (banned_email_str s) (email_passwords_str s) v
    (banner_str s) (tcp_wrapper_ok s) (xferlog_fd s) (vsftpd_log_fd s) (remote_ip_str s)
    (log_type s) (log_start_sec s) (log_start_usec s) (log_str s) (transfer_size s)
    (ftp_cmd_str s) (ftp_arg_str s) (num_clients s) (num_this_ip s) (home_str s)
    (control_use_ssl s) (data_use_ssl s) (p_data_ssl s) (ssl_slave_active s)
    (login_fails s) (permissions s).
Definition set_banner_str (v : bytes) (s : vsf_session) : vsf_session :=
  Session (p_local_addr s) (p_remote_addr s) (idle_timeout s) (data_timeout s)
    (pasv_listen_fd s) (p_port_sockaddr s) (data_fd s) (data_progress s) (bw_rate_max s)
    (bw_send_start_sec s) (bw_send_start_usec s) (is_anonymous s) (is_guest s) (user_str
    s) (anon_pass_str s) (restart_pos s) (is_ascii s) (abor_received s) (epsv_all s)
    (is_http s) (http_get_arg s) (p_visited_dir_list s) (anon_ftp_uid s) (guest_user_uid
    s) (anon_upload_chown_uid s) (banned_email_str s) (email_passwords_str s)
    (userlist_str s) v (tcp_wrapper_ok s) (xferlog_fd s) (vsftpd_log_fd s)
    (remote_ip_str s) (log_type s) (log_start_sec s) (log_start_usec s) (log_str s)
    (transfer_size s) (ftp_cmd_str s) (ftp_arg_str s) (num_clients s) (num_this_ip s)
    (home_str s) (control_use_ssl s) (data_use_ssl s) (p_data_ssl s) (ssl_slave_active
    s) (login_fails s) (permissions s).
Definition set_tcp_wrapper_ok (v : bool) (s : vsf_session) : vsf_session :=
  Session (p_local_addr s) (p_remote_addr s) (idle_timeout s) (data_timeout s)
    (pasv_listen_fd s) (p_port_sockaddr s) (data_fd s) (data_progress s) (bw_rate_max s)
    (bw_send_start_sec s) (bw_send_start_usec s) (is_anonymous s) (is_guest s) (user_str
    s) (anon_pass_str s) (restart_pos s) (is_ascii s) (abor_received s) (epsv_all s)
    (is_http s) (http_get_arg s) (p_visited_dir_list s) (anon_ftp_uid s) (guest_user_uid
    s) (anon_upload_chown_uid s) (banned_email_str s) (email_passwords_str s)
    (userlist_str s) (banner_str s) v (xferlog_fd s) (vsftpd_log_fd s) (remote_ip_str s)
    (log_type s) (log_start_sec s) (log_start_usec s) (log_str s) (transfer_size s)
    (ftp_cmd_str s) (ftp_arg_str s) (num_clients s) (num_this_ip s) (home_str s)
    (control_use_ssl s) (data_use_ssl s) (p_data_ssl s) (ssl_slave_active s)
    (login_fails s) (permissions s).
Definition set_xferlog_fd (v : Z) (s : vsf_session) : vsf_session :=
  Session (p_local_addr s) (p_remote_addr s) (idle_timeout s) (data_timeout s)
    (pasv_listen_fd s) (p_port_sockaddr s) (data_fd s) (data_progress s) (bw_rate_max s)
    (bw_send_start_sec s) (bw_send_start_usec s) (is_anonymous s) (is_guest s) (user_str
    s) (anon_pass_str s) (restart_pos s) (is_ascii s) (abor_received s) (epsv_all s)
    (is_http s) (http_get_arg s) (p_visited_dir_list s) (anon_ftp_uid s) (guest_user_uid
    s) (anon_upload_chown_uid s) (banned_email_str s) (email_passwords_str s)
    (userlist_str s) (banner_str s) (tcp_wrapper_ok s) v (vsftpd_log_fd s)
    (remote_ip_str s) (log_type s) (log_start_sec s) (log_start_usec s) (log_str s)
    (transfer_size s) (ftp_cmd_str s) (ftp_arg_str s) (num_clients s) (num_this_ip s)
    (home_str s) (control_use_ssl s) (data_use_ssl s) (p_data_ssl s) (ssl_slave_active
    s) (login_fails s) (permissions s).
Definition set_vsftpd_log_fd (v : Z) (s : vsf_session) : vsf_session :=
  Session (p_local_addr s) (p_remote_addr s) (idle_timeout s) (data_timeout s)
    (pasv_listen_fd s) (p_port_sockaddr s) (data_fd s) (data_progress s) (bw_rate_max s)
    (bw_send_start_sec s) (bw_send_start_usec s) (is_anonymous s) (is_guest s) (user_str
    s) (anon_pass_str s) (restart_pos s) (is_ascii s) (abor_received s) (epsv_all s)
    (is_http s) (http_get_arg s) (p_visited_dir_list s) (anon_ftp_uid s) (guest_user_uid
    s) (anon_upload_chown_uid s) (banned_email_str s) (email_passwords_str s)
    (userlist_str s) (banner_str s) (tcp_wrapper_ok s) (xferlog_fd s) v (remote_ip_str
    s) (log_type s) (log_start_sec s) (log_start_usec s) (log_str s) (transfer_size s)
    (ftp_cmd_str s) (ftp_arg_str s) (num_clients s) (num_this_ip s) (home_str s)
    (control_use_ssl s) (data_use_ssl s) (p_data_ssl s) (ssl_slave_active s)
    (login_fails s) (permissions s).
Definition set_remote_ip_str (v : bytes) (s : vsf_session) : vsf_session :=
  Session (p_local_addr s) (p_remote_addr s) (idle_timeout s) (data_timeout s)
    (pasv_listen_fd s) (p_port_sockaddr s) (data_fd s) (data_progress s) (bw_rate_max s)
    (bw_send_start_sec s) (bw_send_start_usec s) (is_anonymous s) (is_guest s) (user_str
    s) (anon_pass_str s) (restart_pos s) (is_ascii s) (abor_received s) (epsv_all s)
    (is_http s) (http_get_arg s) (p_visited_dir_list s) (anon_ftp_uid s) (guest_user_uid
    s) (anon_upload_chown_uid s) (banned_email_str s) (email_passwords_str s)
    (userlist_str s) (banner_str s) (tcp_wrapper_ok s) (xferlog_fd s) (vsftpd_log_fd s)
    v (log_type s) (log_start_sec s) (log_start_usec s) (log_str s) (transfer_size s)
    (ftp_cmd_str s) (ftp_arg_str s) (num_clients s) (num_this_ip s) (home_str s)
    (control_use_ssl s) (data_use_ssl s) (p_data_ssl s) (ssl_slave_active s)
    (login_fails s) (permissions s).
Definition set_log_type (v : Z) (s : vsf_session) : vsf_session :=
  Session (p_local_addr s) (p_remote_addr s) (idle_timeout s) (data_timeout s)
    (pasv_listen_fd s) (p_port_sockaddr s) (data_fd s) (data_progress s) (bw_rate_max s)
    (bw_send_start_sec s) (bw_send_start_usec s) (is_anonymous s) (is_guest s) (user_str
    s) (anon_pass_str s) (restart_pos s) (is_ascii s) (abor_received s) (epsv_all s)
    (is_http s) (http_get_arg s) (p_visited_dir_list s) (anon_ftp_uid s) (guest_user_uid
    s) (anon_upload_chown_uid s) (banned_email_str s) (email_passwords_str s)
    (userlist_str s) (banner_str s) (tcp_wrapper_ok s) (xferlog_fd s) (vsftpd_log_fd s)
    (remote_ip_str s) v (log_start_sec s) (log_start_usec s) (log_str s) (transfer_size
    s) (ftp_cmd_str s) (ftp_arg_str s) (num_clients s) (num_this_ip s) (home_str s)
    (control_use_ssl s) (data_use_ssl s) (p_data_ssl s) (ssl_slave_active s)
    (login_fails s) (permissions s).
Definition set_log_start_sec (v : Z) (s : vsf_session) : vsf_session :=
  Session (p_local_addr s) (p_remote_addr s) (idle_timeout s) (data_timeout s)
    (pasv_listen_fd s) (p_port_sockaddr s) (data_fd s) (data_progress s) (bw_rate_max s)
    (bw_send_start_sec s) (bw_send_start_usec s) (is_anonymous s) (is_guest s) (user_str
    s) (anon_pass_str s) (restart_pos s) (is_ascii s) (abor_received s) (epsv_all s)
    (is_http s) (http_get_arg s) (p_visited_dir_list s) (anon_ftp_uid s) (guest_user_uid
    s) (anon_upload_chown_uid s) (banned_email_str s) (email_passwords_str s)
    (userlist_str s) (banner_str s) (tcp_wrapper_ok s) (xferlog_fd s) (vsftpd_log_fd s)
    (remote_ip_str s) (log_type s) v (log_start_usec s) (log_str s) (transfer_size s)
    (ftp_cmd_str s) (ftp_arg_str s) (num_clients s) (num_this_ip s) (home_str s)
    (control_use_ssl s) (data_use_ssl s) (p_data_ssl s) (ssl_slave_active s)
    (login_fails s) (permissions s).
Definition set_log_start_usec (v : Z) (s : vsf_session) : vsf_session :=
  Session (p_local_addr s) (p_remote_addr s) (idle_timeout s) (data_timeout s)
    (pasv_listen_fd s) (p_port_sockaddr s) (data_fd s) (data_progress s) (bw_rate_max s)
    (bw_send_start_sec s) (bw_send_start_usec s) (is_anonymous s) (is_guest s) (user_str
    s) (anon_pass_str s) (restart_pos s) (is_ascii s) (abor_received s) (epsv_all s)
    (is_http s) (http_get_arg s) (p_visited_dir_list s) (anon_ftp_uid s) (guest_user_uid
    s) (anon_upload_chown_uid s) (banned_email_str s) (email_passwords_str s)
    (userlist_str s) (banner_str s) (tcp_wrapper_ok s) (xferlog_fd s) (vsftpd_log_fd s)
    (remote_ip_str s) (log_type s) (log_start_sec s) v (log_str s) (transfer_size s)
    (ftp_cmd_str s) (ftp_arg_str s) (num_clients s) (num_this_ip s) (home_str s)
    (control_use_ssl s) (data_use_ssl s) (p_data_ssl s) (ssl_slave_active s)
    (login_fails s) (permissions s).
Definition set_log_str (v : bytes) (s : vsf_session) : vsf_session :=
  Session (p_local_addr s) (p_remote_addr s) (idle_timeout s) (data_timeout s)
    (pasv_listen_fd s) (p_port_sockaddr s) (data_fd s) (data_progress s) (bw_rate_max s)
    (bw_send_start_sec s) (bw_send_start_usec s) (is_anonymous s) (is_guest s) (user_str
    s) (anon_pass_str s) (restart_pos s) (is_ascii s) (abor_received s) (epsv_all s)
    (is_http s) (http_get_arg s) (p_visited_dir_list s) (anon_ftp_uid s) (guest_user_uid
    s) (anon_upload_chown_uid s) (banned_email_str s) (email_passwords_str s)
    (userlist_str s) (banner_str s) (tcp_wrapper_ok s) (xferlog_fd s) (vsftpd_log_fd s)
    (remote_ip_str s) (log_type s) (log_start_sec s) (log_start_usec s) v (transfer_size
    s) (ftp_cmd_str s) (ftp_arg_str s) (num_clients s) (num_this_ip s) (home_str s)
    (control_use_ssl s) (data_use_ssl s) (p_data_ssl s) (ssl_slave_active s)
    (login_fails s) (permissions s).
Definition set_transfer_size (v : Z) (s : vsf_session) : vsf_session :=
  Session (p_local_addr s) (p_remote_addr s) (idle_timeout s) (data_timeout s)
    (pasv_listen_fd s) (p_port_sockaddr s) (data_fd s) (data_progress s) (bw_rate_max s)
    (bw_send_start_sec s) (bw_send_start_usec s) (is_anonymous s) (is_guest s) (user_str
    s) (anon_pass_str s) (restart_pos s) (is_ascii s) (abor_received s) (epsv_all s)
    (is_http s) (http_get_arg s) (p_visited_dir_list s) (anon_ftp_uid s) (guest_user_uid
    s) (anon_upload_chown_uid s) (banned_email_str s) (email_passwords_str s)
    (userlist_str s) (banner_str s) (tcp_wrapper_ok s) (xferlog_fd s) (vsftpd_log_fd s)
    (remote_ip_str s) (log_type s) (log_start_sec s) (log_start_usec s) (log_str s) v
    (ftp_cmd_str s) (ftp_arg_str s) (num_clients s) (num_this_ip s) (home_str s)
    (control_use_ssl s) (data_use_ssl s) (p_data_ssl s) (ssl_slave_active s)
    (login_fails s) (permissions s).
Definition set_ftp_cmd_str (v : bytes) (s : vsf_session) : vsf_session :=
  Session (p_local_addr s) (p_remote_addr s) (idle_timeout s) (data_timeout s)
    (pasv_listen_fd s) (p_port_sockaddr s) (data_fd s) (data_progress s) (bw_rate_max s)
    (bw_send_start_sec s) (bw_send_start_usec s) (is_anonymous s) (is_guest s) (user_str
    s) (anon_pass_str s) (restart_pos s) (is_ascii s) (abor_received s) (epsv_all s)
    (is_http s) (http_get_arg s) (p_visited_dir_list s) (anon_ftp_uid s) (guest_user_uid
    s) (anon_upload_chown_uid s) (banned_email_str s) (email_passwords_str s)
    (userlist_str s) (banner_str s) (tcp_wrapper_ok s) (xferlog_fd s) (vsftpd_log_fd s)
    (remote_ip_str s) (log_type s) (log_start_sec s) (log_start_usec s) (log_str s)
    (transfer_size s) v (ftp_arg_str s) (num_clients s) (num_this_ip s) (home_str s)
    (control_use_ssl s) (data_use_ssl s) (p_data_ssl s) (ssl_slave_active s)
    (login_fails s) (permissions s).
Definition set_ftp_arg_str (v : bytes) (s : vsf_session) : vsf_session :=
  Session (p_local_addr s) (p_remote_addr s) (idle_timeout s) (data_timeout s)
    (pasv_listen_fd s) (p_port_sockaddr s) (data_fd s) (data_progress s) (bw_rate_max s)
    (bw_send_start_sec s) (bw_send_start_usec s) (is_anonymous s) (is_guest s) (user_str
    s) (anon_pass_str s) (restart_pos s) (is_ascii s) (abor_received s) (epsv_all s)
    (is_http s) (http_get_arg s) (p_visited_dir_list s) (anon_ftp_uid s) (guest_user_uid
    s) (anon_upload_chown_uid s) (banned_email_str s) (email_passwords_str s)
    (userlist_str s) (banner_str s) (tcp_wrapper_ok s) (xferlog_fd s) (vsftpd_log_fd s)
    (remote_ip_str s) (log_type s) (log_start_sec s) (log_start_usec s) (log_str s)
    (transfer_size s) (ftp_cmd_str s) v (num_clients s) (num_this_ip s) (home_str s)
    (control_use_ssl s) (data_use_ssl s) (p_data_ssl s) (ssl_slave_active s)
    (login_fails s) (permissions s).
Definition set_num_clients (v : Z) (s : vsf_session) : vsf_session :=
  Session (p_local_addr s) (p_remote_addr s) (idle_timeout s) (data_timeout s)
    (pasv_listen_fd s) (p_port_sockaddr s) (data_fd s) (data_progress s) (bw_rate_max s)
    (bw_send_start_sec s) (bw_send_start_usec s) (is_anonymous s) (is_guest s) (user_str
    s) (anon_pass_str s) (restart_pos s) (is_ascii s) (abor_received s) (epsv_all s)
    (is_http s) (http_get_arg s) (p_visited_dir_list s) (anon_ftp_uid s) (guest_user_uid
    s) (anon_upload_chown_uid s) (banned_email_str s) (email_passwords_str s)
    (userlist_str s) (banner_str s) (tcp_wrapper_ok s) (xferlog_fd s) (vsftpd_log_fd s)
    (remote_ip_str s) (log_type s) (log_start_sec s) (log_start_usec s) (log_str s)
    (transfer_size s) (ftp_cmd_str s) (ftp_arg_str s) v (num_this_ip s) (home_str s)
    (control_use_ssl s) (data_use_ssl s) (p_data_ssl s) (ssl_slave_active s)
    (login_fails s) (permissions s).
Definition set_num_this_ip (v : Z) (s : vsf_session) : vsf_session :=
  Session (p_local_addr s) (p_remote_addr s) (idle_timeout s) (data_timeout s)
    (pasv_listen_fd s) (p_port_sockaddr s) (data_fd s) (data_progress s) (bw_rate_max s)
    (bw_send_start_sec s) (bw_send_start_usec s) (is_anonymous s) (is_guest s) (user_str
    s) (anon_pass_str s) (restart_pos s) (is_ascii s) (abor_received s) (epsv_all s)
    (is_http s) (http_get_arg s) (p_visited_dir_list s) (anon_ftp_uid s) (guest_user_uid
    s) (anon_upload_chown_uid s) (banned_email_str s) (email_passwords_str s)
    (userlist_str s) (banner_str s) (tcp_wrapper_ok s) (xferlog_fd s) (vsftpd_log_fd s)
    (remote_ip_str s) (log_type s) (log_start_sec s) (log_start_usec s) (log_str s)
    (transfer_size s) (ftp_cmd_str s) (ftp_arg_str s) (num_clients s) v (home_str s)
    (control_use_ssl s) (data_use_ssl s) (p_data_ssl s) (ssl_slave_active s)
    (login_fails s) (permissions s).
Definition set_home_str (v : bytes) (s : vsf_session) : vsf_session :=
  Session (p_local_addr s) (p_remote_addr s) (idle_timeout s) (data_timeout s)
    (pasv_listen_fd s) (p_port_sockaddr s) (data_fd s) (data_progress s) (bw_rate_max s)
    (bw_send_start_sec s) (bw_send_start_usec s) (is_anonymous s) (is_guest s) (user_str
    s) (anon_pass_str s) (restart_pos s) (is_ascii s) (abor_received s) (epsv_all s)
    (is_http s) (http_get_arg s) (p_visited_dir_list s) (anon_ftp_uid s) (guest_user_uid
    s) (anon_upload_chown_uid s) (banned_email_str s) (email_passwords_str s)
    (userlist_str s) (banner_str s) (tcp_wrapper_ok s) (xferlog_fd s) (vsftpd_log_fd s)
    (remote_ip_str s) (log_type s) (log_start_sec s) (log_start_usec s) (log_str s)
    (transfer_size s) (ftp_cmd_str s) (ftp_arg_str s) (num_clients s) (num_this_ip s) v
    (control_use_ssl s) (data_use_ssl s) (p_data_ssl s) (ssl_slave_active s)
    (login_fails s) (permissions s).
Definition set_control_use_ssl (v : bool) (s : vsf_session) : vsf_session :=
  Session (p_local_addr s) (p_remote_addr s) (idle_timeout s) (data_timeout s)
    (pasv_listen_fd s) (p_port_sockaddr s) (data_fd s) (data_progress s) (bw_rate_max s)
    (bw_send_start_sec s) (bw_send_start_usec s) (is_anonymous s) (is_guest s) (user_str
    s) (anon_pass_str s) (restart_pos s) (is_ascii s) (abor_received s) (epsv_all s)
    (is_http s) (http_get_arg s) (p_visited_dir_list s) (anon_ftp_uid s) (guest_user_uid
    s) (anon_upload_chown_uid s) (banned_email_str s) (email_passwords_str s)
    (userlist_str s) (banner_str s) (tcp_wrapper_ok s) (xferlog_fd s) (vsftpd_log_fd s)
    (remote_ip_str s) (log_type s) (log_start_sec s) (log_start_usec s) (log_str s)
    (transfer_size s) (ftp_cmd_str s) (ftp_arg_str s) (num_clients s) (num_this_ip s)
    (home_str s) v (data_use_ssl s) (p_data_ssl s) (ssl_slave_active s) (login_fails s)
    (permissions s).
Definition set_data_use_ssl (v : bool) (s : vsf_session) : vsf_session :=
  Session (p_local_addr s) (p_remote_addr s) (idle_timeout s) (data_timeout s)
    (pasv_listen_fd s) (p_port_sockaddr s) (data_fd s) (data_progress s) (bw_rate_max s)
    (bw_send_start_sec s) (bw_send_start_usec s) (is_anonymous s) (is_guest s) (user_str
    s) (anon_pass_str s) (restart_pos s) (is_ascii s) (abor_received s) (epsv_all s)
    (is_http s) (http_get_arg s) (p_visited_dir_list s) (anon_ftp_uid s) (guest_user_uid
    s) (anon_upload_chown_uid s) (banned_email_str s) (email_passwords_str s)
    (userlist_str s) (banner_str s) (tcp_wrapper_ok s) (xferlog_fd s) (vsftpd_log_fd s)
    (remote_ip_str s) (log_type s) (log_start_sec s) (log_start_usec s) (log_str s)
    (transfer_size s) (ftp_cmd_str s) (ftp_arg_str s) (num_clients s) (num_this_ip s)
    (home_str s) (control_use_ssl s) v (p_data_ssl s) (ssl_slave_active s) (login_fails
    s) (permissions s).
Definition set_p_data_ssl (v : bool) (s : vsf_session) : vsf_session :=
  Session (p_local_addr s) (p_remote_addr s) (idle_timeout s) (data_timeout s)
    (pasv_listen_fd s) (p_port_sockaddr s) (data_fd s) (data_progress s) (bw_rate_max s)
    (bw_send_start_sec s) (bw_send_start_usec s) (is_anonymous s) (is_guest s) (user_str
    s) (anon_pass_str s) (restart_pos s) (is_ascii s) (abor_received s) (epsv_all s)
    (is_http s) (http_get_arg s) (p_visited_dir_list s) (anon_ftp_uid s) (guest_user_uid
    s) (anon_upload_chown_uid s) (banned_email_str s) (email_passwords_str s)
    (userlist_str s) (banner_str s) (tcp_wrapper_ok s) (xferlog_fd s) (vsftpd_log_fd s)
    (remote_ip_str s) (log_type s) (log_start_sec s) (log_start_usec s) (log_str s)
    (transfer_size s) (ftp_cmd_str s) (ftp_arg_str s) (num_clients s) (num_this_ip s)
    (home_str s) (control_use_ssl s) (data_use_ssl s) v (ssl_slave_active s)
    (login_fails s) (permissions s).
Definition set_ssl_slave_active (v : bool) (s : vsf_session) : vsf_session :=
  Session (p_local_addr s) (p_remote_addr s) (idle_timeout s) (data_timeout s)
    (pasv_listen_fd s) (p_port_sockaddr s) (data_fd s) (data_progress s) (bw_rate_max s)
    (bw_send_start_sec s) (bw_send_start_usec s) (is_anonymous s) (is_guest s) (user_str
    s) (anon_pass_str s) (restart_pos s) (is_ascii s) (abor_received s) (epsv_all s)
    (is_http s) (http_get_arg s) (p_visited_dir_list s) (anon_ftp_uid s) (guest_user_uid
    s) (anon_upload_chown_uid s) (banned_email_str s) (email_passwords_str s)
    (userlist_str s) (banner_str s) (tcp_wrapper_ok s) (xferlog_fd s) (vsftpd_log_fd s)
    (remote_ip_str s) (log_type s) (log_start_sec s) (log_start_usec s) (log_str s)
    (transfer_size s) (ftp_cmd_str s) (ftp_arg_str s) (num_clients s) (num_this_ip s)
    (home_str s) (control_use_ssl s) (data_use_ssl s) (p_data_ssl s) v (login_fails s)
    (permissions s).
Definition set_login_fails (v : Z) (s : vsf_session) : vsf_session :=
  Session (p_local_addr s) (p_remote_addr s) (idle_timeout s) (data_timeout s)
    (pasv_listen_fd s) (p_port_sockaddr s) (data_fd s) (data_progress s) (bw_rate_max s)
    (bw_send_start_sec s) (bw_send_start_usec s) (is_anonymous s) (is_guest s) (user_str
    s) (anon_pass_str s) (restart_pos s) (is_ascii s) (abor_received s) (epsv_all s)
    (is_http s) (http_get_arg s) (p_visited_dir_list s) (anon_ftp_uid s) (guest_user_uid
    s) (anon_upload_chown_uid s) (banned_email_str s) (email_passwords_str s)
    (userlist_str s) (banner_str s) (tcp_wrapper_ok s) (xferlog_fd s) (vsftpd_log_fd s)
    (remote_ip_str s) (log_type s) (log_start_sec s) (log_start_usec s) (log_str s)
    (transfer_size s) (ftp_cmd_str s) (ftp_arg_str s) (num_clients s) (num_this_ip s)
    (home_str s) (control_use_ssl s) (data_use_ssl s) (p_data_ssl s) (ssl_slave_active
    s) v (permissions s).
Definition set_permissions (v : Z) (s : vsf_session) : vsf_session :=
  Session (p_local_addr s) (p_remote_addr s) (idle_timeout s) (data_timeout s)
    (pasv_listen_fd s) (p_port_sockaddr s) (data_fd s) (data_progress s) (bw_rate_max s)
    (bw_send_start_sec s) (bw_send_start_usec s) (is_anonymous s) (is_guest s) (user_str
    s) (anon_pass_str s) (restart_pos s) (is_ascii s) (abor_received s) (epsv_all s)
    (is_http s) (http_get_arg s) (p_visited_dir_list s) (anon_ftp_uid s) (guest_user_uid
    s) (anon_upload_chown_uid s) (banned_email_str s) (email_passwords_str s)
    (userlist_str s) (banner_str s) (tcp_wrapper_ok s) (xferlog_fd s) (vsftpd_log_fd s)
    (remote_ip_str s) (log_type s) (log_start_sec s) (log_start_usec s) (log_str s)
    (transfer_size s) (ftp_cmd_str s) (ftp_arg_str s) (num_clients s) (num_this_ip s)
    (home_str s) (control_use_ssl s) (data_use_ssl s) (p_data_ssl s) (ssl_slave_active
    s) (login_fails s) v.

(** ** Calls *)

(** Signals that a session process handles, in the order of their numbers. *)
Inductive signal := SigALRM | SigTERM | SigURG.

(** Which function SIGALRM runs: [handle_alarm_timeout] of ftpcmdio.c or
    [handle_sigalrm] of ftpdataio.c. *)
Inductive alarm_handler := IdleAlarm | DataAlarm.

(** The context of [vsf_sysutil_check_pending_actions]. *)
Inductive context := CtxIO (retval fd : Z) | CtxUnknown.

(** The requests to COS, with the name of the bucket ([CosConfigure]: the
    settings of the client library). A response is a text in JSON; a download
    gives its length and data. *)
Inductive cos_op :=
  | CosConfigure (sign_expire_s conn_timeout_ms req_timeout_ms : Z) (take_sha : bool)
      (upload_slice_size : Z) (region : bytes) (cdn : bool) (appid : Z) (secretid secretkey : bytes)
  | FolderList (bucket path : bytes) (num : Z) (context : bytes)
  | FileStat (bucket path : bytes)
  | FolderStat (bucket path : bytes)
  | FolderCreate (bucket path : bytes)
  | FolderDelete (bucket path : bytes)
  | FileDelete (bucket path : bytes)
  | FileUpload (bucket src path : bytes)
  | FileDownload (bucket path : bytes) (bufflen offset : Z).

Inductive fs_op :=
  | Getcwd
  | Chdir (path : bytes)
  | Mkdir (path : bytes) (mode : Z)
  | Access (path : bytes)
  | Rmdir (path : bytes)
  | Unlink (path : bytes)
  | Create (path : bytes) (exclusive : bool)
  | Stat (path : bytes)
  | Fileread (path : bytes) (maxsize : Z)
  | Fstat (fd : Z)
  | Fchmod (fd mode : Z)
  | Fchown (fd uid : Z)
  | LockWrite (fd : Z) (wait : bool)
  | Unlock (fd : Z)
  | Ftruncate (fd : Z)
  | Lseek (fd pos : Z)
  | LseekEnd (fd : Z)
  | OpenRead (path : bytes)
  | OpenAppend (path : bytes) (mode : Z).

Inductive sock_op :=
  | Socket (ipv6 : bool)
  | Reuseaddr (fd : Z)
  | Bind (fd : Z) (addr : sockaddr)
  | Listen (fd backlog : Z)
  | Accept (fd timeout : Z)
  | Connect (fd : Z) (addr : sockaddr) (timeout : Z)
  | Sockopt (fd : Z) (opt : string)
  | Shutdown (fd : Z) (both : bool)
  | Getname (fd : Z) (peer : bool)
  | IsSocket (fd : Z)
  | Dup2 (old_fd new_fd : Z)
  | Socketpair.

Inductive sys_op :=
  | Errno
  | Alarm (seconds : Z)
  | Sleep (microseconds : Z)
  | Clock
  | CurrentDate
  | Getpid
  | RandomByte
  | Umask (mask : Z)
  | Getpwnam (user : bytes)
  | Proctitle (title : bytes)
  | Syslog (line : bytes) (severe : bool)
  | Strftime (format : string) (time : Z) (local : bool)
  | DoubleToStr (num den : Z)
  | InetNtop (addr : sockaddr)
  | InetAton (text : bytes)
  | IconvOpen (to from : string)
  | Iconv (cd : Z) (inbuf : bytes) (outlen : Z)
  | IconvClose (cd : Z)
  | Getenv (name : string)
  | Getuid
  | Resolve (host : bytes)
  | Fork (how : string)
  | Setup (what : string)
  | Pending.

(** The SSL library and the process that runs it for a logged-in session. *)
Inductive ssl_op :=
  | SlaveCmd (cmd : string) (payload : bytes)
  | SslCall (func : string) (payload : bytes).

Inductive call :=
  | Peek (n : Z)
  | Read (fd n : Z)
  | Write (fd : Z) (data : bytes)
  | Close (fd : Z)
  | Cos (op : cos_op)
  | Fs (op : fs_op)
  | Sock (op : sock_op)
  | Sys (op : sys_op)
  | Ssl (op : ssl_op).

(** What a call returns; each call uses the components it documents. *)
Record answer := Answer {
  a_int : Z;
  a_text : option bytes;
  a_addr : sockaddr;
  a_regfile : bool;
  a_size : Z;
  a_uid : Z;
  a_sigs : list signal
}.

Abbreviation history := (list (call * answer)).

(** The outside world, as a function of the past (newest first). *)
Class Env := env : history → call → answer.

(** The configuration the process runs with. *)
Class Tun := tun : tunables.

(** ** The monad *)

(** [w_in]: what the client will have sent on the control connection;
    [parent]: the privileged parent's copy of the session (two process model);
    the other fields are the file-level statics of the source. *)
Record world := World {
  sess : vsf_session;
  parent : vsf_session;
  w_in : bytes;
  hist : history;
  alarm : option alarm_handler;
  io_handler : bool;
  io_handler_running : bool;
  alrm_running : bool;
  urg_running : bool;
  sigurg : bool;
  s_deny_str : bytes;
  s_hide_str : bytes;
  s_max_upload : Z;
  s_download_bufsize : option Z;
  has_init : bool
}.

Definition M (A : Type) : Type := world → res A * world.

#[global] Instance M_ret : MRet M := λ A a w, (Ok a, w).
#[global] Instance M_bind : MBind M := λ A B k m w,
  match m w with
  | (Ok a, w') => k a w'
  | (Err s, w') => (Err s, w')
  end.

Definition stop_with {A} (s : stop) : M A := λ w, (Err s, w).
Definition mbug {A} (msg : string) : M A := stop_with (Bug (lit msg)).
Definition mdie {A} (msg : string) : M A := stop_with (Die (lit msg)).

(** A pure computation that may stop the program. *)
Definition lift {A} (m : res A) : M A := λ w, (m, w).

Definition gets {A} (f : vsf_session → A) : M A := λ w, (Ok (f (sess w)), w).
Definition getw {A} (f : world → A) : M A := λ w, (Ok (f w), w).
Definition modw (f : world → world) : M unit := λ w, (Ok tt, f w).

Definition when (b : bool) (m : M unit) : M unit := if b then m else mret tt.

Definition put_sess (v : vsf_session) (w : world) : world :=
  World v (parent w) (w_in w) (hist w) (alarm w) (io_handler w) (io_handler_running w)
    (alrm_running w) (urg_running w) (sigurg w) (s_deny_str w) (s_hide_str w)
    (s_max_upload w) (s_download_bufsize w) (has_init w).
Definition put_parent (v : vsf_session) (w : world) : world :=
  World (sess w) v (w_in w) (hist w) (alarm w) (io_handler w) (io_handler_running w)
    (alrm_running w) (urg_running w) (sigurg w) (s_deny_str w) (s_hide_str w)
    (s_max_upload w) (s_download_bufsize w) (has_init w).
Definition put_w_in (v : bytes) (w : world) : world :=
  World (sess w) (parent w) v (hist w) (alarm w) (io_handler w) (io_handler_running w)
    (alrm_running w) (urg_running w) (sigurg w) (s_deny_str w) (s_hide_str w)
    (s_max_upload w) (s_download_bufsize w) (has_init w).
Definition put_hist (v : history) (w : world) : world :=
  World (sess w) (parent w) (w_in w) v (alarm w) (io_handler w) (io_handler_running w)
    (alrm_running w) (urg_running w) (sigurg w) (s_deny_str w) (s_hide_str w)
    (s_max_upload w) (s_download_bufsize w) (has_init w).
Definition put_alarm (v : option alarm_handler) (w : world) : world :=
  World (sess w) (parent w) (w_in w) (hist w) v (io_handler w) (io_handler_running w)
    (alrm_running w) (urg_running w) (sigurg w) (s_deny_str w) (s_hide_str w)
    (s_max_upload w) (s_download_bufsize w) (has_init w).
Definition put_io_handler (v : bool) (w : world) : world :=
  World (sess w) (parent w) (w_in w) (hist w) (alarm w) v (io_handler_running w)
    (alrm_running w) (urg_running w) (sigurg w) (s_deny_str w) (s_hide_str w)
    (s_max_upload w) (s_download_bufsize w) (has_init w).
Definition put_io_handler_running (v : bool) (w : world) : world :=
  World (sess w) (parent w) (w_in w) (hist w) (alarm w) (io_handler w) v
    (alrm_running w) (urg_running w) (sigurg w) (s_deny_str w) (s_hide_str w)
    (s_max_upload w) (s_download_bufsize w) (has_init w).
Definition put_alrm_running (v : bool) (w : world) : world :=
  World (sess w) (parent w) (w_in w) (hist w) (alarm w) (io_handler w)
    (io_handler_running w) v (urg_running w) (sigurg w) (s_deny_str w) (s_hide_str w)
    (s_max_upload w) (s_download_bufsize w) (has_init w).
Definition put_urg_running (v : bool) (w : world) : world :=
  World (sess w) (parent w) (w_in w) (hist w) (alarm w) (io_handler w)
    (io_handler_running w) (alrm_running w) v (sigurg w) (s_deny_str w) (s_hide_str w)
    (s_max_upload w) (s_download_bufsize w) (has_init w).
Definition put_sigurg (v : bool) (w : world) : world :=
  World (sess w) (parent w) (w_in w) (hist w) (alarm w) (io_handler w)
    (io_handler_running w) (alrm_running w) (urg_running w) v (s_deny_str w)
    (s_hide_str w) (s_max_upload w) (s_download_bufsize w) (has_init w).
Definition put_s_deny_str (v : bytes) (w : world) : world :=
  World (sess w) (parent w) (w_in w) (hist w) (alarm w) (io_handler w)
    (io_handler_running w) (alrm_running w) (urg_running w) (sigurg w) v (s_hide_str w)
    (s_max_upload w) (s_download_bufsize w) (has_init w).
Definition put_s_hide_str (v : bytes) (w : world) : world :=
  World (sess w) (parent w) (w_in w) (hist w) (alarm w) (io_handler w)
    (io_handler_running w) (alrm_running w) (urg_running w) (sigurg w) (s_deny_str w) v
    (s_max_upload w) (s_download_bufsize w) (has_init w).
Definition put_s_max_upload (v : Z) (w : world) : world :=
  World (sess w) (parent w) (w_in w) (hist w) (alarm w) (io_handler w)
    (io_handler_running w) (alrm_running w) (urg_running w) (sigurg w) (s_deny_str w)
    (s_hide_str w) v (s_download_bufsize w) (has_init w).
Definition put_s_download_bufsize (v : option Z) (w : world) : world :=
  World (sess w) (parent w) (w_in w) (hist w) (alarm w) (io_handler w)
    (io_handler_running w) (alrm_running w) (urg_running w) (sigurg w) (s_deny_str w)
    (s_hide_str w) (s_max_upload w) v (has_init w).
Definition put_has_init (v : bool) (w : world) : world :=
  World (sess w) (parent w) (w_in w) (hist w) (alarm w) (io_handler w)
    (io_handler_running w) (alrm_running w) (urg_running w) (sigurg w) (s_deny_str w)
    (s_hide_str w) (s_max_upload w) (s_download_bufsize w) v.

Definition upd (f : vsf_session → vsf_session) : M unit :=
  modw (λ w, put_sess (f (sess w)) w).

(** Run on the parent's copy of the session: what the privileged process does
    on request. *)
Definition on_parent {A} (m : M A) : M A := λ w,
  let '(r, w') := m (put_parent (sess w) (put_sess (parent w) w)) in
  (r, put_parent (sess w') (put_sess (parent w') w')).

(** Perform a call and record it. *)
Definition ask `{Env} (c : call) : M answer := λ w,
  let a := env (hist w) c in (Ok a, put_hist ((c, a) :: hist w) w).

Definition sys `{Env} (c : call) : M Z := a ← ask c; mret (a_int a).
Definition do_ `{Env} (c : call) : M unit := ask c;; mret tt.

(** A call whose failure ends the process. *)
Definition must `{Env} (c : call) (msg : string) : M unit :=
  r ← sys c; if r <? 0 then mdie msg else mret tt.

(** What runs after a call that may block: [vsf_sysutil_check_pending_actions].
    It is a parameter of the code that makes such calls, because its handlers
    make some themselves; Signals.v gives the instance. *)
Class Pend := check_pending : context → M unit.

(** ** A fresh session

    The fields as main.c initialises them, with the addresses given; a starting
    point for examples. *)
Definition fresh_session (local remote : sockaddr) : vsf_session :=
  Session local remote false false (-1) None (-1) false 0 0 0 true false [] [] 0 true false
    false false [] None (-1) (-1) (-1) [] [] [] [] true (-1) (-1) [] 0 0 0 [] 0 [] [] 0 0 []
    false false false false 0 0.

Definition fresh_world (s : vsf_session) (inp : bytes) : world :=
  World s s inp [] None false false false false false [] [] (-1) None false.

(** Answer every call with [z] and the text [t]. *)
Definition answer_with (z : Z) (t : bytes) : answer :=
  Answer z (Some t) vsf_sysutil_sockaddr_alloc true 0 0 [].
