(* ===== verification/Seccomp.v ===== *)
(** * seccompsandbox.c: the system call filter

    The tables of permitted system calls, the functions that fill them for
    each stage of a session, and [seccomp_sandbox_lockdown], which compiles the
    tables into a BPF program and installs it. The code is guarded by
    [CLOSE_THIS] (the x86-64 Linux guard is commented out): a build without
    that macro has empty functions in its place.

    The BPF machine is the kernel's: it is the class [Bpf], with the documented
    effect of the four instructions that the code generates. *)

From Stdlib Require Import ZArith Lia String.
From stdpp Require Import base list numbers option.
From S2P Require Import Prelude Tunables Session.

(** ** Constants of the x86-64 Linux headers *)

Definition NR_read : Z := 0.
Definition NR_write : Z := 1.
Definition NR_open : Z := 2.
Definition NR_close : Z := 3.
Definition NR_stat : Z := 4.
Definition NR_fstat : Z := 5.
Definition NR_lstat : Z := 6.
Definition NR_lseek : Z := 8.
Definition NR_mmap : Z := 9.
Definition NR_mprotect : Z := 10.
Definition NR_munmap : Z := 11.
Definition NR_brk : Z := 12.
Definition NR_rt_sigaction : Z := 13.
Definition NR_rt_sigreturn : Z := 15.
Definition NR_select : Z := 23.
Definition NR_mremap : Z := 25.
Definition NR_nanosleep : Z := 35.
Definition NR_alarm : Z := 37.
Definition NR_getpid : Z := 39.
Definition NR_sendfile : Z := 40.
Definition NR_socket : Z := 41.
Definition NR_connect : Z := 42.
Definition NR_accept : Z := 43.
Definition NR_sendto : Z := 44.
Definition NR_recvfrom : Z := 45.
Definition NR_sendmsg : Z := 46.
Definition NR_recvmsg : Z := 47.
Definition NR_shutdown : Z := 48.
Definition NR_bind : Z := 49.
Definition NR_listen : Z := 50.
Definition NR_setsockopt : Z := 54.
Definition NR_getsockopt : Z := 55.
Definition NR_fcntl : Z := 72.
Definition NR_ftruncate : Z := 77.
Definition NR_getdents : Z := 78.
Definition NR_getcwd : Z := 79.
Definition NR_chdir : Z := 80.
Definition NR_rename : Z := 82.
Definition NR_mkdir : Z := 83.
Definition NR_rmdir : Z := 84.
Definition NR_unlink : Z := 87.
Definition NR_readlink : Z := 89.
Definition NR_chmod : Z := 90.
Definition NR_fchmod : Z := 91.
Definition NR_fchown : Z := 93.
Definition NR_umask : Z := 95.
Definition NR_gettimeofday : Z := 96.
Definition NR_utime : Z := 132.
Definition NR_restart_syscall : Z := 219.
Definition NR_exit_group : Z := 231.
Definition NR_utimes : Z := 235.
Definition NR_openat : Z := 257.

Definition O_RDWR : Z := 2.
Definition O_ACCMODE : Z := 3.
Definition O_CREAT : Z := 64.
Definition O_EXCL : Z := 128.
Definition O_APPEND : Z := 1024.
Definition O_NONBLOCK : Z := 2048.
Definition O_LARGEFILE : Z := 32768.
Definition O_DIRECTORY : Z := 65536.
Definition O_CLOEXEC : Z := 524288.

Definition PROT_READ : Z := 1.
Definition PROT_WRITE : Z := 2.
Definition MAP_SHARED : Z := 1.
Definition MAP_PRIVATE : Z := 2.
Definition MAP_ANON : Z := 32.

Definition PF_INET : Z := 2.
Definition PF_INET6 : Z := 10.
Definition SOCK_STREAM : Z := 1.
Definition IPPROTO_IP : Z := 0.
Definition IPPROTO_TCP : Z := 6.
Definition SOL_SOCKET : Z := 1.
Definition SO_REUSEADDR : Z := 2.
Definition SO_ERROR : Z := 4.
Definition SO_KEEPALIVE : Z := 9.
Definition SO_LINGER : Z := 13.
Definition IP_TOS : Z := 1.
Definition TCP_NODELAY : Z := 1.
Definition MSG_PEEK : Z := 2.
Definition F_GETFL : Z := 3.
Definition F_SETFL : Z := 4.
Definition F_SETLK : Z := 6.
Definition F_SETLKW : Z := 7.
Definition F_SETOWN : Z := 8.
Definition EACCES : Z := 13.
Definition EINVAL : Z := 22.
Definition ENOSYS : Z := 38.

(** The bitwise or of a list of flags. *)
Definition flags (l : list Z) : Z := foldr Z.lor 0 l.

Definition kMaxSyscalls : nat := 100.

Definition kOpenFlags : Z :=
  flags [O_CREAT; O_EXCL; O_APPEND; O_NONBLOCK; O_DIRECTORY; O_CLOEXEC; O_LARGEFILE].

(** ** The tables *)

Record tables := Tables {
  s_syscall_index : nat;
  s_1_arg_validations : nat;
  s_2_arg_validations : nat;
  s_3_arg_validations : nat;
  s_syscalls : list Z;
  s_errnos : list Z;
  s_args_1 : list Z;
  s_vals_1 : list Z;
  s_args_2 : list Z;
  s_vals_2 : list Z;
  s_args_3 : list Z;
  s_vals_3 : list Z
}.

(** Statics start out zero. *)
Definition no_tables : tables :=
  let z := replicate kMaxSyscalls 0 in Tables 0 0 0 0 z z z z z z z z.

(** A step that changes the tables or stops the program. *)
Definition setup : Type := tables → res tables.
Definition skip : setup := Ok.
Definition and_then (p q : setup) : setup := λ t, res_bind (p t) q.
Notation "p ';;>' q" := (and_then p q) (at level 60, right associativity).
Definition only (b : bool) (p : setup) : setup := if b then p else skip.

(** One row of the tables: the stores of an [allow_nr] function, in its order.
    The arguments that a function does not store stay [None]. *)
Definition store (v : option Z) (i : nat) (l : list Z) : list Z :=
  match v with Some z => <[i := z]> l | None => l end.

Definition add_row (nr errcode : Z) (a1 v1 a2 v2 a3 v3 : option Z) (n1 n2 n3 : nat) : setup := λ t,
  let i := s_syscall_index t in
  Ok (Tables (S i) (s_1_arg_validations t + n1) (s_2_arg_validations t + n2)
        (s_3_arg_validations t + n3)
        (<[i := nr]> (s_syscalls t)) (<[i := errcode]> (s_errnos t))
        (store a1 i (s_args_1 t)) (store v1 i (s_vals_1 t))
        (store a2 i (s_args_2 t)) (store v2 i (s_vals_2 t))
        (store a3 i (s_args_3 t)) (store v3 i (s_vals_3 t))).

(** The two tests that every function starts with. *)
Definition check_row (nr : Z) : setup := λ t,
  if (kMaxSyscalls <=? s_syscall_index t)%nat then bug "out of syscall space"
  else if nr <? 0 then bug "negative syscall"
  else Ok t.

Definition check_arg (arg : Z) (msg : string) : setup := λ t,
  if (arg <? 1) || (6 <? arg) then bug msg else Ok t.

Definition allow_nr (nr : Z) : setup :=
  check_row nr ;;> add_row nr 0 None None None None None None 0 0 0.

Definition reject_nr (nr errcode : Z) : setup :=
  check_row nr ;;>
  (λ t, if (errcode <? 0) || (255 <? errcode) then bug "bad errcode" else Ok t) ;;>
  add_row nr errcode None None None None None None 0 0 0.

Definition allow_nr_1_arg_match (nr arg val : Z) : setup :=
  check_row nr ;;> check_arg arg "arg out of range" ;;>
  add_row nr 0 (Some arg) (Some val) None None None None 1 0 0.

Definition allow_nr_1_arg_mask (nr arg val : Z) : setup :=
  check_row nr ;;> check_arg arg "arg out of range" ;;>
  add_row nr 0 (Some (100 + arg)) (Some val) None None None None 1 0 0.

Definition allow_nr_2_arg_match (nr arg1 val1 arg2 val2 : Z) : setup :=
  check_row nr ;;> check_arg arg1 "arg1 out of range" ;;> check_arg arg2 "arg2 out of range" ;;>
  add_row nr 0 (Some arg1) (Some val1) (Some arg2) (Some val2) None None 0 1 0.

Definition allow_nr_2_arg_mask_match (nr arg1 val1 arg2 val2 : Z) : setup :=
  check_row nr ;;> check_arg arg1 "arg1 out of range" ;;> check_arg arg2 "arg2 out of range" ;;>
  add_row nr 0 (Some (100 + arg1)) (Some val1) (Some arg2) (Some val2) None None 0 1 0.

Definition allow_nr_3_arg_match (nr arg1 val1 arg2 val2 arg3 val3 : Z) : setup :=
  check_row nr ;;> check_arg arg1 "arg1 out of range" ;;> check_arg arg2 "arg2 out of range" ;;>
  check_arg arg3 "arg3 out of range" ;;>
  add_row nr 0 (Some arg1) (Some val1) (Some arg2) (Some val2) (Some arg3) (Some val3) 0 0 1.

(** ** What each stage of a session may call *)

Section Setup.
Context `{Tun}.

Definition seccomp_sandbox_setup_data_connections : setup :=
  allow_nr_3_arg_match NR_socket 1 PF_INET 2 SOCK_STREAM 3 IPPROTO_TCP ;;>
  allow_nr_3_arg_match NR_socket 1 PF_INET6 2 SOCK_STREAM 3 IPPROTO_TCP ;;>
  allow_nr NR_bind ;;>
  allow_nr NR_select ;;>
  only (tb tun "port_enable")
    (allow_nr NR_connect ;;>
     allow_nr_2_arg_match NR_getsockopt 2 SOL_SOCKET 3 SO_ERROR ;;>
     allow_nr_2_arg_match NR_setsockopt 2 SOL_SOCKET 3 SO_REUSEADDR ;;>
     allow_nr_1_arg_match NR_fcntl 2 F_GETFL ;;>
     allow_nr_2_arg_match NR_fcntl 2 F_SETFL 3 (flags [O_RDWR; O_NONBLOCK]) ;;>
     allow_nr_2_arg_match NR_fcntl 2 F_SETFL 3 O_RDWR) ;;>
  only (tb tun "pasv_enable") (allow_nr NR_listen ;;> allow_nr NR_accept).

Definition seccomp_sandbox_setup_cos : setup :=
  allow_nr_3_arg_match NR_socket 1 PF_INET 2 SOCK_STREAM 3 IPPROTO_TCP ;;>
  allow_nr_3_arg_match NR_socket 1 PF_INET6 2 SOCK_STREAM 3 IPPROTO_TCP ;;>
  allow_nr NR_bind ;;>
  allow_nr NR_select ;;>
  allow_nr NR_listen ;;>
  allow_nr NR_accept ;;>
  allow_nr NR_connect ;;>
  allow_nr_2_arg_match NR_getsockopt 2 SOL_SOCKET 3 SO_ERROR ;;>
  allow_nr_2_arg_match NR_setsockopt 2 SOL_SOCKET 3 SO_REUSEADDR ;;>
  allow_nr_1_arg_match NR_fcntl 2 F_GETFL ;;>
  allow_nr_2_arg_match NR_fcntl 2 F_SETFL 3 (flags [O_RDWR; O_NONBLOCK]) ;;>
  allow_nr_2_arg_match NR_fcntl 2 F_SETFL 3 O_RDWR ;;>
  allow_nr NR_mkdir.

Definition seccomp_sandbox_setup_base : setup :=
  allow_nr NR_read ;;>
  allow_nr NR_write ;;>
  allow_nr_2_arg_match NR_mmap 3 (flags [PROT_READ; PROT_WRITE])
    4 (flags [MAP_PRIVATE; MAP_ANON]) ;;>
  allow_nr_1_arg_mask NR_mprotect 3 PROT_READ ;;>
  allow_nr NR_munmap ;;>
  allow_nr NR_brk ;;>
  reject_nr NR_mremap ENOSYS ;;>
  allow_nr NR_gettimeofday ;;>
  allow_nr NR_rt_sigreturn ;;>
  allow_nr NR_restart_syscall ;;>
  allow_nr NR_close ;;>
  allow_nr NR_exit_group.

Definition seccomp_sandbox_init : setup := λ t,
  if negb (s_syscall_index t =? 0)%nat then bug "bad state in seccomp_sandbox_init" else Ok t.

Definition seccomp_sandbox_setup_prelogin : setup :=
  seccomp_sandbox_setup_base ;;>
  allow_nr_1_arg_match NR_recvfrom 4 MSG_PEEK ;;>
  allow_nr NR_nanosleep ;;>
  allow_nr NR_getpid ;;>
  allow_nr NR_shutdown ;;>
  allow_nr_1_arg_match NR_fcntl 2 F_GETFL ;;>
  allow_nr_2_arg_mask_match NR_fcntl 3 (flags [kOpenFlags; O_ACCMODE]) 2 F_SETFL ;;>
  only (0 <? tu tun "idle_session_timeout") (allow_nr NR_rt_sigaction ;;> allow_nr NR_alarm) ;;>
  only (tb tun "xferlog_enable" || tb tun "dual_log_enable")
    (allow_nr_1_arg_match NR_fcntl 2 F_SETLKW ;;> allow_nr_1_arg_match NR_fcntl 2 F_SETLK) ;;>
  only (tb tun "ssl_enable")
    (allow_nr_1_arg_match NR_recvmsg 3 0 ;;>
     allow_nr_2_arg_match NR_setsockopt 2 IPPROTO_TCP 3 TCP_NODELAY) ;;>
  only (tb tun "syslog_enable") (reject_nr NR_socket EACCES).

(** [pid] is [vsf_sysutil_getpid()]. *)
Definition seccomp_sandbox_setup_postlogin (is_anon : bool) (pid : Z) : setup :=
  let open_flag :=
    if tb tun "write_enable" then flags [kOpenFlags; O_ACCMODE] else kOpenFlags in
  allow_nr NR_lstat ;;>
  seccomp_sandbox_setup_prelogin ;;>
  only (tb tun "xferlog_enable" || tb tun "dual_log_enable" || tb tun "lock_upload_files")
    (allow_nr_1_arg_match NR_fcntl 2 F_SETLKW ;;> allow_nr_1_arg_match NR_fcntl 2 F_SETLK) ;;>
  only (tb tun "async_abor_enable") (allow_nr_2_arg_match NR_fcntl 2 F_SETOWN 3 pid) ;;>
  allow_nr_2_arg_match NR_setsockopt 2 SOL_SOCKET 3 SO_KEEPALIVE ;;>
  allow_nr_2_arg_match NR_setsockopt 2 SOL_SOCKET 3 SO_LINGER ;;>
  allow_nr_2_arg_match NR_setsockopt 2 IPPROTO_IP 3 IP_TOS ;;>
  allow_nr NR_fstat ;;>
  allow_nr NR_lseek ;;>
  allow_nr_1_arg_mask NR_open 2 open_flag ;;>
  allow_nr_1_arg_mask NR_openat 3 open_flag ;;>
  allow_nr NR_stat ;;>
  allow_nr NR_readlink ;;>
  allow_nr NR_getcwd ;;>
  allow_nr NR_chdir ;;>
  allow_nr NR_getdents ;;>
  allow_nr NR_umask ;;>
  only (tb tun "use_sendfile") (allow_nr NR_sendfile) ;;>
  only ((0 <? tu tun "idle_session_timeout") || (0 <? tu tun "data_connection_timeout")
        || tb tun "async_abor_enable") (allow_nr NR_rt_sigaction) ;;>
  only ((0 <? tu tun "idle_session_timeout") || (0 <? tu tun "data_connection_timeout"))
    (allow_nr NR_alarm) ;;>
  (if tb tun "one_process_model"
   then seccomp_sandbox_setup_data_connections ;;>
        only (is_anon && tb tun "chown_uploads") (allow_nr NR_fchmod ;;> allow_nr NR_fchown)
   else allow_nr_1_arg_match NR_recvmsg 3 0 ;;>
        only ((is_anon && tb tun "chown_uploads") || tb tun "ssl_enable")
          (allow_nr_1_arg_match NR_sendmsg 3 0)) ;;>
  only (tb tun "syslog_enable") (allow_nr_1_arg_match NR_sendto 6 0) ;;>
  only (tb tun "text_userdb_names")
    (reject_nr NR_socket EACCES ;;>
     allow_nr_2_arg_match NR_mmap 3 PROT_READ 4 MAP_SHARED) ;;>
  only (tb tun "write_enable")
    (only (negb is_anon || tb tun "anon_mkdir_write_enable") (allow_nr NR_mkdir) ;;>
     only (negb is_anon || tb tun "anon_other_write_enable" || tb tun "delete_failed_uploads")
       (allow_nr NR_unlink) ;;>
     only (negb is_anon || tb tun "anon_other_write_enable")
       (allow_nr NR_rmdir ;;> allow_nr NR_rename ;;> allow_nr NR_ftruncate ;;>
        only (tb tun "mdtm_write") (allow_nr NR_utime ;;> allow_nr NR_utimes)) ;;>
     only (negb is_anon && tb tun "chmod_enable") (allow_nr NR_chmod)) ;;>
  seccomp_sandbox_setup_cos.

Definition seccomp_sandbox_setup_postlogin_broker : setup :=
  seccomp_sandbox_setup_base ;;>
  seccomp_sandbox_setup_data_connections ;;>
  allow_nr_1_arg_match NR_sendmsg 3 0.

End Setup.

(** ** The BPF program *)

Definition BPF_LD_W_ABS : Z := 32.
Definition BPF_JMP_JEQ_K : Z := 21.
Definition BPF_JMP_JSET_K : Z := 69.
Definition BPF_RET_K : Z := 6.

(** [struct sock_filter]: fields of 16, 8, 8 and 32 bits. *)
Record sock_filter := SockFilter { code : Z; jt : Z; jf : Z; k : Z }.

Definition AUDIT_ARCH_X86_64 : Z := 3221225534.
Definition SECCOMP_RET_KILL : Z := 0.
Definition SECCOMP_RET_ALLOW : Z := 2147418112.
Definition SECCOMP_RET_ERRNO : Z := 327680.

(** A write through [p_filter], and [p_filter++]: the instructions written so
    far, in an array of [len]. *)
Definition buf : Type := list sock_filter.
Definition emit (len : nat) (c t f v : Z) (p : buf) : res buf :=
  if (length p <? len)%nat
  then Ok (p ++ [SockFilter (u16 c) (t mod 256) (f mod 256) (u32 v)]) else Err UB.

Notation "p '>->' q" := (λ b, res_bind (p b) q) (at level 60, right associativity).

(** An entry of a table; an index outside it leaves C. *)
Definition at_ (l : list Z) (i : nat) : res Z :=
  match l !! i with Some z => Ok z | None => Err UB end.

Section Lockdown.
Import ResNotations.
Local Abbreviation ld len v := (emit len BPF_LD_W_ABS 0 0 v).

(** The body of the loop, for one row of the table. *)
Definition entry_code (len : nat) (nr e a1 v1 a2 v2 a3 v3 : Z) : buf → res buf :=
  let block_size :=
    if negb (a3 =? 0) then 8 else if negb (a2 =? 0) then 6 else if negb (a1 =? 0) then 4 else 1 in
  emit len BPF_JMP_JEQ_K 0 block_size nr >->
  (if negb (a3 =? 0)
   then ld len (16 + (a3 - 1) * 8) >-> emit len BPF_JMP_JEQ_K 0 5 v3
   else Ok) >->
  (if negb (a2 =? 0)
   then ld len (16 + (a2 - 1) * 8) >-> emit len BPF_JMP_JEQ_K 0 3 v2
   else Ok) >->
  (if negb (a1 =? 0)
   then if 100 <? a1
        then ld len (16 + (a1 - 100 - 1) * 8) >-> emit len BPF_JMP_JSET_K 1 0 (Z.lnot v1)
        else ld len (16 + (a1 - 1) * 8) >-> emit len BPF_JMP_JEQ_K 0 1 v1
   else Ok) >->
  emit len BPF_RET_K 0 0 (if e =? 0 then SECCOMP_RET_ALLOW else SECCOMP_RET_ERRNO + e) >->
  (if negb (a1 =? 0) then ld len 0 else Ok).

Definition lockdown_entry (len : nat) (t : tables) (i : nat) (p : buf) : res buf :=
  let* a3 := at_ (s_args_3 t) i in
  let* a2 := at_ (s_args_2 t) i in
  let* a1 := at_ (s_args_1 t) i in
  let* v3 := at_ (s_vals_3 t) i in
  let* v2 := at_ (s_vals_2 t) i in
  let* v1 := at_ (s_vals_1 t) i in
  let* nr := at_ (s_syscalls t) i in
  let* e := at_ (s_errnos t) i in
  entry_code len nr e a1 v1 a2 v2 a3 v3 p.

Fixpoint lockdown_loop (len : nat) (t : tables) (n i : nat) (p : buf) : res buf :=
  match n with
  | O => Ok p
  | S n => let* p := lockdown_entry len t i p in lockdown_loop len t n (S i) p
  end.

(** The size of the array [filters]. *)
Definition filters_len (t : tables) : nat :=
  (s_syscall_index t * 2) + (s_1_arg_validations t * 3) + (s_2_arg_validations t * 5)
  + (s_3_arg_validations t * 7) + 5.

Definition filters_code (len : nat) (t : tables) : buf → res buf :=
  ld len 4 >->
  emit len BPF_JMP_JEQ_K 1 0 AUDIT_ARCH_X86_64 >->
  emit len BPF_RET_K 0 0 SECCOMP_RET_KILL >->
  ld len 0 >->
  lockdown_loop len t (s_syscall_index t) 0 >->
  emit len BPF_RET_K 0 0 SECCOMP_RET_KILL.

Definition lockdown_filters (t : tables) : res buf := filters_code (filters_len t) t [].

(** [prctl], as the results and the [errno] it may give; what the function did
    is the list of its calls. *)
Inductive prctl_call :=
  | SetNoNewPrivs
  | SetSeccomp (len : Z) (filter : buf).
Class Prctl := prctl : prctl_call → Z * Z.

Definition seccomp_sandbox_lockdown `{Tun, Prctl} (t : tables) : res (list prctl_call) :=
  let* filters := lockdown_filters t in
  let '(ret, errno) := prctl SetNoNewPrivs in
  if negb (ret =? 0)
  then if errno =? EINVAL then Ok [SetNoNewPrivs] else die "prctl PR_SET_NO_NEW_PRIVS"
  else if negb (tb tun "seccomp_sandbox") then Ok [SetNoNewPrivs]
  else
    let prog := SetSeccomp (u16 (Z.of_nat (filters_len t))) filters in
    let '(ret, errno) := prctl prog in
    if negb (ret =? 0)
    then if errno =? EINVAL then Ok [SetNoNewPrivs; prog] else die "prctl PR_SET_SECCOMP failed"
    else Ok [SetNoNewPrivs; prog].

End Lockdown.
