(* ===== verification/SeccompPolicy.v ===== *)
(** * The policy that the system call filter enforces

    A table of Seccomp.v stands for a list of rules. The program that
    [seccomp_sandbox_lockdown] generates decides every system call as the list
    of rules does, on any machine with the laws of [Bpf]; the rules that each
    stage of a session installs are given in full, for every configuration. *)

From Stdlib Require Import ZArith Lia String.
From stdpp Require Import base list numbers option.
From S2P Require Import Prelude Tunables Session Seccomp.

(** ** The BPF machine *)

(** [struct seccomp_data]; [args 1] is the first argument. *)
Record seccomp_data := SeccompData {
  nr : Z;
  arch : Z;
  ip : Z;
  args : Z → Z
}.

Definition high32 (z : Z) : Z := u32 (z / UINT_MOD).

(** The 32-bit word at an aligned offset (little endian). *)
Definition data_word (d : seccomp_data) (off : Z) : Z :=
  if off =? 0 then u32 (nr d)
  else if off =? 4 then u32 (arch d)
  else if off =? 8 then u32 (ip d)
  else if off =? 12 then high32 (ip d)
  else let v := args d ((off - 16) / 8 + 1) in if off mod 8 =? 0 then u32 v else high32 v.

(** [exec p pc a d]: what the program returns from instruction [pc] with
    accumulator [a]. *)
Class Bpf := {
  exec : buf → nat → Z → seccomp_data → option Z;
  exec_ld p pc a d f : p !! pc = Some f → code f = BPF_LD_W_ABS →
    exec p pc a d = exec p (S pc) (data_word d (k f)) d;
  exec_jeq p pc a d f : p !! pc = Some f → code f = BPF_JMP_JEQ_K →
    exec p pc a d = exec p (S pc + Z.to_nat (if a =? k f then jt f else jf f)) a d;
  exec_jset p pc a d f : p !! pc = Some f → code f = BPF_JMP_JSET_K →
    exec p pc a d =
      exec p (S pc + Z.to_nat (if negb (Z.land a (k f) =? 0) then jt f else jf f)) a d;
  exec_ret p pc a d f : p !! pc = Some f → code f = BPF_RET_K →
    exec p pc a d = Some (k f)
}.

(** ** Rules *)

Inductive arg_check :=
  | ArgIs (arg val : Z)
  | ArgWithin (arg mask : Z).

Record rule := Rule { r_nr : Z; r_checks : list arg_check; r_errno : Z }.

Definition low (d : seccomp_data) (arg : Z) : Z := u32 (args d arg).

Definition check_ok (d : seccomp_data) (c : arg_check) : bool :=
  match c with
  | ArgIs arg val => low d arg =? u32 val
  | ArgWithin arg mask => Z.land (low d arg) (u32 (Z.lnot mask)) =? 0
  end.

Definition matches (d : seccomp_data) (r : rule) : bool :=
  (u32 (nr d) =? u32 (r_nr r)) && forallb (check_ok d) (r_checks r).

Definition r_action (r : rule) : Z :=
  if r_errno r =? 0 then SECCOMP_RET_ALLOW else SECCOMP_RET_ERRNO + r_errno r.

(** The first rule that matches decides; no rule, no call. *)
Fixpoint verdict_of (R : list rule) (d : seccomp_data) : Z :=
  match R with
  | [] => SECCOMP_RET_KILL
  | r :: R => if matches d r then r_action r else verdict_of R d
  end.

Definition verdict (R : list rule) (d : seccomp_data) : Z :=
  if u32 (arch d) =? AUDIT_ARCH_X86_64 then verdict_of R d else SECCOMP_RET_KILL.

(** ** Tables as lists of rules *)

Definition check_arg_code (c : arg_check) : Z :=
  match c with ArgIs a _ => a | ArgWithin a _ => 100 + a end.
Definition check_val (c : arg_check) : Z :=
  match c with ArgIs _ v | ArgWithin _ v => v end.

Definition arg_of (n : nat) (r : rule) : Z := default 0 (check_arg_code <$> r_checks r !! n).
Definition val_of (n : nat) (r : rule) : Z := default 0 (check_val <$> r_checks r !! n).

Definition column (f : rule → Z) (R : list rule) : list Z :=
  (f <$> R) ++ replicate (kMaxSyscalls - length R) 0.

Definition with_checks (n : nat) (R : list rule) : nat :=
  length (filter (λ r, length (r_checks r) = n) R).

Definition tables_of (R : list rule) : tables :=
  Tables (length R) (with_checks 1 R) (with_checks 2 R) (with_checks 3 R)
    (column r_nr R) (column r_errno R) (column (arg_of 0) R) (column (val_of 0) R)
    (column (arg_of 1) R) (column (val_of 1) R) (column (arg_of 2) R) (column (val_of 2) R).

(** An argument number that the setup functions accept. *)
Definition arg_ok (c : arg_check) : bool :=
  match c with ArgIs a _ | ArgWithin a _ => (1 <=? a) && (a <=? 6) end.
Definition is_exact (c : arg_check) : bool := match c with ArgIs _ _ => true | _ => false end.

(** At most three checks, and only the first one a mask. *)
Definition rule_ok (r : rule) : bool :=
  (0 <=? r_nr r) && (0 <=? r_errno r) && (r_errno r <=? 255)
  && (length (r_checks r) <=? 3)%nat && forallb arg_ok (r_checks r)
  && forallb is_exact (tail (r_checks r)).

(** [p] adds the rules [S] to any table that has room for them. *)
Definition adds (p : setup) (S : list rule) : Prop :=
  ∀ R, (length R + length S ≤ kMaxSyscalls)%nat → p (tables_of R) = Ok (tables_of (R ++ S)).

Lemma no_tables_of : no_tables = tables_of [].
Proof. reflexivity. Qed.

Lemma column_snoc f R r :
  (length R < kMaxSyscalls)%nat → <[length R := f r]> (column f R) = column f (R ++ [r]).
Proof.
  intros Hl. unfold column. rewrite insert_app_r_alt by (rewrite length_fmap; lia).
  rewrite length_fmap, Nat.sub_diag, fmap_app, <- app_assoc, length_app. cbn [length].
  destruct (kMaxSyscalls - length R)%nat as [|n] eqn:E; [lia|].
  replace (kMaxSyscalls - (length R + 1))%nat with n by lia. done.
Qed.

Lemma column_zero f R r :
  (length R < kMaxSyscalls)%nat → f r = 0 → column f R = column f (R ++ [r]).
Proof.
  intros Hl Hf. rewrite <- column_snoc by done. rewrite Hf. symmetry.
  apply list_insert_id. unfold column.
  rewrite lookup_app_r, length_fmap, Nat.sub_diag by (rewrite length_fmap; lia).
  apply lookup_replicate. lia.
Qed.

Lemma store_column f R r v :
  (length R < kMaxSyscalls)%nat → f r = default 0 v →
  store v (length R) (column f R) = column f (R ++ [r]).
Proof.
  intros Hl Hf. destruct v as [z|]; cbn in *; subst; [by apply column_snoc|by apply column_zero].
Qed.

Lemma with_checks_snoc n R r :
  with_checks n (R ++ [r]) = (with_checks n R + if decide (length (r_checks r) = n) then 1 else 0)%nat.
Proof. unfold with_checks. rewrite list.filter_app, length_app, filter_cons. by case_decide. Qed.

Lemma with_checks_cons n R r :
  with_checks n (r :: R) = ((if decide (length (r_checks r) = n) then 1 else 0) + with_checks n R)%nat.
Proof. unfold with_checks. rewrite filter_cons. by case_decide. Qed.

(** Adding one row is adding one rule. *)
Lemma add_row_rule nr e cs R a1 v1 a2 v2 a3 v3 n1 n2 n3 :
  let r := Rule nr cs e in
  (length R < kMaxSyscalls)%nat →
  (arg_of 0 r, val_of 0 r, arg_of 1 r) = (default 0 a1, default 0 v1, default 0 a2) →
  (val_of 1 r, arg_of 2 r, val_of 2 r) = (default 0 v2, default 0 a3, default 0 v3) →
  n1 = (if decide (length cs = 1%nat) then 1%nat else 0%nat) →
  n2 = (if decide (length cs = 2%nat) then 1%nat else 0%nat) →
  n3 = (if decide (length cs = 3%nat) then 1%nat else 0%nat) →
  add_row nr e a1 v1 a2 v2 a3 v3 n1 n2 n3 (tables_of R) = Ok (tables_of (R ++ [r])).
Proof.
  intros r Hl [= H1 H2 H3] [= H4 H5 H6] -> -> ->. unfold add_row, tables_of. cbn [s_syscall_index
    s_1_arg_validations s_2_arg_validations s_3_arg_validations s_syscalls s_errnos s_args_1
    s_vals_1 s_args_2 s_vals_2 s_args_3 s_vals_3].
  rewrite !with_checks_snoc, length_app. cbn [r_checks r length].
  rewrite !(store_column _ R r), <- !(column_snoc _ R r), Nat.add_1_r by done. done.
Qed.

(** ** The setup functions add rules *)

Create HintDb adds discriminated.

Lemma adds_skip : adds skip [].
Proof. intros R _. by rewrite app_nil_r. Qed.

Lemma adds_then p q S1 S2 : adds p S1 → adds q S2 → adds (p ;;> q) (S1 ++ S2).
Proof.
  intros Hp Hq R Hl. rewrite length_app in Hl. unfold and_then. rewrite Hp by lia. cbn [res_bind].
  rewrite Hq by (rewrite length_app; lia). by rewrite app_assoc.
Qed.

Lemma adds_if (b : bool) p q S1 S2 :
  adds p S1 → adds q S2 → adds (if b then p else q) (if b then S1 else S2).
Proof. by destruct b. Qed.

Lemma adds_only (b : bool) p S : adds p S → adds (only b p) (if b then S else []).
Proof. intros H. apply adds_if; [done|apply adds_skip]. Qed.

(** A guarded row: the guards pass on a legal rule. *)
Lemma adds_row (p : setup) r :
  (∀ R, (length R < kMaxSyscalls)%nat → p (tables_of R) = Ok (tables_of (R ++ [r]))) →
  adds p [r].
Proof. intros H R Hl. apply H. cbn in Hl. lia. Qed.

Lemma check_row_ok nr R :
  (length R < kMaxSyscalls)%nat → 0 ≤ nr → check_row nr (tables_of R) = Ok (tables_of R).
Proof.
  intros Hl Hn. unfold check_row. cbn [s_syscall_index tables_of].
  destruct (Nat.leb_spec kMaxSyscalls (length R)); [lia|]. by ztest.
Qed.

Lemma check_arg_ok arg msg t : 1 ≤ arg ≤ 6 → check_arg arg msg t = Ok t.
Proof. intros H. unfold check_arg. by ztest. Qed.

Ltac adds_one :=
  let Hl := fresh "Hl" in
  apply adds_row; intros R Hl; unfold and_then;
  rewrite check_row_ok by (done || lia); cbn [res_bind];
  repeat (rewrite check_arg_ok by lia; cbn [res_bind]);
  apply add_row_rule; done.

Section AddsOne.
Variables nr a1 v1 a2 v2 a3 v3 : Z.
Hypotheses (Hnr : 0 ≤ nr) (H1 : 1 ≤ a1 ≤ 6) (H2 : 1 ≤ a2 ≤ 6) (H3 : 1 ≤ a3 ≤ 6).

Lemma adds_allow_nr : adds (allow_nr nr) [Rule nr [] 0].
Proof using Hnr. unfold allow_nr. adds_one. Qed.

Lemma adds_reject_nr e : 0 ≤ e ≤ 255 → adds (reject_nr nr e) [Rule nr [] e].
Proof using Hnr.
  intros He. unfold reject_nr. apply adds_row. intros R Hl. unfold and_then.
  rewrite check_row_ok by done. cbn [res_bind]. ztest. cbn [orb res_bind].
  by apply add_row_rule.
Qed.

Lemma adds_1_match : adds (allow_nr_1_arg_match nr a1 v1) [Rule nr [ArgIs a1 v1] 0].
Proof using Hnr H1. unfold allow_nr_1_arg_match. adds_one. Qed.

Lemma adds_1_mask : adds (allow_nr_1_arg_mask nr a1 v1) [Rule nr [ArgWithin a1 v1] 0].
Proof using Hnr H1. unfold allow_nr_1_arg_mask. adds_one. Qed.

Lemma adds_2_match :
  adds (allow_nr_2_arg_match nr a1 v1 a2 v2) [Rule nr [ArgIs a1 v1; ArgIs a2 v2] 0].
Proof using Hnr H1 H2. unfold allow_nr_2_arg_match. adds_one. Qed.

Lemma adds_2_mask_match :
  adds (allow_nr_2_arg_mask_match nr a1 v1 a2 v2) [Rule nr [ArgWithin a1 v1; ArgIs a2 v2] 0].
Proof using Hnr H1 H2. unfold allow_nr_2_arg_mask_match. adds_one. Qed.

Lemma adds_3_match :
  adds (allow_nr_3_arg_match nr a1 v1 a2 v2 a3 v3)
    [Rule nr [ArgIs a1 v1; ArgIs a2 v2; ArgIs a3 v3] 0].
Proof using Hnr H1 H2 H3. unfold allow_nr_3_arg_match. adds_one. Qed.

End AddsOne.

#[export] Hint Resolve adds_skip adds_allow_nr adds_reject_nr adds_1_match adds_1_mask
  adds_2_match adds_2_mask_match adds_3_match : adds.
#[export] Hint Extern 1 (_ ≤ _) => (vm_compute; discriminate) : adds.
#[export] Hint Extern 1 (_ ≤ _ ≤ _) => (split; vm_compute; discriminate) : adds.

(** A sequence of steps adds the rules of its steps, step by step. *)
Ltac adds_auto :=
  repeat match goal with
  | |- adds (_ ;;> _) _ => apply adds_then
  | |- adds (only _ _) _ => apply adds_only
  | |- adds (if _ then _ else _) _ => apply adds_if
  | |- adds _ _ => solve [eauto 2 with adds]
  end.
Lemma adds_eq p S1 S2 : adds p S1 → S1 = S2 → adds p S2.
Proof. by intros ? <-. Qed.

(** ** The rules of each stage *)

Definition plain (n : Z) : rule := Rule n [] 0.
Definition is1 (n a v : Z) : rule := Rule n [ArgIs a v] 0.
Definition is2 (n a v b u : Z) : rule := Rule n [ArgIs a v; ArgIs b u] 0.
Definition tcp_socket (family : Z) : rule :=
  Rule NR_socket [ArgIs 1 family; ArgIs 2 SOCK_STREAM; ArgIs 3 IPPROTO_TCP] 0.
Definition connect_rules : list rule :=
  [plain NR_connect; is2 NR_getsockopt 2 SOL_SOCKET 3 SO_ERROR;
   is2 NR_setsockopt 2 SOL_SOCKET 3 SO_REUSEADDR; is1 NR_fcntl 2 F_GETFL;
   is2 NR_fcntl 2 F_SETFL 3 (flags [O_RDWR; O_NONBLOCK]); is2 NR_fcntl 2 F_SETFL 3 O_RDWR].
Definition lock_rules : list rule := [is1 NR_fcntl 2 F_SETLKW; is1 NR_fcntl 2 F_SETLK].

Definition base_rules : list rule :=
  [plain NR_read; plain NR_write;
   is2 NR_mmap 3 (flags [PROT_READ; PROT_WRITE]) 4 (flags [MAP_PRIVATE; MAP_ANON]);
   Rule NR_mprotect [ArgWithin 3 PROT_READ] 0; plain NR_munmap; plain NR_brk;
   Rule NR_mremap [] ENOSYS; plain NR_gettimeofday; plain NR_rt_sigreturn;
   plain NR_restart_syscall; plain NR_close; plain NR_exit_group].

Definition cos_rules : list rule :=
  [tcp_socket PF_INET; tcp_socket PF_INET6; plain NR_bind; plain NR_select; plain NR_listen;
   plain NR_accept] ++ connect_rules ++ [plain NR_mkdir].

Section Rules.
Context `{Tun}.

Definition data_rules : list rule :=
  [tcp_socket PF_INET; tcp_socket PF_INET6; plain NR_bind; plain NR_select]
  ++ (if tb tun "port_enable" then connect_rules else [])
  ++ (if tb tun "pasv_enable" then [plain NR_listen; plain NR_accept] else []).

Definition prelogin_rules : list rule :=
  base_rules
  ++ [is1 NR_recvfrom 4 MSG_PEEK; plain NR_nanosleep; plain NR_getpid; plain NR_shutdown;
      is1 NR_fcntl 2 F_GETFL;
      Rule NR_fcntl [ArgWithin 3 (flags [kOpenFlags; O_ACCMODE]); ArgIs 2 F_SETFL] 0]
  ++ (if 0 <? tu tun "idle_session_timeout" then [plain NR_rt_sigaction; plain NR_alarm] else [])
  ++ (if tb tun "xferlog_enable" || tb tun "dual_log_enable" then lock_rules else [])
  ++ (if tb tun "ssl_enable"
      then [is1 NR_recvmsg 3 0; is2 NR_setsockopt 2 IPPROTO_TCP 3 TCP_NODELAY] else [])
  ++ (if tb tun "syslog_enable" then [Rule NR_socket [] EACCES] else []).

(** What the session may ask of a file, after login. *)
Definition open_mask : Z :=
  if tb tun "write_enable" then flags [kOpenFlags; O_ACCMODE] else kOpenFlags.

Definition write_rules (is_anon : bool) : list rule :=
  (if negb is_anon || tb tun "anon_mkdir_write_enable" then [plain NR_mkdir] else [])
  ++ (if negb is_anon || tb tun "anon_other_write_enable" || tb tun "delete_failed_uploads"
      then [plain NR_unlink] else [])
  ++ (if negb is_anon || tb tun "anon_other_write_enable"
      then [plain NR_rmdir; plain NR_rename; plain NR_ftruncate]
           ++ (if tb tun "mdtm_write" then [plain NR_utime; plain NR_utimes] else [])
      else [])
  ++ (if negb is_anon && tb tun "chmod_enable" then [plain NR_chmod] else []).

Definition process_rules (is_anon : bool) : list rule :=
  if tb tun "one_process_model"
  then data_rules
       ++ (if is_anon && tb tun "chown_uploads" then [plain NR_fchmod; plain NR_fchown] else [])
  else is1 NR_recvmsg 3 0
       :: (if (is_anon && tb tun "chown_uploads") || tb tun "ssl_enable"
           then [is1 NR_sendmsg 3 0] else []).

Definition file_rules (pid : Z) : list rule :=
  (if tb tun "xferlog_enable" || tb tun "dual_log_enable" || tb tun "lock_upload_files"
   then lock_rules else [])
  ++ (if tb tun "async_abor_enable" then [is2 NR_fcntl 2 F_SETOWN 3 pid] else [])
  ++ [is2 NR_setsockopt 2 SOL_SOCKET 3 SO_KEEPALIVE; is2 NR_setsockopt 2 SOL_SOCKET 3 SO_LINGER;
      is2 NR_setsockopt 2 IPPROTO_IP 3 IP_TOS; plain NR_fstat; plain NR_lseek;
      Rule NR_open [ArgWithin 2 open_mask] 0; Rule NR_openat [ArgWithin 3 open_mask] 0;
      plain NR_stat; plain NR_readlink; plain NR_getcwd; plain NR_chdir; plain NR_getdents;
      plain NR_umask]
  ++ (if tb tun "use_sendfile" then [plain NR_sendfile] else [])
  ++ (if (0 <? tu tun "idle_session_timeout") || (0 <? tu tun "data_connection_timeout")
         || tb tun "async_abor_enable" then [plain NR_rt_sigaction] else [])
  ++ (if (0 <? tu tun "idle_session_timeout") || (0 <? tu tun "data_connection_timeout")
      then [plain NR_alarm] else []).

Definition postlogin_rules (is_anon : bool) (pid : Z) : list rule :=
  plain NR_lstat :: prelogin_rules ++ file_rules pid ++ process_rules is_anon
  ++ (if tb tun "syslog_enable" then [is1 NR_sendto 6 0] else [])
  ++ (if tb tun "text_userdb_names"
      then [Rule NR_socket [] EACCES; is2 NR_mmap 3 PROT_READ 4 MAP_SHARED] else [])
  ++ (if tb tun "write_enable" then write_rules is_anon else [])
  ++ cos_rules.

Definition broker_rules : list rule := base_rules ++ data_rules ++ [is1 NR_sendmsg 3 0].

Lemma adds_data_connections : adds seccomp_sandbox_setup_data_connections data_rules.
Proof. eapply adds_eq; [unfold seccomp_sandbox_setup_data_connections; adds_auto|reflexivity]. Qed.

Lemma adds_cos : adds seccomp_sandbox_setup_cos cos_rules.
Proof. eapply adds_eq; [unfold seccomp_sandbox_setup_cos; adds_auto|reflexivity]. Qed.

Lemma adds_base : adds seccomp_sandbox_setup_base base_rules.
Proof. eapply adds_eq; [unfold seccomp_sandbox_setup_base; adds_auto|reflexivity]. Qed.

#[local] Hint Resolve adds_data_connections adds_cos adds_base : adds.

Lemma adds_prelogin : adds seccomp_sandbox_setup_prelogin prelogin_rules.
Proof. eapply adds_eq; [unfold seccomp_sandbox_setup_prelogin; adds_auto|reflexivity]. Qed.

#[local] Hint Resolve adds_prelogin : adds.

Lemma adds_postlogin is_anon pid :
  adds (seccomp_sandbox_setup_postlogin is_anon pid) (postlogin_rules is_anon pid).
Proof.
  eapply adds_eq; [unfold seccomp_sandbox_setup_postlogin; cbv zeta; adds_auto|].
  unfold postlogin_rules, file_rules. rewrite <- !app_assoc. reflexivity.
Qed.

Lemma adds_broker : adds seccomp_sandbox_setup_postlogin_broker broker_rules.
Proof. eapply adds_eq; [unfold seccomp_sandbox_setup_postlogin_broker; adds_auto|reflexivity]. Qed.

End Rules.

(** ** The code of a rule *)

Definition ins (c t f v : Z) : sock_filter := SockFilter c t f (u32 v).

(** The test of one argument, with [n] instructions to skip when it fails. *)
Definition test (c : arg_check) (n : Z) : list sock_filter :=
  match c with
  | ArgIs a v => [ins BPF_LD_W_ABS 0 0 (16 + (a - 1) * 8); ins BPF_JMP_JEQ_K 0 n v]
  | ArgWithin a v =>
      [ins BPF_LD_W_ABS 0 0 (16 + (a - 1) * 8); ins BPF_JMP_JSET_K n 0 (Z.lnot v)]
  end.

Fixpoint tests (cs : list arg_check) : buf :=
  match cs with
  | [] => []
  | c :: cs => test c (2 * Z.of_nat (length cs) + 1) ++ tests cs
  end.

(** The last check is tested first; the accumulator is reloaded after a test. *)
Definition block_body (r : rule) : buf :=
  tests (rev (r_checks r)) ++ [ins BPF_RET_K 0 0 (r_action r)]
  ++ (if r_checks r is [] then [] else [ins BPF_LD_W_ABS 0 0 0]).

Definition block (r : rule) : buf :=
  ins BPF_JMP_JEQ_K 0 (Z.of_nat (length (block_body r))) (r_nr r) :: block_body r.

Definition prologue : buf :=
  [ins BPF_LD_W_ABS 0 0 4; ins BPF_JMP_JEQ_K 1 0 AUDIT_ARCH_X86_64;
   ins BPF_RET_K 0 0 SECCOMP_RET_KILL; ins BPF_LD_W_ABS 0 0 0].

Definition program (R : list rule) : buf :=
  prologue ++ concat (block <$> R) ++ [ins BPF_RET_K 0 0 SECCOMP_RET_KILL].

Lemma length_tests cs : length (tests cs) = (2 * length cs)%nat.
Proof. induction cs as [|[] cs IH]; cbn [tests test app length]; lia. Qed.

Lemma length_block r :
  length (block r) = (2 + 2 * length (r_checks r) + if r_checks r is [] then 0 else 1)%nat.
Proof.
  unfold block, block_body. cbn [length]. rewrite !length_app, length_tests, length_rev.
  destruct (r_checks r); cbn [length]; lia.
Qed.

Lemma column_lookup f R i r : R !! i = Some r → at_ (column f R) i = Ok (f r).
Proof.
  intros Hr. unfold at_, column.
  rewrite lookup_app_l by (rewrite length_fmap; by apply lookup_lt_Some in Hr).
  by rewrite list_lookup_fmap, Hr.
Qed.

(** Writing a list of instructions through [p_filter]. *)
Definition emits (len : nat) (f : buf → res buf) (l : buf) : Prop :=
  ∀ p, (length p + length l ≤ len)%nat → f p = Ok (p ++ l).

Lemma emits_nil len : emits len Ok [].
Proof. intros p _. by rewrite app_nil_r. Qed.
Lemma emits_emit len c t f v :
  0 ≤ c < 65536 → 0 ≤ t < 256 → 0 ≤ f < 256 → emits len (emit len c t f v) [ins c t f v].
Proof.
  intros Hc Ht Hf p Hl. unfold emit, u16. cbn [length] in Hl.
  destruct (Nat.ltb_spec (length p) len); [|lia].
  by rewrite !Z.mod_small by lia.
Qed.
Lemma emits_seq len f g l1 l2 : emits len f l1 → emits len g l2 → emits len (f >-> g) (l1 ++ l2).
Proof.
  intros Hf Hg p Hl. rewrite length_app in Hl. rewrite Hf by lia. cbn [res_bind].
  rewrite Hg by (rewrite length_app; lia). by rewrite app_assoc.
Qed.
Lemma emits_eq len f l1 l2 : emits len f l1 → l1 = l2 → emits len f l2.
Proof. by intros ? <-. Qed.
Ltac emits_auto :=
  repeat match goal with
  | |- emits _ (λ _, res_bind _ _) _ => apply emits_seq
  | |- emits _ Ok _ => apply emits_nil
  | |- emits _ (emit _ _ _ _ _) _ => apply emits_emit; split; vm_compute; congruence
  end.

Lemma rule_ok_inv r : rule_ok r = true →
  0 ≤ r_nr r ∧ 0 ≤ r_errno r ≤ 255 ∧
  match r_checks r with
  | [] => True
  | [c] => arg_ok c = true
  | [c; ArgIs a v] => arg_ok c = true ∧ 1 ≤ a ≤ 6
  | [c; ArgIs a v; ArgIs b u] => arg_ok c = true ∧ 1 ≤ a ≤ 6 ∧ 1 ≤ b ≤ 6
  | _ => False
  end.
Proof.
  destruct r as [n cs e]. unfold rule_ok. cbn [r_nr r_checks r_errno]. intros H. b2p.
  split_and!; [lia..|].
  destruct cs as [|c [|[a v|a v] [|[b u|b u] [|??]]]]; cbn in *; b2p; try done; split_and?; lia.
Qed.

(** The loop body emits the block of its rule. *)
Lemma emits_entry_code len r :
  rule_ok r = true →
  emits len (entry_code len (r_nr r) (r_errno r) (arg_of 0 r) (val_of 0 r) (arg_of 1 r) (val_of 1 r)
               (arg_of 2 r) (val_of 2 r)) (block r).
Proof.
  intros (_ & _ & Hc)%rule_ok_inv. destruct r as [n cs e].
  unfold entry_code, arg_of, val_of, block, block_body, r_action. cbn [r_nr r_checks r_errno] in *.
  destruct cs as [|[a v|a v] [|[b u|] [|[c w|] [|]]]]; try done; cbn in Hc; b2p;
    cbn [lookup list_lookup fmap option_fmap option_map from_option id check_arg_code check_val];
    ztest; cbn [negb]; (eapply emits_eq; [emits_auto|]); cbn [app rev tests test length]; try done.
  all: by replace (100 + a - 100) with a by lia.
Qed.

Lemma emits_entry len R i r :
  R !! i = Some r → rule_ok r = true →
  emits len (lockdown_entry len (tables_of R) i) (block r).
Proof.
  intros Hr Hok p Hl. unfold lockdown_entry.
  cbn [tables_of s_args_1 s_args_2 s_args_3 s_vals_1 s_vals_2 s_vals_3 s_syscalls s_errnos].
  rewrite !(column_lookup _ R i r Hr). by apply emits_entry_code.
Qed.

Lemma emits_loop len R1 R2 :
  forallb rule_ok R2 = true →
  emits len (lockdown_loop len (tables_of (R1 ++ R2)) (length R2) (length R1)) (concat (block <$> R2)).
Proof.
  revert R1. induction R2 as [|r R2 IH]; intros R1 Hok p Hl;
    cbn [fmap list_fmap concat lockdown_loop forallb length] in *; [by rewrite app_nil_r|].
  apply andb_true_iff in Hok as [Hr Hok]. rewrite length_app in Hl.
  rewrite (emits_entry len _ _ r (list_lookup_middle _ _ _ _ eq_refl) Hr) by lia. cbn [res_bind].
  specialize (IH (R1 ++ [r]) Hok). rewrite <- app_assoc, length_app, Nat.add_1_r in IH.
  rewrite IH by (rewrite length_app; lia). by rewrite <- app_assoc.
Qed.

Lemma filters_len_of R :
  forallb rule_ok R = true → filters_len (tables_of R) = length (program R).
Proof.
  unfold filters_len, program. cbn [tables_of s_syscall_index s_1_arg_validations
    s_2_arg_validations s_3_arg_validations]. rewrite !length_app. cbn [length prologue].
  intros Hok. enough (length R * 2 + with_checks 1 R * 3 + with_checks 2 R * 5 + with_checks 3 R * 7
    = length (concat (block <$> R)))%nat by lia.
  induction R as [|r R IH]; [done|]. cbn in Hok. apply andb_true_iff in Hok as [Hr Hok].
  cbn [fmap list_fmap concat length]. rewrite length_app, length_block, <- IH by done.
  rewrite !with_checks_cons. apply rule_ok_inv in Hr as (_ & _ & Hc).
  destruct (r_checks r) as [|? [|[] [|[] [|]]]]; try done; cbn [length]; repeat case_decide; lia.
Qed.

(** The program fits its array exactly. *)
Lemma lockdown_filters_of R :
  forallb rule_ok R = true → lockdown_filters (tables_of R) = Ok (program R).
Proof.
  intros Hok. unfold lockdown_filters. rewrite filters_len_of by done.
  enough (emits (length (program R)) (filters_code (length (program R)) (tables_of R)) (program R))
    as He by exact (He [] (le_n _)).
  unfold filters_code. eapply emits_eq; [emits_auto; by apply (emits_loop _ [])|]. done.
Qed.

(** ** The code does what the rules say *)

Section Machine.
Context `{Bpf}.

(** [pc] is the position after [C1] of [C1 ++ C2]. *)
Lemma exec_at_ld C1 C2 a d v :
  0 ≤ v < UINT_MOD →
  exec (C1 ++ ins BPF_LD_W_ABS 0 0 v :: C2) (length C1) a d =
  exec (C1 ++ ins BPF_LD_W_ABS 0 0 v :: C2) (S (length C1)) (data_word d v) d.
Proof.
  intros Hv. erewrite exec_ld; [|by apply list_lookup_middle|done].
  cbn [k ins]. by rewrite u32_small.
Qed.

Lemma exec_at_ret C1 C2 a d v :
  exec (C1 ++ ins BPF_RET_K 0 0 v :: C2) (length C1) a d = Some (u32 v).
Proof. by erewrite exec_ret; [|by apply list_lookup_middle|]. Qed.

Lemma exec_at_jeq C1 C2 a d t f v :
  exec (C1 ++ ins BPF_JMP_JEQ_K t f v :: C2) (length C1) a d =
  exec (C1 ++ ins BPF_JMP_JEQ_K t f v :: C2)
    (S (length C1) + Z.to_nat (if a =? u32 v then t else f)) a d.
Proof. by erewrite exec_jeq; [|by apply list_lookup_middle|]. Qed.

Lemma exec_at_jset C1 C2 a d t f v :
  exec (C1 ++ ins BPF_JMP_JSET_K t f v :: C2) (length C1) a d =
  exec (C1 ++ ins BPF_JMP_JSET_K t f v :: C2)
    (S (length C1) + Z.to_nat (if Z.land a (u32 v) =? 0 then f else t)) a d.
Proof.
  erewrite exec_jset; [|by apply list_lookup_middle|done]. cbn [k jt jf ins]. by destruct (_ =? 0).
Qed.

Lemma data_word_arg d a : 1 ≤ a ≤ 6 → data_word d (16 + (a - 1) * 8) = low d a.
Proof.
  intros Ha. unfold data_word. ztest.
  replace (16 + (a - 1) * 8 - 16) with ((a - 1) * 8) by lia. rewrite Z.div_mul by lia.
  replace (16 + (a - 1) * 8) with (0 + (a + 1) * 8) by lia. rewrite Z.mod_add by lia.
  by replace (a - 1 + 1) with a by lia.
Qed.

(** One test goes on to the next instruction or skips [n] of them. *)
Lemma exec_at_test C1 C2 a d c n :
  arg_ok c = true → 0 ≤ n →
  exec (C1 ++ test c n ++ C2) (length C1) a d =
  exec (C1 ++ test c n ++ C2) (2 + length C1 + if check_ok d c then 0 else Z.to_nat n)
    (low d (check_arg_code c mod 100)) d.
Proof.
  intros Hc Hn.
  destruct c as [b v|b v]; cbn [arg_ok check_ok test app] in *; b2p;
    rewrite exec_at_ld, data_word_arg by (unfold UINT_MOD; lia); cbn [check_arg_code].
  - rewrite cons_middle, app_assoc. replace (S (length C1)) with (length (C1 ++ [ins BPF_LD_W_ABS 0 0 (16 + (b - 1) * 8)]))
      by (rewrite length_app; cbn; lia).
    rewrite exec_at_jeq, Z.mod_small by lia. f_equal. rewrite length_app. cbn [length].
    destruct (_ =? _); lia.
  - rewrite cons_middle, app_assoc. replace (S (length C1)) with (length (C1 ++ [ins BPF_LD_W_ABS 0 0 (16 + (b - 1) * 8)]))
      by (rewrite length_app; cbn; lia).
    rewrite exec_at_jset. replace ((100 + b) mod 100) with b
      by (rewrite <- (Z.mod_small b 100) at 1 by lia; rewrite <- (Z.mod_add b 1 100) by lia; f_equal; lia).
    f_equal. rewrite length_app. cbn [length]. destruct (_ =? _); lia.
Qed.

(** The tests of a rule, before its return and the reload. *)
Lemma exec_at_tests cs C1 C2 a d act :
  forallb arg_ok cs = true → cs ≠ [] →
  let C := C1 ++ tests cs ++ ins BPF_RET_K 0 0 act :: ins BPF_LD_W_ABS 0 0 0 :: C2 in
  exec C (length C1) a d =
  if forallb (check_ok d) cs then Some (u32 act)
  else exec C (length C1 + 2 * length cs + 2) (u32 (nr d)) d.
Proof.
  revert C1 a. induction cs as [|c cs IH]; intros C1 a Hok Hne C; [done|]. clear Hne.
  cbn [forallb] in Hok |- *. apply andb_true_iff in Hok as [Hc Hok].
  assert (C = C1 ++ test c (2 * Z.of_nat (length cs) + 1) ++
    (tests cs ++ ins BPF_RET_K 0 0 act :: ins BPF_LD_W_ABS 0 0 0 :: C2)) as HC
    by (unfold C; cbn [tests]; by rewrite <- !app_assoc).
  assert (length (test c (2 * Z.of_nat (length cs) + 1)) = 2%nat) as Ht by by destruct c.
  rewrite HC, exec_at_test by (done || lia). set (T := test c _) in *.
  destruct (check_ok d c); cbn [andb length].
  - destruct cs as [|c' cs'].
    + cbn [tests app forallb]. rewrite app_assoc.
      replace (2 + length C1 + 0)%nat with (length (C1 ++ T)) by (rewrite length_app; lia).
      by rewrite exec_at_ret.
    + rewrite app_assoc.
      replace (2 + length C1 + 0)%nat with (length (C1 ++ T)) by (rewrite length_app; lia).
      rewrite IH by done. rewrite length_app, Ht. cbn [length].
      case_match; [done|f_equal; lia].
  - set (X := tests cs). assert (length X = (2 * length cs)%nat) as HX by apply length_tests.
    assert (C1 ++ T ++ X ++ ins BPF_RET_K 0 0 act :: ins BPF_LD_W_ABS 0 0 0 :: C2 =
      (C1 ++ T ++ X ++ [ins BPF_RET_K 0 0 act]) ++ ins BPF_LD_W_ABS 0 0 0 :: C2) as HE
      by by rewrite <- !app_assoc.
    rewrite HE.
    replace (2 + length C1 + Z.to_nat (2 * Z.of_nat (length cs) + 1))%nat
      with (length (C1 ++ T ++ X ++ [ins BPF_RET_K 0 0 act]))
      by (rewrite !length_app, Ht, HX; cbn [length]; lia).
    rewrite exec_at_ld by (unfold UINT_MOD; lia). f_equal. rewrite !length_app, Ht, HX. cbn [length]. lia.
Qed.

Lemma r_action_u32 r : 0 ≤ r_errno r ≤ 255 → u32 (r_action r) = r_action r.
Proof.
  intros He. apply u32_small. unfold r_action, SECCOMP_RET_ERRNO, SECCOMP_RET_ALLOW, UINT_MOD.
  destruct (_ =? 0); lia.
Qed.

(** A block decides the calls its rule matches and passes the others on. *)
Lemma exec_at_block C1 C2 d r :
  rule_ok r = true →
  let C := C1 ++ block r ++ C2 in
  exec C (length C1) (u32 (nr d)) d =
  if matches d r then Some (r_action r)
  else exec C (length C1 + length (block r)) (u32 (nr d)) d.
Proof.
  intros Hok C. apply rule_ok_inv in Hok as Hr. destruct Hr as (_ & He & _).
  assert (forallb arg_ok (rev (r_checks r)) = true) as Ha.
  { unfold rule_ok in Hok. b2p. apply forallb_forall. intros c Hc.
    eapply forallb_forall; [done|]. by apply in_rev. }
  unfold matches. rewrite <- (r_action_u32 r) by done. unfold C.
  assert (forallb (check_ok d) (r_checks r) = forallb (check_ok d) (rev (r_checks r))) as ->.
  { apply eq_true_iff_eq. rewrite !forallb_forall. setoid_rewrite <- in_rev. done. }
  cbn [block app]. rewrite exec_at_jeq. destruct (_ =? u32 (r_nr r)) eqn:En; cbn [andb].
  2:{ f_equal. unfold block. cbn [length]. rewrite Nat2Z.id. lia. }
  rewrite cons_middle, app_assoc.
  replace (S (length C1) + Z.to_nat 0)%nat
    with (length (C1 ++ [ins BPF_JMP_JEQ_K 0 (Z.of_nat (length (block_body r))) (r_nr r)]))
    by (rewrite length_app; cbn [length]; lia).
  set (C1' := C1 ++ [_]). assert (length C1' = S (length C1)) as HC1
    by (unfold C1'; rewrite length_app; cbn [length]; lia).
  unfold block_body. destruct (r_checks r) as [|c cs] eqn:Ecs.
  - cbn [rev tests app forallb]. by rewrite exec_at_ret.
  - assert (rev (c :: cs) ≠ []) as Hne by (cbn [rev]; by destruct (rev cs)).
    assert (length (rev (c :: cs)) = S (length cs)) as HL by (rewrite length_rev; done).
    rewrite <- !app_assoc. cbn [app]. rewrite exec_at_tests by done. rewrite HL, HC1, length_block, Ecs.
    case_match; [done|]. f_equal. cbn [length]. lia.
Qed.

Lemma exec_at_rules R C1 C2 d :
  forallb rule_ok R = true →
  let C := C1 ++ concat (block <$> R) ++ ins BPF_RET_K 0 0 SECCOMP_RET_KILL :: C2 in
  exec C (length C1) (u32 (nr d)) d = Some (verdict_of R d).
Proof.
  revert C1. induction R as [|r R IH]; intros C1 Hok C; cbn [forallb] in Hok.
  - unfold C. cbn [fmap list_fmap concat app verdict_of]. by rewrite exec_at_ret.
  - apply andb_true_iff in Hok as [Hr Hok]. cbn [verdict_of].
    assert (C = C1 ++ block r ++ (concat (block <$> R) ++ ins BPF_RET_K 0 0 SECCOMP_RET_KILL :: C2))
      as -> by (unfold C; cbn [fmap list_fmap concat]; by rewrite <- app_assoc).
    rewrite exec_at_block by done. destruct (matches d r); [done|].
    rewrite app_assoc, <- length_app. by apply IH.
Qed.

Lemma exec_program R d :
  forallb rule_ok R = true → exec (program R) 0 0 d = Some (verdict R d).
Proof.
  intros Hok. unfold verdict. change 0%nat with (@length sock_filter []).
  change (program R) with ([] ++ ins BPF_LD_W_ABS 0 0 4 :: tail (program R)) at 1.
  rewrite exec_at_ld by (unfold UINT_MOD; lia).
  change ([] ++ ins BPF_LD_W_ABS 0 0 4 :: tail (program R)) with
    ([ins BPF_LD_W_ABS 0 0 4] ++ ins BPF_JMP_JEQ_K 1 0 AUDIT_ARCH_X86_64 :: drop 2 (program R)).
  change (S (length [])) with (length [ins BPF_LD_W_ABS 0 0 4]). rewrite exec_at_jeq.
  change (data_word d 4) with (u32 (arch d)). change (u32 AUDIT_ARCH_X86_64) with AUDIT_ARCH_X86_64.
  destruct (_ =? _).
  - change ([ins BPF_LD_W_ABS 0 0 4] ++ ins BPF_JMP_JEQ_K 1 0 AUDIT_ARCH_X86_64 :: drop 2 (program R))
      with (take 3 prologue ++ ins BPF_LD_W_ABS 0 0 0 :: drop 4 (program R)).
    change (S (length [ins BPF_LD_W_ABS 0 0 4]) + Z.to_nat 1)%nat with (length (take 3 prologue)).
    rewrite exec_at_ld by (unfold UINT_MOD; lia). change (data_word d 0) with (u32 (nr d)).
    by apply (exec_at_rules R prologue []).
  - change ([ins BPF_LD_W_ABS 0 0 4] ++ ins BPF_JMP_JEQ_K 1 0 AUDIT_ARCH_X86_64 :: drop 2 (program R))
      with (take 2 prologue ++ ins BPF_RET_K 0 0 SECCOMP_RET_KILL :: drop 3 (program R)).
    change (S (length [ins BPF_LD_W_ABS 0 0 4]) + Z.to_nat 0)%nat with (length (take 2 prologue)).
    by rewrite exec_at_ret.
Qed.
End Machine.

(** ** A machine

    An interpreter of the four instructions. Jumps only go forward: it walks
    over the program with the number of instructions still to skip. *)
Fixpoint bpf_run (p : buf) (skip : nat) (a : Z) (d : seccomp_data) : option Z :=
  match p, skip with
  | [], _ => None
  | _ :: p, S n => bpf_run p n a d
  | f :: p, O =>
      if code f =? BPF_LD_W_ABS then bpf_run p 0 (data_word d (k f)) d
      else if code f =? BPF_JMP_JEQ_K
        then bpf_run p (Z.to_nat (if a =? k f then jt f else jf f)) a d
      else if code f =? BPF_JMP_JSET_K
        then bpf_run p (Z.to_nat (if negb (Z.land a (k f) =? 0) then jt f else jf f)) a d
      else if code f =? BPF_RET_K then Some (k f)
      else None
  end.

Lemma bpf_run_drop p n m a d : bpf_run (drop n p) m a d = bpf_run p (n + m) a d.
Proof.
  revert n. induction p as [|f p IH]; intros [|n]; [done..|]. cbn [drop Nat.add bpf_run]. apply IH.
Qed.

Lemma bpf_run_at p pc a d f :
  p !! pc = Some f → bpf_run p pc a d = bpf_run (f :: drop (S pc) p) 0 a d.
Proof.
  intros Hf. rewrite <- (drop_S _ _ _ Hf), bpf_run_drop. by rewrite Nat.add_0_r.
Qed.

#[global] Instance bpf_machine : Bpf.
Proof.
  refine {| exec := bpf_run |}.
  all: intros p pc a d f Hf Hc; rewrite (bpf_run_at p pc a d f Hf); cbn [bpf_run]; rewrite Hc;
    unfold BPF_LD_W_ABS, BPF_JMP_JEQ_K, BPF_JMP_JSET_K, BPF_RET_K; cbn [Z.eqb Pos.eqb];
    by rewrite ?bpf_run_drop, ?Nat.add_0_r.
Defined.

(** ** What is installed *)

(** Conditional lists: bounds and tests. *)
Lemma length_app_le {A} (l k : list A) n m :
  (length l ≤ n)%nat → (length k ≤ m)%nat → (length (l ++ k) ≤ n + m)%nat.
Proof. rewrite length_app. lia. Qed.
Lemma length_if_le {A} (b : bool) (l k : list A) n m :
  (length l ≤ n)%nat → (length k ≤ m)%nat → (length (if b then l else k) ≤ n `max` m)%nat.
Proof. destruct b; lia. Qed.
Lemma length_cons_le {A} x (l : list A) n : (length l ≤ n)%nat → (length (x :: l) ≤ S n)%nat.
Proof. cbn. lia. Qed.
Lemma forallb_app_intro {A} (f : A → bool) l k :
  forallb f l = true → forallb f k = true → forallb f (l ++ k) = true.
Proof. intros H1 H2. by rewrite forallb_app, H1, H2. Qed.
Lemma forallb_cons_intro {A} (f : A → bool) x l :
  f x = true → forallb f l = true → forallb f (x :: l) = true.
Proof. intros H1 H2. cbn. by rewrite H1, H2. Qed.
Lemma forallb_if_intro {A} (f : A → bool) (b : bool) l k :
  (b = true → forallb f l = true) → (b = false → forallb f k = true) →
  forallb f (if b then l else k) = true.
Proof. destruct b; auto. Qed.

Ltac bound_rules :=
  repeat match goal with
  | |- (length (_ ++ _) ≤ _)%nat => apply length_app_le
  | |- (length (if _ then _ else _) ≤ _)%nat => apply length_if_le
  | |- (length (_ :: _) ≤ _)%nat => apply length_cons_le
  | |- (length [] ≤ _)%nat => apply le_n
  end.
Ltac each_rule :=
  repeat match goal with
  | |- forallb _ (_ ++ _) = true => apply forallb_app_intro
  | |- forallb _ (_ :: _) = true => apply forallb_cons_intro; [reflexivity|]
  | |- forallb _ (if _ then _ else _) = true => apply forallb_if_intro; intros ?
  | |- forallb _ [] = true => reflexivity
  end.
Ltac open_rules :=
  unfold postlogin_rules, broker_rules, prelogin_rules, file_rules, process_rules, write_rules,
    data_rules, cos_rules, base_rules, connect_rules, lock_rules.

Section Stages.
Context `{Tun}.

Lemma postlogin_rules_fit is_anon pid :
  (length (postlogin_rules is_anon pid) ≤ kMaxSyscalls)%nat.
Proof. open_rules. eapply Nat.le_trans; [bound_rules|]. by vm_compute; lia. Qed.
Lemma prelogin_rules_fit : (length prelogin_rules ≤ kMaxSyscalls)%nat.
Proof. open_rules. eapply Nat.le_trans; [bound_rules|]. by vm_compute; lia. Qed.
Lemma broker_rules_fit : (length broker_rules ≤ kMaxSyscalls)%nat.
Proof. open_rules. eapply Nat.le_trans; [bound_rules|]. by vm_compute; lia. Qed.

Lemma postlogin_rules_ok is_anon pid : forallb rule_ok (postlogin_rules is_anon pid) = true.
Proof. open_rules. each_rule. Qed.
Lemma prelogin_rules_ok : forallb rule_ok prelogin_rules = true.
Proof. open_rules. each_rule. Qed.
Lemma broker_rules_ok : forallb rule_ok broker_rules = true.
Proof. open_rules. each_rule. Qed.

End Stages.

(** ** The policies, enforced *)

Section Enforce.
Context `{Tun, Prctl, Bpf}.

(** The process is sandboxed by [filter]: what [lockdown] asked the kernel for,
    with the true length of the program. *)
Definition locked_down (p : setup) (filter : buf) : Prop :=
  ∃ t, (seccomp_sandbox_init ;;> p) no_tables = Ok t ∧
       seccomp_sandbox_lockdown t =
         Ok [SetNoNewPrivs; SetSeccomp (Z.of_nat (length filter)) filter].

Definition enforces (p : setup) (R : list rule) : Prop :=
  ∃ filter, locked_down p filter ∧ ∀ d, exec filter 0 0 d = Some (verdict R d).

Lemma length_block_le r : rule_ok r = true → (length (block r) ≤ 9)%nat.
Proof.
  intros (_ & _ & Hc)%rule_ok_inv. rewrite length_block.
  destruct (r_checks r) as [|? [|[] [|[] [|]]]]; try done; cbn [length]; lia.
Qed.

Lemma length_program_le R :
  forallb rule_ok R = true → (length (program R) ≤ 5 + 9 * length R)%nat.
Proof.
  unfold program. rewrite !length_app. cbn [length prologue]. intros Hok.
  enough (length (concat (block <$> R)) ≤ 9 * length R)%nat by lia.
  induction R as [|r R IH]; [done|]. cbn [forallb] in Hok. apply andb_true_iff in Hok as [Hr Hok].
  cbn [fmap list_fmap concat length]. rewrite length_app.
  pose proof (length_block_le r Hr). specialize (IH Hok). lia.
Qed.

Hypothesis kernel_accepts : ∀ c, (prctl c).1 = 0.
Hypothesis sandbox_on : tb tun "seccomp_sandbox" = true.

Lemma enforces_rules p R :
  adds p R → (length R ≤ kMaxSyscalls)%nat → forallb rule_ok R = true → enforces p R.
Proof using kernel_accepts sandbox_on.
  intros Hp Hl Hok. exists (program R). split; [|intros d; by apply exec_program].
  exists (tables_of R). split; [by apply (Hp [])|].
  unfold seccomp_sandbox_lockdown. rewrite lockdown_filters_of, filters_len_of by done.
  cbn [res_bind]. pose proof (kernel_accepts SetNoNewPrivs) as HP.
  destruct (prctl SetNoNewPrivs) as [r1 e1]. cbn in HP. subst r1. cbn [Z.eqb negb].
  rewrite sandbox_on. cbn [negb]. pose proof (length_program_le R Hok). unfold kMaxSyscalls in *.
  unfold u16. rewrite Z.mod_small by lia.
  pose proof (kernel_accepts (SetSeccomp (Z.of_nat (length (program R))) (program R))) as HS.
  destruct (prctl (SetSeccomp _ _)) as [r2 e2]. cbn in HS. by subst r2.
Qed.

(** C26: Whatever the configuration and the session, the setup functions of
    seccompsandbox.c never run out of table space or trip an assertion, the
    BPF program fills its array exactly, its length survives the 16-bit field,
    and the program decides every system call before login, after login and in
    the privileged broker as the list of rules of that stage does: the first
    rule that matches number and arguments allows or rejects the call, a call
    without a rule or of another architecture is killed. The sandbox is switched on
    (seccomp_sandbox), and the kernel accepts the prctl calls. *)
Theorem sandbox_enforces_rules (is_anon : bool) (pid : Z) :
  enforces seccomp_sandbox_setup_prelogin prelogin_rules ∧
  enforces (seccomp_sandbox_setup_postlogin is_anon pid) (postlogin_rules is_anon pid) ∧
  enforces seccomp_sandbox_setup_postlogin_broker broker_rules.
Proof using kernel_accepts sandbox_on.
  split_and!; apply enforces_rules; auto using adds_prelogin, adds_postlogin, adds_broker,
    prelogin_rules_fit, postlogin_rules_fit, broker_rules_fit, prelogin_rules_ok,
    postlogin_rules_ok, broker_rules_ok.
Qed.

End Enforce.

(** *** What the rules after login let through *)

(** A call that the policy lets the process make. *)
Definition allowed (R : list rule) (d : seccomp_data) : bool := verdict R d =? SECCOMP_RET_ALLOW.

Lemma allowed_inv R d :
  forallb rule_ok R = true → allowed R d = true →
  u32 (arch d) = AUDIT_ARCH_X86_64 ∧ ∃ r, r ∈ R ∧ matches d r = true.
Proof.
  intros Hok. unfold allowed, verdict. destruct (u32 (arch d) =? _) eqn:E; [|done].
  apply Z.eqb_eq in E. intros Hv%Z.eqb_eq. split; [done|].
  induction R as [|r R IH]; [done|]. cbn [verdict_of forallb] in *. b2p.
  destruct (matches d r) eqn:Em.
  - exists r. split; [left|done].
  - destruct IH as (r' & ? & ?); [done..|]. exists r'. split; [by right|done].
Qed.

Lemma within_testbit v m i :
  0 ≤ i < 32 → Z.land (u32 v) (u32 (Z.lnot m)) = 0 → Z.testbit m i = false →
  Z.testbit v i = false.
Proof.
  intros Hi Hl Hm. pose proof (f_equal (λ z, Z.testbit z i) Hl) as H. cbn beta in H.
  rewrite Z.land_spec, Z.bits_0 in H. unfold u32, UINT_MOD in H.
  change 4294967296 with (2 ^ 32) in H. rewrite !Z.mod_pow2_bits_low in H by lia.
  rewrite Z.lnot_spec, Hm in H by lia. cbn in H. by rewrite andb_true_r in H.
Qed.

Lemma is_testbit v w i :
  0 ≤ i < 32 → u32 v = u32 w → Z.testbit v i = Z.testbit w i.
Proof.
  intros Hi H. pose proof (f_equal (λ z, Z.testbit z i) H) as Ht. cbn beta in Ht.
  unfold u32, UINT_MOD in Ht. change 4294967296 with (2 ^ 32) in Ht.
  by rewrite !Z.mod_pow2_bits_low in Ht by lia.
Qed.

(** Bit [i] of argument [a] is clear in every call the check accepts. *)
Definition clears (a i : Z) (c : arg_check) : bool :=
  match c with ArgIs b v | ArgWithin b v => (b =? a) && negb (Z.testbit v i) end.

Lemma clears_ok d a i cs :
  0 ≤ i < 32 → forallb (check_ok d) cs = true → existsb (clears a i) cs = true →
  Z.testbit (args d a) i = false.
Proof.
  intros Hi Hall (c & Hin & Hc)%existsb_exists.
  eapply forallb_forall in Hall; [|done].
  destruct c; cbn [clears check_ok low] in *; unfold low in *; b2p; subst.
  - erewrite is_testbit by done. done.
  - by eapply within_testbit.
Qed.

(** Calls whose rules must clear a bit of an argument. *)
Definition must_clear (n a i : Z) (r : rule) : bool :=
  negb (r_nr r =? n) || existsb (clears a i) (r_checks r).

Definition small_nr (r : rule) : bool := r_nr r <? UINT_MOD.

(** An allowed call satisfies a rule with every property that all rules have. *)
Lemma allowed_rule R d (f : rule → bool) :
  forallb rule_ok R = true → forallb small_nr R = true → forallb f R = true →
  allowed R d = true →
  ∃ r, f r = true ∧ u32 (nr d) = r_nr r ∧ forallb (check_ok d) (r_checks r) = true.
Proof.
  intros Hok Hs Hf (_ & r & Hr%list_elem_of_In & Hm)%allowed_inv; [|done].
  rewrite forallb_forall in Hok, Hs, Hf. specialize (Hok r Hr). specialize (Hs r Hr).
  apply rule_ok_inv in Hok as (H0 & _). unfold small_nr in Hs. apply andb_true_iff in Hm as [Hn Hc].
  b2p. exists r. split; [by apply Hf|]. by rewrite (u32_small (r_nr r)) in Hn by lia.
Qed.

Lemma must_clear_ok R d n a i :
  forallb rule_ok R = true → forallb small_nr R = true → forallb (must_clear n a i) R = true →
  allowed R d = true → 0 ≤ i < 32 → u32 (nr d) = n → Z.testbit (args d a) i = false.
Proof.
  intros Hok Hs Hm Ha Hi Hn. destruct (allowed_rule R d _ Hok Hs Hm Ha) as (r & Hr & Hrn & Hc).
  unfold must_clear in Hr. rewrite <- Hrn, Hn, Z.eqb_refl in Hr. by eapply clears_ok.
Qed.

Lemma not_allowed R d (l : list Z) :
  forallb rule_ok R = true → forallb small_nr R = true →
  forallb (λ r, bool_decide (r_nr r ∉ l)) R = true → allowed R d = true → u32 (nr d) ∉ l.
Proof.
  intros Hok Hs Hm Ha. destruct (allowed_rule R d _ Hok Hs Hm Ha) as (r & Hr & -> & _). by b2p.
Qed.

Section Safe.
Context `{Tun}.

Lemma postlogin_small is_anon pid : forallb small_nr (postlogin_rules is_anon pid) = true.
Proof. open_rules. each_rule. Qed.

(** System calls that start programs or processes, control others, or change
    identity: fork, vfork, clone, execve, kill, tkill, ptrace, setuid, setgid,
    chroot, mount. *)
Definition dangerous : list Z := [57; 58; 56; 59; 62; 200; 101; 105; 106; 161; 165].

(** The calls that change a file system by name, or a file's size, times or
    mode; [mkdir] is not among them. *)
Definition changes_files : list Z :=
  [NR_unlink; NR_rmdir; NR_rename; NR_ftruncate; NR_utime; NR_utimes; NR_chmod].

Definition PROT_EXEC_bit : Z := 2.

Lemma no_dangerous is_anon pid :
  forallb (λ r, bool_decide (r_nr r ∉ dangerous)) (postlogin_rules is_anon pid) = true.
Proof. open_rules. each_rule. Qed.

Lemma no_exec_rules is_anon pid :
  forallb (must_clear NR_mmap 3 PROT_EXEC_bit) (postlogin_rules is_anon pid) = true ∧
  forallb (must_clear NR_mprotect 3 PROT_EXEC_bit) (postlogin_rules is_anon pid) = true.
Proof. split; open_rules; each_rule. Qed.

Lemma read_only_rules is_anon pid i :
  tb tun "write_enable" = false → 0 ≤ i ≤ 1 →
  forallb (λ r, bool_decide (r_nr r ∉ changes_files)) (postlogin_rules is_anon pid) = true ∧
  forallb (must_clear NR_open 2 i) (postlogin_rules is_anon pid) = true ∧
  forallb (must_clear NR_openat 3 i) (postlogin_rules is_anon pid) = true.
Proof.
  intros Hw Hi. assert (i = 0 ∨ i = 1) as [-> | ->] by lia; unfold postlogin_rules, file_rules, open_mask;
    rewrite Hw; split_and!; open_rules; each_rule.
Qed.

(** After login, whatever the configuration, no process creation, execve,
    signal, ptrace, identity or mount call passes the policy, and no allowed
    mmap or mprotect maps memory executable. If writing is disabled, every
    allowed open or openat has the access mode read-only (both access bits of
    the flags are clear) and no call that removes, renames, truncates or
    changes the attributes of a file passes. *)
Theorem sandbox_confines (is_anon : bool) (pid : Z) (d : seccomp_data) :
  allowed (postlogin_rules is_anon pid) d = true →
  u32 (nr d) ∉ dangerous ∧
  (u32 (nr d) ∈ [NR_mmap; NR_mprotect] → Z.testbit (args d 3) PROT_EXEC_bit = false) ∧
  (tb tun "write_enable" = false →
     u32 (nr d) ∉ changes_files ∧
     (u32 (nr d) = NR_open → Z.land (args d 2) O_ACCMODE = 0) ∧
     (u32 (nr d) = NR_openat → Z.land (args d 3) O_ACCMODE = 0)).
Proof.
  intros Ha. pose proof (postlogin_rules_ok is_anon pid) as Hok.
  pose proof (postlogin_small is_anon pid) as Hs.
  assert (∀ v, Z.testbit v 0 = false → Z.testbit v 1 = false → Z.land v O_ACCMODE = 0) as Hacc.
  { intros v H0 H1. change O_ACCMODE with (Z.ones 2). rewrite Z.land_ones by lia.
    change (2 ^ 2) with (2 * 2). rewrite Z.rem_mul_r by lia.
    rewrite Z.testbit_odd, Z.shiftr_0_r, Zodd_mod in H0.
    rewrite (Z.testbit_odd v 1), Z.shiftr_div_pow2, Zodd_mod in H1 by lia. change (2 ^ 1) with 2 in H1.
    b2p. pose proof (Z.mod_pos_bound v 2). pose proof (Z.mod_pos_bound (v / 2) 2).
    lia. }
  split_and!.
  - by eapply not_allowed; [..|apply no_dangerous|].
  - pose proof (no_exec_rules is_anon pid) as [He1 He2]. unfold PROT_EXEC_bit in *.
    intros [Hn|[Hn|[]%not_elem_of_nil]%elem_of_cons]%elem_of_cons.
    + by eapply must_clear_ok; [..|apply He1| |lia|].
    + by eapply must_clear_ok; [..|apply He2| |lia|].
  - intros Hw. destruct (read_only_rules is_anon pid 0 Hw) as (H1 & H2 & H3); [lia|].
    destruct (read_only_rules is_anon pid 1 Hw) as (_ & H4 & H5); [lia|]. split_and!.
    + by eapply not_allowed; [..|done|].
    + intros Hn. apply Hacc; eapply must_clear_ok; done || lia.
    + intros Hn. apply Hacc; eapply must_clear_ok; done || lia.
Qed.

End Safe.

(** *** A rule that another one hides *)

Section Shadowed.
Context `{Tun}.

(** No rule of [R] is about system call [n]. *)
Definition silent (n : Z) (r : rule) : bool := negb (u32 (r_nr r) =? n).

Lemma verdict_silent n R1 R2 d :
  forallb (silent n) R1 = true → u32 (nr d) = n → verdict_of (R1 ++ R2) d = verdict_of R2 d.
Proof.
  induction R1 as [|r R1 IH]; intros Hs Hn; [done|]. cbn in *. b2p. unfold silent, matches in *. b2p.
  rewrite (proj2 (Z.eqb_neq (u32 (nr d)) _)) by congruence. cbn. by apply IH.
Qed.

Lemma cons_app_singleton {A} (x : A) l : x :: l = [x] ++ l.
Proof. done. Qed.

(** Seccomp_sandbox_setup_cos adds rules that let a session open TCP
    sockets to the object store, but with syslog_enable set, or with
    text_userdb_names set in the two process model, an earlier rule for socket
    matches first: every socket call of a logged-in session fails with EACCES,
    whatever its arguments. *)
Theorem cos_socket_rejected (is_anon : bool) (pid : Z) (d : seccomp_data) :
  tb tun "syslog_enable" = true ∨
  (tb tun "text_userdb_names" = true ∧ tb tun "one_process_model" = false) →
  u32 (arch d) = AUDIT_ARCH_X86_64 → u32 (nr d) = NR_socket →
  tcp_socket PF_INET ∈ postlogin_rules is_anon pid ∧
  verdict (postlogin_rules is_anon pid) d = SECCOMP_RET_ERRNO + EACCES.
Proof.
  intros Hcfg Ha Hn. split.
  { unfold postlogin_rules, cos_rules. rewrite !elem_of_cons, !elem_of_app. cbn [app].
    rewrite !elem_of_cons. tauto. }
  unfold verdict. rewrite Ha, Z.eqb_refl. unfold postlogin_rules, prelogin_rules.
  assert (matches d (Rule NR_socket [] EACCES) = true) as Hm
    by (unfold matches; cbn [r_nr]; rewrite Hn; reflexivity).
  rewrite <- !app_assoc, (cons_app_singleton (plain NR_lstat)).
  destruct (tb tun "syslog_enable").
  - do 6 (rewrite (verdict_silent NR_socket); [|unfold base_rules, lock_rules; each_rule|done]).
    cbn [app verdict_of]. by rewrite Hm.
  - destruct Hcfg as [|[Ht Ho]]; [done|]. unfold process_rules, file_rules. rewrite Ht, Ho.
    rewrite <- !app_assoc.
    repeat (rewrite (verdict_silent NR_socket); [|unfold base_rules, lock_rules; solve [each_rule]|done]).
    cbn [app verdict_of]. by rewrite Hm.
Qed.

End Shadowed.

(** ** Examples *)

Definition sandbox_tun : tunables := set_bool tunables_load_defaults "seccomp_sandbox" 1.
Definition willing_kernel : Prctl := λ _, (0, 0).

(** The default configuration, an anonymous session. *)
Lemma sandbox_enforces_rules_witness :
  let H : Tun := sandbox_tun in
  let K : Prctl := willing_kernel in
  enforces (seccomp_sandbox_setup_postlogin true 4711) (postlogin_rules true 4711) ∧
  verdict (postlogin_rules true 4711) (SeccompData NR_open AUDIT_ARCH_X86_64 0 (λ _, O_CREAT))
    = SECCOMP_RET_ALLOW ∧
  verdict (postlogin_rules true 4711) (SeccompData 59 AUDIT_ARCH_X86_64 0 (λ _, 0))
    = SECCOMP_RET_KILL.
Proof.
  intros H K. split.
  - assert (tb sandbox_tun "seccomp_sandbox" = true) as Hon by (vm_compute; reflexivity).
    exact (proj1 (proj2 (@sandbox_enforces_rules sandbox_tun willing_kernel bpf_machine
                           (λ _, eq_refl) Hon true 4711))).
  - split; vm_compute; reflexivity.
Defined.

Lemma sandbox_confines_witness :
  let H : Tun := sandbox_tun in
  let d := SeccompData NR_open AUDIT_ARCH_X86_64 0 (λ _, flags [O_NONBLOCK; O_DIRECTORY]) in
  tb sandbox_tun "write_enable" = false ∧ Z.land (args d 2) O_ACCMODE = 0.
Proof.
  intros H d. assert (tb sandbox_tun "write_enable" = false) as Hw by (vm_compute; reflexivity).
  assert (@allowed (@postlogin_rules sandbox_tun true 4711) d = true) as Ha
    by (vm_compute; reflexivity).
  split; [exact Hw|].
  exact (proj1 (proj2 (proj2 (proj2 (@sandbox_confines sandbox_tun true 4711 d Ha)) Hw)) eq_refl).
Defined.

Lemma cos_socket_rejected_witness :
  let H : Tun := set_bool sandbox_tun "syslog_enable" 1 in
  let d := SeccompData NR_socket AUDIT_ARCH_X86_64 0
             (λ a, if a =? 1 then PF_INET else if a =? 2 then SOCK_STREAM else IPPROTO_TCP) in
  verdict (postlogin_rules false 1) d = SECCOMP_RET_ERRNO + EACCES.
Proof.
  intros H d. refine (proj2 (@cos_socket_rejected H false 1 d _ _ _)).
  - left. vm_compute. reflexivity.
  - vm_compute. reflexivity.
  - vm_compute. reflexivity.
Defined.
