(* ===== verification/Ptrace.v ===== *)
(** * ptracesandbox.c and ftppolicy.c: the ptrace sandbox

    A supervisor stops the session at every system call, looks at its registers
    and memory, and lets the call go on or kills the process. This is the code
    for 32-bit x86 Linux; in other builds [ptrace_sandbox_alloc] fails and
    [vsf_one_process_start] dies. What the traced process does is a list of
    stops that [waitpid] reports, each with its registers and memory. *)

From Stdlib Require Import Init.Byte Strings.Byte.
From Stdlib Require Import ZArith Lia String.
From stdpp Require Import base list numbers option.
From S2P Require Import Prelude SysUtil Text IpAddr Tunables Session.

(** ** Constants of i386 Linux *)

Definition NR_exit : Z := 1.
Definition NR_read : Z := 3.
Definition NR_write : Z := 4.
Definition NR_open : Z := 5.
Definition NR_close : Z := 6.
Definition NR_unlink : Z := 10.
Definition NR_chdir : Z := 12.
Definition NR_time : Z := 13.
Definition NR_chmod : Z := 15.
Definition NR_lseek : Z := 19.
Definition NR_alarm : Z := 27.
Definition NR_utime : Z := 30.
Definition NR_rename : Z := 38.
Definition NR_mkdir : Z := 39.
Definition NR_rmdir : Z := 40.
Definition NR_brk : Z := 45.
Definition NR_fcntl : Z := 55.
Definition NR_umask : Z := 60.
Definition NR_sigaction : Z := 67.
Definition NR_gettimeofday : Z := 78.
Definition NR_select : Z := 82.
Definition NR_readlink : Z := 85.
Definition NR_ftruncate : Z := 93.
Definition NR_fchmod : Z := 94.
Definition NR_fchown : Z := 95.
Definition NR_socketcall : Z := 102.
Definition NR_stat : Z := 106.
Definition NR_lstat : Z := 107.
Definition NR_fstat : Z := 108.
Definition NR_sigreturn : Z := 119.
Definition NR_mprotect : Z := 125.
Definition NR_llseek : Z := 140.
Definition NR_getdents : Z := 141.
Definition NR_newselect : Z := 142.
Definition NR_nanosleep : Z := 162.
Definition NR_mremap : Z := 163.
Definition NR_rt_sigaction : Z := 174.
Definition NR_getcwd : Z := 183.
Definition NR_sendfile : Z := 187.
Definition NR_mmap2 : Z := 192.
Definition NR_ftruncate64 : Z := 194.
Definition NR_stat64 : Z := 195.
Definition NR_lstat64 : Z := 196.
Definition NR_fstat64 : Z := 197.
Definition NR_fchown32 : Z := 207.
Definition NR_getdents64 : Z := 220.
Definition NR_fcntl64 : Z := 221.
Definition NR_sendfile64 : Z := 239.
Definition NR_exit_group : Z := 252.
Definition NR_utimes : Z := 271.

Definition SYS_SOCKET : Z := 1.
Definition SYS_BIND : Z := 2.
Definition SYS_CONNECT : Z := 3.
Definition SYS_LISTEN : Z := 4.
Definition SYS_ACCEPT : Z := 5.
Definition SYS_RECV : Z := 10.
Definition SYS_SHUTDOWN : Z := 13.
Definition SYS_SETSOCKOPT : Z := 14.
Definition SYS_GETSOCKOPT : Z := 15.

Definition MAP_SHARED : Z := 1.
Definition O_RDONLY : Z := 0.
Definition O_ACCMODE : Z := 3.
Definition O_ASYNC : Z := 8192.
Definition O_DIRECT : Z := 16384.
Definition O_SYNC : Z := 1052672.
Definition F_GETFD : Z := 1.
Definition F_SETFD : Z := 2.
Definition F_GETFL : Z := 3.
Definition F_SETFL : Z := 4.
Definition F_SETLK : Z := 6.
Definition F_SETLKW : Z := 7.
Definition F_SETOWN : Z := 8.
Definition F_SETLK64 : Z := 13.
Definition F_SETLKW64 : Z := 14.
Definition SOCK_STREAM : Z := 1.
Definition AF_INET_nr : Z := 2.
Definition AF_INET6_nr : Z := 10.
Definition IPPROTO_IP : Z := 0.
Definition IPPROTO_TCP : Z := 6.
Definition SOL_SOCKET : Z := 1.
Definition SO_REUSEADDR : Z := 2.
Definition SO_ERROR : Z := 4.
Definition SO_KEEPALIVE : Z := 9.
Definition SO_OOBINLINE : Z := 10.
Definition SO_LINGER : Z := 13.
Definition IP_TOS : Z := 1.
Definition TCP_NODELAY : Z := 1.
Definition SIGKILL : Z := 9.
Definition SIGCONT : Z := 18.
Definition SIGSTOP : Z := 19.
Definition EINTR : Z := 4.
Definition ESRCH : Z := 3.
Definition ECHILD : Z := 10.

Definition PTRACE_SANDBOX_ERR_DEAD : Z := -1.
Definition PTRACE_SANDBOX_ERR_PTRACE : Z := -2.
Definition PTRACE_SANDBOX_ERR_WAITPID : Z := -3.
Definition PTRACE_SANDBOX_ERR_WAIT_STATUS : Z := -4.
Definition PTRACE_SANDBOX_ERR_POLICY_SYSCALL : Z := -5.
Definition PTRACE_SANDBOX_ERR_BAD_SYSCALL : Z := -6.
Definition PTRACE_SANDBOX_ERR_POLICY_ARGS : Z := -7.
Definition PTRACE_SANDBOX_ERR_API_ABUSE_STOPIT : Z := -8.

Definition MAX_SYSCALL : Z := 300.
(** [AF_MAX] of the C library; its value differs between versions. *)
Definition NPROTO : Z := 41.

(** ** State *)

(** The registers that the code uses, each a 32-bit [long]. *)
Record user_regs := Regs {
  ebx : Z; ecx : Z; edx : Z; esi : Z; edi : Z; ebp : Z; orig_eax : Z; eip : Z; xcs : Z
}.
Definition no_regs : user_regs := Regs 0 0 0 0 0 0 0 0 0.

(** The functions that a [ptrace_sandbox_validator_t] points to: of the table
    of system calls, and of that of the calls behind [socketcall]. *)
Inductive validator_t :=
  | V_mmap2 | V_open_default | V_open_readonly | V_fcntl | V_socketcall.
Inductive socket_validator_t :=
  | V_socket | V_connect | V_getsockopt | V_setsockopt.

(** [validator_arg] is never set. [socketcall_validator_arg] is the session or
    null. *)
Record pt_sandbox := Sandbox {
  read_event_fd : Z;
  write_event_fd : Z;
  pid : Z;
  is_allowed : list Z;
  validator : list (option validator_t);
  is_exit : bool;
  regs : user_regs;
  is_socketcall_allowed : list Z;
  socketcall_validator : list (option socket_validator_t);
  socketcall_validator_arg : list (option vsf_session)
}.

Definition set_pid (v : Z) (s : pt_sandbox) : pt_sandbox :=
  Sandbox (read_event_fd s) (write_event_fd s) v (is_allowed s) (validator s) (is_exit s) (regs s)
    (is_socketcall_allowed s) (socketcall_validator s) (socketcall_validator_arg s).
Definition set_is_exit (v : bool) (s : pt_sandbox) : pt_sandbox :=
  Sandbox (read_event_fd s) (write_event_fd s) (pid s) (is_allowed s) (validator s) v (regs s)
    (is_socketcall_allowed s) (socketcall_validator s) (socketcall_validator_arg s).
Definition set_regs (v : user_regs) (s : pt_sandbox) : pt_sandbox :=
  Sandbox (read_event_fd s) (write_event_fd s) (pid s) (is_allowed s) (validator s) (is_exit s) v
    (is_socketcall_allowed s) (socketcall_validator s) (socketcall_validator_arg s).

(** The assignments [is_allowed[i] = 1], [validator[i] = v] and so on. *)
Definition allow (i : Z) (s : pt_sandbox) : pt_sandbox :=
  Sandbox (read_event_fd s) (write_event_fd s) (pid s) (<[Z.to_nat i := 1]> (is_allowed s))
    (validator s) (is_exit s) (regs s) (is_socketcall_allowed s) (socketcall_validator s)
    (socketcall_validator_arg s).
Definition validate_with (i : Z) (v : validator_t) (s : pt_sandbox) : pt_sandbox :=
  Sandbox (read_event_fd s) (write_event_fd s) (pid s) (is_allowed s)
    (<[Z.to_nat i := Some v]> (validator s)) (is_exit s) (regs s) (is_socketcall_allowed s)
    (socketcall_validator s) (socketcall_validator_arg s).
Definition allow_socketcall (i : Z) (s : pt_sandbox) : pt_sandbox :=
  Sandbox (read_event_fd s) (write_event_fd s) (pid s) (is_allowed s) (validator s) (is_exit s)
    (regs s) (<[Z.to_nat i := 1]> (is_socketcall_allowed s)) (socketcall_validator s)
    (socketcall_validator_arg s).
Definition validate_socketcall_with (i : Z) (v : socket_validator_t) (p_arg : option vsf_session)
    (s : pt_sandbox) : pt_sandbox :=
  Sandbox (read_event_fd s) (write_event_fd s) (pid s) (is_allowed s) (validator s) (is_exit s)
    (regs s) (is_socketcall_allowed s) (<[Z.to_nat i := Some v]> (socketcall_validator s))
    (<[Z.to_nat i := p_arg]> (socketcall_validator_arg s)).

(** ** The traced process, as the kernel shows it *)

(** A stopped process: its registers, the words of its memory (with the
    [errno] of reading one), and the [errno] of the other requests, 0 for
    success. *)
Record stopped := Stopped {
  st_regs : user_regs;
  st_mem : Z → Z * Z;
  getregs_errno : Z;
  setregs_errno : Z;
  resume_errno : Z;
  ptkill_errno : Z
}.

(** What [waitpid] reports next. *)
Inductive wait_result :=
  | WaitFails (errno : Z)
  | WaitReports (p status : Z) (s : stopped).

(** The requests that change something, and the reports. *)
Inductive pt_event :=
  | EvWait (r : wait_result)
  | EvFork (r : Z)
  | EvSetOptions (p : Z)
  | EvResume (p sig : Z)
  | EvSetRegs (p : Z) (r : user_regs)
  | EvPtKill (p : Z)
  | EvKill (p sig : Z)
  | EvReap (p : Z)
  | EvClose (fd : Z).

(** [waits]: the reports to come; [now]: the process as it is; [evs]: what
    happened, latest first. *)
Record pstate := PState {
  box : pt_sandbox;
  waits : list wait_result;
  now : stopped;
  evs : list pt_event
}.

Definition K (A : Type) : Type := pstate → res A * pstate.
#[global] Instance K_ret : MRet K := λ A a s, (Ok a, s).
#[global] Instance K_bind : MBind K := λ A B k m s,
  match m s with
  | (Ok a, s') => k a s'
  | (Err e, s') => (Err e, s')
  end.

Definition kstop {A} (e : stop) : K A := λ s, (Err e, s).
Definition getk {A} (f : pstate → A) : K A := λ s, (Ok (f s), s).
Definition getb {A} (f : pt_sandbox → A) : K A := getk (λ s, f (box s)).
Definition updb (f : pt_sandbox → pt_sandbox) : K unit := λ s,
  (Ok tt, PState (f (box s)) (waits s) (now s) (evs s)).
Definition event (e : pt_event) : K unit := λ s,
  (Ok tt, PState (box s) (waits s) (now s) (e :: evs s)).

(** An element of a table of the sandbox; outside of it, undefined. *)
Definition entry {A} (f : pt_sandbox → list A) (i : Z) : K A := λ s,
  match f (box s) !! Z.to_nat i with
  | Some a => (Ok a, s)
  | None => (Err UB, s)
  end.

(** With no report to come [waitpid] blocks for ever. *)
Definition waitpid : K wait_result := λ s,
  match waits s with
  | [] => (Err Fuel, s)
  | r :: ws =>
      (Ok r, PState (box s) ws (match r with WaitReports _ _ st => st | _ => now s end)
               (EvWait r :: evs s))
  end.

Definition WIFEXITED (status : Z) : bool := Z.land status 127 =? 0.
Definition WIFSTOPPED (status : Z) : bool := Z.land status 255 =? 127.
Definition WIFSIGNALED (status : Z) : bool := negb (WIFEXITED status) && negb (WIFSTOPPED status).
Definition WSTOPSIG (status : Z) : Z := Z.land (Z.shiftr status 8) 255.

(** ** ptracesandbox.c: arguments and memory *)

Definition arg_reg (r : user_regs) (arg : Z) : Z :=
  if arg =? 0 then ebx r else if arg =? 1 then ecx r else if arg =? 2 then edx r
  else if arg =? 3 then esi r else if arg =? 4 then edi r else ebp r.

(** The result, and what is stored at [p_out] if that is 0. *)
Definition ptrace_sandbox_get_arg (arg : Z) : K (Z * Z) :=
  p_regs ← getb regs;
  if orig_eax p_regs =? 0 then mret (PTRACE_SANDBOX_ERR_API_ABUSE_STOPIT, 0)
  else if (arg <? 0) || (5 <? arg) then mret (PTRACE_SANDBOX_ERR_API_ABUSE_STOPIT, 0)
  else mret (0, u32 (arg_reg p_regs arg)).

(** The loop ends only if [len] is a multiple of 4: it is unsigned. *)
Fixpoint get_buf_loop (fuel : nat) (ptr len : Z) : K (Z * bytes) :=
  match fuel with
  | O => kstop Fuel
  | S fuel =>
      if 0 <? len then
        '(pt_ret, errno) ← getk (λ s, st_mem (now s) ptr);
        if (pt_ret =? -1) && negb (errno =? 0) then
          mret (if errno =? ESRCH then PTRACE_SANDBOX_ERR_DEAD else PTRACE_SANDBOX_ERR_PTRACE, [])
        else
          '(ret, rest) ← get_buf_loop fuel (u32 (ptr + 4)) (u32 (len - 4));
          mret (ret, (if 4 <=? len then le4 pt_ret else take (Z.to_nat len) (le4 pt_ret)) ++ rest)
      else mret (0, [])
  end.

Definition ptrace_sandbox_get_buf (ptr len : Z) : K (Z * bytes) :=
  get_buf_loop (S (Z.to_nat (len / 4))) ptr len.

Definition ptrace_sandbox_get_long (ptr : Z) : K (Z * Z) :=
  '(ret, b) ← ptrace_sandbox_get_buf ptr 4;
  mret (ret, un_le4 b).

Definition ptrace_sandbox_get_socketcall_arg (arg : Z) : K (Z * Z) :=
  p_regs ← getb regs;
  if orig_eax p_regs =? 0 then mret (PTRACE_SANDBOX_ERR_API_ABUSE_STOPIT, 0)
  else if (arg <? 0) || (2 <? arg) then mret (PTRACE_SANDBOX_ERR_API_ABUSE_STOPIT, 0)
  else
    '(ret, ptr) ← ptrace_sandbox_get_arg 1;
    if negb (ret =? 0) then mret (ret, 0)
    else ptrace_sandbox_get_long (u32 (ptr + arg * 4)).

(** ** Validators *)

Definition flag (x m : Z) : bool := negb (Z.land x m =? 0).

Definition validate_mmap2 : K Z :=
  '(ret, arg4) ← ptrace_sandbox_get_arg 3;
  mret (if negb (ret =? 0) then ret else if flag arg4 MAP_SHARED then -1 else 0).

Definition validate_open_default : K Z :=
  '(ret, arg2) ← ptrace_sandbox_get_arg 1;
  mret (if negb (ret =? 0) then ret
        else if flag arg2 (Z.lor (Z.lor O_ASYNC O_DIRECT) O_SYNC) then -1 else 0).

Definition validate_open_readonly : K Z :=
  ret ← validate_open_default;
  if negb (ret =? 0) then mret ret
  else
    '(ret, arg2) ← ptrace_sandbox_get_arg 1;
    mret (if negb (ret =? 0) then ret
          else if negb (Z.land arg2 O_ACCMODE =? O_RDONLY) then -1 else 0).

Definition fcntl_commands : list Z :=
  [F_GETFL; F_SETFL; F_SETOWN; F_SETLK; F_SETLKW; F_SETLK64; F_SETLKW64; F_SETFD; F_GETFD].

Definition validate_fcntl : K Z :=
  '(ret, arg2) ← ptrace_sandbox_get_arg 1;
  if negb (ret =? 0) then mret ret
  else
    '(ret, arg3) ← ptrace_sandbox_get_arg 2;
    if negb (ret =? 0) then mret ret
    else
      p ← getb pid;
      mret (if negb (existsb (Z.eqb arg2) fcntl_commands) then -1
            else if (arg2 =? F_SETFL) && flag arg3 (Z.lor O_ASYNC O_DIRECT) then -2
            else if (arg2 =? F_SETOWN) && negb (s32 arg3 =? p) then -3
            else 0).

(** *** ftppolicy.c *)

(** The validators that use the session; a null one is undefined. *)
Definition with_session (p_arg : option vsf_session) (k : vsf_session → K Z) : K Z :=
  match p_arg with Some s => k s | None => kstop UB end.

Definition socket_validator (p_arg : option vsf_session) : K Z :=
  with_session p_arg (λ p_sess,
    let expected_family :=
      if vsf_sysutil_sockaddr_is_ipv6 (p_local_addr p_sess) then AF_INET6_nr else AF_INET_nr in
    '(ret, arg1) ← ptrace_sandbox_get_socketcall_arg 0;
    if negb (ret =? 0) then mret ret
    else
      '(ret, arg2) ← ptrace_sandbox_get_socketcall_arg 1;
      mret (if negb (ret =? 0) then ret
            else if negb (arg1 =? expected_family) || negb (arg2 =? SOCK_STREAM) then -1 else 0)).

Definition klift {A} (r : res A) : K A := λ s,
  match r with Ok a => (Ok a, s) | Err e => (Err e, s) end.

(** [struct sockaddr]: a 16-bit family; the address is at offset 4 in
    [sockaddr_in] and at offset 8 in [sockaddr_in6]. *)
Definition connect_validator (p_arg : option vsf_session) : K Z :=
  with_session p_arg (λ p_sess,
    let v6 := vsf_sysutil_sockaddr_is_ipv6 (p_local_addr p_sess) in
    let expected_family := if v6 then AF_INET6_nr else AF_INET_nr in
    let expected_len := if v6 then 28 else 16 in
    '(ret, arg2) ← ptrace_sandbox_get_socketcall_arg 1;
    if negb (ret =? 0) then mret ret
    else
      '(ret, arg3) ← ptrace_sandbox_get_socketcall_arg 2;
      if negb (ret =? 0) then mret ret
      else if negb (arg3 =? expected_len) then mret (-1)
      else
        '(ret, p_buf) ← ptrace_sandbox_get_buf arg2 expected_len;
        if negb (ret =? 0) then mret (-2)
        else if negb (un_le4 (take 2 p_buf ++ [NUL; NUL]) =? expected_family) then mret (-3)
        else
          p_sockptr ← klift
            (if v6 then vsf_sysutil_sockaddr_set_ipv6addr vsf_sysutil_sockaddr_alloc_ipv6 (drop 8 p_buf)
             else vsf_sysutil_sockaddr_set_ipv4addr vsf_sysutil_sockaddr_alloc_ipv4 (drop 4 p_buf));
          mret (if negb (vsf_sysutil_sockaddr_addr_equal (p_remote_addr p_sess) p_sockptr)
                then -4 else 0)).

Definition getsockopt_validator : K Z :=
  '(ret, arg2) ← ptrace_sandbox_get_socketcall_arg 1;
  if negb (ret =? 0) then mret ret
  else
    '(ret, arg3) ← ptrace_sandbox_get_socketcall_arg 2;
    mret (if negb (ret =? 0) then ret
          else if negb (arg2 =? SOL_SOCKET) || negb (arg3 =? SO_ERROR) then -1 else 0).

Definition setsockopt_validator : K Z :=
  '(ret, arg2) ← ptrace_sandbox_get_socketcall_arg 1;
  if negb (ret =? 0) then mret ret
  else
    '(ret, arg3) ← ptrace_sandbox_get_socketcall_arg 2;
    mret (if negb (ret =? 0) then ret
          else if arg2 =? SOL_SOCKET then
            if existsb (Z.eqb arg3) [SO_KEEPALIVE; SO_REUSEADDR; SO_OOBINLINE; SO_LINGER] then 0 else -1
          else if arg2 =? IPPROTO_TCP then if arg3 =? TCP_NODELAY then 0 else -2
          else if arg2 =? IPPROTO_IP then if arg3 =? IP_TOS then 0 else -3
          else -4).

Definition call_socket_validator (v : socket_validator_t) (p_arg : option vsf_session) : K Z :=
  match v with
  | V_socket => socket_validator p_arg
  | V_connect => connect_validator p_arg
  | V_getsockopt => getsockopt_validator
  | V_setsockopt => setsockopt_validator
  end.

(** *** ptracesandbox.c *)

Definition validate_socketcall : K Z :=
  '(ret, arg1) ← ptrace_sandbox_get_arg 0;
  if negb (ret =? 0) then mret ret
  else if (arg1 <? 1) || (NPROTO <=? arg1) then mret (-1)
  else
    allowed ← entry is_socketcall_allowed arg1;
    if negb (allowed =? 1) then mret (-2)
    else
      p_val ← entry socketcall_validator arg1;
      match p_val with
      | None => mret 0
      | Some v =>
          p_arg ← entry socketcall_validator_arg arg1;
          ret ← call_socket_validator v p_arg;
          mret (if negb (ret =? 0) then -3 else 0)
      end.

Definition call_validator (v : validator_t) : K Z :=
  match v with
  | V_mmap2 => validate_mmap2
  | V_open_default => validate_open_default
  | V_open_readonly => validate_open_readonly
  | V_fcntl => validate_fcntl
  | V_socketcall => validate_socketcall
  end.

(** ** The supervisor *)

(** [malloc] and [sigaction] succeed or not. *)
Definition ptrace_sandbox_alloc (malloc_ok sigaction_ok : bool) : option pt_sandbox :=
  if negb malloc_ok then None
  else if negb sigaction_ok then None
  else
    Some (Sandbox (-1) (-1) (-1)
            (replicate (Z.to_nat MAX_SYSCALL) 0) (replicate (Z.to_nat MAX_SYSCALL) None)
            false no_regs
            (replicate (Z.to_nat NPROTO) 0) (replicate (Z.to_nat NPROTO) None)
            (replicate (Z.to_nat NPROTO) None)).

Definition ptrace_sandbox_free : K unit :=
  p ← getb pid;
  (if negb (p =? -1) then event (EvKill p SIGKILL) else mret tt);;
  fds ← getb (λ s, (read_event_fd s, write_event_fd s));
  if negb (fds.1 =? -1) then event (EvClose fds.1);; event (EvClose fds.2) else mret tt.

(** In the child: the status that it exits with, if it does. [pt_ret] and [ret]
    are the results of [PTRACE_TRACEME] and [kill]. *)
Definition ptrace_sandbox_attach_point (getpid pt_ret ret : Z) : option Z :=
  if getpid <=? 1 then Some 1
  else if negb (pt_ret =? 0) then Some 2
  else if negb (ret =? 0) then Some 3
  else None.

(** The [do ... while] loops around [waitpid]. *)
Fixpoint wait_loop (fuel : nat) : K wait_result :=
  match fuel with
  | O => kstop Fuel
  | S fuel =>
      r ← waitpid;
      match r with
      | WaitFails errno => if errno =? EINTR then wait_loop fuel else mret r
      | WaitReports p _ _ => mret r
      end
  end.
Definition wait_event : K wait_result :=
  n ← getk (λ s, length (waits s));
  wait_loop (S n).

(** [fork] returns [fork_ret] to the parent, [PTRACE_SETOPTIONS] [setopt]. *)
Definition ptrace_sandbox_launch_process (fork_ret setopt : Z) : K Z :=
  p ← getb pid;
  if negb (p =? -1) then mret (-1)
  else
    event (EvFork fork_ret);;
    if fork_ret <? 0 then mret (-1)
    else
      updb (set_pid fork_ret);;
      r ← wait_event;
      let kill_out := event (EvKill fork_ret SIGKILL);; updb (set_pid (-1));; mret (-1) in
      match r with
      | WaitFails _ => kill_out
      | WaitReports ret status _ =>
          if negb (ret =? fork_ret) then kill_out
          else if negb (WIFSTOPPED status) then kill_out
          else if negb (WSTOPSIG status =? SIGSTOP) then kill_out
          else
            event (EvSetOptions fork_ret);;
            if negb (setopt =? 0) then kill_out else mret fork_ret
      end.

Definition ptrace_sandbox_continue_process (sig : Z) : K Z :=
  p ← getb pid;
  event (EvResume p sig);;
  errno ← getk (λ s, resume_errno (now s));
  mret (if negb (errno =? 0)
        then if errno =? ESRCH then PTRACE_SANDBOX_ERR_DEAD else PTRACE_SANDBOX_ERR_PTRACE
        else 0).

(** The result, and the status if that is positive. *)
Definition ptrace_sandbox_get_event : K (Z * Z) :=
  r ← wait_event;
  match r with
  | WaitFails errno =>
      mret (if errno =? ECHILD then PTRACE_SANDBOX_ERR_DEAD else PTRACE_SANDBOX_ERR_WAITPID, 0)
  | WaitReports p status _ => mret (p, status)
  end.

Definition get_action : K Z :=
  errno ← getk (λ s, getregs_errno (now s));
  if negb (errno =? 0) then
    mret (if errno =? ESRCH then PTRACE_SANDBOX_ERR_DEAD else PTRACE_SANDBOX_ERR_PTRACE)
  else
    r ← getk (λ s, st_regs (now s));
    updb (set_regs r);;
    let cs := s32 (xcs r) in
    let call := s32 (orig_eax r) in
    ret ←
      (if negb (cs =? 115) && negb (cs =? 35) then mret PTRACE_SANDBOX_ERR_BAD_SYSCALL
       else if (call <? 0) || (MAX_SYSCALL <=? call) then mret PTRACE_SANDBOX_ERR_BAD_SYSCALL
       else
         allowed ← entry is_allowed call;
         if negb (allowed =? 1) then mret PTRACE_SANDBOX_ERR_POLICY_SYSCALL
         else
           p_validate ← entry validator call;
           match p_validate with
           | None => mret 0
           | Some v =>
               validate_ret ← call_validator v;
               mret (if negb (validate_ret =? 0) then PTRACE_SANDBOX_ERR_POLICY_ARGS else 0)
           end);
    updb (set_regs no_regs);;
    mret ret.

Definition ptrace_sandbox_handle_event (status : Z) : K Z :=
  if WIFEXITED status || WIFSIGNALED status then updb (set_pid (-1));; mret 1
  else if negb (WIFSTOPPED status) then mret PTRACE_SANDBOX_ERR_WAIT_STATUS
  else
    let sig := WSTOPSIG status in
    if (0 <=? sig) && (sig <? 128) then
      ptrace_sandbox_continue_process (if (sig =? SIGSTOP) || (sig =? SIGCONT) then SIGKILL else sig)
    else if negb (flag sig 128) then mret PTRACE_SANDBOX_ERR_WAIT_STATUS
    else
      exit ← getb is_exit;
      if exit : bool then
        updb (set_is_exit false);;
        ptrace_sandbox_continue_process 0
      else
        updb (set_is_exit true);;
        action ← get_action;
        if negb (action =? 0) then mret action
        else ptrace_sandbox_continue_process 0.

(** The started system call is replaced by [exit_group]. *)
Definition exit_regs (r : user_regs) : user_regs :=
  Regs (ebx r) (ecx r) (edx r) (esi r) (edi r) (ebp r) NR_exit_group 4294967295 (xcs r).

Definition ptrace_sandbox_kill_processes : K unit :=
  p ← getb pid;
  if p =? -1 then mret tt
  else
    updb (set_pid (-1));;
    st ← getk now;
    if negb (getregs_errno st =? 0) then event (EvKill p SIGKILL)
    else
      event (EvSetRegs p (exit_regs (st_regs st)));;
      event (EvPtKill p);;
      event (EvKill p SIGKILL);;
      event (EvReap p).

(** [n] rounds of the loop. *)
Fixpoint run_loop (n : nat) : K (option Z) :=
  match n with
  | O => mret None
  | S n =>
      '(ret, status) ← ptrace_sandbox_get_event;
      if ret <=? 0 then ptrace_sandbox_kill_processes;; mret (Some (-1))
      else
        ret ← ptrace_sandbox_handle_event status;
        if ret <? 0 then ptrace_sandbox_kill_processes;; mret (Some (-1))
        else if ret =? 1 then mret (Some 0)
        else run_loop n
  end.

(** [None]: the process still runs after [n] events. *)
Definition ptrace_sandbox_run_processes (n : nat) : K (option Z) :=
  ret ← ptrace_sandbox_continue_process 0;
  if negb (ret =? 0) then ptrace_sandbox_kill_processes;; mret (Some (-1))
  else run_loop n.

(** ** Permissions *)

Definition ptrace_sandbox_permit_exit (s : pt_sandbox) := allow NR_exit_group (allow NR_exit s).
Definition ptrace_sandbox_permit_read (s : pt_sandbox) := allow NR_read s.
Definition ptrace_sandbox_permit_write (s : pt_sandbox) := allow NR_write s.
Definition ptrace_sandbox_permit_sigaction (s : pt_sandbox) :=
  allow NR_rt_sigaction (allow NR_sigaction s).
Definition ptrace_sandbox_permit_alarm (s : pt_sandbox) := allow NR_alarm s.
Definition ptrace_sandbox_permit_query_time (s : pt_sandbox) :=
  allow NR_time (allow NR_gettimeofday s).
Definition ptrace_sandbox_permit_mmap (s : pt_sandbox) :=
  validate_with NR_mmap2 V_mmap2 (allow NR_mmap2 s).
Definition ptrace_sandbox_permit_mprotect (s : pt_sandbox) := allow NR_mprotect s.
Definition ptrace_sandbox_permit_file_stats (s : pt_sandbox) :=
  allow NR_lstat64 (allow NR_lstat (allow NR_stat64 (allow NR_stat s))).
Definition ptrace_sandbox_permit_fd_stats (s : pt_sandbox) := allow NR_fstat64 (allow NR_fstat s).
Definition ptrace_sandbox_permit_getcwd (s : pt_sandbox) := allow NR_getcwd s.
Definition ptrace_sandbox_permit_chdir (s : pt_sandbox) := allow NR_chdir s.
Definition ptrace_sandbox_permit_umask (s : pt_sandbox) := allow NR_umask s.
Definition ptrace_sandbox_permit_open (writeable : Z) (s : pt_sandbox) :=
  validate_with NR_open (if writeable =? 1 then V_open_default else V_open_readonly) (allow NR_open s).
Definition ptrace_sandbox_permit_close (s : pt_sandbox) := allow NR_close s.
Definition ptrace_sandbox_permit_getdents (s : pt_sandbox) :=
  allow NR_getdents64 (allow NR_getdents s).
Definition ptrace_sandbox_permit_fcntl (s : pt_sandbox) :=
  validate_with NR_fcntl64 V_fcntl (allow NR_fcntl64 (validate_with NR_fcntl V_fcntl (allow NR_fcntl s))).
Definition ptrace_sandbox_permit_sendfile (s : pt_sandbox) :=
  allow NR_sendfile64 (allow NR_sendfile s).
Definition ptrace_sandbox_permit_seek (s : pt_sandbox) := allow NR_llseek (allow NR_lseek s).
Definition ptrace_sandbox_permit_select (s : pt_sandbox) := allow NR_newselect (allow NR_select s).
Definition ptrace_sandbox_permit_unlink (s : pt_sandbox) := allow NR_unlink s.
Definition ptrace_sandbox_permit_mkdir (s : pt_sandbox) := allow NR_mkdir s.
Definition ptrace_sandbox_permit_rmdir (s : pt_sandbox) := allow NR_rmdir s.
Definition ptrace_sandbox_permit_rename (s : pt_sandbox) := allow NR_rename s.
Definition ptrace_sandbox_permit_utime (s : pt_sandbox) := allow NR_utimes (allow NR_utime s).
Definition ptrace_sandbox_permit_sigreturn (s : pt_sandbox) := allow NR_sigreturn s.
Definition install_socketcall (s : pt_sandbox) :=
  validate_with NR_socketcall V_socketcall (allow NR_socketcall s).
Definition ptrace_sandbox_permit_recv (s : pt_sandbox) :=
  allow_socketcall SYS_RECV (install_socketcall s).
Definition ptrace_sandbox_permit_readlink (s : pt_sandbox) := allow NR_readlink s.
Definition ptrace_sandbox_permit_brk (s : pt_sandbox) := allow NR_brk s.
Definition ptrace_sandbox_permit_sleep (s : pt_sandbox) := allow NR_nanosleep s.
Definition ptrace_sandbox_permit_fchmod (s : pt_sandbox) := allow NR_fchmod s.
Definition ptrace_sandbox_permit_chmod (s : pt_sandbox) := allow NR_chmod s.
Definition ptrace_sandbox_permit_fchown (s : pt_sandbox) := allow NR_fchown32 (allow NR_fchown s).
Definition ptrace_sandbox_permit_mremap (s : pt_sandbox) := allow NR_mremap s.
Definition ptrace_sandbox_permit_ftruncate (s : pt_sandbox) :=
  allow NR_ftruncate64 (allow NR_ftruncate s).
Definition ptrace_sandbox_permit_socket (s : pt_sandbox) :=
  allow_socketcall SYS_SOCKET (install_socketcall s).
Definition ptrace_sandbox_set_socket_validator (v : socket_validator_t) (p_arg : option vsf_session)
    (s : pt_sandbox) := validate_socketcall_with SYS_SOCKET v p_arg s.
Definition ptrace_sandbox_permit_bind (s : pt_sandbox) :=
  allow_socketcall SYS_BIND (install_socketcall s).
Definition ptrace_sandbox_set_bind_validator (v : socket_validator_t) (p_arg : option vsf_session)
    (s : pt_sandbox) := validate_socketcall_with SYS_BIND v p_arg s.
Definition ptrace_sandbox_permit_connect (s : pt_sandbox) :=
  allow_socketcall SYS_CONNECT (install_socketcall s).
Definition ptrace_sandbox_set_connect_validator (v : socket_validator_t) (p_arg : option vsf_session)
    (s : pt_sandbox) := validate_socketcall_with SYS_CONNECT v p_arg s.
Definition ptrace_sandbox_permit_listen (s : pt_sandbox) :=
  allow_socketcall SYS_LISTEN (install_socketcall s).
Definition ptrace_sandbox_permit_accept (s : pt_sandbox) :=
  allow_socketcall SYS_ACCEPT (install_socketcall s).
Definition ptrace_sandbox_permit_setsockopt (s : pt_sandbox) :=
  allow_socketcall SYS_SETSOCKOPT (install_socketcall s).
Definition ptrace_sandbox_set_setsockopt_validator (v : socket_validator_t)
    (p_arg : option vsf_session) (s : pt_sandbox) := validate_socketcall_with SYS_SETSOCKOPT v p_arg s.
Definition ptrace_sandbox_permit_getsockopt (s : pt_sandbox) :=
  allow_socketcall SYS_GETSOCKOPT (install_socketcall s).
Definition ptrace_sandbox_set_getsockopt_validator (v : socket_validator_t)
    (p_arg : option vsf_session) (s : pt_sandbox) := validate_socketcall_with SYS_GETSOCKOPT v p_arg s.
Definition ptrace_sandbox_permit_shutdown (s : pt_sandbox) :=
  allow_socketcall SYS_SHUTDOWN (install_socketcall s).

(** ** ftppolicy.c: the policy of a session *)

Definition maybe (b : bool) (f : pt_sandbox → pt_sandbox) (s : pt_sandbox) : pt_sandbox :=
  if b then f s else s.
#[local] Notation "s |> f" := (f s) (at level 50, f at level 49, only parsing, left associativity).

Definition policy_setup `{Tun} (p_sess : vsf_session) (p_sandbox : pt_sandbox) : pt_sandbox :=
  let is_anon := is_anonymous p_sess in
  let times := (0 <? tu tun "idle_session_timeout") || (0 <? tu tun "data_connection_timeout") in
  p_sandbox
  |> ptrace_sandbox_permit_exit
  |> ptrace_sandbox_permit_mmap
  |> ptrace_sandbox_permit_mprotect
  |> ptrace_sandbox_permit_brk
  |> ptrace_sandbox_permit_read
  |> ptrace_sandbox_permit_write
  |> ptrace_sandbox_permit_recv
  |> ptrace_sandbox_permit_query_time
  |> ptrace_sandbox_permit_open 0
  |> ptrace_sandbox_permit_close
  |> ptrace_sandbox_permit_file_stats
  |> ptrace_sandbox_permit_readlink
  |> ptrace_sandbox_permit_getcwd
  |> ptrace_sandbox_permit_chdir
  |> ptrace_sandbox_permit_getdents
  |> ptrace_sandbox_permit_fd_stats
  |> ptrace_sandbox_permit_seek
  |> ptrace_sandbox_permit_shutdown
  |> ptrace_sandbox_permit_fcntl
  |> ptrace_sandbox_permit_setsockopt
  |> ptrace_sandbox_set_setsockopt_validator V_setsockopt None
  |> ptrace_sandbox_permit_umask
  |> ptrace_sandbox_permit_select
  |> ptrace_sandbox_permit_sigreturn
  |> ptrace_sandbox_permit_sleep
  |> ptrace_sandbox_permit_sendfile
  |> maybe (tb tun "text_userdb_names") ptrace_sandbox_permit_mremap
  |> maybe (tb tun "async_abor_enable" || times) ptrace_sandbox_permit_sigaction
  |> maybe times ptrace_sandbox_permit_alarm
  |> ptrace_sandbox_permit_socket
  |> ptrace_sandbox_set_socket_validator V_socket (Some p_sess)
  |> ptrace_sandbox_permit_bind
  |> ptrace_sandbox_set_bind_validator V_connect (Some p_sess)
  |> maybe (tb tun "port_enable") (λ s, s
       |> ptrace_sandbox_permit_connect
       |> ptrace_sandbox_set_connect_validator V_connect (Some p_sess)
       |> ptrace_sandbox_permit_getsockopt
       |> ptrace_sandbox_set_getsockopt_validator V_getsockopt None)
  |> maybe (tb tun "pasv_enable") (λ s, s
       |> ptrace_sandbox_permit_listen
       |> ptrace_sandbox_permit_accept)
  |> maybe (tb tun "write_enable") (λ s, s
       |> maybe (negb is_anon || tb tun "anon_upload_enable") (ptrace_sandbox_permit_open 1)
       |> maybe (negb is_anon || tb tun "anon_mkdir_write_enable") ptrace_sandbox_permit_mkdir
       |> maybe (negb is_anon || tb tun "anon_other_write_enable") (λ s, s
            |> ptrace_sandbox_permit_unlink
            |> ptrace_sandbox_permit_rmdir
            |> ptrace_sandbox_permit_rename
            |> ptrace_sandbox_permit_ftruncate
            |> maybe (tb tun "mdtm_write") ptrace_sandbox_permit_utime)
       |> maybe (negb is_anon && tb tun "chmod_enable") ptrace_sandbox_permit_chmod
       |> maybe (is_anon && tb tun "chown_uploads") (λ s, s
            |> ptrace_sandbox_permit_fchmod
            |> ptrace_sandbox_permit_fchown)).

(** ** oneprocess.c: the sandboxed branch of [vsf_one_process_start]

    The parent's side: a supervisor around the session, for [n] events. *)
Definition supervise `{Tun} (p_sess : vsf_session) (alloc_ok : bool) (fork_ret setopt : Z) (n : nat)
    (ws : list wait_result) (st0 : stopped) : res (option Z) * option pstate :=
  match ptrace_sandbox_alloc alloc_ok alloc_ok with
  | None => (die "could not allocate sandbox (only works for 32-bit builds)", None)
  | Some b =>
      let m : K (option Z) :=
        r ← ptrace_sandbox_launch_process fork_ret setopt;
        if r <=? 0 then klift (die "could not launch sandboxed child")
        else
          r ← ptrace_sandbox_run_processes n;
          match r with
          | None => mret None
          | Some _ => ptrace_sandbox_free;; mret r
          end in
      let '(r, s) := m (PState (policy_setup p_sess b) ws st0 []) in (r, Some s)
  end.
