(* ===== verification/PtracePolicy.v ===== *)
(** * The ptrace sandbox enforces the policy of the session

    A declarative policy - which system calls, with which arguments - and two
    facts about the supervisor of Ptrace.v: its decision on a stopped process is
    the policy's, and over a whole run no system call of the process starts that
    the policy forbids. *)

From Stdlib Require Import Init.Byte Strings.Byte.
From Stdlib Require Import ZArith Lia String.
From stdpp Require Import base list numbers option.
From S2P Require Import Prelude SysUtil Text IpAddr Tunables Session Ptrace.

(** ** The policy *)

Section Policy.
Context `{T : Tun} (sess : vsf_session).

Definition is_one_of (z : Z) (l : list Z) : bool := existsb (Z.eqb z) l.

(** Which of its own features the session may use. *)
Definition writes (anon_option : string) : bool :=
  tb tun "write_enable" && (negb (is_anonymous sess) || tb tun anon_option).

Definition timeouts : bool :=
  (0 <? tu tun "idle_session_timeout") || (0 <? tu tun "data_connection_timeout").

(** Calls that need no look at their arguments. *)
Definition always_free : list Z :=
  [NR_exit; NR_exit_group; NR_mprotect; NR_brk; NR_read; NR_write; NR_gettimeofday; NR_time;
   NR_close; NR_stat; NR_stat64; NR_lstat; NR_lstat64; NR_readlink; NR_getcwd; NR_chdir;
   NR_getdents; NR_getdents64; NR_fstat; NR_fstat64; NR_lseek; NR_llseek; NR_umask; NR_select;
   NR_newselect; NR_sigreturn; NR_nanosleep; NR_sendfile; NR_sendfile64].

Definition free_call (c : Z) : bool :=
  is_one_of c always_free
  || (is_one_of c [NR_mremap] && tb tun "text_userdb_names")
  || (is_one_of c [NR_sigaction; NR_rt_sigaction] && (tb tun "async_abor_enable" || timeouts))
  || (is_one_of c [NR_alarm] && timeouts)
  || (is_one_of c [NR_mkdir] && writes "anon_mkdir_write_enable")
  || (is_one_of c [NR_unlink; NR_rmdir; NR_rename; NR_ftruncate; NR_ftruncate64]
      && writes "anon_other_write_enable")
  || (is_one_of c [NR_utime; NR_utimes] && (writes "anon_other_write_enable" && tb tun "mdtm_write"))
  || (is_one_of c [NR_chmod] &&
      (tb tun "write_enable" && negb (is_anonymous sess) && tb tun "chmod_enable"))
  || (is_one_of c [NR_fchmod; NR_fchown; NR_fchown32] &&
      (tb tun "write_enable" && is_anonymous sess && tb tun "chown_uploads")).

(** Read-only opens, and others for those who may upload. *)
Definition open_ok (how : Z) : bool :=
  negb (flag how (Z.lor (Z.lor O_ASYNC O_DIRECT) O_SYNC))
  && (writes "anon_upload_enable" || (Z.land how O_ACCMODE =? O_RDONLY)).

Definition fcntl_ok (own_pid cmd arg : Z) : bool :=
  is_one_of cmd fcntl_commands
  && negb ((cmd =? F_SETFL) && flag arg (Z.lor O_ASYNC O_DIRECT))
  && negb ((cmd =? F_SETOWN) && negb (s32 arg =? own_pid)).

Definition option_ok (level name : Z) : bool :=
  ((level =? SOL_SOCKET) && is_one_of name [SO_KEEPALIVE; SO_REUSEADDR; SO_OOBINLINE; SO_LINGER])
  || ((level =? IPPROTO_TCP) && (name =? TCP_NODELAY))
  || ((level =? IPPROTO_IP) && (name =? IP_TOS)).

(** The memory of the process: a word, unless it cannot be read, and the bytes
    of [n] words. *)
Definition word (mem : Z → Z * Z) (p : Z) : option Z :=
  let '(v, e) := mem p in if (v =? -1) && negb (e =? 0) then None else Some v.

Fixpoint words (mem : Z → Z * Z) (n : nat) (p : Z) : option bytes :=
  match n with
  | O => Some []
  | S n =>
      match word mem p with
      | None => None
      | Some v => match words mem n (u32 (p + 4)) with None => None | Some l => Some (le4 v ++ l) end
      end
  end.

Definition v6 : bool := vsf_sysutil_sockaddr_is_ipv6 (p_local_addr sess).

(** The address structure [b] has the family of the session and the address of
    its client. *)
Definition names_client (b : bytes) : bool :=
  (uchar (nth 0 b NUL) + 256 * uchar (nth 1 b NUL) =? (if v6 then AF_INET6_nr else AF_INET_nr))
  && bool_decide (canonical (p_remote_addr sess) =
       (if v6 then take 16 (drop 8 b) else v4_pattern ++ take 4 (drop 4 b))).

(** The arguments of a call behind [socketcall] are in memory. *)
Definition sock_arg (r : user_regs) (mem : Z → Z * Z) (i : Z) : option Z :=
  u32 <$> word mem (u32 (u32 (ecx r) + i * 4)).

Definition to_client (r : user_regs) (mem : Z → Z * Z) : bool :=
  match sock_arg r mem 1, sock_arg r mem 2 with
  | Some p, Some len =>
      (len =? (if v6 then 28 else 16)) &&
      match words mem (if v6 then 7 else 4) p with
      | Some b => names_client b
      | None => false
      end
  | _, _ => false
  end.

Definition both (a b : option Z) (f : Z → Z → bool) : bool :=
  match a, b with Some x, Some y => f x y | _, _ => false end.

Definition socketcall_ok (r : user_regs) (mem : Z → Z * Z) : bool :=
  let c := u32 (ebx r) in
  is_one_of c [SYS_RECV; SYS_SHUTDOWN]
  || (is_one_of c [SYS_LISTEN; SYS_ACCEPT] && tb tun "pasv_enable")
  || ((c =? SYS_SOCKET) &&
      both (sock_arg r mem 0) (sock_arg r mem 1) (λ family type,
        (family =? (if v6 then AF_INET6_nr else AF_INET_nr)) && (type =? SOCK_STREAM)))
  || ((c =? SYS_BIND) && to_client r mem)
  || ((c =? SYS_CONNECT) && tb tun "port_enable" && to_client r mem)
  || ((c =? SYS_SETSOCKOPT) && both (sock_arg r mem 1) (sock_arg r mem 2) option_ok)
  || ((c =? SYS_GETSOCKOPT) && tb tun "port_enable" &&
      both (sock_arg r mem 1) (sock_arg r mem 2) (λ level name,
        (level =? SOL_SOCKET) && (name =? SO_ERROR))).

(** May the process [own_pid], stopped with these registers and this memory,
    make its system call? *)
Definition permitted (own_pid : Z) (r : user_regs) (mem : Z → Z * Z) : bool :=
  let c := s32 (orig_eax r) in
  is_one_of (s32 (xcs r)) [115; 35]
  && (free_call c
      || ((c =? NR_mmap2) && negb (flag (u32 (esi r)) MAP_SHARED))
      || ((c =? NR_open) && open_ok (u32 (ecx r)))
      || (is_one_of c [NR_fcntl; NR_fcntl64] && fcntl_ok own_pid (u32 (ecx r)) (u32 (edx r)))
      || ((c =? NR_socketcall) && socketcall_ok r mem)).

End Policy.

(** ** The tables that [policy_setup] fills *)

Inductive op :=
  | OAllow (i : Z)
  | OValidate (i : Z) (v : validator_t)
  | OSockAllow (i : Z)
  | OSockValidate (i : Z) (v : socket_validator_t) (a : option vsf_session).

Definition do_op (o : op) : pt_sandbox → pt_sandbox :=
  match o with
  | OAllow i => allow i
  | OValidate i v => validate_with i v
  | OSockAllow i => allow_socketcall i
  | OSockValidate i v a => validate_socketcall_with i v a
  end.

(** A sequence of assignments. *)
Definition seg (l : list op) (s : pt_sandbox) : pt_sandbox := foldl (λ s o, do_op o s) s l.

(** Assignments within the tables. *)
Definition op_in_range (o : op) : bool :=
  match o with
  | OAllow i | OValidate i _ => (0 <=? i) && (i <? MAX_SYSCALL)
  | OSockAllow i | OSockValidate i _ _ => (0 <=? i) && (i <? NPROTO)
  end.

(** What a sandbox says of system call [c]. *)
Definition allows (s : pt_sandbox) (c : Z) (b : bool) : Prop :=
  is_allowed s !! Z.to_nat c = Some (if b then 1 else 0).
Definition checks (s : pt_sandbox) (c : Z) (v : option validator_t) : Prop :=
  validator s !! Z.to_nat c = Some v.
(** And of the socket call [c]. *)
Definition sock_allows (s : pt_sandbox) (c : Z) (b : bool) : Prop :=
  is_socketcall_allowed s !! Z.to_nat c = Some (if b then 1 else 0).
Definition sock_checks (s : pt_sandbox) (c : Z) (v : option socket_validator_t)
    (a : option vsf_session) : Prop :=
  socketcall_validator s !! Z.to_nat c = Some v ∧ socketcall_validator_arg s !! Z.to_nat c = Some a.

Definition op_allows (c : Z) (o : op) : bool := match o with OAllow i => c =? i | _ => false end.
Definition op_checks (c : Z) (v : option validator_t) (o : op) : option validator_t :=
  match o with OValidate i v' => if c =? i then Some v' else v | _ => v end.
Definition op_sock_allows (c : Z) (o : op) : bool := match o with OSockAllow i => c =? i | _ => false end.
Definition op_sock_checks (c : Z) (v : option socket_validator_t * option vsf_session) (o : op) :=
  match o with OSockValidate i v' a => if c =? i then (Some v', a) else v | _ => v end.

Section Tables.
Context (c : Z) (Hc : 0 ≤ c).

Lemma insert_at {A} (l : list A) i (x y : A) :
  0 ≤ i → l !! Z.to_nat c = Some y →
  <[Z.to_nat i := x]> l !! Z.to_nat c = Some (if c =? i then x else y).
Proof using Hc.
  intros Hi Hl. destruct (Z.eqb_spec c i) as [->|Hne].
  - apply list_lookup_insert_eq. by eapply lookup_lt_Some.
  - by rewrite list_lookup_insert_ne by lia.
Qed.

Lemma op_allows_ok o s b :
  op_in_range o = true → allows s c b → allows (do_op o s) c (op_allows c o || b).
Proof using Hc.
  unfold allows. intros Ho Hb. destruct o; cbn in *; try done. b2p.
  rewrite (insert_at _ _ _ _ H Hb). by destruct (_ =? _).
Qed.
Lemma op_checks_ok o s v :
  op_in_range o = true → checks s c v → checks (do_op o s) c (op_checks c v o).
Proof using Hc.
  unfold checks. intros Ho Hb. destruct o; cbn in *; try done. b2p.
  rewrite (insert_at _ _ _ _ H Hb). by destruct (_ =? _).
Qed.
Lemma op_sock_allows_ok o s b :
  op_in_range o = true → sock_allows s c b → sock_allows (do_op o s) c (op_sock_allows c o || b).
Proof using Hc.
  unfold sock_allows. intros Ho Hb. destruct o; cbn in *; try done. b2p.
  rewrite (insert_at _ _ _ _ H Hb). by destruct (_ =? _).
Qed.
Lemma op_sock_checks_ok o s v :
  op_in_range o = true → sock_checks s c v.1 v.2 →
  sock_checks (do_op o s) c (op_sock_checks c v o).1 (op_sock_checks c v o).2.
Proof using Hc.
  unfold sock_checks. intros Ho [Hb Ha]. destruct o; cbn in *; try done. b2p.
  rewrite (insert_at _ _ _ _ H Hb), (insert_at _ _ _ _ H Ha). by destruct (_ =? _).
Qed.

(** A sandbox with all four tables known at [c]. *)
Definition known (s : pt_sandbox) (b : bool) (v : option validator_t) : Prop :=
  allows s c b ∧ checks s c v.
Definition sock_known (s : pt_sandbox) (b : bool) (v : option socket_validator_t * option vsf_session) : Prop :=
  sock_allows s c b ∧ sock_checks s c v.1 v.2.

Lemma seg_known l s b v :
  forallb op_in_range l = true → known s b v →
  known (seg l s) (existsb (op_allows c) l || b) (foldl (op_checks c) v l).
Proof using Hc.
  revert s b v. induction l as [|o l IH]; intros s b v Hl Hk; cbn in *; [done|]. b2p.
  destruct Hk as [H1 H2]. eapply op_allows_ok in H1; [|done]. eapply op_checks_ok in H2; [|done].
  destruct (IH _ _ _ H0 (conj H1 H2)) as [H3 H4]. split; [|done].
  rewrite orb_assoc, (orb_comm (existsb _ _)), <- orb_assoc in H3. rewrite <- orb_assoc. done.
Qed.

Lemma seg_sock_known l s b v :
  forallb op_in_range l = true → sock_known s b v →
  sock_known (seg l s) (existsb (op_sock_allows c) l || b) (foldl (op_sock_checks c) v l).
Proof using Hc.
  revert s b v. induction l as [|o l IH]; intros s b v Hl Hk; cbn in *; [done|]. b2p.
  destruct Hk as [H1 H2]. eapply op_sock_allows_ok in H1; [|done]. eapply op_sock_checks_ok in H2; [|done].
  destruct (IH _ _ _ H0 (conj H1 H2)) as [H3 H4]. split; [|done].
  rewrite orb_assoc, (orb_comm (existsb _ _)), <- orb_assoc in H3. rewrite <- orb_assoc. done.
Qed.

Lemma maybe_known g l s b v :
  forallb op_in_range l = true → known s b v →
  known (maybe g (seg l) s) ((existsb (op_allows c) l && g) || b)
    (if g then foldl (op_checks c) v l else v).
Proof using Hc.
  intros Hl Hk. destruct g; cbn [maybe]; rewrite ?andb_true_r, ?andb_false_r; [by apply seg_known|done].
Qed.

(** Only the permissions change. *)
Definition no_checks (o : op) : bool := match o with OAllow _ => true | _ => false end.
Lemma maybe_known_plain g l s b v :
  forallb op_in_range l && forallb no_checks l = true → known s b v →
  known (maybe g (seg l) s) ((existsb (op_allows c) l && g) || b) v.
Proof using Hc.
  intros Hl Hk. b2p. pose proof (maybe_known g _ _ _ _ H Hk) as Hm.
  assert (foldl (op_checks c) v l = v) as Hv.
  { clear -H0. induction l as [|[] l IH]; cbn in *; [done|auto|done..]. }
  rewrite Hv in Hm. by destruct g.
Qed.

Lemma maybe_sock_known g l s b v :
  forallb op_in_range l = true → sock_known s b v →
  sock_known (maybe g (seg l) s) ((existsb (op_sock_allows c) l && g) || b)
    (if g then foldl (op_sock_checks c) v l else v).
Proof using Hc.
  intros Hl Hk. destruct g; cbn [maybe]; rewrite ?andb_true_r, ?andb_false_r; [by apply seg_sock_known|done].
Qed.

Lemma maybe_sock_plain g l s b v :
  forallb op_in_range l && forallb no_checks l = true → sock_known s b v →
  sock_known (maybe g (seg l) s) b v.
Proof using Hc.
  intros Hl Hk. b2p. pose proof (maybe_sock_known g _ _ _ _ H Hk) as Hm.
  assert (existsb (op_sock_allows c) l = false ∧ foldl (op_sock_checks c) v l = v) as [He Hv].
  { clear -H0. induction l as [|[] l IH]; cbn in *; [done|auto|done..]. }
  rewrite He, Hv in Hm. by destruct g.
Qed.
End Tables.

(** *** [policy_setup] in sections *)

Section Setup.
Context `{T : Tun} (sess : vsf_session).

Definition socketcall_ops : list op := [OAllow NR_socketcall; OValidate NR_socketcall V_socketcall].

Definition base_ops : list op :=
  [OAllow NR_exit; OAllow NR_exit_group; OAllow NR_mmap2; OValidate NR_mmap2 V_mmap2;
   OAllow NR_mprotect; OAllow NR_brk; OAllow NR_read; OAllow NR_write]
  ++ socketcall_ops ++ [OSockAllow SYS_RECV; OAllow NR_gettimeofday; OAllow NR_time;
   OAllow NR_open; OValidate NR_open V_open_readonly; OAllow NR_close;
   OAllow NR_stat; OAllow NR_stat64; OAllow NR_lstat; OAllow NR_lstat64; OAllow NR_readlink;
   OAllow NR_getcwd; OAllow NR_chdir; OAllow NR_getdents; OAllow NR_getdents64;
   OAllow NR_fstat; OAllow NR_fstat64; OAllow NR_lseek; OAllow NR_llseek]
  ++ socketcall_ops ++ [OSockAllow SYS_SHUTDOWN; OAllow NR_fcntl; OValidate NR_fcntl V_fcntl;
   OAllow NR_fcntl64; OValidate NR_fcntl64 V_fcntl]
  ++ socketcall_ops ++ [OSockAllow SYS_SETSOCKOPT; OSockValidate SYS_SETSOCKOPT V_setsockopt None;
   OAllow NR_umask; OAllow NR_select; OAllow NR_newselect; OAllow NR_sigreturn;
   OAllow NR_nanosleep; OAllow NR_sendfile; OAllow NR_sendfile64].

Definition socket_ops : list op :=
  socketcall_ops ++ [OSockAllow SYS_SOCKET; OSockValidate SYS_SOCKET V_socket (Some sess)]
  ++ socketcall_ops ++ [OSockAllow SYS_BIND; OSockValidate SYS_BIND V_connect (Some sess)].

Definition port_ops : list op :=
  socketcall_ops ++ [OSockAllow SYS_CONNECT; OSockValidate SYS_CONNECT V_connect (Some sess)]
  ++ socketcall_ops ++ [OSockAllow SYS_GETSOCKOPT; OSockValidate SYS_GETSOCKOPT V_getsockopt None].

Definition pasv_ops : list op :=
  socketcall_ops ++ [OSockAllow SYS_LISTEN] ++ socketcall_ops ++ [OSockAllow SYS_ACCEPT].

Definition upload_ops : list op := [OAllow NR_open; OValidate NR_open V_open_default].
Definition other_ops : list op :=
  [OAllow NR_unlink; OAllow NR_rmdir; OAllow NR_rename; OAllow NR_ftruncate; OAllow NR_ftruncate64].

Definition read_setup (s : pt_sandbox) : pt_sandbox :=
  maybe (tb tun "pasv_enable") (seg pasv_ops)
 (maybe (tb tun "port_enable") (seg port_ops)
 (seg socket_ops
 (maybe timeouts (seg [OAllow NR_alarm])
 (maybe (tb tun "async_abor_enable" || timeouts) (seg [OAllow NR_sigaction; OAllow NR_rt_sigaction])
 (maybe (tb tun "text_userdb_names") (seg [OAllow NR_mremap])
 (seg base_ops s)))))).

Definition write_setup (s : pt_sandbox) : pt_sandbox :=
  let anon := is_anonymous sess in
  maybe (anon && tb tun "chown_uploads") (seg [OAllow NR_fchmod; OAllow NR_fchown; OAllow NR_fchown32])
 (maybe (negb anon && tb tun "chmod_enable") (seg [OAllow NR_chmod])
 (maybe (negb anon || tb tun "anon_other_write_enable") (λ s,
    maybe (tb tun "mdtm_write") (seg [OAllow NR_utime; OAllow NR_utimes]) (seg other_ops s))
 (maybe (negb anon || tb tun "anon_mkdir_write_enable") (seg [OAllow NR_mkdir])
 (maybe (negb anon || tb tun "anon_upload_enable") (seg upload_ops) s)))).

Lemma policy_setup_sections s :
  policy_setup sess s = maybe (tb tun "write_enable") write_setup (read_setup s).
Proof.
  cbv beta iota zeta delta [policy_setup read_setup write_setup timeouts seg foldl app do_op
    base_ops socket_ops port_ops pasv_ops upload_ops other_ops socketcall_ops Z.eqb Pos.eqb
    ptrace_sandbox_permit_exit ptrace_sandbox_permit_read ptrace_sandbox_permit_write
    ptrace_sandbox_permit_sigaction ptrace_sandbox_permit_alarm ptrace_sandbox_permit_query_time
    ptrace_sandbox_permit_mmap ptrace_sandbox_permit_mprotect ptrace_sandbox_permit_file_stats
    ptrace_sandbox_permit_fd_stats ptrace_sandbox_permit_getcwd ptrace_sandbox_permit_chdir
    ptrace_sandbox_permit_umask ptrace_sandbox_permit_open ptrace_sandbox_permit_close
    ptrace_sandbox_permit_getdents ptrace_sandbox_permit_fcntl ptrace_sandbox_permit_sendfile
    ptrace_sandbox_permit_seek ptrace_sandbox_permit_select ptrace_sandbox_permit_unlink
    ptrace_sandbox_permit_mkdir ptrace_sandbox_permit_rmdir ptrace_sandbox_permit_rename
    ptrace_sandbox_permit_utime ptrace_sandbox_permit_sigreturn install_socketcall
    ptrace_sandbox_permit_recv ptrace_sandbox_permit_readlink ptrace_sandbox_permit_brk
    ptrace_sandbox_permit_sleep ptrace_sandbox_permit_fchmod ptrace_sandbox_permit_chmod
    ptrace_sandbox_permit_fchown ptrace_sandbox_permit_mremap ptrace_sandbox_permit_ftruncate
    ptrace_sandbox_permit_socket ptrace_sandbox_set_socket_validator ptrace_sandbox_permit_bind
    ptrace_sandbox_set_bind_validator ptrace_sandbox_permit_connect
    ptrace_sandbox_set_connect_validator ptrace_sandbox_permit_listen
    ptrace_sandbox_permit_accept ptrace_sandbox_permit_setsockopt
    ptrace_sandbox_set_setsockopt_validator ptrace_sandbox_permit_getsockopt
    ptrace_sandbox_set_getsockopt_validator ptrace_sandbox_permit_shutdown].
  reflexivity.
Qed.

Definition fresh_sandbox : pt_sandbox :=
  Sandbox (-1) (-1) (-1) (replicate (Z.to_nat MAX_SYSCALL) 0) (replicate (Z.to_nat MAX_SYSCALL) None)
    false no_regs (replicate (Z.to_nat NPROTO) 0) (replicate (Z.to_nat NPROTO) None)
    (replicate (Z.to_nat NPROTO) None).

Lemma fresh_known c : 0 ≤ c < MAX_SYSCALL → known c fresh_sandbox false None.
Proof. intros Hc. split; apply lookup_replicate_2; unfold MAX_SYSCALL in *; lia. Qed.
Lemma fresh_sock_known c : 0 ≤ c < NPROTO → sock_known c fresh_sandbox false (None, None).
Proof. intros Hc. repeat split; apply lookup_replicate_2; unfold NPROTO in *; lia. Qed.

Lemma known_eq c s b b' v v' : known c s b v → b = b' → v = v' → known c s b' v'.
Proof. by intros H <- <-. Qed.
Lemma sock_known_eq c s b b' v v' : sock_known c s b v → b = b' → v = v' → sock_known c s b' v'.
Proof. by intros H <- <-. Qed.

(** The calls with a table entry, and who looks at their arguments. *)
Definition allowed_call (c : Z) : bool :=
  free_call sess c || is_one_of c [NR_mmap2; NR_open; NR_fcntl; NR_fcntl64; NR_socketcall].
Definition validator_of (c : Z) : option validator_t :=
  if c =? NR_mmap2 then Some V_mmap2
  else if c =? NR_open then
    Some (if writes sess "anon_upload_enable" then V_open_default else V_open_readonly)
  else if is_one_of c [NR_fcntl; NR_fcntl64] then Some V_fcntl
  else if c =? NR_socketcall then Some V_socketcall
  else None.

Definition allowed_socketcall (c : Z) : bool :=
  is_one_of c [SYS_RECV; SYS_SHUTDOWN; SYS_SETSOCKOPT; SYS_SOCKET; SYS_BIND]
  || (is_one_of c [SYS_LISTEN; SYS_ACCEPT] && tb tun "pasv_enable")
  || (is_one_of c [SYS_CONNECT; SYS_GETSOCKOPT] && tb tun "port_enable").
Definition socket_validator_of (c : Z) : option socket_validator_t * option vsf_session :=
  if c =? SYS_SETSOCKOPT then (Some V_setsockopt, None)
  else if c =? SYS_SOCKET then (Some V_socket, Some sess)
  else if c =? SYS_BIND then (Some V_connect, Some sess)
  else if (c =? SYS_CONNECT) && tb tun "port_enable" then (Some V_connect, Some sess)
  else if (c =? SYS_GETSOCKOPT) && tb tun "port_enable" then (Some V_getsockopt, None)
  else (None, None).

Lemma for_range (n : Z) (P : Z → Prop) c : Forall P (seqZ 0 n) → 0 ≤ c < n → P c.
Proof.
  intros H Hc. apply (Forall_lookup_1 _ _ (Z.to_nat c) _ H).
  rewrite lookup_seqZ_lt by lia. f_equal. lia.
Qed.

#[local] Ltac sections :=
  repeat first [eapply maybe_known_plain; [lia|reflexivity|] |eapply maybe_known; [lia|reflexivity|] | eapply seg_known; [lia|reflexivity|]
               |eapply maybe_sock_plain; [lia|reflexivity|] |eapply maybe_sock_known; [lia|reflexivity|] | eapply seg_sock_known; [lia|reflexivity|]].

Lemma maybe_nested g h f k s :
  maybe g (λ s, maybe h f (k s)) s = maybe (g && h) f (maybe g k s).
Proof. by destruct g. Qed.

(** The calls whose arguments are looked at. *)
Definition checked_calls : list Z := [NR_mmap2; NR_open; NR_fcntl; NR_fcntl64; NR_socketcall].

Lemma for_all_calls (f g : Z → bool) c :
  0 ≤ c < MAX_SYSCALL → forallb (λ c, Bool.eqb (f c) (g c)) (seqZ 0 MAX_SYSCALL) = true → f c = g c.
Proof.
  intros Hc H. apply eqb_prop. apply (for_range MAX_SYSCALL (λ c, Bool.eqb (f c) (g c) = true)); [|done].
  apply Forall_forall. intros x Hx. by eapply forallb_forall in H.
Qed.

Lemma base_calls c :
  0 ≤ c < MAX_SYSCALL →
  existsb (op_allows c) base_ops = is_one_of c always_free || is_one_of c checked_calls.
Proof.
  intros Hc. apply (for_all_calls (λ c, existsb (op_allows c) base_ops)
    (λ c, is_one_of c always_free || is_one_of c checked_calls)); [done|]. vm_compute. reflexivity.
Qed.

Lemma checked_ops c :
  is_one_of c checked_calls = false →
  existsb (op_allows c) pasv_ops = false ∧ existsb (op_allows c) port_ops = false ∧
  existsb (op_allows c) socket_ops = false ∧ existsb (op_allows c) upload_ops = false.
Proof.
  unfold is_one_of, checked_calls. cbn. intros H. rewrite !orb_false_iff in H.
  destruct H as (_ & -> & _ & _ & -> & _). done.
Qed.

(** Two disjunctions of the same cases. *)
#[local] Ltac same_cases :=
  apply eq_true_iff_eq; unfold is_one_of; cbn [existsb op_allows other_ops orb andb];
  rewrite ?andb_false_r, ?orb_false_r, ?orb_true_iff; tauto.

Lemma policy_known c :
  0 ≤ c < MAX_SYSCALL → known c (policy_setup sess fresh_sandbox) (allowed_call c) (validator_of c).
Proof.
  intros Hc. rewrite policy_setup_sections. unfold write_setup.
  destruct (tb tun "write_enable") eqn:Hw; cbn [maybe];
    rewrite ?(maybe_nested _ _ _ (seg other_ops));
    (eapply known_eq; [unfold read_setup; sections; by apply fresh_known| |]).
  1,3: rewrite base_calls by done; unfold allowed_call, free_call, writes; rewrite Hw; fold checked_calls;
    (destruct (is_one_of c checked_calls) eqn:Hk; [by rewrite ?orb_true_r|]);
    destruct (checked_ops c Hk) as (H1 & H2 & H3 & H4); rewrite H1, H2, H3, ?H4; same_cases.
  all: unfold validator_of, writes; rewrite Hw; cbn [foldl op_checks app base_ops socket_ops port_ops
    pasv_ops upload_ops other_ops socketcall_ops andb is_one_of existsb];
    generalize (negb (is_anonymous sess) || tb tun "anon_upload_enable"); intros upload;
    destruct upload, (tb tun "pasv_enable"), (tb tun "port_enable");
    (destruct (Z.eqb_spec c NR_open) as [->|?]; [reflexivity|]);
    (destruct (Z.eqb_spec c NR_mmap2) as [->|?]; [reflexivity|]);
    (destruct (Z.eqb_spec c NR_socketcall) as [->|?]; [reflexivity|]);
    destruct (c =? NR_fcntl), (c =? NR_fcntl64); reflexivity.
Qed.

Lemma policy_sock_known c :
  0 ≤ c < NPROTO →
  sock_known c (policy_setup sess fresh_sandbox) (allowed_socketcall c) (socket_validator_of c).
Proof.
  intros Hc. rewrite policy_setup_sections.
  assert (∀ s b v, sock_known c s b v → sock_known c (maybe (tb tun "write_enable") write_setup s) b v)
    as Hwrite.
  { intros s b v Hs. unfold write_setup. destruct (tb tun "write_enable"); cbn [maybe]; [|done].
    rewrite (maybe_nested _ _ _ (seg other_ops)). eapply sock_known_eq; [sections; exact Hs|reflexivity|].
    by destruct (negb _ || _). }
  apply Hwrite. eapply sock_known_eq; [unfold read_setup; sections; by apply fresh_sock_known| |].
  - unfold allowed_socketcall, is_one_of, pasv_ops, port_ops, socket_ops, base_ops, socketcall_ops.
    cbn [existsb op_sock_allows app orb andb]. apply eq_true_iff_eq.
    rewrite ?orb_false_r, ?orb_true_iff, ?andb_true_iff, ?orb_true_iff. tauto.
  - unfold socket_validator_of. cbn [foldl op_sock_checks app base_ops socket_ops port_ops pasv_ops socketcall_ops].
    destruct (Z.eqb_spec c SYS_SETSOCKOPT) as [->|?];
      [by destruct (tb tun "pasv_enable"), (tb tun "port_enable")|].
    destruct (Z.eqb_spec c SYS_SOCKET) as [->|?];
      [by destruct (tb tun "pasv_enable"), (tb tun "port_enable")|].
    destruct (Z.eqb_spec c SYS_BIND) as [->|?];
      [by destruct (tb tun "pasv_enable"), (tb tun "port_enable")|].
    destruct (Z.eqb_spec c SYS_CONNECT) as [->|?];
      [by destruct (tb tun "pasv_enable"), (tb tun "port_enable")|].
    by destruct (c =? SYS_GETSOCKOPT), (tb tun "pasv_enable"), (tb tun "port_enable").
Qed.

End Setup.

(** ** The decision on a stopped process *)

(** Code that only looks. *)
Definition reads {A} (m : K A) (s : pstate) (a : A) : Prop := m s = (Ok a, s).

Lemma reads_bind {A B} (m : K A) (k : A → K B) s a b :
  reads m s a → reads (k a) s b → reads (m ≫= k) s b.
Proof. unfold reads, mbind, K_bind. by intros -> ->. Qed.

(** The verdict of a validator: 0 for yes. *)
Definition says (m : K Z) (s : pstate) (ok : bool) : Prop :=
  ∃ z, reads m s z ∧ (z =? 0) = ok.

(** The result of a function that fetches a value. *)
Definition fetches {A} (m : K (Z * A)) (s : pstate) (v : option A) : Prop :=
  ∃ ret a, reads m s (ret, a) ∧
    match v with Some x => ret = 0 ∧ a = x | None => (ret =? 0) = false end.

Lemma fetches_bind {A} (m : K (Z * A)) (k : Z * A → K Z) s v ok :
  fetches m s v →
  match v with
  | Some x => says (k (0, x)) s ok
  | None => ∀ ret a, (ret =? 0) = false → says (k (ret, a)) s ok
  end →
  says (p ← m; k p) s ok.
Proof.
  intros (ret & a & Hm & Hv) Hk.
  assert (says (k (ret, a)) s ok) as (z & Hz & Hok) by (destruct v; [by destruct Hv as [-> ->]|auto]).
  exists z. split; [by eapply reads_bind|done].
Qed.

Lemma says_reads {A} (m : K A) (k : A → K Z) s a ok : reads m s a → says (k a) s ok → says (m ≫= k) s ok.
Proof. intros Hm (z & Hz & Hok). exists z. split; [by eapply reads_bind|done]. Qed.

Lemma says_ret z s ok : (z =? 0) = ok → says (mret z) s ok.
Proof. intros H. by exists z. Qed.

Section Decision.
Context `{T : Tun} (sess : vsf_session) (remote_wf : addr_wf (p_remote_addr sess)).

(** A sandbox with the tables of [policy_setup], in the middle of a decision on
    the registers [r]. *)
Record deciding (r : user_regs) (s : pstate) : Prop := Deciding {
  d_allowed : is_allowed (box s) = is_allowed (policy_setup sess fresh_sandbox);
  d_validator : validator (box s) = validator (policy_setup sess fresh_sandbox);
  d_sock : is_socketcall_allowed (box s) = is_socketcall_allowed (policy_setup sess fresh_sandbox);
  d_sock_validator :
    socketcall_validator (box s) = socketcall_validator (policy_setup sess fresh_sandbox);
  d_sock_arg :
    socketcall_validator_arg (box s) = socketcall_validator_arg (policy_setup sess fresh_sandbox);
  d_regs : regs (box s) = r;
  d_call : orig_eax r ≠ 0
}.

Section Stopped.
Context (r : user_regs) (s : pstate) (D : deciding r s).
Abbreviation mem := (st_mem (now s)).

Lemma get_arg_reads i :
  0 ≤ i ≤ 5 → fetches (ptrace_sandbox_get_arg i) s (Some (u32 (arg_reg r i))).
Proof using D.
  intros Hi. exists 0, (u32 (arg_reg r i)). split; [|done].
  unfold reads, ptrace_sandbox_get_arg, mbind, K_bind, getb, getk. rewrite (d_regs _ _ D).
  pose proof (d_call _ _ D). ztest. done.
Qed.

Lemma get_buf_loop_reads n p :
  4 * Z.of_nat n < UINT_MOD →
  fetches (get_buf_loop (S n) p (4 * Z.of_nat n)) s (words mem n p).
Proof.
  revert p. induction n as [|n IH]; intros p Hn; [by exists 0, []|].
  cbn [get_buf_loop words]. destruct (Z.ltb_spec 0 (4 * Z.of_nat (S n))); [|lia].
  unfold word. destruct (mem p) as [v e] eqn:Hv. set (fails := (v =? -1) && negb (e =? 0)).
  destruct fails eqn:Hf.
  { eexists _, []. split.
    - unfold reads, mbind, K_bind, getk at 1. cbn. rewrite Hv. fold fails. by rewrite Hf.
    - by destruct (e =? ESRCH). }
  destruct (IH (u32 (p + 4)) ltac:(lia)) as (ret & l & Hl & Hm).
  assert (u32 (4 * Z.of_nat (S n) - 4) = 4 * Z.of_nat n) as Hlen
    by (rewrite u32_small by (unfold UINT_MOD in *; lia); lia).
  exists ret, (le4 v ++ l). split.
  - unfold reads, mbind, K_bind, getk at 1. cbn -[get_buf_loop Z.of_nat Z.mul]. rewrite Hv. fold fails.
    rewrite Hf, Hlen, Hl. destruct (Z.leb_spec 4 (4 * Z.of_nat (S n))); [done|lia].
  - destruct (words _ n _); [|done]. destruct Hm as [-> ->]. done.
Qed.

Lemma get_buf_reads n p :
  4 * Z.of_nat n < UINT_MOD →
  fetches (ptrace_sandbox_get_buf p (4 * Z.of_nat n)) s (words mem n p).
Proof.
  intros Hn. unfold ptrace_sandbox_get_buf. rewrite Z.mul_comm, Z.div_mul, Nat2Z.id by lia.
  rewrite Z.mul_comm. by apply get_buf_loop_reads.
Qed.

Lemma get_socketcall_arg_reads i :
  0 ≤ i ≤ 2 → fetches (ptrace_sandbox_get_socketcall_arg i) s (sock_arg r mem i).
Proof using D.
  intros Hi. destruct (get_arg_reads 1 ltac:(lia)) as (ret & p & Hp & -> & ->).
  destruct (get_buf_reads 1 (u32 (u32 (ecx r) + i * 4)) ltac:(done)) as (ret & b & Hb & Hw).
  unfold sock_arg. cbn [words] in Hw. exists ret, (un_le4 b). split.
  - unfold reads, ptrace_sandbox_get_socketcall_arg, ptrace_sandbox_get_long, mbind, K_bind, getb, getk at 1.
    rewrite (d_regs _ _ D). pose proof (d_call _ _ D). ztest. cbn [orb negb]. rewrite Hp. cbn [Z.eqb negb]. change (4 * Z.of_nat 1) with 4 in Hb. by rewrite Hb.
  - destruct (word _ _) as [v|]; cbn; [|done]. destruct Hw as [-> ->].
    by rewrite app_nil_r, un_le4_mod.
Qed.

(** One fetched argument. *)
#[local] Ltac fetch_arg :=
  eapply fetches_bind; [apply get_arg_reads; lia|cbn beta iota; cbn [Z.eqb negb]].
#[local] Ltac fetch_sock :=
  eapply fetches_bind; [apply get_socketcall_arg_reads; lia|];
  match goal with |- match ?x with _ => _ end => destruct x eqn:? end;
  cbn [both]; cbv beta iota; cbn [Z.eqb negb];
  [|intros ret a Hret; rewrite Hret; by apply says_ret; destruct (sock_arg r mem _)].

Lemma mmap2_says : says validate_mmap2 s (negb (flag (u32 (esi r)) MAP_SHARED)).
Proof using D. unfold validate_mmap2. fetch_arg. apply says_ret. by destruct (flag _ _). Qed.

Lemma open_default_says :
  says validate_open_default s (negb (flag (u32 (ecx r)) (Z.lor (Z.lor O_ASYNC O_DIRECT) O_SYNC))).
Proof using D. unfold validate_open_default. fetch_arg. apply says_ret. by destruct (flag _ _). Qed.

Lemma says_bind (m : K Z) (k : Z → K Z) ok ok' :
  says m s ok → (if ok then says (k 0) s ok' else ∀ z, (z =? 0) = false → says (k z) s ok') →
  says (m ≫= k) s ok'.
Proof.
  intros (z & Hm & Hz) Hk. assert (says (k z) s ok') as (z' & Hk' & Hz').
  { destruct ok; [apply Z.eqb_eq in Hz as ->; done|auto]. }
  exists z'. split; [by eapply reads_bind|done].
Qed.

Lemma open_readonly_says :
  says validate_open_readonly s
    (negb (flag (u32 (ecx r)) (Z.lor (Z.lor O_ASYNC O_DIRECT) O_SYNC))
     && (Z.land (u32 (ecx r)) O_ACCMODE =? O_RDONLY)).
Proof using D.
  unfold validate_open_readonly. eapply says_bind; [apply open_default_says|].
  destruct (flag _ _); cbn [negb andb].
  - intros z Hz. rewrite Hz. by apply says_ret.
  - cbn [Z.eqb negb]. fetch_arg. apply says_ret. by destruct (_ =? O_RDONLY).
Qed.

Lemma fcntl_says : says validate_fcntl s (fcntl_ok (pid (box s)) (u32 (ecx r)) (u32 (edx r))).
Proof using D.
  unfold validate_fcntl, fcntl_ok, is_one_of. do 2 fetch_arg.
  change (arg_reg r 1) with (ecx r). change (arg_reg r 2) with (edx r).
  eexists. split; [reflexivity|]. destruct (existsb _ _); [|done]. destruct (_ && flag _ _); [done|].
  by destruct (_ && negb _).
Qed.

Lemma socket_says :
  says (socket_validator (Some sess)) s
    (both (sock_arg r mem 0) (sock_arg r mem 1) (λ family type,
       (family =? (if v6 sess then AF_INET6_nr else AF_INET_nr)) && (type =? SOCK_STREAM))).
Proof using D.
  unfold socket_validator, with_session, v6. cbv zeta. fetch_sock. fetch_sock. apply says_ret.
  by destruct (z =? _), (z0 =? _).
Qed.

Lemma getsockopt_says :
  says getsockopt_validator s
    (both (sock_arg r mem 1) (sock_arg r mem 2) (λ level name,
       (level =? SOL_SOCKET) && (name =? SO_ERROR))).
Proof using D.
  unfold getsockopt_validator. fetch_sock. fetch_sock. apply says_ret.
  by destruct (z =? _), (z0 =? _).
Qed.

Lemma setsockopt_says :
  says setsockopt_validator s (both (sock_arg r mem 1) (sock_arg r mem 2) option_ok).
Proof using D.
  unfold setsockopt_validator. fetch_sock. fetch_sock. apply says_ret. unfold option_ok, is_one_of.
  destruct (Z.eqb_spec z SOL_SOCKET) as [->|?]; [by destruct (existsb _ _)|].
  destruct (Z.eqb_spec z IPPROTO_TCP) as [->|?]; [by destruct (z0 =? _)|].
  destruct (Z.eqb_spec z IPPROTO_IP) as [->|?]; [by destruct (z0 =? _)|]. done.
Qed.

Lemma words_length m n p b : words m n p = Some b → length b = (4 * n)%nat.
Proof.
  revert p b. induction n as [|n IH]; intros p b; cbn; [by intros [= <-]|].
  destruct (word m p) as [v|]; [|done]. destruct (words m n _) as [l|] eqn:Hw; [|done].
  intros [= <-]. apply IH in Hw. cbn [length]. lia.
Qed.

(** The family at the start of an address structure. *)
Lemma family_of b :
  (2 <= length b)%nat →
  un_le4 (take 2 b ++ [NUL; NUL]) = uchar (nth 0 b NUL) + 256 * uchar (nth 1 b NUL).
Proof.
  destruct b as [|x [|y b]]; cbn [length]; intros H; [lia..|].
  cbn [firstn app nth]. rewrite take_0. unfold un_le4. cbn [app]. change (uchar NUL) with 0. lia.
Qed.

(** The last steps of [connect_validator]. *)
Lemma compare_says (v : bool) b :
  length b = (if v then 28 else 16)%nat →
  says (p_sockptr ← klift
          (if v then vsf_sysutil_sockaddr_set_ipv6addr vsf_sysutil_sockaddr_alloc_ipv6 (drop 8 b)
           else vsf_sysutil_sockaddr_set_ipv4addr vsf_sysutil_sockaddr_alloc_ipv4 (drop 4 b));
        mret (if negb (vsf_sysutil_sockaddr_addr_equal (p_remote_addr sess) p_sockptr) then -4 else 0)) s
    (bool_decide (canonical (p_remote_addr sess) =
       (if v then take 16 (drop 8 b) else v4_pattern ++ take 4 (drop 4 b)))).
Proof using remote_wf.
  intros Hb. destruct v; eexists.
  - split.
    + unfold reads, mbind, K_bind, klift, vsf_sysutil_sockaddr_set_ipv6addr, copy_bytes. cbn [sa_family set_family vsf_sysutil_sockaddr_alloc_ipv6 res_bind].
      rewrite length_drop, Hb. cbn. reflexivity.
    + rewrite addr_equal_spec; [by destruct (bool_decide _)|done|].
      split; [done|]. split; [done|]. cbn [sin6_addr]. rewrite length_take, length_drop. lia.
  - split.
    + unfold reads, mbind, K_bind, klift, vsf_sysutil_sockaddr_set_ipv4addr, copy_bytes.
      cbn [sa_family set_family vsf_sysutil_sockaddr_alloc_ipv4].
      rewrite length_drop, Hb. cbn. reflexivity.
    + rewrite addr_equal_spec; [by destruct (bool_decide _)|done|].
      split; [done|]. split; [|done]. cbn [sin_addr]. rewrite length_take, length_drop. lia.
Qed.

Lemma connect_says : says (connect_validator (Some sess)) s (to_client sess r mem).
Proof using D remote_wf.
  unfold connect_validator, with_session, to_client. fold (v6 sess). cbv zeta.
  fetch_sock. fetch_sock. destruct (z0 =? _) eqn:Hlen; cbn [negb andb]; [|by apply says_ret].
  set (n := if v6 sess then 7%nat else 4%nat).
  replace (if v6 sess then 28 else 16) with (4 * Z.of_nat n) by (unfold n; by destruct (v6 sess)).
  eapply fetches_bind; [apply get_buf_reads; unfold n; by destruct (v6 sess)|].
  destruct (words mem n z) as [b|] eqn:Hb; cbv beta iota; cbn [Z.eqb negb].
  2:{ intros ret a Hret. rewrite Hret. by apply says_ret. }
  apply words_length in Hb. unfold names_client. rewrite family_of by (unfold n in Hb; destruct (v6 sess); lia).
  destruct (uchar _ + _ =? _); cbn [negb andb]; [|by apply says_ret].
  apply compare_says. unfold n in Hb. by destruct (v6 sess).
Qed.

(** Looking up a call of the tables. *)
Lemma entry_reads {A} (f : pt_sandbox → list A) i a :
  f (box s) !! Z.to_nat i = Some a → reads (entry f i) s a.
Proof. intros H. unfold reads, entry. by rewrite H. Qed.

(** The tables at a socket call. *)
Lemma socket_tables c v a (b : bool) :
  0 ≤ c < NPROTO → allowed_socketcall c = b → socket_validator_of sess c = (v, a) →
  reads (entry is_socketcall_allowed c) s (if b then 1 else 0) ∧
  reads (entry socketcall_validator c) s v ∧ reads (entry socketcall_validator_arg c) s a.
Proof using D.
  intros Hc <- Hv. destruct (policy_sock_known sess c Hc) as (Ha & Hw & Hg). rewrite Hv in Hw, Hg.
  repeat split; apply entry_reads; [rewrite (d_sock _ _ D)|rewrite (d_sock_validator _ _ D)
    |rewrite (d_sock_arg _ _ D)]; assumption.
Qed.

(** The steps of [validate_socketcall] after its range check. *)
Lemma dispatch_says c v a (b ok : bool) :
  0 ≤ c < NPROTO → allowed_socketcall c = b → socket_validator_of sess c = (v, a) →
  (b = true → match v with None => ok = true | Some v => says (call_socket_validator v a) s ok end) →
  (b = false → ok = false) →
  says (allowed ← entry is_socketcall_allowed c;
        if negb (allowed =? 1) then mret (-2)
        else
          p_val ← entry socketcall_validator c;
          match p_val with
          | None => mret 0
          | Some v =>
              p_arg ← entry socketcall_validator_arg c;
              ret ← call_socket_validator v p_arg;
              mret (if negb (ret =? 0) then -3 else 0)
          end) s ok.
Proof using D.
  intros Hc Hb Hv Hyes Hno. destruct (socket_tables c v a b Hc Hb Hv) as (H1 & H2 & H3).
  eapply says_reads; [exact H1|]. destruct b; cbn; [|rewrite Hno by done; by apply says_ret].
  eapply says_reads; [exact H2|]. specialize (Hyes eq_refl). destruct v as [v|]; [|subst; by apply says_ret].
  eapply says_reads; [exact H3|]. eapply says_bind; [exact Hyes|]. cbv beta.
  destruct ok; [by apply says_ret|]. intros z Hz. rewrite Hz. by apply says_ret.
Qed.

#[local] Ltac known_socketcall c n :=
  destruct (Z.eqb_spec c n) as [->|?];
  [unfold SYS_SETSOCKOPT, SYS_SOCKET, SYS_BIND, SYS_CONNECT, SYS_GETSOCKOPT, SYS_RECV, SYS_SHUTDOWN,
     SYS_LISTEN, SYS_ACCEPT; cbn [Z.eqb Pos.eqb orb andb fst snd]; rewrite ?orb_false_r|].

Lemma socketcall_says : says validate_socketcall s (socketcall_ok sess r mem).
Proof using D remote_wf.
  unfold validate_socketcall, socketcall_ok. fetch_arg. change (arg_reg r 0) with (ebx r).
  generalize (u32 (ebx r)). intros c.
  destruct ((c <? 1) || (NPROTO <=? c)) eqn:Hrange.
  { apply says_ret. unfold is_one_of. cbn [existsb]. unfold NPROTO in Hrange. apply orb_true_iff in Hrange.
    unfold SYS_RECV, SYS_SHUTDOWN, SYS_LISTEN, SYS_ACCEPT, SYS_SOCKET, SYS_BIND, SYS_CONNECT, SYS_SETSOCKOPT,
      SYS_GETSOCKOPT. by destruct Hrange; b2p; ztest. }
  b2p. eapply dispatch_says; [lia|reflexivity|apply surjective_pairing|..];
    unfold allowed_socketcall, socket_validator_of, is_one_of; cbn [existsb].
  - known_socketcall c SYS_SETSOCKOPT; [intros _; apply setsockopt_says|].
    known_socketcall c SYS_SOCKET; [intros _; apply socket_says|].
    known_socketcall c SYS_BIND; [intros _; apply connect_says|].
    known_socketcall c SYS_CONNECT; [intros ->; apply connect_says|].
    known_socketcall c SYS_GETSOCKOPT; [intros ->; apply getsockopt_says|].
    cbn [orb andb fst snd]. rewrite ?orb_false_r. done.
  - intros Hno. rewrite !orb_false_iff in Hno. destruct Hno as [[(-> & -> & -> & -> & -> & _) H1] H2].
    rewrite !orb_false_r in *. cbn [orb andb]. rewrite H1. cbn [orb].
    by destruct (c =? SYS_CONNECT), (c =? SYS_GETSOCKOPT), (tb tun "port_enable").
Qed.

End Stopped.
(** A sandbox with the tables of [policy_setup]. *)
Record policed (b : pt_sandbox) : Prop := Policed {
  p_allowed : is_allowed b = is_allowed (policy_setup sess fresh_sandbox);
  p_validator : validator b = validator (policy_setup sess fresh_sandbox);
  p_sock : is_socketcall_allowed b = is_socketcall_allowed (policy_setup sess fresh_sandbox);
  p_sock_validator :
    socketcall_validator b = socketcall_validator (policy_setup sess fresh_sandbox);
  p_sock_arg :
    socketcall_validator_arg b = socketcall_validator_arg (policy_setup sess fresh_sandbox)
}.

Lemma policed_deciding r s : policed (box s) → regs (box s) = r → s32 (orig_eax r) ≠ 0 → deciding r s.
Proof. intros [] Hr Hc. split; [done..|]. intros H. by rewrite H in Hc. Qed.

(** What the validator of system call [c] decides. *)
Definition argument_ok (own : Z) (r : user_regs) (mem : Z → Z * Z) (c : Z) : bool :=
  if c =? NR_mmap2 then negb (flag (u32 (esi r)) MAP_SHARED)
  else if c =? NR_open then open_ok sess (u32 (ecx r))
  else if is_one_of c [NR_fcntl; NR_fcntl64] then fcntl_ok own (u32 (ecx r)) (u32 (edx r))
  else if c =? NR_socketcall then socketcall_ok sess r mem
  else true.

Lemma validator_says r s v :
  deciding r s → validator_of sess (s32 (orig_eax r)) = Some v →
  says (call_validator v) s (argument_ok (pid (box s)) r (st_mem (now s)) (s32 (orig_eax r))).
Proof using remote_wf.
  intros D. unfold validator_of, argument_ok, open_ok. generalize (s32 (orig_eax r)). intros c.
  destruct (c =? NR_mmap2); [intros [= <-]; by apply mmap2_says|].
  destruct (c =? NR_open).
  { destruct (writes sess "anon_upload_enable"); intros [= <-]; cbn [orb]; rewrite ?andb_true_r;
      [by apply open_default_says|by apply open_readonly_says]. }
  destruct (is_one_of c _); [intros [= <-]; by apply fcntl_says|].
  destruct (c =? NR_socketcall); [intros [= <-]; by apply socketcall_says|done].
Qed.

#[local] Ltac known_call Hfree c n :=
  destruct (Z.eqb_spec c n) as [->|?];
  [rewrite Hfree by reflexivity;
   unfold NR_mmap2, NR_open, NR_fcntl, NR_fcntl64, NR_socketcall, is_one_of;
   cbn [existsb Z.eqb Pos.eqb orb andb]; by rewrite ?orb_false_r|].

(** The two ways to write the policy. *)
Lemma permitted_cases own r mem :
  let c := s32 (orig_eax r) in
  permitted sess own r mem =
    is_one_of (s32 (xcs r)) [115; 35] && (allowed_call sess c && argument_ok own r mem c).
Proof.
  intros c. unfold permitted. fold c. f_equal. unfold allowed_call, argument_ok. clearbody c.
  assert (∀ n, is_one_of n checked_calls = true → free_call sess n = false) as Hfree.
  { intros n Hn. unfold checked_calls, is_one_of in Hn. cbn [existsb] in Hn.
    rewrite !orb_true_iff, !Z.eqb_eq in Hn.
    by repeat (destruct Hn as [->|Hn]; [reflexivity|]). }
  known_call Hfree c NR_mmap2. known_call Hfree c NR_open. known_call Hfree c NR_fcntl.
  known_call Hfree c NR_fcntl64. known_call Hfree c NR_socketcall.
  unfold is_one_of. cbn [existsb]. ztest. cbn [orb andb]. by rewrite !orb_false_r, andb_true_r.
Qed.

Lemma is_one_of_range c l :
  is_one_of c l = true → forallb (λ x, (0 <=? x) && (x <? MAX_SYSCALL)) l = true → 0 ≤ c < MAX_SYSCALL.
Proof.
  unfold is_one_of. intros H Hl. apply existsb_exists in H as (x & Hx & Hc). apply Z.eqb_eq in Hc as ->.
  eapply forallb_forall in Hl; [|exact Hx]. by b2p.
Qed.

Lemma allowed_range c : allowed_call sess c = true → 0 ≤ c < MAX_SYSCALL.
Proof.
  unfold allowed_call, free_call. rewrite !orb_true_iff, !andb_true_iff.
  intuition (eapply is_one_of_range; [eassumption|reflexivity]).
Qed.

Lemma unchecked_ok own r mem c : validator_of sess c = None → argument_ok own r mem c = true.
Proof.
  unfold validator_of, argument_ok. destruct (c =? NR_mmap2), (c =? NR_open); try done.
  by destruct (is_one_of c _), (c =? NR_socketcall).
Qed.

(** The decision inside [get_action], with the registers in place. *)
Lemma verdict_reads r s :
  policed (box s) → regs (box s) = r →
  let cs := s32 (xcs r) in
  let call := s32 (orig_eax r) in
  ∃ z, reads
    (if negb (cs =? 115) && negb (cs =? 35) then mret PTRACE_SANDBOX_ERR_BAD_SYSCALL
     else if (call <? 0) || (MAX_SYSCALL <=? call) then mret PTRACE_SANDBOX_ERR_BAD_SYSCALL
     else
       allowed ← entry is_allowed call;
       if negb (allowed =? 1) then mret PTRACE_SANDBOX_ERR_POLICY_SYSCALL
       else
         p_validate ← entry validator call;
         match p_validate with
         | None => mret 0
         | Some v =>
             validate_ret ← call_validator v;
             mret (if negb (validate_ret =? 0) then PTRACE_SANDBOX_ERR_POLICY_ARGS else 0)
         end) s z ∧
    z ≤ 0 ∧ (z =? 0) = permitted sess (pid (box s)) r (st_mem (now s)).
Proof using remote_wf.
  intros Hp Hr cs call. rewrite permitted_cases. fold cs call.
  assert (is_one_of cs [115; 35] = negb (negb (cs =? 115) && negb (cs =? 35))) as ->
    by (unfold is_one_of; cbn; by destruct (cs =? 115), (cs =? 35)).
  destruct (negb (cs =? 115) && negb (cs =? 35)); [by eexists|]. cbn [negb andb].
  destruct ((call <? 0) || (MAX_SYSCALL <=? call)) eqn:Hrange.
  { eexists. split; [done|]. split; [done|]. destruct (allowed_call sess call) eqn:Hal; [|done].
    apply allowed_range in Hal. b2p. lia. }
  b2p. destruct (policy_known sess call ltac:(lia)) as [Ha Hv].
  assert (reads (entry is_allowed call) s (if allowed_call sess call then 1 else 0)) as H1
    by (apply entry_reads; rewrite (p_allowed _ Hp); exact Ha).
  assert (reads (entry validator call) s (validator_of sess call)) as H2
    by (apply entry_reads; rewrite (p_validator _ Hp); exact Hv).
  destruct (allowed_call sess call) eqn:Hal.
  2:{ eexists. split; [eapply reads_bind; [exact H1|reflexivity]|]. done. }
  destruct (validator_of sess call) as [v|] eqn:Hval.
  - assert (deciding r s) as D.
    { apply policed_deciding; [done|done|]. intros Hz. subst call. by rewrite Hz in Hval. }
    destruct (validator_says r s v D Hval) as (z & Hz & Hok). eexists. split.
    { eapply reads_bind; [exact H1|]. eapply reads_bind; [exact H2|]. eapply reads_bind; [exact Hz|reflexivity]. }
    fold call in Hok. rewrite <- Hok. by destruct (z =? 0).
  - eexists. split; [eapply reads_bind; [exact H1|]; eapply reads_bind; [exact H2|reflexivity]|].
    split; [done|]. cbn [andb]. symmetry. by apply unchecked_ok.
Qed.

Lemma policed_set_regs v b : policed b → policed (set_regs v b).
Proof. by intros []; split. Qed.

Lemma policed_set_pid v b : policed b → policed (set_pid v b).
Proof. by intros []; split. Qed.
Lemma policed_setup : policed (policy_setup sess fresh_sandbox).
Proof. by split. Qed.

Lemma action_spec s :
  policed (box s) → getregs_errno (now s) = 0 →
  ∃ z, get_action s = (Ok z, PState (set_regs no_regs (box s)) (waits s) (now s) (evs s)) ∧
    z ≤ 0 ∧ (z =? 0) = permitted sess (pid (box s)) (st_regs (now s)) (st_mem (now s)).
Proof using remote_wf.
  intros Hp He. set (s1 := PState (set_regs (st_regs (now s)) (box s)) (waits s) (now s) (evs s)).
  destruct (verdict_reads (st_regs (now s)) s1 (policed_set_regs _ _ Hp) eq_refl) as (z & Hz & Hneg & Hok).
  exists z. split; [|done]. unfold get_action, mbind, K_bind, getk, updb. rewrite He. cbn [Z.eqb negb].
  fold s1. unfold reads, mbind, K_bind in Hz. cbv zeta. rewrite Hz. done.
Qed.

(** C30: The supervisor's decision is the policy's. For every process stopped at
    a system call, with any registers and memory, get_action on a sandbox that
    policy_setup filled for a session returns 0 exactly if the declarative
    policy of the session permits the call: the 32-bit code segment, a call
    without arguments to look at, a private mapping, an open that is read-only
    unless the session may upload, an fcntl command of the list, or a socket
    call of the list, where socket makes a TCP socket of the session's address
    family and bind and connect name the address of the client. In every other
    case it returns an error, and nothing but the copy of the registers
    changes. *)
Theorem supervisor_decides (s : pstate) :
  policed (box s) → getregs_errno (now s) = 0 →
  ∃ z, get_action s = (Ok z, PState (set_regs no_regs (box s)) (waits s) (now s) (evs s)) ∧
    (z = 0 ↔ permitted sess (pid (box s)) (st_regs (now s)) (st_mem (now s)) = true) ∧
    (z < 0 ↔ permitted sess (pid (box s)) (st_regs (now s)) (st_mem (now s)) = false).
Proof using remote_wf.
  intros Hp He. destruct (action_spec s Hp He) as (z & Hz & Hneg & Hok). exists z. split; [done|].
  rewrite <- Hok. destruct (Z.eqb_spec z 0); (split; [done|split; [lia|done]]) || (split; split; done || lia).
Qed.

(** ** A whole run *)

Definition is_syscall_stop (status : Z) : bool := WIFSTOPPED status && (128 <=? WSTOPSIG status).

(** The number of stops at system calls: odd after the entry of one. *)
Fixpoint stops (l : list pt_event) : bool :=
  match l with
  | EvWait (WaitReports _ status _) :: l => xorb (is_syscall_stop status) (stops l)
  | _ :: l => stops l
  | [] => false
  end.

Fixpoint last_report (l : list pt_event) : option (Z * stopped) :=
  match l with
  | EvWait (WaitReports _ status st) :: _ => Some (status, st)
  | _ :: l => last_report l
  | [] => None
  end.

(** May process [own] be resumed with [sig] after the events [l]? At the entry
    of a system call only if the policy permits the call. *)
Definition licensed (own sig : Z) (l : list pt_event) : Prop :=
  match last_report l with
  | None => sig = 0
  | Some (status, st) =>
      if is_syscall_stop status then
        sig = 0 ∧ (stops l = true → permitted sess own (st_regs st) (st_mem st) = true)
      else sig ≠ SIGSTOP ∧ sig ≠ SIGCONT
  end.

(** Every resumption in a run was licensed. *)
Fixpoint supervised (own : Z) (l : list pt_event) : Prop :=
  match l with
  | EvResume p sig :: l => p = own ∧ licensed own sig l ∧ supervised own l
  | _ :: l => supervised own l
  | [] => True
  end.

(** The end of a run that fails: the system call that the process wanted to
    make is replaced by [exit_group], and the process is killed and reaped; if
    its registers cannot be read, it is killed. *)
Definition killed (own : Z) (l : list pt_event) : Prop :=
  match l with
  | EvReap p1 :: EvKill p2 sig :: EvPtKill p3 :: EvSetRegs p4 r :: _ =>
      p1 = own ∧ p2 = own ∧ sig = SIGKILL ∧ p3 = own ∧ p4 = own ∧ orig_eax r = NR_exit_group
  | EvKill p sig :: l =>
      p = own ∧ sig = SIGKILL ∧
      match last_report l with Some (_, st) => getregs_errno st ≠ 0 | None => True end
  | _ => False
  end.

Section Run.
Context (own : Z) (own_pid : own ≠ -1).

(** The supervised process exists, and has not been resumed without licence. *)
Record alive (s : pstate) : Prop := Alive {
  a_policed : policed (box s);
  a_pid : pid (box s) = own;
  a_now : match last_report (evs s) with Some (_, st) => now s = st | None => True end;
  a_supervised : supervised own (evs s)
}.

(** It runs, or has just been stopped. *)
Definition running (s : pstate) : Prop := alive s ∧ is_exit (box s) = stops (evs s).
Definition reported (status : Z) (s : pstate) : Prop :=
  alive s ∧ last_report (evs s) = Some (status, now s) ∧
  is_exit (box s) = xorb (is_syscall_stop status) (stops (evs s)).

Lemma continue_spec s sig :
  running s → licensed own sig (evs s) →
  ∃ z s', ptrace_sandbox_continue_process sig s = (Ok z, s') ∧ running s' ∧ z ≤ 0.
Proof.
  intros [[Hp Hpid Hn Hs] He] Hl. eexists _, _. split; [reflexivity|]. split.
  - by split; [split|].
  - by destruct (negb _); [destruct (_ =? _)|].
Qed.

Lemma wait_loop_spec n s :
  running s →
  match wait_loop n s with
  | (Ok (WaitFails _), s') => running s'
  | (Ok (WaitReports _ status _), s') => reported status s'
  | (Err _, s') => supervised own (evs s')
  end.
Proof.
  revert s. induction n as [|n IH]; intros s [[Hp Hpid Hn Hs] He]; cbn [wait_loop]; [done|].
  unfold mbind, K_bind, waitpid. destruct (waits s) as [|[errno|p status st] ws]; [done|..].
  - assert (running (PState (box s) ws (now s) (EvWait (WaitFails errno) :: evs s))) as Hr by done.
    destruct (errno =? EINTR); [by apply IH|done].
  - split; [done|]. split; [done|]. cbn. rewrite He. by destruct (is_syscall_stop _), (stops _).
Qed.

Lemma alive_set_exit b s : alive s → alive (PState (set_is_exit b (box s)) (waits s) (now s) (evs s)).
Proof. by intros [[] ? ? ?]; split. Qed.

Lemma resumed s sig :
  running s → licensed own sig (evs s) →
  ∃ z s', ptrace_sandbox_continue_process sig s = (Ok z, s') ∧
    (z < 0 ∧ alive s' ∨ z = 0 ∧ running s' ∨ z = 1 ∧ supervised own (evs s')).
Proof.
  intros Hr Hl. destruct (continue_spec s sig Hr Hl) as (z & s' & Hc & Hr' & Hz). exists z, s'.
  split; [done|]. destruct (decide (z = 0)); [by right; left|]. left. split; [lia|apply Hr'].
Qed.

Lemma high_signal status :
  (0 <=? WSTOPSIG status) && (WSTOPSIG status <? 128) = false →
  flag (WSTOPSIG status) 128 = true ∧ 128 ≤ WSTOPSIG status.
Proof.
  assert (0 ≤ WSTOPSIG status < 256) as Hr.
  { unfold WSTOPSIG. change 255 with (Z.ones 8). rewrite Z.land_ones by lia. apply Z.mod_pos_bound. lia. }
  assert (Forall (λ x, (x <? 128) || flag x 128 = true) (seqZ 0 256)) as Hf.
  { apply Forall_forall, forallb_forall. vm_compute. reflexivity. }
  apply (for_range 256 _ _ Hf) in Hr as Hx. intros H. destruct (Z.ltb_spec (WSTOPSIG status) 128) as [Hlt|Hge].
  - apply andb_false_iff in H as [H|H]; [apply Z.leb_gt in H; lia|done].
  - done.
Qed.

(** At the entry of a system call. *)
Lemma entry_spec s :
  running (PState (set_is_exit true (box s)) (waits s) (now s) (evs s)) →
  (permitted sess own (st_regs (now s)) (st_mem (now s)) = true → licensed own 0 (evs s)) →
  ∃ z s', (updb (set_is_exit true);; action ← get_action;
           if negb (action =? 0) then mret action else ptrace_sandbox_continue_process 0) s = (Ok z, s') ∧
    (z < 0 ∧ alive s' ∨ z = 0 ∧ running s' ∨ z = 1 ∧ supervised own (evs s')).
Proof using remote_wf.
  set (s1 := PState (set_is_exit true (box s)) (waits s) (now s) (evs s)). intros Hr Hl.
  destruct (decide (getregs_errno (now s) = 0)) as [He|He].
  - destruct (action_spec s1 (a_policed _ (proj1 Hr)) He) as (z & Hz & Hneg & Hok).
    unfold mbind at 1, K_bind at 1, updb. fold s1. unfold mbind, K_bind. rewrite Hz.
    destruct (z =? 0) eqn:Ez; cbn [negb].
    + apply resumed; [destruct Hr as [[[]]]; by split; [split|]|]. apply Hl.
      rewrite <- (a_pid _ (proj1 Hr)). done.
    + eexists _, _. split; [reflexivity|]. left. b2p. split; [lia|].
      destruct Hr as [[[]]]; by split.
  - unfold mbind, K_bind, updb. fold s1. unfold get_action, mbind at 1, K_bind at 1, getk.
    cbn [now s1]. rewrite (proj2 (Z.eqb_neq _ _) He). cbn [negb].
    destruct (getregs_errno (now s) =? ESRCH); eexists _, _; (split; [reflexivity|]); left;
      (split; [done|apply Hr]).
Qed.

Lemma handle_event_spec status s :
  reported status s →
  ∃ z s', ptrace_sandbox_handle_event status s = (Ok z, s') ∧
    (z < 0 ∧ alive s' ∨ z = 0 ∧ running s' ∨ z = 1 ∧ supervised own (evs s')).
Proof using remote_wf.
  intros [Ha [Hl He]]. unfold ptrace_sandbox_handle_event.
  destruct (WIFEXITED status || WIFSIGNALED status).
  { eexists _, _. split; [reflexivity|]. right. right. split; [done|]. apply (a_supervised _ Ha). }
  destruct (WIFSTOPPED status) eqn:Hstop; cbn [negb].
  2:{ eexists _, _. split; [reflexivity|]. by left. }
  unfold is_syscall_stop in He. rewrite Hstop in He. cbn [andb] in He.
  destruct ((0 <=? WSTOPSIG status) && (WSTOPSIG status <? 128)) eqn:Hsig.
  - b2p. destruct (Z.leb_spec 128 (WSTOPSIG status)); [lia|]. rewrite xorb_false_l in He.
    apply resumed; [by split|]. unfold licensed, is_syscall_stop. rewrite Hl, Hstop. ztest. cbn [andb].
    destruct (Z.eqb_spec (WSTOPSIG status) SIGSTOP), (Z.eqb_spec (WSTOPSIG status) SIGCONT); done.
  - destruct (high_signal status Hsig) as [-> Hge]. cbn [negb].
    rewrite (proj2 (Z.leb_le _ _) Hge) in He. unfold mbind at 1, K_bind at 1, getb, getk. rewrite He.
    assert (is_syscall_stop status = true) as Hsys by (unfold is_syscall_stop; rewrite Hstop; by ztest).
    destruct (stops (evs s)) eqn:Hst; cbn [xorb].
    + apply entry_spec; [split; [by apply alive_set_exit|done]|]. unfold licensed. cbn [evs]. rewrite Hl, Hsys.
      intros Hok. by split.
    + apply (resumed (PState (set_is_exit false (box s)) (waits s) (now s) (evs s))).
      * split; [by apply alive_set_exit|done].
      * unfold licensed. cbn [evs]. rewrite Hl, Hsys. by rewrite Hst.
Qed.

Lemma kill_spec s :
  alive s →
  ∃ s', ptrace_sandbox_kill_processes s = (Ok tt, s') ∧ supervised own (evs s') ∧ killed own (evs s').
Proof using own_pid.
  intros [Hp Hpid Hn Hs].
  unfold ptrace_sandbox_kill_processes, mbind at 1, K_bind at 1, getb, getk at 1. rewrite Hpid.
  rewrite (proj2 (Z.eqb_neq _ _) own_pid). destruct (getregs_errno (now s) =? 0) eqn:He.
  - eexists. unfold mbind, K_bind, updb, getk. cbn [now]. rewrite He. split; [reflexivity|]. by split.
  - eexists. unfold mbind, K_bind, updb, getk. cbn [now]. rewrite He. split; [reflexivity|].
    split; [done|]. cbn. split; [done|]. split; [done|]. destruct (last_report _) as [[? st]|]; [|done].
    b2p. by subst.
Qed.

(** What [run_processes] may end with. *)
Definition run_ok (o : res (option Z) * pstate) : Prop :=
  supervised own (evs o.2) ∧ (o.1 = Ok (Some (-1)) → killed own (evs o.2)).

Lemma killed_ok s :
  alive s → run_ok ((ptrace_sandbox_kill_processes;; mret (Some (-1))) s).
Proof using own_pid.
  intros Ha. destruct (kill_spec s Ha) as (s' & Hk & H1 & H2).
  unfold run_ok, mbind, K_bind. rewrite Hk. done.
Qed.

Lemma get_event_spec s :
  running s →
  match ptrace_sandbox_get_event s with
  | (Ok (ret, status), s') => alive s' ∧ (0 < ret → reported status s')
  | (Err _, s') => supervised own (evs s')
  end.
Proof.
  intros Hr. unfold ptrace_sandbox_get_event, wait_event, mbind, K_bind, getk.
  pose proof (wait_loop_spec (S (length (waits s))) s Hr) as Hw.
  destruct (wait_loop _ s) as [[[errno|p status st]|e] s']; [|by destruct Hw|done].
  cbn. split; [by destruct Hw|]. by destruct (errno =? ECHILD).
Qed.

Lemma run_loop_ok n s : running s → run_ok (run_loop n s).
Proof using own_pid remote_wf.
  revert s. induction n as [|n IH]; intros s Hr; cbn [run_loop]; [split; [apply Hr|done]|].
  pose proof (get_event_spec s Hr) as Hg. unfold mbind at 1, K_bind at 1.
  destruct (ptrace_sandbox_get_event s) as [[[ret status]|e] s1]; [|by split].
  destruct Hg as [Ha Hrep]. destruct (Z.leb_spec ret 0); [by apply killed_ok|].
  destruct (handle_event_spec status s1 (Hrep ltac:(lia))) as (z & s2 & Hh & Hz).
  unfold mbind at 1, K_bind at 1. rewrite Hh.
  destruct Hz as [[Hneg Ha2]|[[-> Hr2]|[-> Hs2]]].
  - destruct (Z.ltb_spec z 0); [by apply killed_ok|lia].
  - cbn. by apply IH.
  - cbn. by split.
Qed.

End Run.
(** C29: No system call of the sandboxed session starts that the policy forbids.
    Whatever the traced process and the kernel do - the list of the reports of
    waitpid, with any registers, memory and errors - in every run of
    ptrace_sandbox_run_processes over any number of events, each PTRACE_SYSCALL
    goes to the supervised process, after the report of a system call entry only
    if the policy of the session permits that very call with those arguments,
    and never passes on SIGSTOP or SIGCONT. If the run ends with -1, the pending
    system call has been replaced by exit_group and the process killed and
    reaped (killed only, if its registers cannot be read). *)
Theorem run_supervised (own : Z) (n : nat) (s : pstate) :
  own ≠ -1 → policed (box s) → pid (box s) = own → is_exit (box s) = false → evs s = [] →
  supervised own (evs (ptrace_sandbox_run_processes n s).2) ∧
  ((ptrace_sandbox_run_processes n s).1 = Ok (Some (-1)) →
   killed own (evs (ptrace_sandbox_run_processes n s).2)).
Proof using remote_wf.
  intros Hown Hp Hpid He Hevs. change (run_ok own (ptrace_sandbox_run_processes n s)).
  assert (running own s) as Hr by (split; [split|]; by rewrite ?Hevs).
  destruct (continue_spec own s 0 Hr) as (z & s1 & Hc & Hr1 & Hz); [by unfold licensed; rewrite Hevs|].
  unfold ptrace_sandbox_run_processes, mbind at 1, K_bind at 1. rewrite Hc.
  destruct (negb (z =? 0)); [apply killed_ok|apply run_loop_ok]; (done || apply Hr1).
Qed.

End Decision.

(** ** An example session *)

Definition demo_session : vsf_session :=
  fresh_session (MkAddr AF_INET [x0a; x00; x00; x02] (replicate 16 NUL) 21 0) v4_10_0_0_1.

Definition demo_tunables : Tun := tunables_load_defaults.

(** [connect(3, {AF_INET, port 4021, 10.0.0.1}, 16)] and what it reads. *)
Definition connect_regs : user_regs := Regs SYS_CONNECT 1000 0 0 0 0 NR_socketcall 0 115.
Definition demo_memory (host : Z) (p : Z) : Z * Z :=
  (if p =? 1004 then 2000 else if p =? 1008 then 16
   else if p =? 2000 then 2 + 65536 * 46351 else if p =? 2004 then host else 0, 0).
Definition stopped_at (r : user_regs) (host : Z) : stopped := Stopped r (demo_memory host) 0 0 0 0.

(** 10.0.0.1 and 10.0.0.2 as words of memory. *)
Definition client_word : Z := 16777226.
Definition local_word : Z := 33554442.

Definition demo_state (r : user_regs) (host : Z) (ws : list wait_result) : pstate :=
  let T := demo_tunables in
  PState (set_pid 100 (policy_setup demo_session fresh_sandbox)) ws (stopped_at r host) [].

Lemma demo_policed r host ws : policed (T := demo_tunables) demo_session (box (demo_state r host ws)).
Proof. apply (policed_set_pid (T := demo_tunables)), policed_setup. Qed.

(** A connection to the client goes through; to another host it does not. *)
Lemma supervisor_decides_witness :
  let T := demo_tunables in
  (∃ z s', get_action (demo_state connect_regs client_word []) = (Ok z, s') ∧ z = 0) ∧
  (∃ z s', get_action (demo_state connect_regs local_word []) = (Ok z, s') ∧ z < 0).
Proof.
  intros T. assert (addr_wf (p_remote_addr demo_session)) as Hwf by (repeat split; done).
  split.
  - destruct (supervisor_decides (T := T) demo_session Hwf (demo_state connect_regs client_word []))
      as (z & Hz & H0 & _); [apply demo_policed|reflexivity|].
    eexists z, _. split; [exact Hz|]. apply H0. vm_compute. reflexivity.
  - destruct (supervisor_decides (T := T) demo_session Hwf (demo_state connect_regs local_word []))
      as (z & Hz & _ & H0); [apply demo_policed|reflexivity|].
    eexists z, _. split; [exact Hz|]. apply H0. vm_compute. reflexivity.
Defined.

(** A stop at a system call. *)
Definition syscall_status : Z := 127 + 256 * 133.
Definition at_call (c : Z) : wait_result :=
  WaitReports 100 syscall_status (stopped_at (Regs 0 0 0 0 0 0 c 0 115) 0).

(** A session that reads, and then wants to start a program. *)
Definition demo_reports : list wait_result := [at_call NR_read; at_call NR_read; at_call 11].

Lemma run_supervised_witness :
  let T := demo_tunables in
  let r := ptrace_sandbox_run_processes 5 (demo_state no_regs 0 demo_reports) in
  r.1 = Ok (Some (-1)) ∧ supervised demo_session 100 (evs r.2) ∧ killed 100 (evs r.2) ∧
  length (filter (λ e, match e with EvResume _ _ => true | _ => false end = true) (evs r.2)) = 3%nat.
Proof.
  intros T r. assert (addr_wf (p_remote_addr demo_session)) as Hwf by (repeat split; done).
  assert (r.1 = Ok (Some (-1))) as Hr by (vm_compute; reflexivity).
  destruct (run_supervised (T := T) demo_session Hwf 100 5 (demo_state no_regs 0 demo_reports))
    as [H1 H2]; [done|apply demo_policed|reflexivity..|].
  split; [exact Hr|]. split; [exact H1|]. split; [exact (H2 Hr)|]. vm_compute. reflexivity.
Defined.
