(* ===== verification/CmdIO.v ===== *)
(** * The control connection

    netstr.c, readwrite.c, logging.c, ftpcmdio.c, banner.c, features.c and
    opts.c over the calls of Session.v: reading a command line, writing a
    reply, and the log lines that go with them. *)

From Stdlib Require Import Init.Byte Strings.Byte.
From Stdlib Require Import ZArith Lia String.
From stdpp Require Import base list numbers option gmap strings.
From S2P Require Import Prelude SysUtil Text StrList IpAddr Tunables Session.

Definition VSFTP_COMMAND_FD : Z := 0.
Definition VSFTP_MAX_COMMAND_LINE : Z := 4096.

Definition zlen (s : bytes) : Z := Z.of_nat (length s).
Definition text_of (a : answer) : bytes := default [] (a_text a).
Definition isempty (s : bytes) : bool := bool_decide (s = []).
Definition eqtext (s : bytes) (t : string) : bool := t_equal s (lit t).

(** A byte written as an octal escape in the source. *)
Definition IAC : byte := xff.

Section Control.
Context `{E : Env} `{P : Pend} `{T : Tun}.

(** ** sysutil.c: reads and writes

    A call repeated after EINTR is one call here. *)

Definition vsf_sysutil_write (fd : Z) (p_buf : bytes) : M Z :=
  retval ← sys (Write fd p_buf);
  check_pending (CtxIO retval fd);;
  mret retval.

Fixpoint write_loop (fuel : nat) (fd : Z) (p_buf : bytes) (num_written : Z) : M Z :=
  match fuel with
  | O => mret num_written
  | S fuel' =>
      retval ← vsf_sysutil_write fd p_buf;
      if retval <? 0 then mret retval
      else if retval =? 0 then mret num_written
      else if zlen p_buf <? retval then mdie "retval too big in vsf_sysutil_write_loop"
      else
        let rest := drop (Z.to_nat retval) p_buf in
        if isempty rest then mret (num_written + retval)
        else write_loop fuel' fd rest (num_written + retval)
  end.

Definition vsf_sysutil_write_loop (fd : Z) (p_buf : bytes) : M Z :=
  if INT_MAX <? zlen p_buf then mdie "size too big in vsf_sysutil_write_loop"
  else write_loop (S (length p_buf)) fd p_buf 0.

(** The bytes of the control stream that a read of at most [n] delivers when
    the kernel offers [k]; [k = 0] is the end of the stream. *)
Definition delivered (k n : Z) (inp : bytes) : bytes := take (Z.to_nat (Z.min k n)) inp.

Definition vsf_sysutil_recv_peek (n : Z) : M (Z * bytes) :=
  a ← ask (Peek n);
  inp ← getw w_in;
  let data := delivered (a_int a) n inp in
  let retval := if a_int a <? 0 then a_int a else zlen data in
  check_pending (CtxIO retval VSFTP_COMMAND_FD);;
  mret (retval, data).

Definition vsf_sysutil_read_control (n : Z) : M (Z * bytes) :=
  a ← ask (Read VSFTP_COMMAND_FD n);
  inp ← getw w_in;
  let data := delivered (a_int a) n inp in
  let retval := if a_int a <? 0 then a_int a else zlen data in
  modw (put_w_in (drop (length data) inp));;
  check_pending (CtxIO retval VSFTP_COMMAND_FD);;
  mret (retval, data).

(** The loop of [vsf_sysutil_read_loop], with [vsf_sysutil_read] on its
    descriptor. *)
Fixpoint read_loop (rd : Z → M (Z * bytes)) (fuel : nat) (size : Z) (p_buf : bytes)
    : M (Z * bytes) :=
  match fuel with
  | O => mret (zlen p_buf, p_buf)
  | S fuel' =>
      '(retval, data) ← rd size;
      if retval <? 0 then mret (retval, p_buf)
      else if retval =? 0 then mret (zlen p_buf, p_buf)
      else if size <? retval then mdie "retval too big in vsf_sysutil_read_loop"
      else if size - retval =? 0 then mret (zlen (p_buf ++ data), p_buf ++ data)
      else read_loop rd fuel' (size - retval) (p_buf ++ data)
  end.

Definition vsf_sysutil_read_loop (rd : Z → M (Z * bytes)) (size : Z) : M (Z * bytes) :=
  if INT_MAX <? size then mdie "size too big in vsf_sysutil_read_loop"
  else read_loop rd (S (Z.to_nat size)) size [].

Definition vsf_sysutil_close (fd : Z) : M unit :=
  retval ← sys (Close fd);
  if negb (retval =? 0) then mdie "close" else mret tt.

Definition vsf_sysutil_sleep (microseconds : Z) : M unit :=
  do_ (Sys (Sleep microseconds));;
  check_pending CtxUnknown.

Definition lock_file_write (fd : Z) (wait : bool) : M Z :=
  retval ← sys (Fs (LockWrite fd wait));
  check_pending CtxUnknown;;
  mret retval.

Definition vsf_sysutil_fstat (fd : Z) : M answer :=
  a ← ask (Fs (Fstat fd)); if a_int a <? 0 then mdie "fstat" else mret a.

(** ** netstr.c *)

Fixpoint index_of (c : byte) (s : bytes) : option nat :=
  match s with
  | [] => None
  | d :: s' => if bool_decide (d = c) then Some O else S <$> index_of c s'
  end.

(** [str_alloc_alt_term] on a buffer that holds [p_readbuf]. *)
Definition alt_term (p_readbuf : bytes) (term : byte) : bytes :=
  match index_of term p_readbuf with
  | Some i => take i p_readbuf
  | None => p_readbuf
  end.

(** [p_readbuf]: what was consumed so far, i.e. the buffer up to [p_readpos]. *)
Fixpoint netfd_loop (fuel : nat) (term : byte) (maxlen : Z)
    (p_peekfunc p_readfunc : Z → M (Z * bytes)) (p_readbuf : bytes) (left : Z)
    : M (Z * bytes) :=
  match fuel with
  | O => mret (-1, [])
  | S fuel' =>
      if negb (zlen p_readbuf + left =? maxlen)
      then mbug "poor buffer accounting in str_netfd_alloc"
      else if left =? 0 then mret (-1, [])
      else
        '(retval, peeked) ← p_peekfunc left;
        if vsf_sysutil_retval_is_error retval then mdie "vsf_sysutil_recv_peek"
        else if retval =? 0 then mret (0, [])
        else
          match index_of term peeked with
          | Some k =>
              let i := Z.of_nat k + 1 in
              '(retval, data) ← p_readfunc i;
              if vsf_sysutil_retval_is_error retval || negb (retval =? i)
              then mdie "vsf_sysutil_read_loop"
              else if negb (bool_decide (data !! k = Some term))
              then mdie "missing terminator in str_netfd_alloc"
              else mret (i, alt_term (p_readbuf ++ data) term)
          | None =>
              let bytes_read := retval in
              if left <? bytes_read then mbug "bytes_read > left in str_netfd_alloc"
              else
                '(retval, data) ← p_readfunc bytes_read;
                if vsf_sysutil_retval_is_error retval || negb (retval =? bytes_read)
                then mdie "vsf_sysutil_read_loop"
                else netfd_loop fuel' term maxlen p_peekfunc p_readfunc
                       (p_readbuf ++ data) (left - bytes_read)
          end
  end.

Definition str_netfd_alloc (term : byte) (maxlen : Z)
    (p_peekfunc p_readfunc : Z → M (Z * bytes)) : M (Z * bytes) :=
  netfd_loop (S (Z.to_nat maxlen)) term maxlen p_peekfunc p_readfunc [] maxlen.

Definition str_netfd_write (p_str : bytes) (fd : Z) : M Z :=
  if zlen p_str =? 0 then mbug "zero str_len in str_netfd_write"
  else
    retval ← vsf_sysutil_write_loop fd p_str;
    mret (if vsf_sysutil_retval_is_error retval || negb (retval =? zlen p_str)
          then -1 else 0).

(** ** readwrite.c *)

Inductive target := kVSFRWControl | kVSFRWData.

Definition ftp_write_str (p_str : bytes) (tgt : target) : M Z :=
  slave ← gets ssl_slave_active;
  match tgt with
  | kVSFRWData =>
      ssl ← gets data_use_ssl;
      if ssl && slave then
        written ← sys (Ssl (SlaveCmd "SSL_WRITE" p_str));
        mret (if (0 <? written) && (written =? zlen p_str) then 0 else -1)
      else if ssl then sys (Ssl (SslCall "ssl_write_str" p_str))
      else fd ← gets data_fd; str_netfd_write p_str fd
  | kVSFRWControl =>
      ssl ← gets control_use_ssl;
      if ssl && slave then sys (Ssl (SlaveCmd "WRITE_USER_RESP" p_str))
      else if ssl then sys (Ssl (SslCall "ssl_write_str" p_str))
      else str_netfd_write p_str VSFTP_COMMAND_FD
  end.

Definition vsf_sysutil_read (fd n : Z) : M (Z * bytes) :=
  a ← ask (Read fd n);
  check_pending (CtxIO (a_int a) fd);;
  mret (a_int a, take (Z.to_nat (Z.min (a_int a) n)) (text_of a)).

Definition ftp_read_data (len : Z) : M (Z * bytes) :=
  slave ← gets ssl_slave_active;
  ssl ← gets data_use_ssl;
  fd ← gets data_fd;
  if ssl && slave then
    a ← ask (Ssl (SlaveCmd "SSL_READ" []));
    check_pending (CtxIO (a_int a) fd);;
    mret (a_int a, take (Z.to_nat (a_int a)) (text_of a))
  else if ssl then
    a ← ask (Ssl (SslCall "ssl_read" []));
    check_pending (CtxIO (a_int a) fd);;
    mret (a_int a, take (Z.to_nat (a_int a)) (text_of a))
  else vsf_sysutil_read fd len.

Definition ftp_write_data (p_buf : bytes) : M Z :=
  slave ← gets ssl_slave_active;
  ssl ← gets data_use_ssl;
  fd ← gets data_fd;
  if ssl && slave then
    ret ← sys (Ssl (SlaveCmd "SSL_WRITE" p_buf));
    check_pending (CtxIO ret fd);;
    mret ret
  else if ssl then
    ret ← sys (Ssl (SslCall "ssl_write" p_buf));
    check_pending (CtxIO ret fd);;
    mret ret
  else vsf_sysutil_write_loop fd p_buf.

Definition ssl_adapter (func : string) (len : Z) : M (Z * bytes) :=
  a ← ask (Ssl (SslCall func []));
  check_pending (CtxIO (a_int a) VSFTP_COMMAND_FD);;
  mret (a_int a, take (Z.to_nat (Z.min (a_int a) len)) (text_of a)).

Definition ftp_getline : M (Z * bytes) :=
  slave ← gets ssl_slave_active;
  ssl ← gets control_use_ssl;
  if ssl && slave then
    a ← ask (Ssl (SlaveCmd "GET_USER_CMD" []));
    mret (a_int a, if 0 <=? a_int a then text_of a else [])
  else if ssl then
    str_netfd_alloc LF VSFTP_MAX_COMMAND_LINE (ssl_adapter "ssl_peek") (ssl_adapter "ssl_read")
  else
    str_netfd_alloc LF VSFTP_MAX_COMMAND_LINE vsf_sysutil_recv_peek
      (vsf_sysutil_read_loop vsf_sysutil_read_control).

(** ** logging.c *)

Inductive log_entry_type :=
  | kVSFLogEntryNull | kVSFLogEntryDownload | kVSFLogEntryUpload | kVSFLogEntryMkdir
  | kVSFLogEntryLogin | kVSFLogEntryFTPInput | kVSFLogEntryFTPOutput
  | kVSFLogEntryConnection | kVSFLogEntryDelete | kVSFLogEntryRename
  | kVSFLogEntryRmdir | kVSFLogEntryChmod | kVSFLogEntryDebug.

(** The values of the C enumeration, which starts at 1. *)
Definition log_type_value (t : log_entry_type) : Z :=
  match t with
  | kVSFLogEntryNull => 1 | kVSFLogEntryDownload => 2 | kVSFLogEntryUpload => 3
  | kVSFLogEntryMkdir => 4 | kVSFLogEntryLogin => 5 | kVSFLogEntryFTPInput => 6
  | kVSFLogEntryFTPOutput => 7 | kVSFLogEntryConnection => 8 | kVSFLogEntryDelete => 9
  | kVSFLogEntryRename => 10 | kVSFLogEntryRmdir => 11 | kVSFLogEntryChmod => 12
  | kVSFLogEntryDebug => 13
  end.

Definition vsf_log_type_is_transfer (what : Z) : bool :=
  (what =? log_type_value kVSFLogEntryDownload) || (what =? log_type_value kVSFLogEntryUpload).

Definition is_type (what : Z) (t : log_entry_type) : bool := what =? log_type_value t.

Definition vsf_log_start_entry (what : log_entry_type) : M unit :=
  lt ← gets log_type;
  if negb (lt =? 0) then mbug "non null log_type in vsf_log_start_entry"
  else
    upd (set_log_type (log_type_value what));;
    upd (set_log_start_sec 0);;
    upd (set_log_start_usec 0);;
    upd (set_transfer_size 0);;
    upd (set_log_str []);;
    if vsf_log_type_is_transfer (log_type_value what) then
      a ← ask (Sys Clock);
      upd (set_log_start_sec (a_int a));;
      upd (set_log_start_usec (a_size a))
    else mret tt.

Definition vsf_log_entry_pending : M bool :=
  lt ← gets log_type; mret (negb (lt =? 0)).

Definition vsf_log_clear_entry : M unit := upd (set_log_type 0).

(** [str_write_loop]'s result is ignored: maybe the disk filled. *)
Definition vsf_log_do_log_to_file (fd : Z) (p_str : bytes) : M unit :=
  let write_line :=
    vsf_sysutil_write_loop fd (p_str ++ [LF]);;
    if negb (tb tun "no_log_lock") then must (Fs (Unlock fd)) "fcntl" else mret tt in
  if negb (tb tun "no_log_lock") then
    retval ← lock_file_write fd true;
    if vsf_sysutil_retval_is_error retval then mret tt else write_line
  else write_line.

Definition vsf_log_do_log_wuftpd_format (succeeded : bool) : M bytes :=
  what ← gets log_type;
  date ← ask (Sys CurrentDate);
  now ← sys (Sys Clock);
  s ← gets id;
  let delta_sec := now - log_start_sec s in
  let delta_sec := if delta_sec <=? 0 then 1 else delta_sec in
  mret (text_of date ++ [SP]
        ++ vsf_sysutil_ulong_to_str (u64 delta_sec) ++ [SP]
        ++ remote_ip_str s ++ [SP]
        ++ vsf_sysutil_filesize_t_to_str (transfer_size s) ++ [SP]
        ++ t_replace_char (log_str s) SP x5f ++ [SP]
        ++ lit (if is_ascii s then "a " else "b ")
        ++ lit "_ "
        ++ lit (if is_type what kVSFLogEntryUpload then "i " else "o ")
        ++ (if is_anonymous s && negb (is_guest s) then lit "a " ++ anon_pass_str s
            else lit (if is_guest s then "g " else "r ") ++ user_str s)
        ++ [SP] ++ lit "ftp 0 * "
        ++ lit (if succeeded then "c" else "i")).

Definition log_action (what : Z) : option string :=
  if is_type what kVSFLogEntryDownload then Some "DOWNLOAD"%string
  else if is_type what kVSFLogEntryUpload then Some "UPLOAD"%string
  else if is_type what kVSFLogEntryMkdir then Some "MKDIR"%string
  else if is_type what kVSFLogEntryLogin then Some "LOGIN"%string
  else if is_type what kVSFLogEntryFTPInput then Some "FTP command"%string
  else if is_type what kVSFLogEntryFTPOutput then Some "FTP response"%string
  else if is_type what kVSFLogEntryConnection then Some "CONNECT"%string
  else if is_type what kVSFLogEntryDelete then Some "DELETE"%string
  else if is_type what kVSFLogEntryRename then Some "RENAME"%string
  else if is_type what kVSFLogEntryRmdir then Some "RMDIR"%string
  else if is_type what kVSFLogEntryChmod then Some "CHMOD"%string
  else if is_type what kVSFLogEntryDebug then Some "DEBUG"%string
  else None.

Definition quoted (s : bytes) : bytes := [QUOTE] ++ s ++ [QUOTE].

(** The transfer rate is a quotient of doubles: its text is the C library's. *)
Definition log_rate (s : vsf_session) : M bytes :=
  a ← ask (Sys Clock);
  let delta_us := (a_int a - log_start_sec s) * 1000000 + (a_size a - log_start_usec s) in
  let delta_us := if delta_us <=? 0 then 100000 else delta_us in
  r ← ask (Sys (DoubleToStr (transfer_size s * 1000000) (delta_us * 1024)));
  mret (lit ", " ++ text_of r ++ lit "Kbyte/sec").

Definition vsf_log_do_log_vsftpd_format (succeeded : bool) (what : Z) (p_log_str : bytes)
    : M bytes :=
  prefix ← (if tb tun "syslog_enable" then mret []
            else
              date ← ask (Sys CurrentDate);
              pid ← sys (Sys Getpid);
              mret (text_of date ++ lit " [pid " ++ vsf_sysutil_ulong_to_str pid ++ lit "] "));
  s ← gets id;
  match log_action what with
  | None => mbug "bad entry_type in vsf_log_do_log"
  | Some action =>
      tail ← (if is_type what kVSFLogEntryFTPInput || is_type what kVSFLogEntryFTPOutput
                 || is_type what kVSFLogEntryDebug then mret []
              else
                rate ← (if vsf_log_type_is_transfer what then log_rate s else mret []);
                mret ((if transfer_size s =? 0 then []
                       else lit ", " ++ vsf_sysutil_filesize_t_to_str (transfer_size s)
                            ++ lit " bytes") ++ rate));
      mret (prefix
            ++ (if isempty (user_str s) then [] else lit "[" ++ user_str s ++ lit "] ")
            ++ (if is_type what kVSFLogEntryFTPInput || is_type what kVSFLogEntryFTPOutput
                   || is_type what kVSFLogEntryConnection || is_type what kVSFLogEntryDebug
                then [] else lit (if succeeded then "OK " else "FAIL "))
            ++ lit action
            ++ lit ": Client " ++ quoted (remote_ip_str s)
            ++ (if is_type what kVSFLogEntryLogin && negb (isempty (anon_pass_str s))
                then lit ", anon password " ++ quoted (anon_pass_str s) else [])
            ++ (if isempty p_log_str then [] else lit ", " ++ quoted p_log_str)
            ++ tail)
  end.

Definition vsf_log_common (succeeded : bool) (what : Z) (p_str : bytes) : M unit :=
  xfd ← gets xferlog_fd;
  (if negb (xfd =? -1) && vsf_log_type_is_transfer what then
     line ← vsf_log_do_log_wuftpd_format succeeded;
     vsf_log_do_log_to_file xfd line
   else mret tt);;
  lfd ← gets vsftpd_log_fd;
  (if negb (lfd =? -1) then
     line ← vsf_log_do_log_vsftpd_format succeeded what p_str;
     vsf_log_do_log_to_file lfd line
   else mret tt);;
  if tb tun "syslog_enable" then
    line ← vsf_log_do_log_vsftpd_format succeeded what p_str;
    do_ (Sys (Syslog line (is_type what kVSFLogEntryLogin && negb succeeded)))
  else mret tt.

Definition vsf_log_line (what : log_entry_type) (p_str : bytes) : M unit :=
  vsf_log_common true (log_type_value what) p_str.

Definition vsf_log_do_log (succeeded : bool) : M unit :=
  what ← gets log_type;
  p_str ← gets log_str;
  vsf_log_common succeeded what p_str;;
  upd (set_log_type 0).

(** ** ftpcmdio.c *)

(** The text of a reply: the line that goes down the network. *)
Definition response (status : Z) (sep : byte) (p_str : bytes) : bytes :=
  let mangled := t_replace_char (t_replace_text p_str [IAC] [IAC; IAC]) LF NUL in
  vsf_sysutil_ulong_to_str status ++ [sep] ++ mangled ++ crlf.

Definition ftp_write_str_common (status : Z) (sep : byte) (p_str : bytes) : M unit :=
  when (tb tun "log_ftp_protocol")
    (vsf_log_line kVSFLogEntryFTPOutput (vsf_sysutil_ulong_to_str status ++ [sep] ++ p_str));;
  retval ← ftp_write_str (response status sep p_str) kVSFRWControl;
  if negb (retval =? 0) then mdie "ftp_write" else mret tt.

Definition HYPHEN : byte := x2d.

Definition vsf_cmdio_write (status : Z) (p_text : string) : M unit :=
  ftp_write_str_common status SP (lit p_text).

Definition vsf_cmdio_write_hyphen (status : Z) (p_text : string) : M unit :=
  ftp_write_str_common status HYPHEN (lit p_text).

Definition vsf_cmdio_write_str (status : Z) (p_str : bytes) : M unit :=
  ftp_write_str_common status SP p_str.

Definition vsf_cmdio_write_str_hyphen (status : Z) (p_str : bytes) : M unit :=
  ftp_write_str_common status HYPHEN p_str.

Definition vsf_cmdio_write_raw (p_text : bytes) : M unit :=
  when (tb tun "log_ftp_protocol") (vsf_log_line kVSFLogEntryFTPOutput p_text);;
  retval ← ftp_write_str p_text kVSFRWControl;
  if negb (retval =? 0) then mdie "ftp_write_str" else mret tt.

Definition vsf_cmdio_write_exit {A} (status : Z) (p_text : string) (exit_val : Z) : M A :=
  must (Sock (Sockopt VSFTP_COMMAND_FD "noblock")) "fcntl";;
  do_ (Sock (Shutdown VSFTP_COMMAND_FD false));;
  vsf_cmdio_write status p_text;;
  do_ (Sock (Shutdown VSFTP_COMMAND_FD true));;
  stop_with (Exit exit_val).

Definition vsf_cmdio_set_alarm : M unit :=
  if 0 <? tu tun "idle_session_timeout" then
    modw (put_alarm (Some IdleAlarm));;
    do_ (Sys (Alarm (tu tun "idle_session_timeout")))
  else mret tt.

Fixpoint drop_cr (rs : bytes) : bytes :=
  match rs with
  | c :: rs' => if bool_decide (c = CR) then drop_cr rs' else rs
  | [] => []
  end.

(** Truncate while the last character is a CR. *)
Definition strip_cr (s : bytes) : bytes := rev (drop_cr (rev s)).

Definition control_getline : M (bool * bytes) :=
  '(ret, line) ← ftp_getline;
  if ret =? 0 then mret (false, line)
  else if ret <? 0 then vsf_cmdio_write_exit 500 "Input line too long." 1
  else mret (true, strip_cr (t_replace_char line NUL LF)).

Definition split_cmd (line : bytes) : bytes * bytes :=
  if bool_decide (line = [SP]) then (t_upper line, [])
  else let '(cmd, arg) := t_split_char line SP in (t_upper cmd, arg).

(** What the protocol log shows of a command. *)
Definition input_log_text (cmd arg : bytes) : bytes :=
  if eqtext cmd "PASS" then lit "PASS <password>"
  else cmd ++ (if isempty arg then [] else [SP] ++ arg).

Definition vsf_cmdio_get_cmd_and_arg (set_alarm : bool) : M (bytes * bytes) :=
  when set_alarm vsf_cmdio_set_alarm;;
  '(ok, line) ← control_getline;
  timeout ← gets idle_timeout;
  when timeout (vsf_cmdio_write_exit 421 "Timeout." 1);;
  if negb ok then
    do_ (Sock (Shutdown VSFTP_COMMAND_FD true));;
    stop_with (Exit 1)
  else
    let '(cmd, arg) := split_cmd line in
    when (tb tun "log_ftp_protocol")
      (vsf_log_line kVSFLogEntryFTPInput (input_log_text cmd arg));;
    mret (cmd, arg).

(** ** banner.c *)

Definition VSFTP_MAX_VISIT_REMEMBER : Z := 100.
Definition VSFTP_MAX_MSGFILE_SIZE : Z := 4000.

Fixpoint write_lines (lines : list bytes) (ftpcode : Z) : M unit :=
  match lines with
  | [] => mret tt
  | l :: lines' => vsf_cmdio_write_str_hyphen ftpcode l;; write_lines lines' ftpcode
  end.

Definition vsf_banner_write (p_str : bytes) (ftpcode : Z) : M unit :=
  write_lines (t_lines p_str) ftpcode.

Definition str_getcwd : M bytes := a ← ask (Fs Getcwd); mret (text_of a).

Definition vsf_banner_dir_changed (ftpcode : Z) : M unit :=
  if negb (tb tun "dirmessage_enable") then mret tt
  else
    visited ← gets p_visited_dir_list;
    let visited := default INIT_MYSTR_LIST visited in
    upd (set_p_visited_dir_list (Some visited));;
    dir_str ← str_getcwd;
    if str_list_contains_str visited dir_str then mret tt
    else
      (if str_list_get_length visited <? VSFTP_MAX_VISIT_REMEMBER then
         visited' ← lift (str_list_add visited dir_str None);
         upd (set_p_visited_dir_list (Some visited'))
       else mret tt);;
      msg ← match ts tun "message_file" with
            | Some f => a ← ask (Fs (Fileread f VSFTP_MAX_MSGFILE_SIZE)); mret (text_of a)
            | None => mret []
            end;
      vsf_banner_write msg ftpcode.

(** ** features.c and opts.c *)

Definition raw_line (p_text : string) : M unit := vsf_cmdio_write_raw (lit p_text ++ crlf).

Definition handle_feat : M unit :=
  vsf_cmdio_write_hyphen 211 "Features:";;
  when (tb tun "ssl_enable")
    (when (tb tun "sslv2" || tb tun "sslv3") (raw_line " AUTH SSL");;
     when (tb tun "tlsv1") (raw_line " AUTH TLS"));;
  when (tb tun "port_enable") (raw_line " EPRT");;
  when (tb tun "pasv_enable") (raw_line " EPSV");;
  when (tb tun "pasv_enable") (raw_line " PASV");;
  when (tb tun "ssl_enable") (raw_line " PBSZ";; raw_line " PROT");;
  raw_line " SIZE";;
  raw_line " TVFS";;
  raw_line " UTF8";;
  vsf_cmdio_write 211 "End".

Definition handle_opts : M unit :=
  arg ← gets ftp_arg_str;
  upd (set_ftp_arg_str (t_upper arg));;
  if eqtext (t_upper arg) "UTF8 ON" then vsf_cmdio_write 200 "Always in UTF8 mode."
  else vsf_cmdio_write 501 "Option not understood.".

End Control.
