(* ===== verification/Signals.v ===== *)
(** * Signals and the I/O handler

    vsf_sysutil_check_pending_actions of sysutil.c with the handlers a session
    installs: the idle alarm (ftpcmdio.c), the data alarm and the bandwidth
    limiter (ftpdataio.c), the out-of-band ABOR (postlogin.c) and SIGTERM
    (twoprocess.c). A handler runs after a call that may block, never in the
    middle of other code, and is not re-entrant. *)

From Stdlib Require Import Init.Byte Strings.Byte.
From Stdlib Require Import ZArith Lia String.
From stdpp Require Import base list numbers option gmap strings.
From S2P Require Import Prelude SysUtil Text StrList IpAddr Tunables Session CmdIO.

Section Handlers.
Context `{E : Env} `{T : Tun}.

Definition handle_alarm_timeout : M unit :=
  upd (set_idle_timeout true);;
  must (Sock (Sockopt VSFTP_COMMAND_FD "noblock")) "fcntl";;
  do_ (Sock (Shutdown VSFTP_COMMAND_FD false)).

Definition start_data_alarm : M unit :=
  if 0 <? tu tun "data_connection_timeout" then
    modw (put_alarm (Some DataAlarm));;
    do_ (Sys (Alarm (tu tun "data_connection_timeout")))
  else when (0 <? tu tun "idle_session_timeout") (do_ (Sys (Alarm 0))).

Definition handle_sigalrm : M unit :=
  progress ← gets data_progress;
  if negb progress then
    upd (set_data_timeout true);;
    fd ← gets data_fd;
    do_ (Sock (Shutdown fd true));;
    do_ (Sock (Shutdown VSFTP_COMMAND_FD false));;
    must (Sock (Sockopt VSFTP_COMMAND_FD "noblock")) "fcntl"
  else
    upd (set_data_progress false);;
    start_data_alarm.

(** The rate in bytes per second and the pause in microseconds, in exact
    arithmetic where the code has doubles. *)
Definition bw_elapsed (sec usec start_sec start_usec : Z) : Z :=
  let e := (sec - start_sec) * 1000000 + (usec - start_usec) in
  if e <=? 0 then 10000 else e.

Definition bw_rate (retval elapsed : Z) : Z := u32 (retval * 1000000 / elapsed).

Definition bw_pause (rate rate_max elapsed : Z) : Z := (rate - rate_max) * elapsed / rate_max.

Definition handle_sigterm : M unit :=
  do_ (Sock (Shutdown VSFTP_COMMAND_FD true));;
  stop_with (Exit 1).

Section WithPend.
Context `{P : Pend}.

Definition handle_io (retval fd : Z) : M unit :=
  dfd ← gets data_fd;
  if negb (dfd =? fd) || vsf_sysutil_retval_is_error retval || (retval =? 0) then mret tt
  else
    upd (set_data_progress true);;
    rate_max ← gets bw_rate_max;
    if rate_max =? 0 then mret tt
    else
      now ← ask (Sys Clock);
      start_sec ← gets bw_send_start_sec;
      start_usec ← gets bw_send_start_usec;
      let elapsed := bw_elapsed (a_int now) (a_size now) start_sec start_usec in
      let rate := bw_rate retval elapsed in
      if rate <=? rate_max then
        upd (set_bw_send_start_sec (a_int now));;
        upd (set_bw_send_start_usec (a_size now))
      else
        vsf_sysutil_sleep (bw_pause rate rate_max elapsed);;
        now ← ask (Sys Clock);
        upd (set_bw_send_start_sec (a_int now));;
        upd (set_bw_send_start_usec (a_size now)).

(** Chop off the first four characters, the telnet ones. *)
Definition real_cmd (async_cmd_str : bytes) : bytes :=
  if 4 <=? zlen async_cmd_str then drop 4 async_cmd_str else [].

Definition handle_sigurg : M unit :=
  fd ← gets data_fd;
  if fd =? -1 then mret tt
  else
    '(async_cmd_str, _) ← vsf_cmdio_get_cmd_and_arg false;
    if eqtext (real_cmd async_cmd_str) "ABOR" then
      upd (set_abor_received true);;
      fd ← gets data_fd;
      do_ (Sock (Shutdown fd true))
    else vsf_cmdio_write 500 "Unknown command.".

(** Both handlers are installed with [use_alarm]. *)
Definition run_alarm : M unit :=
  h ← getw alarm;
  match h with
  | Some IdleAlarm => do_ (Sys (Alarm 0));; handle_alarm_timeout
  | Some DataAlarm => do_ (Sys (Alarm 0));; handle_sigalrm
  | None => mret tt
  end.

(** The body of the loop over the signals, for one pending signal: a handler
    that is running stays pending. *)
Definition run_signal (s : signal) : M unit :=
  match s with
  | SigALRM =>
      running ← getw alrm_running;
      if running : bool then mret tt
      else
        modw (put_alrm_running true);;
        run_alarm;;
        modw (put_alrm_running false)
  | SigTERM => handle_sigterm
  | SigURG =>
      running ← getw urg_running;
      installed ← getw sigurg;
      if running || negb installed then mret tt
      else
        modw (put_urg_running true);;
        handle_sigurg;;
        modw (put_urg_running false)
  end.

Fixpoint run_signals (l : list signal) : M unit :=
  match l with
  | [] => mret tt
  | s :: l' => run_signal s;; run_signals l'
  end.

Definition run_io_handler (ctx : context) : M unit :=
  match ctx with
  | CtxIO retval fd =>
      installed ← getw io_handler;
      running ← getw io_handler_running;
      if installed && negb running then
        modw (put_io_handler_running true);;
        handle_io retval fd;;
        modw (put_io_handler_running false)
      else mret tt
  | CtxUnknown => mret tt
  end.

Definition pending_actions (ctx : context) : M unit :=
  run_io_handler ctx;;
  a ← ask (Sys Pending);
  run_signals (a_sigs a).

End WithPend.

(** A handler may block and be interrupted by another one. The I/O handler,
    SIGURG's and SIGALRM's each run at most once at a time, so the nesting is
    at most three deep. *)
Fixpoint check_pending_at (depth : nat) (ctx : context) : M unit :=
  match depth with
  | O => mret tt
  | S depth' => pending_actions (P := check_pending_at depth') ctx
  end.

End Handlers.

#[global] Instance vsf_sysutil_check_pending_actions `{E : Env} `{T : Tun} : Pend :=
  check_pending_at 3.
