(* ===== verification/Logic.v ===== *)
(** * Reasoning about session code

    Hoare triples for the monad of Session.v, and the invariants that any run
    preserves whether it returns or stops. *)

From Stdlib Require Import Init.Byte Strings.Byte.
From Stdlib Require Import ZArith Lia String.
From stdpp Require Import base list numbers option gmap strings.
From S2P Require Import Prelude SysUtil Text StrList IpAddr Tunables Session CmdIO.
From S2P Require Import Signals.

(** From a state with [Pre], [m] either returns with [Post] or stops with
    [Ex]. *)
Definition hoare {A} (Pre : world → Prop) (m : M A) (Post : A → world → Prop)
    (Ex : stop → world → Prop) : Prop :=
  ∀ w, Pre w →
    match m w with
    | (Ok a, w') => Post a w'
    | (Err s, w') => Ex s w'
    end.

(** A run of a sequence that returns is one of each part. *)
Lemma bind_Ok {A B} (m : M A) (k : A → M B) w b w' :
  (m ≫= k) w = (Ok b, w') → ∃ a w1, m w = (Ok a, w1) ∧ k a w1 = (Ok b, w').
Proof.
  unfold mbind, M_bind. destruct (m w) as [[a|s] w1]; [|discriminate]. intros H. by exists a, w1.
Qed.

(** [I] holds after any run from a state with [I]. *)
Definition inv {A} (I : world → Prop) (m : M A) : Prop := hoare I m (λ _, I) (λ _, I).

Section Rules.
Context {A B : Type}.
Implicit Types (Pre : world → Prop) (Ex : stop → world → Prop).

Lemma hoare_conseq Pre Pre' (m : M A) (Q Q' : A → world → Prop) Ex Ex' :
  hoare Pre m Q Ex → (∀ w, Pre' w → Pre w) → (∀ a w, Q a w → Q' a w) →
  (∀ s w, Ex s w → Ex' s w) → hoare Pre' m Q' Ex'.
Proof. intros H HP HQ HE w Hw. specialize (H w (HP w Hw)). destruct (m w) as [[]]; auto. Qed.

Lemma hoare_ret Pre (a : A) (Q : A → world → Prop) Ex :
  (∀ w, Pre w → Q a w) → hoare Pre (mret a) Q Ex.
Proof. intros H w Hw. cbn. auto. Qed.

Lemma hoare_bind Pre (m : M A) (k : A → M B) (R : A → world → Prop) Q Ex :
  hoare Pre m R Ex → (∀ a, hoare (R a) (k a) Q Ex) → hoare Pre (m ≫= k) Q Ex.
Proof.
  intros Hm Hk w Hw. specialize (Hm w Hw). unfold mbind, M_bind.
  destruct (m w) as [[a|s] w']; [|done]. by apply Hk.
Qed.

Lemma hoare_pre Pre (m : M A) Q Ex (φ : Prop) :
  (φ → hoare Pre m Q Ex) → hoare (λ w, φ ∧ Pre w) m Q Ex.
Proof. intros H w [? ?]. by apply H. Qed.

(** A stateful read: the value is that of the state. *)
Lemma hoare_getw Pre (f : world → A) (k : A → M B) Q Ex :
  (∀ a, hoare (λ w, f w = a ∧ Pre w) (k a) Q Ex) → hoare Pre (getw f ≫= k) Q Ex.
Proof. intros H w Hw. apply (H (f w) w). auto. Qed.

Lemma hoare_gets Pre (f : vsf_session → A) (k : A → M B) Q Ex :
  (∀ a, hoare (λ w, f (sess w) = a ∧ Pre w) (k a) Q Ex) → hoare Pre (gets f ≫= k) Q Ex.
Proof. intros H w Hw. apply (H (f (sess w)) w). auto. Qed.

Lemma inv_ret I (a : A) : inv I (mret a).
Proof. by apply hoare_ret. Qed.

Lemma inv_bind I (m : M A) (k : A → M B) :
  inv I m → (∀ a, inv I (k a)) → inv I (m ≫= k).
Proof. intros Hm Hk. eapply hoare_bind; [exact Hm|done]. Qed.

Lemma inv_stop I s : inv I (stop_with (A := A) s).
Proof. by intros w. Qed.

Lemma inv_lift I (m : res A) : inv I (lift m).
Proof. intros w ?. cbn. by destruct m. Qed.

Lemma inv_gets I (f : vsf_session → A) : inv I (gets f).
Proof. by intros w. Qed.

Lemma inv_getw I (f : world → A) : inv I (getw f).
Proof. by intros w. Qed.

Lemma inv_iff (I J : world → Prop) (m : M A) : (∀ w, I w ↔ J w) → inv I m → inv J m.
Proof.
  intros H Hm. eapply hoare_conseq; [exact Hm|..]; intros; by apply H.
Qed.

(** Two invariants at once, the second under the first. *)
Lemma inv_and (I J : world → Prop) (m : M A) :
  inv I m → inv J m → inv (λ w, I w ∧ J w) m.
Proof.
  intros HI HJ w [Hi Hj]. specialize (HI w Hi). specialize (HJ w Hj).
  destruct (m w) as [[]]; auto.
Qed.

End Rules.

Lemma inv_modw I f : (∀ w, I w → I (f w)) → inv I (modw f).
Proof. intros H w Hw. cbn. auto. Qed.

Lemma inv_upd I f : (∀ w, I w → I (put_sess (f (sess w)) w)) → inv I (upd f).
Proof. apply inv_modw. Qed.

Lemma inv_when I b m : inv I m → inv I (when b m).
Proof. by destruct b; [|intros; apply inv_ret]. Qed.

Lemma inv_ask `{E : Env} I c :
  (∀ w a, I w → I (put_hist ((c, a) :: hist w) w)) → inv I (ask c).
Proof. intros H w Hw. cbn. auto. Qed.

Lemma inv_on_parent {A} (I J : world → Prop) (m : M A) :
  (∀ w, I w ↔ J (put_parent (sess w) (put_sess (parent w) w))) →
  inv J m → inv I (on_parent m).
Proof.
  intros HIJ Hm w Hw. apply HIJ in Hw. specialize (Hm _ Hw). unfold on_parent.
  destruct (m _) as [[a|s] w']; apply HIJ; by destruct w'.
Qed.

(** ** One run at a time

    [wp m Q Ex w]: the run of [m] from [w] returns with [Q] or stops with [Ex]. *)
Definition wp {A} (m : M A) (Q : A → world → Prop) (Ex : stop → world → Prop) (w : world) : Prop :=
  match m w with
  | (Ok a, w') => Q a w'
  | (Err s, w') => Ex s w'
  end.

Section Wp.
Context {A B : Type} (Q : A → world → Prop) (R : B → world → Prop) (Ex : stop → world → Prop).

Lemma wp_bind (m : M A) (k : A → M B) w :
  wp m (λ a, wp (k a) R Ex) Ex w → wp (m ≫= k) R Ex w.
Proof. unfold wp, mbind, M_bind. by destruct (m w) as [[]]. Qed.

Lemma wp_mono (m : M A) (Q' : A → world → Prop) (Ex' : stop → world → Prop) w :
  wp m Q Ex w → (∀ a w', Q a w' → Q' a w') → (∀ s w', Ex s w' → Ex' s w') → wp m Q' Ex' w.
Proof. unfold wp. destruct (m w) as [[]]; auto. Qed.

Lemma wp_hoare Pre (m : M A) w : hoare Pre m Q Ex → Pre w → wp m Q Ex w.
Proof. intros H Hw. exact (H w Hw). Qed.

Lemma hoare_wp Pre (m : M A) : (∀ w, Pre w → wp m Q Ex w) → hoare Pre m Q Ex.
Proof. auto. Qed.

Lemma wp_lift (m : res A) w :
  (∀ a, m = Ok a → Q a w) → (∀ s, m = Err s → Ex s w) → wp (lift m) Q Ex w.
Proof. unfold wp, lift. destruct m; auto. Qed.

(** What the run gave, when it is known to have returned. *)
Lemma wp_Ok (m : M A) a w w' : wp m Q Ex w → m w = (Ok a, w') → Q a w'.
Proof. unfold wp. intros H Hm. by rewrite Hm in H. Qed.

End Wp.

Lemma wp_ask `{E : Env} {Ex} c (Q : answer → world → Prop) w :
  (∀ a, a = env (hist w) c → Q a (put_hist ((c, a) :: hist w) w)) → wp (ask c) Q Ex w.
Proof. intros H. by apply H. Qed.

(** Walk through straight-line code. *)
Ltac wp_step :=
  lazymatch goal with
  | |- wp (mbind _ _) _ _ _ => apply wp_bind
  | |- wp (mret ?a) ?Q _ ?w => change (Q a w); cbv beta
  | |- wp (gets ?f) ?Q _ ?w => change (Q (f (sess w)) w); cbv beta
  | |- wp (getw ?f) ?Q _ ?w => change (Q (f w) w); cbv beta
  | |- wp (modw ?f) ?Q _ ?w => change (Q tt (f w)); cbv beta
  | |- wp (upd ?f) ?Q _ ?w => change (Q tt (put_sess (f (sess w)) w)); cbv beta
  | |- wp (stop_with ?s) _ ?Ex ?w => change (Ex s w); cbv beta
  | |- wp (mbug ?s) _ ?Ex ?w => change (Ex (Bug (lit s)) w); cbv beta
  | |- wp (mdie ?s) _ ?Ex ?w => change (Ex (Die (lit s)) w); cbv beta
  | |- wp (ask _) _ _ _ => apply wp_ask; intros ? ?
  | |- wp (sys _) _ _ _ => unfold sys
  | |- wp (do_ _) _ _ _ => unfold do_
  | |- wp (must _ _) _ _ _ => unfold must
  | |- wp (when _ _) _ _ _ => unfold when
  | |- wp (lift _) _ _ _ => apply wp_lift; intros ? ?
  | |- wp (if ?b then _ else _) _ _ _ => destruct b eqn:?
  | |- wp (let _ := _ in _) _ _ _ => cbv zeta
  | |- wp (match ?x with _ => _ end) _ _ _ => destruct x eqn:?
  end.
Ltac wp_auto := repeat wp_step.

Create HintDb inv discriminated.
#[export] Hint Constants Opaque : inv.
#[export] Hint Resolve inv_ret inv_stop inv_lift inv_gets inv_getw : inv.

(** Walk through the code of [m], closing the leaves with the hints and the
    given tactic. *)
Ltac inv_step tac :=
  match goal with
  | |- inv _ (mret _) => apply inv_ret
  | |- inv _ (mbug _) => apply inv_stop
  | |- inv _ (mdie _) => apply inv_stop
  | |- inv _ (stop_with _) => apply inv_stop
  | |- inv _ (lift _) => apply inv_lift
  | |- inv _ (gets _) => apply inv_gets
  | |- inv _ (getw _) => apply inv_getw
  | |- inv _ (when _ _) => apply inv_when
  | |- inv _ (mbind _ _) => apply inv_bind; [|intros ?]
  | |- inv _ (sys _) => unfold sys
  | |- inv _ (do_ _) => unfold do_
  | |- inv _ (must _ _) => unfold must
  | |- inv _ (if ?b then _ else _) => destruct b
  | |- inv _ (match ?x with _ => _ end) => destruct x
  | |- inv _ (let _ := _ in _) => cbv zeta
  | |- inv _ _ => solve [eauto with inv | tac]
  end.

Ltac inv_auto_with tac := repeat inv_step tac.
Tactic Notation "inv_auto" := inv_auto_with idtac.
Tactic Notation "inv_auto" "using" tactic3(tac) := inv_auto_with tac.

(** ** What the control connection leaves alone

    Reading commands, writing replies, logging and the signal handlers make
    only the [harmless] calls and assign only the fields below. *)

Definition harmless (c : call) : bool :=
  match c with
  | Peek _ | Read _ _ | Write _ _ | Sys _ | Ssl _ => true
  | Sock (Sockopt _ _) | Sock (Shutdown _ _) => true
  | Fs Getcwd | Fs (Fileread _ _) | Fs (LockWrite _ _) | Fs (Unlock _) | Fs (Stat _) => true
  | _ => false
  end.

Inductive quiet_setter : (vsf_session → vsf_session) → Prop :=
  | q_idle : quiet_setter (set_idle_timeout true)
  | q_timeout : quiet_setter (set_data_timeout true)
  | q_progress v : quiet_setter (set_data_progress v)
  | q_abor v : quiet_setter (set_abor_received v)
  | q_bw_sec v : quiet_setter (set_bw_send_start_sec v)
  | q_bw_usec v : quiet_setter (set_bw_send_start_usec v)
  | q_log_sec v : quiet_setter (set_log_start_sec v)
  | q_log_usec v : quiet_setter (set_log_start_usec v)
  | q_log_str v : quiet_setter (set_log_str v)
  | q_transfer v : quiet_setter (set_transfer_size v)
  | q_visited v : quiet_setter (set_p_visited_dir_list v)
  | q_cmd v : quiet_setter (set_ftp_cmd_str v)
  | q_arg v : quiet_setter (set_ftp_arg_str v).

Class Quiet (I : world → Prop) : Prop := {
  quiet_ask w c a : harmless c = true → I w → I (put_hist ((c, a) :: hist w) w);
  quiet_in w v : I w → I (put_w_in v w);
  quiet_alarm w v : I w → I (put_alarm v w);
  quiet_alrm_running w v : I w → I (put_alrm_running v w);
  quiet_urg_running w v : I w → I (put_urg_running v w);
  quiet_io_running w v : I w → I (put_io_handler_running v w);
  quiet_upd w f : quiet_setter f → I w → I (put_sess (f (sess w)) w)
}.

#[export] Hint Constructors quiet_setter : inv.

(** [I] does not mention what changes. *)
Ltac quiet_simpl :=
  constructor; intros;
  [ .. | match goal with H : quiet_setter _ |- _ => destruct H end ];
  try assumption.

Section QuietRules.
Context `{E : Env} (I : world → Prop) `{Q : !Quiet I}.

Lemma quiet_inv_ask c : harmless c = true → inv I (ask c).
Proof. intros H. apply inv_ask. intros. by apply quiet_ask. Qed.

Lemma quiet_inv_upd f : quiet_setter f → inv I (upd f).
Proof. intros H. apply inv_upd. intros. by apply quiet_upd. Qed.

Lemma quiet_inv_in v : inv I (modw (put_w_in v)).
Proof. apply inv_modw. intros. by apply quiet_in. Qed.
Lemma quiet_inv_alarm v : inv I (modw (put_alarm v)).
Proof. apply inv_modw. intros. by apply quiet_alarm. Qed.
Lemma quiet_inv_alrm_running v : inv I (modw (put_alrm_running v)).
Proof. apply inv_modw. intros. by apply quiet_alrm_running. Qed.
Lemma quiet_inv_urg_running v : inv I (modw (put_urg_running v)).
Proof. apply inv_modw. intros. by apply quiet_urg_running. Qed.
Lemma quiet_inv_io_running v : inv I (modw (put_io_handler_running v)).
Proof. apply inv_modw. intros. by apply quiet_io_running. Qed.

End QuietRules.
#[export] Hint Resolve quiet_inv_ask quiet_inv_upd quiet_inv_in quiet_inv_alarm
  quiet_inv_alrm_running quiet_inv_urg_running quiet_inv_io_running : inv.
#[export] Hint Extern 1 (harmless _ = true) => reflexivity : inv.

Section QuietControl.
Context `{E : Env} `{P : Pend} `{T : Tun} (I : world → Prop) `{Q : !Quiet I}.
Context (HP : ∀ ctx, inv I (check_pending ctx)).
#[local] Hint Resolve HP : inv.

Lemma quiet_write fd buf : inv I (vsf_sysutil_write fd buf).
Proof. unfold vsf_sysutil_write. inv_auto. Qed.
#[local] Hint Resolve quiet_write : inv.

Lemma quiet_write_loop_fuel n fd buf k : inv I (write_loop n fd buf k).
Proof.
  revert buf k; induction n as [|n IH]; intros buf k; cbn [write_loop]; inv_auto.
Qed.
#[local] Hint Resolve quiet_write_loop_fuel : inv.

Lemma quiet_write_loop fd buf : inv I (vsf_sysutil_write_loop fd buf).
Proof. unfold vsf_sysutil_write_loop. inv_auto. Qed.
#[local] Hint Resolve quiet_write_loop : inv.

Lemma quiet_recv_peek n : inv I (vsf_sysutil_recv_peek n).
Proof. unfold vsf_sysutil_recv_peek. inv_auto. Qed.

Lemma quiet_read_control n : inv I (vsf_sysutil_read_control n).
Proof. unfold vsf_sysutil_read_control. inv_auto. Qed.
#[local] Hint Resolve quiet_recv_peek quiet_read_control : inv.

Lemma quiet_read_loop_fuel n size buf :
  inv I (read_loop vsf_sysutil_read_control n size buf).
Proof.
  revert size buf; induction n as [|n IH]; intros size buf; cbn [read_loop]; inv_auto.
Qed.
#[local] Hint Resolve quiet_read_loop_fuel : inv.

Lemma quiet_read_loop size : inv I (vsf_sysutil_read_loop vsf_sysutil_read_control size).
Proof. unfold vsf_sysutil_read_loop. inv_auto. Qed.
#[local] Hint Resolve quiet_read_loop : inv.

Lemma quiet_sleep us : inv I (vsf_sysutil_sleep us).
Proof. unfold vsf_sysutil_sleep. inv_auto. Qed.

Lemma quiet_lock fd wait : inv I (lock_file_write fd wait).
Proof. unfold lock_file_write. inv_auto. Qed.
#[local] Hint Resolve quiet_sleep quiet_lock : inv.

Lemma quiet_netfd_loop n term maxlen peek read buf left :
  (∀ k, inv I (peek k)) → (∀ k, inv I (read k)) →
  inv I (netfd_loop n term maxlen peek read buf left).
Proof.
  intros Hp Hr. revert buf left; induction n as [|n IH]; intros buf left;
    cbn [netfd_loop]; inv_auto.
Qed.

Lemma quiet_netfd_write s fd : inv I (str_netfd_write s fd).
Proof. unfold str_netfd_write. inv_auto. Qed.
#[local] Hint Resolve quiet_netfd_write : inv.

Lemma quiet_ftp_write_str s tgt : inv I (ftp_write_str s tgt).
Proof. unfold ftp_write_str. inv_auto. Qed.

Lemma quiet_ftp_read_data n : inv I (ftp_read_data n).
Proof. unfold ftp_read_data, vsf_sysutil_read. inv_auto. Qed.

Lemma quiet_ftp_write_data s : inv I (ftp_write_data s).
Proof. unfold ftp_write_data. inv_auto. Qed.
#[local] Hint Resolve quiet_ftp_write_str : inv.

Lemma quiet_ftp_getline : inv I ftp_getline.
Proof.
  unfold ftp_getline, str_netfd_alloc.
  inv_auto; apply quiet_netfd_loop; intros; unfold ssl_adapter; inv_auto.
Qed.
#[local] Hint Resolve quiet_ftp_getline : inv.

Lemma quiet_log_common b what s : inv I (vsf_log_common b what s).
Proof.
  unfold vsf_log_common, vsf_log_do_log_wuftpd_format, vsf_log_do_log_vsftpd_format,
    vsf_log_do_log_to_file, log_rate; inv_auto.
Qed.
#[local] Hint Resolve quiet_log_common : inv.

Lemma quiet_log_line what s : inv I (vsf_log_line what s).
Proof. apply quiet_log_common. Qed.
#[local] Hint Resolve quiet_log_line : inv.

Lemma quiet_write_str_common status sep s : inv I (ftp_write_str_common status sep s).
Proof. unfold ftp_write_str_common. inv_auto. Qed.
#[local] Hint Resolve quiet_write_str_common : inv.

Lemma quiet_cmdio_write status t : inv I (vsf_cmdio_write status t).
Proof. apply quiet_write_str_common. Qed.
Lemma quiet_cmdio_write_hyphen status t : inv I (vsf_cmdio_write_hyphen status t).
Proof. apply quiet_write_str_common. Qed.
Lemma quiet_cmdio_write_str status t : inv I (vsf_cmdio_write_str status t).
Proof. apply quiet_write_str_common. Qed.
#[local] Hint Resolve quiet_cmdio_write quiet_cmdio_write_hyphen quiet_cmdio_write_str : inv.

Lemma quiet_cmdio_write_raw t : inv I (vsf_cmdio_write_raw t).
Proof. unfold vsf_cmdio_write_raw. inv_auto. Qed.

Lemma quiet_cmdio_write_exit {A} status t v :
  inv I (vsf_cmdio_write_exit (A := A) status t v).
Proof. unfold vsf_cmdio_write_exit. inv_auto. Qed.
#[local] Hint Resolve quiet_cmdio_write_raw quiet_cmdio_write_exit : inv.

Lemma quiet_set_alarm : inv I vsf_cmdio_set_alarm.
Proof. unfold vsf_cmdio_set_alarm. inv_auto. Qed.
#[local] Hint Resolve quiet_set_alarm : inv.

Lemma quiet_get_cmd_and_arg b : inv I (vsf_cmdio_get_cmd_and_arg b).
Proof. unfold vsf_cmdio_get_cmd_and_arg, control_getline. inv_auto. Qed.
#[local] Hint Resolve quiet_get_cmd_and_arg : inv.

Lemma quiet_banner_write s code : inv I (vsf_banner_write s code).
Proof.
  unfold vsf_banner_write. induction (t_lines s) as [|l ls IH]; cbn [write_lines];
    unfold vsf_cmdio_write_str_hyphen; inv_auto.
Qed.
#[local] Hint Resolve quiet_banner_write : inv.

Lemma quiet_getcwd : inv I str_getcwd.
Proof. unfold str_getcwd. inv_auto. Qed.
#[local] Hint Resolve quiet_getcwd : inv.

Lemma quiet_banner_dir_changed code : inv I (vsf_banner_dir_changed code).
Proof. unfold vsf_banner_dir_changed. inv_auto. Qed.

Lemma quiet_handle_feat : inv I handle_feat.
Proof. unfold handle_feat, raw_line. inv_auto. Qed.

Lemma quiet_handle_opts : inv I handle_opts.
Proof. unfold handle_opts. inv_auto. Qed.

Lemma quiet_start_data_alarm : inv I start_data_alarm.
Proof. unfold start_data_alarm. inv_auto. Qed.
#[local] Hint Resolve quiet_start_data_alarm : inv.

Lemma quiet_run_alarm : inv I run_alarm.
Proof. unfold run_alarm, handle_alarm_timeout, handle_sigalrm. inv_auto. Qed.

Lemma quiet_handle_sigurg : inv I handle_sigurg.
Proof. unfold handle_sigurg. inv_auto. Qed.

Lemma quiet_handle_sigterm : inv I handle_sigterm.
Proof. unfold handle_sigterm. inv_auto. Qed.
#[local] Hint Resolve quiet_run_alarm quiet_handle_sigurg quiet_handle_sigterm : inv.

Lemma quiet_run_signal s : inv I (run_signal s).
Proof. unfold run_signal. inv_auto. Qed.
#[local] Hint Resolve quiet_run_signal : inv.

Lemma quiet_handle_io r fd : inv I (handle_io r fd).
Proof. unfold handle_io. inv_auto. Qed.
#[local] Hint Resolve quiet_handle_io : inv.

Lemma quiet_run_signals l : inv I (run_signals l).
Proof. induction l as [|s l IH]; cbn [run_signals]; inv_auto. Qed.
#[local] Hint Resolve quiet_run_signals : inv.

Lemma quiet_pending_actions ctx : inv I (pending_actions ctx).
Proof. unfold pending_actions, run_io_handler. inv_auto. Qed.

End QuietControl.

(** The handlers keep every quiet invariant. *)
Lemma quiet_check_pending `{E : Env} `{T : Tun} (I : world → Prop) `{Q : !Quiet I} ctx :
  inv I (check_pending ctx).
Proof.
  unfold check_pending, vsf_sysutil_check_pending_actions.
  assert (∀ n c, inv I (check_pending_at n c)) as H; [|apply H].
  intros n; induction n as [|n IH]; intros c; cbn [check_pending_at]; [apply inv_ret|].
  apply (quiet_pending_actions (P := check_pending_at n)); auto.
Qed.
#[export] Hint Resolve quiet_check_pending : inv.

#[export] Hint Resolve quiet_write_loop quiet_sleep quiet_lock quiet_ftp_write_str
  quiet_ftp_read_data quiet_ftp_write_data quiet_log_line quiet_cmdio_write
  quiet_cmdio_write_hyphen quiet_cmdio_write_str quiet_cmdio_write_raw
  quiet_cmdio_write_exit quiet_set_alarm quiet_get_cmd_and_arg quiet_banner_write
  quiet_getcwd quiet_banner_dir_changed quiet_handle_feat quiet_handle_opts
  quiet_start_data_alarm quiet_log_common : inv.

(** ** Invariants between steps

    [I] holds before and after; if the run stops, [J] holds of its last state. *)
Definition safe {A} (I J : world → Prop) (m : M A) : Prop := hoare I m (λ _, I) (λ _, J).

Section Safe.
Context (I J : world → Prop) (HIJ : ∀ w, I w → J w).

Lemma inv_safe {A} (m : M A) : inv I m → safe I J m.
Proof. intros H. eapply hoare_conseq; [exact H|auto..]. Qed.

Lemma safe_bind {A B} (m : M A) (k : A → M B) :
  safe I J m → (∀ a, safe I J (k a)) → safe I J (m ≫= k).
Proof. intros Hm Hk. eapply hoare_bind; [exact Hm|done]. Qed.

(** A read of the session gives a value that [I] speaks about. *)
Lemma safe_gets {A B} (f : vsf_session → A) (k : A → M B) :
  (∀ w, I w → safe I J (k (f (sess w)))) → safe I J (gets f ≫= k).
Proof. intros H w Hw. exact (H w Hw w Hw). Qed.

Lemma safe_ret {A} (a : A) : safe I J (mret a).
Proof. intros w Hw. exact Hw. Qed.

Lemma safe_when b m : safe I J m → safe I J (when b m).
Proof. destruct b; [done|]. intros _. apply safe_ret. Qed.

End Safe.

Ltac safe_step HIJ tac :=
  match goal with
  | |- safe _ _ (mret _) => apply safe_ret
  | |- safe _ _ (mbind _ _) => apply safe_bind; [|intros ?]
  | |- safe _ _ (when _ _) => apply safe_when
  | |- safe _ _ (if ?b then _ else _) => destruct b
  | |- safe _ _ (match ?x with _ => _ end) => destruct x
  | |- safe _ _ (let _ := _ in _) => cbv zeta
  | |- safe _ _ _ =>
      solve [eauto with inv | tac | apply (inv_safe _ _ HIJ); inv_auto]
  end.

(** [safe_auto H]: walk through the code, with [H] relating [I] and [J]. *)
Tactic Notation "safe_auto" constr(HIJ) := repeat safe_step HIJ idtac.
Tactic Notation "safe_auto" constr(HIJ) "using" tactic3(tac) := repeat safe_step HIJ tac.

(** ** The other session code that is quiet *)

Section QuietLog.
Context `{E : Env} `{T : Tun} (I : world → Prop) `{Q : !Quiet I}.

(** Once [log_type] may change as well. *)
Context (HL : ∀ w v, I w → I (put_sess (set_log_type v (sess w)) w)).

Lemma quiet_log_type v : inv I (upd (set_log_type v)).
Proof. apply inv_upd. auto. Qed.
#[local] Hint Resolve quiet_log_type : inv.

Lemma quiet_log_start what : inv I (vsf_log_start_entry what).
Proof. unfold vsf_log_start_entry. inv_auto. Qed.

Lemma quiet_log_do_log b : inv I (vsf_log_do_log b).
Proof. unfold vsf_log_do_log. inv_auto. Qed.

End QuietLog.
