(* ===== verification/Traffic.v ===== *)
(** * What goes through the descriptors

    The bytes that a run sends and receives on a descriptor, read off its
    history, and the read and write loops of sysutil.c and netstr.c in those
    terms. No signal arrives here: Signals.v has the handlers. *)

From Stdlib Require Import Init.Byte Strings.Byte.
From Stdlib Require Import ZArith Lia String.
From stdpp Require Import base list numbers option gmap strings.
From S2P Require Import Prelude SysUtil Text StrList IpAddr Tunables Session CmdIO.
From S2P Require Import Signals Logic.

(** The bytes the kernel took from [write]s to [fd], oldest first. *)
Fixpoint sent (fd : Z) (h : history) : bytes :=
  match h with
  | [] => []
  | (Write fd' d, a) :: h' =>
      sent fd h' ++ (if fd' =? fd then take (Z.to_nat (a_int a)) d else [])
  | _ :: h' => sent fd h'
  end.

(** The bytes it gave to [read]s from [fd]. *)
Fixpoint received (fd : Z) (h : history) : bytes :=
  match h with
  | [] => []
  | (Read fd' n, a) :: h' =>
      received fd h' ++
      (if fd' =? fd then take (Z.to_nat (Z.min (a_int a) n)) (text_of a) else [])
  | _ :: h' => received fd h'
  end.

(** The bytes read from [fd] since it was opened. *)
Fixpoint since_open (fd : Z) (h : history) : bytes :=
  match h with
  | [] => []
  | (Fs (OpenRead _), a) :: h' => if a_int a =? fd then [] else since_open fd h'
  | (Read fd' n, a) :: h' =>
      since_open fd h' ++
      (if fd' =? fd then take (Z.to_nat (Z.min (a_int a) n)) (text_of a) else [])
  | _ :: h' => since_open fd h'
  end.

Class NoSignals (E : Env) : Prop := no_signals h : a_sigs (env h (Sys Pending)) = [].

(** The I/O handler reads the clock, sleeps and notes the progress. What it
    leaves alone: *)
Definition steady (s : vsf_session) :=
  (data_fd s, data_use_ssl s, ssl_slave_active s, control_use_ssl s, ftp_arg_str s,
   (xferlog_fd s, vsftpd_log_fd s)).

Record kept (w w' : world) : Prop := {
  kept_sent fd : sent fd (hist w') = sent fd (hist w);
  kept_received fd : received fd (hist w') = received fd (hist w);
  kept_since fd : since_open fd (hist w') = since_open fd (hist w);
  kept_in : w_in w' = w_in w;
  kept_steady : steady (sess w') = steady (sess w);
  kept_max : s_max_upload w' = s_max_upload w;
  kept_bufsize : s_download_bufsize w' = s_download_bufsize w
}.

#[export] Instance kept_preorder : PreOrder kept.
Proof.
  split; [done|]. intros w1 w2 w3 [] []. split; intros; etrans; eauto.
Qed.

Section Pending.
Context `{E : Env} `{T : Tun} {HS : NoSignals E}.

(** The run returns, and [I] is kept. *)
Definition returns {A} (I : world → Prop) (m : M A) : Prop := hoare I m (λ _, I) (λ _ _, False).

Lemma returns_bind {A B} I (m : M A) (k : A → M B) :
  returns I m → (∀ a, returns I (k a)) → returns I (m ≫= k).
Proof. intros Hm Hk. eapply hoare_bind; [exact Hm|done]. Qed.

Lemma kept_step w0 w w1 : kept w0 w → kept w w1 → kept w0 w1.
Proof. apply transitivity. Qed.

Lemma kept_sys op a w : kept w (put_hist ((Sys op, a) :: hist w) w).
Proof. by split. Qed.

Section Handler.
Context `{P : Pend} (w0 : world) (HP : ∀ ctx, returns (kept w0) (check_pending ctx)).

Lemma handle_io_returns r fd : returns (kept w0) (handle_io r fd).
Proof.
  apply hoare_wp. intros w Hw. unfold handle_io, vsf_sysutil_sleep.
  wp_auto; try exact Hw; try (eapply kept_step; [exact Hw|by split]).
  eapply wp_mono; [eapply wp_hoare; [apply HP|]|..]; [| |done].
  - eapply kept_step; [exact Hw|by split].
  - intros [] w' Hw'. wp_auto. eapply kept_step; [exact Hw'|by split].
Qed.

Lemma pending_returns ctx : returns (kept w0) (pending_actions ctx).
Proof.
  unfold pending_actions. apply returns_bind; [|intros _].
  - destruct ctx as [r fd|]; [|by intros w]. apply hoare_wp. intros w Hw.
    unfold run_io_handler. wp_auto; [|done].
    eapply wp_mono; [eapply wp_hoare; [apply handle_io_returns|]|..]; [| |done].
    + eapply kept_step; [exact Hw|by split].
    + intros [] w' Hw'. wp_auto. eapply kept_step; [exact Hw'|by split].
  - apply hoare_wp. intros w Hw. wp_step. apply wp_ask. intros a ->. rewrite HS. cbn [run_signals].
    wp_auto. eapply kept_step; [exact Hw|apply kept_sys].
Qed.

End Handler.

Lemma pend_keeps ctx w : ∃ w', check_pending ctx w = (Ok tt, w') ∧ kept w w'.
Proof.
  assert (∀ n c, returns (kept w) (check_pending_at n c)) as H.
  { intros n; induction n as [|n IH]; intros c; cbn [check_pending_at]; [by intros w'|].
    by apply (pending_returns (P := check_pending_at n)). }
  specialize (H 3%nat ctx w (reflexivity w)). unfold check_pending, vsf_sysutil_check_pending_actions.
  destruct (check_pending_at 3 ctx w) as [[[]|s] w']; [eauto|done].
Qed.

Lemma wp_pend ctx (Q : unit → world → Prop) Ex w :
  (∀ w', kept w w' → Q tt w') → wp (check_pending ctx) Q Ex w.
Proof.
  intros H. destruct (pend_keeps ctx w) as (w' & Hc & Hk). unfold wp. rewrite Hc. auto.
Qed.

End Pending.

(** ** Writing *)

(** From [w] to [w'] only [d] went out, on [fd]. *)
Record wrote (fd : Z) (d : bytes) (w w' : world) : Prop := {
  wrote_sent fd' : sent fd' (hist w') = sent fd' (hist w) ++ (if fd =? fd' then d else []);
  wrote_received fd' : received fd' (hist w') = received fd' (hist w);
  wrote_in : w_in w' = w_in w;
  wrote_steady : steady (sess w') = steady (sess w);
  wrote_max : s_max_upload w' = s_max_upload w;
  wrote_bufsize : s_download_bufsize w' = s_download_bufsize w
}.

Lemma kept_wrote fd w w' : kept w w' → wrote fd [] w w'.
Proof. intros []. split; intros; rewrite ?app_nil_r; auto. by case_match; rewrite ?app_nil_r. Qed.

Lemma wrote_trans fd d1 d2 w w1 w2 :
  wrote fd d1 w w1 → wrote fd d2 w1 w2 → wrote fd (d1 ++ d2) w w2.
Proof.
  intros [] []. split; intros; try (etrans; eauto; fail).
  rewrite wrote_sent1, wrote_sent0, <- app_assoc. by case_match.
Qed.

Lemma wrote_kept fd d w w1 w2 : wrote fd d w w1 → kept w1 w2 → wrote fd d w w2.
Proof. intros H1 H2%(kept_wrote fd). rewrite <- (app_nil_r d). by eapply wrote_trans. Qed.

(** The kernel takes something of every non-empty write to [fd]. *)
Class Progress (E : Env) (fd : Z) : Prop :=
  progress h d : 0 ≤ a_int (env h (Write fd d)) ≤ zlen d ∧ (d ≠ [] → 1 ≤ a_int (env h (Write fd d))).

Lemma zlen_pos d : d ≠ [] → 0 < zlen d.
Proof. destruct d; [done|]. unfold zlen. cbn [length]. lia. Qed.

Section Writing.
Context `{E : Env} `{T : Tun} {HS : NoSignals E}.

Lemma wp_write fd d (Q : Z → world → Prop) Ex w :
  (∀ r w', (∃ h, r = a_int (env h (Write fd d))) → wrote fd (take (Z.to_nat r) d) w w' → Q r w') →
  wp (vsf_sysutil_write fd d) Q Ex w.
Proof.
  intros H. unfold vsf_sysutil_write. do 6 wp_step. apply wp_pend. intros w' Hk. wp_step.
  apply H; [subst; eauto|]. eapply wrote_kept; [|exact Hk]. split; try done.
Qed.

(** What the loop writes is a first part; if it reports all of it, it is all. *)
Lemma wp_write_loop_fuel n fd d k (Q : Z → world → Prop) (Ex : stop → world → Prop) w :
  0 ≤ k → (length d < n)%nat →
  (∀ r p w', wrote fd p w w' → p `prefix_of` d → (r = k + zlen d → p = d) → Q r w') →
  (∀ s w', Ex s w') →
  wp (write_loop n fd d k) Q Ex w.
Proof.
  revert d k Q w. induction n as [|n IH]; intros d k Q w Hk Hn HQ HEx; cbn [write_loop]; [lia|].
  wp_step. apply wp_write. intros r w' _ Hw.
  assert (∀ r', (r' = k + zlen d → (length d <= Z.to_nat r)%nat) → Q r' w') as HQ'.
  { intros r' Hr. apply (HQ _ _ _ Hw); [|intros E0; by rewrite take_ge by (by apply Hr)].
    exists (drop (Z.to_nat r) d). by rewrite take_drop. }
  unfold zlen in *. wp_auto; b2p; try (apply HQ'; lia).
  - apply HEx.
  - apply IH; [lia|rewrite length_drop; lia| |done]. intros r' p w2 Hp Hpre Hr'.
    apply (HQ _ (take (Z.to_nat r) d ++ p)); [by eapply wrote_trans|..].
    + rewrite <- (take_drop (Z.to_nat r) d) at 2. by apply prefix_app.
    + intros ->. rewrite Hr', take_drop; [done|]. rewrite length_drop. lia.
Qed.

(** If the kernel makes progress, the loop reports all of it. *)
Lemma wp_write_loop_total fd {HP : Progress E fd} n d k (Q : Z → world → Prop) w :
  (length d < n)%nat →
  (∀ w', wrote fd d w w' → Q (k + zlen d) w') →
  wp (write_loop n fd d k) Q (λ _ _, False) w.
Proof.
  revert d k Q w. induction n as [|n IH]; intros d k Q w Hn HQ; [lia|]. cbn [write_loop].
  wp_step. apply wp_write. intros r w' [h Hr] Hw. destruct (HP h d) as [Hp Hp1].
  rewrite <- Hr in Hp, Hp1. unfold zlen in *.
  wp_auto; b2p; try lia.
  - assert (d = []) as -> by (destruct d; [done|]; assert (1 ≤ r) by (by apply Hp1); lia).
    rewrite take_nil in Hw. specialize (HQ w' Hw). cbn in HQ. by rewrite Z.add_0_r in HQ.
  - assert (drop (Z.to_nat r) d = []) as E0 by (by apply bool_decide_eq_true in Heqb2).
    apply (f_equal length) in E0. rewrite length_drop in E0. cbn in E0.
    replace (k + r) with (k + Z.of_nat (length d)) by lia. apply HQ.
    by rewrite take_ge in Hw by lia.
  - assert (drop (Z.to_nat r) d ≠ []) as Hr' by (by apply bool_decide_eq_false in Heqb2).
    assert (1 ≤ r) by (apply Hp1; intros ->; by rewrite drop_nil in Hr').
    apply IH; [rewrite length_drop; lia|]. intros w2 Hw2.
    replace (k + r + _) with (k + Z.of_nat (length d)) by (rewrite length_drop; lia).
    apply HQ. rewrite <- (take_drop (Z.to_nat r) d). by eapply wrote_trans.
Qed.

End Writing.

(** ** Reading a line *)

(** The kernel delivers something of what the client sent. *)
Class Feeds (E : Env) : Prop := {
  feeds_peek h n : 0 < n → 1 ≤ a_int (env h (Peek n));
  feeds_read h n : 0 < n → 1 ≤ a_int (env h (Read VSFTP_COMMAND_FD n))
}.

(** What a line read gives for the input [inp], with at most [left] bytes: the
    sign of the result, the line, and the input left. *)
Definition line_of (left : nat) (inp : bytes) : Z * bytes * bytes :=
  match index_of LF (take left inp) with
  | Some k => (1, take k inp, drop (S k) inp)
  | None => if (length inp <? left)%nat then (0, [], []) else (-1, [], drop left inp)
  end.

Lemma index_of_app_r c s t :
  index_of c s = None → index_of c (s ++ t) = (λ k, length s + k)%nat <$> index_of c t.
Proof.
  induction s as [|d s IH]; cbn; [by destruct (index_of c t)|].
  case_bool_decide; [done|]. destruct (index_of c s); [done|]. intros _. rewrite IH by done.
  by destruct (index_of c t).
Qed.

Lemma index_of_Some c s k : index_of c s = Some k → (k < length s)%nat ∧ s !! k = Some c.
Proof.
  revert k; induction s as [|d s IH]; intros k; cbn; [done|].
  case_bool_decide; [intros [= <-]; subst; split; [lia|done]|].
  destruct (index_of c s) as [j|]; [|done]. intros [= <-]. destruct (IH j eq_refl). split; [lia|done].
Qed.

Lemma index_of_app_l c s t k : index_of c s = Some k → index_of c (s ++ t) = Some k.
Proof.
  revert k; induction s as [|d s IH]; intros k; cbn; [done|].
  case_bool_decide; [done|]. destruct (index_of c s) as [j|]; [|done]. intros [= <-].
  by rewrite (IH j eq_refl).
Qed.

Lemma index_of_take c s k j :
  index_of c s = Some k → (k < j)%nat → index_of c (take j s) = Some k.
Proof.
  revert k j; induction s as [|d s IH]; intros k [|j]; cbn; [done|done|lia|].
  case_bool_decide; [done|]. destruct (index_of c s) as [i|] eqn:Hi; [|done]. intros [= <-] Hj.
  by rewrite (IH i j) by (done || lia).
Qed.

Lemma line_of_none left inp s l rest :
  line_of left inp = (s, l, rest) → (0 <? s) = false → [] = l.
Proof.
  unfold line_of. destruct (index_of LF (take left inp)); [by intros [= <- <- <-]|].
  destruct (length inp <? left)%nat; by intros [= <- <- <-].
Qed.

(** A block without the terminator adds to the line. *)
Lemma line_of_more left p inp :
  index_of LF p = None → (length p <= left)%nat →
  line_of left (p ++ inp) =
  (let '(s, l, rest) := line_of (left - length p) inp in
   (s, if 0 <? s then p ++ l else l, rest)).
Proof.
  intros Hp Hl. unfold line_of. rewrite take_app, take_ge by lia.
  rewrite index_of_app_r by done. destruct (index_of LF (take (left - length p) inp)) as [k|];
    cbn [fmap option_fmap option_map].
  - rewrite take_app, take_ge by lia. replace (length p + k - length p)%nat with k by lia.
    rewrite drop_app, drop_ge by lia. by replace (S (length p + k) - length p)%nat with (S k) by lia.
  - rewrite length_app.
    destruct (length inp <? left - length p)%nat eqn:H1, (length p + length inp <? left)%nat eqn:H2;
      try done; try (apply Nat.ltb_lt in H1 || apply Nat.ltb_ge in H1);
      try (apply Nat.ltb_lt in H2 || apply Nat.ltb_ge in H2); try lia.
    by rewrite drop_app, drop_ge by lia.
Qed.

Ltac in_simpl :=
  repeat change (w_in (put_hist ?h ?w)) with (w_in w) in *;
  repeat change (w_in (put_w_in ?v ?w)) with v in *.

Section Reading.
Context `{E : Env} `{T : Tun} {HS : NoSignals E} {HF : Feeds E}.

Lemma wp_read_loop n size buf (Q : Z * bytes → world → Prop) w :
  0 < size → size ≤ zlen (w_in w) → size < Z.of_nat n →
  (∀ w', w_in w' = drop (Z.to_nat size) (w_in w) →
     Q (zlen buf + size, buf ++ take (Z.to_nat size) (w_in w)) w') →
  wp (read_loop vsf_sysutil_read_control n size buf) Q (λ _ _, False) w.
Proof.
  revert size buf Q w. induction n as [|n IH]; intros size buf Q w H0 Hs Hn HQ; [lia|].
  cbn [read_loop]. unfold vsf_sysutil_read_control. do 2 wp_step. wp_step. subst.
  pose proof (feeds_read (hist w) size H0) as Hf. set (k := a_int (env _ _)) in *. clearbody k.
  do 5 wp_step. apply wp_pend. intros w' [_ _ _ Hin _ _ _].
  wp_step. in_simpl. unfold delivered, zlen in *.
  set (m := Z.to_nat (Z.min k size)) in *.
  assert (length (take m (w_in w)) = m) as Hm by (rewrite length_take; lia).
  destruct (k <? 0) eqn:?; [ztest; lia|].
  rewrite Hm in *. wp_auto; b2p; try lia.
  - assert (m = Z.to_nat size) as -> by lia.
    unfold zlen. rewrite length_app, Hm. replace (Z.of_nat _) with (Z.of_nat (length buf) + size) by lia.
    by apply HQ.
  - apply IH; [lia|rewrite Hin, length_drop; lia|lia|]. intros w2 Hw2.
    rewrite Hin in *. rewrite drop_drop in Hw2. rewrite length_app, Hm, <- app_assoc.
    rewrite take_take_drop. replace (m + Z.to_nat (size - Z.of_nat m))%nat with (Z.to_nat size) in * by lia.
    replace (Z.of_nat (length buf + m) + (size - Z.of_nat m)) with (Z.of_nat (length buf) + size) by lia.
    by apply HQ.
Qed.

(** The peek gives a prefix of the input, empty only at its end. *)
Lemma wp_peek n (Q : Z * bytes → world → Prop) w :
  0 < n →
  (∀ m w', (m <= Z.to_nat n)%nat → (m <= length (w_in w))%nat → (m = 0%nat → w_in w = []) →
     w_in w' = w_in w → Q (Z.of_nat m, take m (w_in w)) w') →
  wp (vsf_sysutil_recv_peek n) Q (λ _ _, False) w.
Proof.
  intros Hn HQ. unfold vsf_sysutil_recv_peek. do 2 wp_step. subst.
  pose proof (feeds_peek (hist w) n Hn) as Hf. set (k := a_int (env _ _)) in *. clearbody k.
  do 3 wp_step. apply wp_pend. intros w' [_ _ _ Hin _ _ _]. wp_step. in_simpl.
  unfold delivered, zlen. destruct (k <? 0) eqn:?; [ztest; lia|].
  set (m := (Z.to_nat (Z.min k n) `min` length (w_in w))%nat).
  assert (take (Z.to_nat (Z.min k n)) (w_in w) = take m (w_in w)) as ->.
  { subst m. destruct (decide (Z.to_nat (Z.min k n) ≤ length (w_in w))%nat).
    - by rewrite Nat.min_l.
    - rewrite Nat.min_r by lia. by rewrite !take_ge by lia. }
  rewrite length_take_le by (subst m; lia). apply HQ; [subst m; lia..| |done].
  intros Hm. apply length_zero_iff_nil. subst m. lia.
Qed.

Lemma wp_read_exactly m (Q : Z * bytes → world → Prop) w :
  (0 < m)%nat → (m <= length (w_in w))%nat → Z.of_nat m ≤ INT_MAX →
  (∀ w', w_in w' = drop m (w_in w) → Q (Z.of_nat m, take m (w_in w)) w') →
  wp (vsf_sysutil_read_loop vsf_sysutil_read_control (Z.of_nat m)) Q (λ _ _, False) w.
Proof.
  intros H0 Hm HI HQ. unfold vsf_sysutil_read_loop. destruct (INT_MAX <? _) eqn:?; [ztest; lia|].
  apply wp_read_loop; [lia|unfold zlen; lia|lia|]. rewrite Nat2Z.id. intros w' Hw'. by apply HQ.
Qed.

(** The line reader consumes exactly one line, however the kernel cuts the
    stream. *)
Lemma wp_netfd_loop n maxlen buf left (Q : Z * bytes → world → Prop) w :
  index_of LF buf = None → zlen buf + Z.of_nat left = maxlen → maxlen ≤ INT_MAX →
  (left < n)%nat →
  (∀ r w', let '(s, l, rest) := line_of left (w_in w) in
     Z.sgn r = s → w_in w' = rest → Q (r, if 0 <? s then buf ++ l else []) w') →
  wp (netfd_loop n LF maxlen vsf_sysutil_recv_peek
        (vsf_sysutil_read_loop vsf_sysutil_read_control) buf (Z.of_nat left))
    Q (λ _ _, False) w.
Proof.
  revert buf left Q w. induction n as [|n IH]; intros buf left Q w Hbuf Hlen Hmax Hn HQ; [lia|].
  cbn [netfd_loop]. destruct (negb (_ =? maxlen)) eqn:?; [ztest; lia|].
  destruct (Z.of_nat left =? 0) eqn:?; b2p.
  { wp_step. assert (left = 0)%nat as -> by lia. unfold line_of in HQ. rewrite take_0 in HQ. cbn in HQ.
    by apply (HQ (-1)). }
  wp_step. apply wp_peek; [lia|]. intros m w1 Hm1 Hm2 Hm0 Hw1.
  unfold vsf_sysutil_retval_is_error. destruct (Z.of_nat m <? 0) eqn:?; [ztest; lia|].
  destruct (Z.of_nat m =? 0) eqn:?; b2p.
  { wp_step. assert (w_in w = []) as Hnil by (apply Hm0; lia). unfold line_of in HQ.
    rewrite Hnil, take_nil in HQ. cbn -[Nat.ltb] in HQ.
    destruct (0 <? left)%nat eqn:Hl; [|apply Nat.ltb_ge in Hl; lia].
    apply (HQ 0); [done|by rewrite Hw1]. }
  assert (w_in w = take m (w_in w) ++ drop m (w_in w)) as Hsplit by (by rewrite take_drop).
  assert (length (take m (w_in w)) = m) as Hlm by (rewrite length_take_le; lia).
  destruct (index_of LF (take m (w_in w))) as [k|] eqn:Hk.
  - pose proof (index_of_Some _ _ _ Hk) as [Hkm Hlk]. rewrite Hlm in Hkm.
    replace (Z.of_nat k + 1) with (Z.of_nat (S k)) by lia.
    wp_step. apply wp_read_exactly; [lia|rewrite Hw1; lia|unfold zlen in *; lia|].
    rewrite Hw1. intros w2 Hw2. rewrite (proj2 (Z.ltb_ge _ 0)), Z.eqb_refl by lia. cbn [orb negb].
    rewrite lookup_take_lt in Hlk by lia. rewrite lookup_take_lt, Hlk by lia.
    rewrite bool_decide_true by done. cbn [negb]. wp_step.
    assert (line_of left (w_in w) = (1, take k (w_in w), drop (S k) (w_in w))) as Hl.
    { unfold line_of. rewrite Hsplit at 1. rewrite take_app, (take_ge (take m _)) by lia.
      by rewrite (index_of_app_l _ _ _ k Hk). }
    rewrite Hl in HQ. unfold alt_term. rewrite index_of_app_r by done.
    assert (index_of LF (take (S k) (w_in w)) = Some k) as Hk'.
    { rewrite <- (index_of_take _ _ k (S k) Hk) by lia. rewrite take_take. f_equal. f_equal. lia. }
    rewrite Hk'. cbn [fmap option_fmap option_map].
    rewrite take_app, take_ge, take_take by lia.
    replace ((length buf + k - length buf) `min` S k)%nat with k by lia.
    apply (HQ (Z.of_nat (S k))); [by rewrite Z.sgn_pos by lia|done].
  - destruct (Z.of_nat left <? Z.of_nat m) eqn:?; [ztest; lia|].
    wp_step. apply wp_read_exactly; [lia|rewrite Hw1; lia|unfold zlen in *; lia|].
    rewrite Hw1. intros w2 Hw2. rewrite (proj2 (Z.ltb_ge _ 0)), Z.eqb_refl by lia. cbn [orb negb].
    replace (Z.of_nat left - Z.of_nat m) with (Z.of_nat (left - m)) by lia.
    apply IH; [by rewrite index_of_app_r, Hk| |lia|lia|].
    { unfold zlen in *. rewrite length_app, Hlm. lia. }
    intros r w3. rewrite Hsplit in HQ. rewrite line_of_more in HQ by (done || lia).
    rewrite Hlm, <- Hw2 in HQ. destruct (line_of (left - m) (w_in w2)) as [[s l] rest].
    intros Hr Hrest. specialize (HQ r w3 Hr Hrest).
    destruct (0 <? s); [by rewrite <- app_assoc|done].
Qed.


End Reading.

(** A network that delivers one byte at a time. *)
#[local] Instance slow_env : Env := λ _ _, answer_with 1 [].
#[local] Instance slow_no_signals : NoSignals slow_env.
Proof. done. Qed.
#[local] Instance slow_feeds : Feeds slow_env.
Proof. done. Qed.

