(* ===== verification/Interrupts.v ===== *)
(** * What interrupts a transfer

    The signal handlers of Signals.v, whatever the signals are, leave the data
    that a transfer moves alone: they neither write to the local file nor read
    from the data connection, and they shut the data connection down only after
    noting why, a data timeout or an ABOR. Transfers.v builds on it. *)

From Stdlib Require Import Init.Byte Strings.Byte.
From Stdlib Require Import ZArith Lia String.
From stdpp Require Import base list numbers option gmap strings.
From S2P Require Import Prelude SysUtil Text StrList IpAddr Tunables Session.
From S2P Require Import CmdIO Signals Logic Traffic.

(** A read from [fd] has given the end of the stream. *)
Fixpoint ended (fd : Z) (h : history) : bool :=
  match h with
  | [] => false
  | (Read fd' _, a) :: h' => ((fd' =? fd) && (a_int a =? 0)) || ended fd h'
  | _ :: h' => ended fd h'
  end.

(** The process has shut [fd] down. *)
Fixpoint shut (fd : Z) (h : history) : bool :=
  match h with
  | [] => false
  | (Sock (Shutdown fd' _), _) :: h' => (fd' =? fd) || shut fd h'
  | _ :: h' => shut fd h'
  end.

(** The session has noted that the transfer was cut short. *)
Definition cut_noted (w : world) : Prop :=
  data_timeout (sess w) = true ∨ abor_received (sess w) = true.

(** From [w] to [w'] only [d] went to [fd]. What comes from the connection [dfd] is
    as before, and so is the session, but for a cut of the connection that is
    noted. *)
Record gave (fd dfd : Z) (d : bytes) (w w' : world) : Prop := {
  gave_sent : sent fd (hist w') = sent fd (hist w) ++ d;
  gave_received : received dfd (hist w') = received dfd (hist w);
  gave_ended : ended dfd (hist w') = ended dfd (hist w);
  gave_noted : cut_noted w → cut_noted w';
  gave_shut : shut dfd (hist w') = true → shut dfd (hist w) = true ∨ cut_noted w';
  gave_steady : steady (sess w') = steady (sess w);
  gave_max : s_max_upload w' = s_max_upload w;
  gave_bufsize : s_download_bufsize w' = s_download_bufsize w
}.

Lemma gave_trans fd dfd d1 d2 w w1 w2 :
  gave fd dfd d1 w w1 → gave fd dfd d2 w1 w2 → gave fd dfd (d1 ++ d2) w w2.
Proof.
  intros [] []. split; try (etrans; eauto; fail); [|auto|].
  - by rewrite gave_sent1, gave_sent0, app_assoc.
  - intros Hs. destruct (gave_shut1 Hs) as [H|?]; [|auto]. destruct (gave_shut0 H); auto.
Qed.

Abbreviation spared fd dfd := (gave fd dfd []).

#[export] Instance spared_preorder fd dfd : PreOrder (spared fd dfd).
Proof.
  split; [intros w; split; rewrite ?app_nil_r; auto|]. intros w1 w2 w3. exact (gave_trans fd dfd [] [] w1 w2 w3).
Qed.

(** The descriptors of a transfer are not the control connection's, and the log
    is not written to the file or the connection that [fd] is. *)
Record apart_fds (fd dfd : Z) (w : world) : Prop := {
  apart_control : fd ≠ VSFTP_COMMAND_FD;
  apart_data : dfd ≠ VSFTP_COMMAND_FD;
  apart_xferlog : xferlog_fd (sess w) ≠ fd;
  apart_log : vsftpd_log_fd (sess w) ≠ fd
}.

Lemma apart_fds_gave fd dfd d w w' : gave fd dfd d w w' → apart_fds fd dfd w → apart_fds fd dfd w'.
Proof. intros [_ _ _ _ _ Hs _ _] []. injection Hs as ? ? ? ? ? ? ?. split; congruence. Qed.

Section Spared.
Context `{E : Env} `{T : Tun} (fd dfd : Z) (w0 : world) (HA : apart_fds fd dfd w0).
Abbreviation I := (spared fd dfd w0).

(** A run that keeps it, and that does not stop for want of fuel. *)
Definition aside {A} (m : M A) : Prop := hoare I m (λ _, I) (λ s _, s ≠ Fuel).

Lemma aside_ret {A} (a : A) : aside (mret a).
Proof. by apply hoare_ret. Qed.
Lemma aside_bind {A B} (m : M A) (k : A → M B) : aside m → (∀ a, aside (k a)) → aside (m ≫= k).
Proof. intros Hm Hk. eapply hoare_bind; [exact Hm|done]. Qed.
Lemma aside_stop {A} s : s ≠ Fuel → aside (stop_with (A := A) s).
Proof. by intros H w. Qed.
Lemma aside_gets {A} (f : vsf_session → A) : aside (gets f).
Proof. by intros w. Qed.
Lemma aside_getw {A} (f : world → A) : aside (getw f).
Proof. by intros w. Qed.
Lemma aside_when b m : aside m → aside (when b m).
Proof. by destruct b; [|intros; apply aside_ret]. Qed.

Definition spares (c : call) : bool :=
  match c with
  | Write fd' _ => negb (fd' =? fd)
  | Read fd' _ => negb (fd' =? dfd)
  | Sock (Shutdown fd' _) => negb (fd' =? dfd)
  | _ => true
  end.

Lemma spared_ask c a w : spares c = true → I w → I (put_hist ((c, a) :: hist w) w).
Proof.
  intros Hc Hw. etrans; [exact Hw|].
  destruct c as [| | | | | |[]| |]; cbn in Hc; split; cbn; auto;
    rewrite ?negb_true_iff in Hc; rewrite ?Hc, ?app_nil_r; auto.
Qed.

Lemma aside_ask c : spares c = true → aside (ask c).
Proof. intros Hc w Hw. cbn. by apply spared_ask. Qed.

Lemma control_spared d : spares (Write VSFTP_COMMAND_FD d) = true.
Proof. unfold spares. apply negb_true_iff, Z.eqb_neq. intros H. by apply (apart_control _ _ _ HA). Qed.
Lemma control_read_spared n : spares (Read VSFTP_COMMAND_FD n) = true.
Proof. unfold spares. apply negb_true_iff, Z.eqb_neq. intros H. by apply (apart_data _ _ _ HA). Qed.
Lemma control_shut_spared b : spares (Sock (Shutdown VSFTP_COMMAND_FD b)) = true.
Proof. unfold spares. apply negb_true_iff, Z.eqb_neq. intros H. by apply (apart_data _ _ _ HA). Qed.

(** A field that the handlers leave alone has the value of the start. *)
Lemma spared_gets {A B} (f : vsf_session → A) (k : A → M B) :
  (∀ w, I w → f (sess w) = f (sess w0)) → aside (k (f (sess w0))) → aside (gets f ≫= k).
Proof.
  intros Hf Hk. apply hoare_gets. intros x w [Hx Hw]. rewrite (Hf w Hw) in Hx. subst x. by apply Hk.
Qed.

(** An assignment to a field that a handler may assign. *)
Definition spared_setter (f : vsf_session → vsf_session) : Prop :=
  ∀ s, steady (f s) = steady s ∧ (data_timeout s = true → data_timeout (f s) = true) ∧
       (abor_received s = true → abor_received (f s) = true).

Lemma spared_upd f : spared_setter f → aside (upd f).
Proof.
  intros Hf w Hw. cbn. destruct (Hf (sess w)) as (H1 & H2 & H3).
  etrans; [exact Hw|]. split; rewrite ?app_nil_r; auto. unfold cut_noted. cbn. intros []; auto.
Qed.
Lemma spared_modw f :
  (∀ w, hist (f w) = hist w ∧ sess (f w) = sess w ∧ s_max_upload (f w) = s_max_upload w ∧
        s_download_bufsize (f w) = s_download_bufsize w) → aside (modw f).
Proof.
  intros Hf w Hw. cbn. destruct (Hf w) as (H1 & H2 & H3 & H4).
  etrans; [exact Hw|]. split; unfold cut_noted; rewrite ?H1, ?H2, ?app_nil_r; auto.
Qed.

Create HintDb aside discriminated.
#[local] Hint Constants Opaque : aside.
#[local] Hint Resolve aside_ret aside_gets aside_getw aside_ask control_spared control_read_spared control_shut_spared : aside.
#[local] Hint Extern 1 (spares _ = true) => reflexivity : aside.
#[local] Hint Extern 1 (aside (upd _)) => (apply spared_upd; by intros []) : aside.
#[local] Hint Extern 1 (aside (modw _)) => (apply spared_modw; by intros []) : aside.

(** Walk through the code. *)
Ltac aside_step :=
  match goal with
  | |- aside (mret _) => apply aside_ret
  | |- aside (mbug _) => by apply aside_stop
  | |- aside (mdie _) => by apply aside_stop
  | |- aside (stop_with _) => by apply aside_stop
  | |- aside (gets _) => apply aside_gets
  | |- aside (getw _) => apply aside_getw
  | |- aside (when _ _) => apply aside_when
  | |- aside (mbind _ _) => apply aside_bind; [|intros ?]
  | |- aside (sys _) => unfold sys
  | |- aside (do_ _) => unfold do_
  | |- aside (must _ _) => unfold must
  | |- aside (if ?b then _ else _) => destruct b
  | |- aside (match ?x with _ => _ end) => destruct x
  | |- aside (let _ := _ in _) => cbv zeta
  | |- aside _ => solve [eauto with aside]
  end.
Ltac aside_auto := repeat aside_step.

(** [steady] fields as [gets] reads them. *)
Ltac spared_get :=
  match goal with
  | |- aside (mbind _ (gets xferlog_fd)) => apply spared_gets
  | |- aside (mbind _ (gets vsftpd_log_fd)) => apply spared_gets
  end;
  [let Hw := fresh in let Hs := fresh in intros ? Hw; pose proof (gave_steady _ _ _ _ _ Hw) as Hs;
   injection Hs as ? ? ? ? ? ? ?; assumption|cbv beta].

Section Handlers.
Context `{P : Pend} (HP : ∀ ctx, aside (check_pending ctx)).
#[local] Hint Resolve HP : aside.

Lemma spared_write_loop fd' n d k : fd' ≠ fd → aside (write_loop n fd' d k).
Proof.
  intros Hfd. assert (∀ d, spares (Write fd' d) = true) as Hs
    by (intros; unfold spares; by apply negb_true_iff, Z.eqb_neq).
  revert d k. induction n as [|n IH]; intros; cbn [write_loop]; unfold vsf_sysutil_write; aside_auto.
Qed.
Lemma spared_write fd' d : fd' ≠ fd → aside (vsf_sysutil_write_loop fd' d).
Proof. intros. unfold vsf_sysutil_write_loop. aside_auto. by apply spared_write_loop. Qed.
Lemma spared_control_write d : aside (vsf_sysutil_write_loop VSFTP_COMMAND_FD d).
Proof. apply spared_write. intros H. by apply (apart_control _ _ _ HA). Qed.
#[local] Hint Resolve spared_control_write : aside.

Lemma spared_read_loop n size buf : aside (read_loop vsf_sysutil_read_control n size buf).
Proof.
  revert size buf. induction n as [|n IH]; intros; cbn [read_loop];
    unfold vsf_sysutil_read_control; aside_auto.
Qed.
#[local] Hint Resolve spared_read_loop : aside.
Lemma spared_netfd n t m (p r : Z → M (Z * bytes)) b l :
  (∀ k, aside (p k)) → (∀ k, aside (r k)) → aside (netfd_loop n t m p r b l).
Proof. intros Hp Hr. revert b l. induction n as [|n IH]; intros; cbn [netfd_loop]; aside_auto. Qed.
Lemma spared_getline : aside ftp_getline.
Proof.
  unfold ftp_getline, str_netfd_alloc. aside_auto; apply spared_netfd; intros;
    unfold ssl_adapter, vsf_sysutil_recv_peek, vsf_sysutil_read_loop; aside_auto.
Qed.
#[local] Hint Resolve spared_getline : aside.

Lemma spared_log_to_file fd' s : fd' ≠ fd → aside (vsf_log_do_log_to_file fd' s).
Proof.
  intros Hfd. pose proof (λ d, spared_write fd' d Hfd).
  unfold vsf_log_do_log_to_file, lock_file_write. aside_auto.
Qed.
#[local] Hint Extern 1 (aside (vsf_log_do_log_to_file _ _)) =>
  (apply spared_log_to_file; first [exact (apart_xferlog _ _ _ HA) | exact (apart_log _ _ _ HA)]) : aside.

Lemma spared_log_common b what s : aside (vsf_log_common b what s).
Proof.
  unfold vsf_log_common, vsf_log_do_log_wuftpd_format, vsf_log_do_log_vsftpd_format, log_rate.
  repeat first [spared_get | aside_step].
Qed.
#[local] Hint Resolve spared_log_common : aside.
Lemma spared_log_line what s : aside (vsf_log_line what s).
Proof. apply spared_log_common. Qed.
#[local] Hint Resolve spared_log_line : aside.

Lemma spared_reply status sep s : aside (ftp_write_str_common status sep s).
Proof. unfold ftp_write_str_common, ftp_write_str, str_netfd_write. aside_auto. Qed.
#[local] Hint Resolve spared_reply : aside.
Lemma spared_cmdio_write status s : aside (vsf_cmdio_write status s).
Proof. apply spared_reply. Qed.
#[local] Hint Resolve spared_cmdio_write : aside.
Lemma spared_exit {A} status s v : aside (vsf_cmdio_write_exit (A := A) status s v).
Proof. unfold vsf_cmdio_write_exit. aside_auto. Qed.
#[local] Hint Resolve spared_exit : aside.
Lemma spared_command : aside (vsf_cmdio_get_cmd_and_arg false).
Proof. unfold vsf_cmdio_get_cmd_and_arg, control_getline, when. aside_auto. Qed.
#[local] Hint Resolve spared_command : aside.

(** The data connection is shut down after the reason has been noted. *)
Lemma spared_cut (f : vsf_session → vsf_session) {A} (k : unit → M A) :
  spared_setter f → (∀ s, data_timeout (f s) = true ∨ abor_received (f s) = true) →
  aside (k tt) → aside (upd f;; fd ← gets data_fd; do_ (Sock (Shutdown fd true)) ≫= k).
Proof.
  intros Hf Hn Hk. apply hoare_wp. intros w Hw. repeat wp_step. eapply wp_hoare; [exact Hk|].
  etrans; [exact Hw|]. destruct (Hf (sess w)) as (H1 & H2 & H3). split; unfold cut_noted; cbn; rewrite ?app_nil_r; auto.
Qed.

Lemma spared_sigalrm : aside handle_sigalrm.
Proof.
  unfold handle_sigalrm. apply aside_bind; [apply aside_gets|intros []]; cbn [negb].
  - unfold start_data_alarm. aside_auto.
  - apply spared_cut; [by intros []|by left|]. aside_auto.
Qed.
#[local] Hint Resolve spared_sigalrm : aside.

Lemma spared_abor : aside (upd (set_abor_received true);; fd ← gets data_fd; do_ (Sock (Shutdown fd true))).
Proof. apply (spared_cut _ mret); [by intros []|by right|apply aside_ret]. Qed.

Lemma spared_sigurg : aside handle_sigurg.
Proof. unfold handle_sigurg. repeat first [exact spared_abor | aside_step]. Qed.
#[local] Hint Resolve spared_sigurg : aside.

Lemma spared_handle_io r f : aside (handle_io r f).
Proof. unfold handle_io, vsf_sysutil_sleep. aside_auto. Qed.
#[local] Hint Resolve spared_handle_io : aside.

Lemma spared_signal s : aside (run_signal s).
Proof.
  unfold run_signal, run_alarm, handle_alarm_timeout, handle_sigterm. destruct s; aside_auto.
Qed.
#[local] Hint Resolve spared_signal : aside.

Lemma spared_pending ctx : aside (pending_actions ctx).
Proof.
  unfold pending_actions, run_io_handler. aside_auto.
  match goal with |- aside (run_signals ?l) => induction l; cbn [run_signals]; aside_auto end.
Qed.

End Handlers.

(** Any number of handlers, nested as they may be. *)
Lemma spared_check ctx : aside (check_pending ctx).
Proof.
  unfold check_pending, vsf_sysutil_check_pending_actions.
  assert (∀ n c, aside (check_pending_at n c)) as H; [|apply H].
  induction n as [|n IH]; intros c; cbn [check_pending_at]; [apply aside_ret|].
  by apply (spared_pending (P := check_pending_at n)).
Qed.

End Spared.

Lemma wp_interrupted `{E : Env} `{T : Tun} fd dfd ctx (Q : unit → world → Prop) w :
  apart_fds fd dfd w → (∀ w', spared fd dfd w w' → Q tt w') → wp (check_pending ctx) Q (λ s _, s ≠ Fuel) w.
Proof.
  intros HA HQ. eapply wp_mono; [eapply wp_hoare; [apply (spared_check fd dfd w HA ctx)|]| |done].
  - reflexivity.
  - intros []. auto.
Qed.

(** The write loop under interruption: what it writes is a first part, and if it
    reports all of it, it is all. *)
Lemma wp_write_loop_interrupted `{E : Env} `{T : Tun} fd dfd n d k (Q : Z → world → Prop) w :
  apart_fds fd dfd w → 0 ≤ k → (length d < n)%nat →
  (∀ r p w', gave fd dfd p w w' → p `prefix_of` d → (r = k + zlen d → p = d) → Q r w') →
  wp (write_loop n fd d k) Q (λ s _, s ≠ Fuel) w.
Proof.
  revert d k Q w. induction n as [|n IH]; intros d k Q w HA Hk Hn HQ; cbn [write_loop]; [lia|].
  wp_step. unfold vsf_sysutil_write. do 6 wp_step. subst a. set (r := a_int _).
  set (w1 := put_hist _ w). assert (gave fd dfd (take (Z.to_nat r) d) w w1) as Hw1.
  { split; cbn; rewrite ?Z.eqb_refl; auto. }
  apply (wp_interrupted fd dfd); [by eapply apart_fds_gave|]. intros w2 Hw2. wp_step.
  assert (gave fd dfd (take (Z.to_nat r) d) w w2) as Hw.
  { rewrite <- (app_nil_r (take _ _)). by eapply gave_trans. }
  clearbody r. clear w1 Hw1 Hw2.
  assert (∀ r', (r' = k + zlen d → (length d <= Z.to_nat r)%nat) → Q r' w2) as HQ'.
  { intros r' Hr. apply (HQ _ _ _ Hw); [|intros E0; by rewrite take_ge by (by apply Hr)].
    exists (drop (Z.to_nat r) d). by rewrite take_drop. }
  unfold zlen in *. wp_auto; b2p; try (apply HQ'; lia); [done|].
  apply IH; [by eapply apart_fds_gave|lia|rewrite length_drop; lia|]. intros r' p w3 Hp Hpre Hr'.
  apply (HQ _ (take (Z.to_nat r) d ++ p)); [by eapply gave_trans|..].
  - rewrite <- (take_drop (Z.to_nat r) d) at 2. by apply prefix_app.
  - intros ->. rewrite Hr', take_drop; [done|]. rewrite length_drop. lia.
Qed.
