(* ===== verification/Replies.v ===== *)
(** * Replies on the control connection

    ftp_write_str_common of ftpcmdio.c: a reply is one line, whatever its text,
    and the client can recover the text. *)

From Stdlib Require Import Init.Byte Strings.Byte.
From Stdlib Require Import ZArith Lia String.
From stdpp Require Import base list numbers option gmap strings.
From S2P Require Import Prelude SysUtil Text StrList IpAddr Tunables Session CmdIO.
From S2P Require Import Signals Logic Traffic.

(** ** Replacing one character by a text *)

Lemma find_from_index c s i : find_from [c] s i = (λ k, i + k)%nat <$> index_of c s.
Proof.
  revert i; induction s as [|d s IH]; intros i; cbn; [done|].
  rewrite andb_true_r. destruct (decide (d = c)) as [->|Hn].
  - rewrite !bool_decide_true by done. cbn. f_equal. lia.
  - rewrite !bool_decide_false by congruence. rewrite IH.
    destruct (index_of c s); cbn; [f_equal; lia|done].
Qed.

Lemma index_of_None_bind c s (f : byte → bytes) :
  index_of c s = None → (∀ d, d ≠ c → f d = [d]) → s ≫= f = s.
Proof.
  intros Hs Hf. induction s as [|d s IH]; [done|]. cbn in *. case_bool_decide; [done|].
  destruct (index_of c s); [done|]. rewrite Hf by done. cbn. f_equal. by apply IH.
Qed.

Lemma index_of_split c s k :
  index_of c s = Some k → s = take k s ++ c :: drop (S k) s ∧ index_of c (take k s) = None.
Proof.
  revert k; induction s as [|d s IH]; intros k; cbn; [done|].
  case_bool_decide; [intros [= <-]; by subst|].
  destruct (index_of c s) as [j|]; [|done]. intros [= <-]. destruct (IH j eq_refl) as [H1 H2].
  cbn. rewrite bool_decide_false by done. rewrite H2. split; [by rewrite <- H1|done].
Qed.

Lemma replace_char_bind n s c to :
  (length s < n)%nat →
  replace_fuel n s [c] to = s ≫= λ d, if bool_decide (d = c) then to else [d].
Proof.
  revert s; induction n as [|n IH]; intros s Hn; [lia|]. cbn [replace_fuel]. unfold t_locate.
  rewrite bool_decide_false by done. rewrite find_from_index.
  destruct (index_of c s) as [k|] eqn:Hk; cbn [fmap option_fmap option_map].
  - pose proof (index_of_Some _ _ _ Hk) as [Hlt _]. apply index_of_split in Hk as [Hs Hno].
    rewrite Hs at 3. rewrite bind_app. cbn [length]. rewrite Nat.add_0_l, IH by (rewrite length_drop; lia).
    rewrite (index_of_None_bind c (take k s)) by (done || (intros; by rewrite bool_decide_false)).
    cbn [mbind list_bind]. rewrite bool_decide_true by done. by rewrite Nat.add_1_r.
  - symmetry. apply (index_of_None_bind c); [done|]. intros. by rewrite bool_decide_false.
Qed.

(** ** The line *)

(** What the client reads: a doubled IAC is one, and NUL stands for LF. *)
Fixpoint undouble (s : bytes) : bytes :=
  match s with
  | [] => []
  | c :: s' =>
      match s' with
      | d :: s'' => if bool_decide (c = IAC) && bool_decide (d = IAC) then IAC :: undouble s''
                    else c :: undouble s'
      | [] => [c]
      end
  end.

Definition client_text (body : bytes) : bytes := t_replace_char (undouble body) NUL LF.

Definition reply_body (s : bytes) : bytes := t_replace_char (t_replace_text s [IAC] [IAC; IAC]) LF NUL.

Lemma undouble_cons c s : c ≠ IAC → undouble (c :: s) = c :: undouble s.
Proof. intros H. cbn. destruct s; [done|]. by rewrite bool_decide_false. Qed.

Lemma reply_body_no_lf s : LF ∉ reply_body s.
Proof.
  unfold reply_body, t_replace_char. intros (c & Hc & _)%list_elem_of_fmap.
  case_bool_decide; by subst.
Qed.

Lemma reply_body_cons c s :
  reply_body (c :: s) =
  (if bool_decide (c = IAC) then [IAC; IAC] else [if bool_decide (c = LF) then NUL else c])
  ++ reply_body s.
Proof.
  unfold reply_body, t_replace_text, t_replace_char. rewrite !replace_char_bind by lia.
  cbn [mbind list_bind]. rewrite fmap_app. f_equal. by case_bool_decide.
Qed.

Lemma client_text_body s : NUL ∉ s → client_text (reply_body s) = s.
Proof.
  unfold client_text, t_replace_char. induction s as [|c s IH]; [done|].
  intros [Hc Hs]%not_elem_of_cons. rewrite reply_body_cons. case_bool_decide; cbn [app].
  - subst. cbn [undouble]. rewrite bool_decide_true by done. cbn [andb].
    rewrite fmap_cons, IH by done. done.
  - rewrite undouble_cons by (by case_bool_decide). rewrite fmap_cons, IH by done.
    f_equal. by repeat case_bool_decide; subst.
Qed.

Section Replies.
Context `{E : Env} `{T : Tun} {HS : NoSignals E} {HP : Progress E VSFTP_COMMAND_FD}.

(** C21: A reply reaches the client as one line. On a plain control connection
    [ftp_write_str_common] sends, however the kernel cuts the writes, the
    status, the separator, a body without LF, and CR LF; a client that undoes
    the doubling of IAC and the NUL that stands for LF gets a text without NUL back.
    The kernel takes at least one byte of every write ([Progress]), no signal arrives
    meanwhile ([NoSignals]), and the protocol is not logged (log_ftp_protocol is
    off). *)
Theorem reply_one_line (status : Z) (sep : byte) (s : bytes) (w : world) :
  control_use_ssl (sess w) = false → tb tun "log_ftp_protocol" = false →
  zlen (response status sep s) ≤ INT_MAX →
  ∃ w' body, ftp_write_str_common status sep s w = (Ok tt, w') ∧
    sent VSFTP_COMMAND_FD (hist w') =
      sent VSFTP_COMMAND_FD (hist w) ++ vsf_sysutil_ulong_to_str status ++ [sep] ++ body ++ [CR; LF] ∧
    LF ∉ body ∧ (NUL ∉ s → client_text body = s).
Proof.
  intros Hssl Hlog Hlen.
  assert (wp (ftp_write_str_common status sep s) (λ _ w', wrote VSFTP_COMMAND_FD (response status sep s) w w')
    (λ _ _, False) w) as H.
  { unfold ftp_write_str_common, ftp_write_str, str_netfd_write, vsf_sysutil_write_loop. rewrite Hlog.
    assert (response status sep s ≠ []) as Hne by (unfold response; by destruct (vsf_sysutil_ulong_to_str status)).
    pose proof (zlen_pos _ Hne) as Hpos.
    unfold when at 1. do 7 wp_step. rewrite Hssl. cbn [andb].
    destruct (zlen _ =? 0) eqn:?; [ztest; lia|]. wp_step.
    destruct (INT_MAX <? _) eqn:?; [ztest; lia|].
    apply wp_write_loop_total; [done|lia|]. intros w' Hw.
    wp_step. rewrite Z.add_0_l. unfold vsf_sysutil_retval_is_error.
    rewrite (proj2 (Z.ltb_ge _ 0)), Z.eqb_refl by lia. by wp_auto. }
  unfold wp in H. destruct (ftp_write_str_common status sep s w) as [[[]|] w']; [|done].
  exists w', (reply_body s). split_and!; [done| |apply reply_body_no_lf|apply client_text_body].
  rewrite (wrote_sent _ _ _ _ H). by rewrite Z.eqb_refl.
Qed.

End Replies.

(** A kernel that takes one byte at a time. *)
#[local] Instance byte_env : Env := λ _ c,
  match c with Write _ [] => answer_with 0 [] | _ => answer_with 1 [] end.
#[local] Instance byte_no_signals : NoSignals byte_env.
Proof. done. Qed.
#[local] Instance byte_progress fd : Progress byte_env fd.
Proof. intros h [|c d]; [by cbn|]. unfold zlen. cbn. lia. Qed.

Lemma reply_one_line_witness :
  let w := fresh_world (fresh_session vsf_sysutil_sockaddr_alloc vsf_sysutil_sockaddr_alloc) [] in
  ∃ w' body, ftp_write_str_common (E := byte_env) (T := Tunables ∅ ∅ ∅)
      (P := vsf_sysutil_check_pending_actions (E := byte_env) (T := Tunables ∅ ∅ ∅))
      257 SP [xff; LF; x61] w = (Ok tt, w') ∧
    sent 0 (hist w') = sent 0 (hist w) ++ vsf_sysutil_ulong_to_str 257 ++ [SP] ++ body ++ [CR; LF] ∧
    LF ∉ body ∧ (NUL ∉ [xff; LF; x61] → client_text body = [xff; LF; x61]).
Proof.
  apply (reply_one_line (T := Tunables ∅ ∅ ∅) 257 SP [xff; LF; x61]
    (fresh_world (fresh_session vsf_sysutil_sockaddr_alloc vsf_sysutil_sockaddr_alloc) []));
    vm_compute; done.
Defined.
