(* ===== verification/Paths.v ===== *)
(** * Paths and the access check

    The path functions of postlogin.c and ls.c and access.c: how a name given
    by the client becomes a path on the local disk, how "." and ".." are
    removed from it, and the check that keeps it below the user's root. *)

From Stdlib Require Import Init.Byte Strings.Byte.
From Stdlib Require Import ZArith Lia String.
From stdpp Require Import base list numbers option gmap strings.
From S2P Require Import Prelude SysUtil Text StrList IpAddr Filter Tunables Session.
From S2P Require Import CmdIO.

Definition SLASH : byte := x2f.
Definition TILDE : byte := x7e.
Definition dot : bytes := lit ".".
Definition dotdot : bytes := lit "..".
Definition slash_dot : bytes := lit "/./".
Definition slash_dotdot : bytes := lit "/../".

Definition ends_with_slash (s : bytes) : bool := bool_decide (last s = Some SLASH).

(** [str_alloc_text] of an unset string setting reads through NULL. *)
Definition get_user_root_dir `{T : Tun} : res bytes :=
  match ts tun "user_home_dir", ts tun "cos_appid", ts tun "cos_bucket" with
  | Some home, Some appid, Some bucket =>
      let root := if isempty home then lit "./" else home in
      let root := if ends_with_slash root then root else root ++ [SLASH] in
      Ok (root ++ appid ++ [SLASH] ++ bucket)
  | _, _, _ => Err UB
  end.

Definition is_relative (p_str : bytes) : bool := negb (bool_decide (head p_str = Some SLASH)).

(** The working directory, without emitting // in directory /. *)
Definition below_cwd (cwd p_str : bytes) : bytes :=
  (if isempty cwd || negb (ends_with_slash cwd) then cwd ++ [SLASH] else cwd) ++ p_str.

Definition session_path (root cwd p_str : bytes) : bytes :=
  if is_relative p_str then below_cwd cwd p_str else root ++ p_str.

(** First loop: "/./" until the length is stable. *)
Fixpoint drop_dot (fuel : nat) (p_path : bytes) : bytes :=
  match fuel with
  | O => p_path
  | S fuel' =>
      let p' := t_replace_text p_path slash_dot [SLASH] in
      if (length p' =? length p_path)%nat then p' else drop_dot fuel' p'
  end.

(** Second loop: each "/../" with the component before it. *)
Fixpoint drop_dotdot (fuel : nat) (p_path : bytes) : bytes :=
  match fuel with
  | O => p_path
  | S fuel' =>
      let '(lhs, rhs) := t_split_text p_path slash_dotdot in
      if (length lhs =? length p_path)%nat then lhs
      else
        let up := (t_split_char_reverse lhs SLASH).1 in
        drop_dotdot fuel' (if isempty rhs then up else up ++ [SLASH] ++ rhs)
  end.

Definition normalise (p_path : bytes) : bytes :=
  let p := drop_dot (S (length p_path)) p_path in
  drop_dotdot (S (length p)) p.

(** The comparison of [vsf_access_session_check_file]: [strncmp] of the root
    and the normalised path, each with a final slash. *)
Definition below_root (root real : bytes) : bool :=
  let real := if isempty real || negb (ends_with_slash real) then real ++ [SLASH] else real in
  let root := root ++ [SLASH] in
  bool_decide (take (length root) (cstr root) = take (length root) (cstr real)).

Section Access.
Context `{E : Env} `{T : Tun}.

Definition prepend_path_to_filename (p_str : bytes) : M bytes :=
  if is_relative p_str then cwd ← str_getcwd; mret (below_cwd cwd p_str)
  else mret p_str.

Definition prepend_session_path_to_filename (p_str : bytes) : M bytes :=
  if is_relative p_str then cwd ← str_getcwd; mret (below_cwd cwd p_str)
  else root ← lift get_user_root_dir; mret (root ++ p_str).

Definition real_path (p_path : bytes) : M bytes :=
  p ← prepend_path_to_filename p_path; mret (normalise p).

Definition session_real_path (p_path : bytes) : M bytes :=
  p ← prepend_session_path_to_filename p_path; mret (normalise p).

(** The filter text is copied from the configuration on first use. *)
Definition check_filter (cached deny p_filename_str : bytes) : res (bool * bytes) :=
  let s_access_str := if isempty cached then cstr deny else cached in
  match vsf_filename_passes_filter p_filename_str s_access_str 0 with
  | Err e => Err e
  | Ok (true, _) => Ok (false, s_access_str)
  | Ok (false, _) =>
      Ok (match t_locate p_filename_str s_access_str with Some _ => false | None => true end,
          s_access_str)
  end.

Definition vsf_access_check_file (p_filename_str : bytes) : M bool :=
  match ts tun "deny_file" with
  | None => mret true
  | Some deny =>
      cached ← getw s_deny_str;
      '(ok, s) ← lift (check_filter cached deny p_filename_str);
      modw (put_s_deny_str s);;
      mret ok
  end.

Definition vsf_access_check_file_visible (p_filename_str : bytes) : M bool :=
  match ts tun "hide_file" with
  | None => mret true
  | Some hide =>
      cached ← getw s_hide_str;
      '(ok, s) ← lift (check_filter cached hide p_filename_str);
      modw (put_s_hide_str s);;
      mret ok
  end.

Definition vsf_access_session_check_file (p_filename_str : bytes) : M bool :=
  s_real_path ← session_real_path p_filename_str;
  s_user_root ← lift get_user_root_dir;
  if negb (below_root s_user_root s_real_path) then mret false
  else vsf_access_check_file p_filename_str.

(** [~] and [~user] at the start of a name. *)
Definition resolve_tilde (p_str : bytes) : M bytes :=
  match p_str with
  | c :: rest =>
      if negb (bool_decide (c = TILDE)) then mret p_str
      else if match rest with [] => true | d :: _ => bool_decide (d = SLASH) end then
        home ← gets home_str;
        mret (home ++ (t_split_char p_str TILDE).2)
      else if tb tun "tilde_user_enable" then
        let '(user, rhs) := t_split_char (t_split_char p_str TILDE).2 SLASH in
        a ← ask (Sys (Getpwnam (cstr user)));
        match a_text a with
        | Some home => mret (home ++ (if isempty rhs then [] else [SLASH] ++ rhs))
        | None => mret p_str
        end
      else mret p_str
  | [] => mret p_str
  end.

(** secutil.c: make a directory and the missing ones above it. A name without
    a slash has no parent, and the code calls itself with the same name. *)
Fixpoint str_mkdirs (fuel : nat) (p_dir_str : bytes) (mode : Z) : M Z :=
  match fuel with
  | O => stop_with Fuel
  | S fuel' =>
      if isempty p_dir_str then mret 0
      else
        let dir_str :=
          if ends_with_slash p_dir_str then take (length p_dir_str - 1) p_dir_str
          else p_dir_str in
        let dir_str := (t_split_char_reverse dir_str SLASH).1 in
        access ← sys (Fs (Access (cstr dir_str)));
        ret ← (if access =? 0 then mret 0 else str_mkdirs fuel' dir_str mode);
        if ret =? 0 then sys (Fs (Mkdir (cstr p_dir_str) mode)) else mret ret
  end.

(** Starts with a slash unless it is empty, does not end with one. *)
Definition str_session_getcwd : M bytes :=
  cwd ← str_getcwd;
  root ← lift get_user_root_dir;
  mret (t_replace_text cwd root []).

End Access.

(** ** Component semantics

    A path as the list of its components, and its lexical resolution as the
    stack of the components it goes through, the innermost first. *)

Fixpoint comps (s : bytes) : list bytes :=
  match s with
  | [] => [[]]
  | c :: s' =>
      if bool_decide (c = SLASH) then [] :: comps s'
      else match comps s' with
           | f :: fs => (c :: f) :: fs
           | [] => [[c]]
           end
  end.

Definition enter (st : list bytes) (c : bytes) : list bytes :=
  if bool_decide (c = []) || bool_decide (c = dot) then st
  else if bool_decide (c = dotdot) then tail st
  else c :: st.

Definition resolve (s : bytes) : list bytes := foldl enter [] (comps s).

(** The components that have a slash on both sides. *)
Definition inner (s : bytes) : list bytes := removelast (tail (comps s)).

Definition absolute (s : bytes) : Prop := head (comps s) = Some [].

(** ** Facts on components *)

Lemma comps_cons_ne s : comps s ≠ [].
Proof.
  destruct s as [|c s]; cbn; [done|]. case_bool_decide; [done|]. by destruct (comps s).
Qed.

Lemma comps_app (a b : bytes) : comps (a ++ SLASH :: b) = comps a ++ comps b.
Proof.
  induction a as [|c a IH]; cbn [app comps].
  - by rewrite bool_decide_eq_true_2.
  - case_bool_decide; [by rewrite IH|]. rewrite IH.
    destruct (comps a) as [|f fs] eqn:E; [by apply comps_cons_ne in E|done].
Qed.

Lemma comps_one (c : bytes) : SLASH ∉ c → comps c = [c].
Proof.
  induction c as [|d c IH]; cbn; [done|]. rewrite not_elem_of_cons. intros [Hd Hc].
  rewrite bool_decide_eq_false_2 by done. by rewrite IH.
Qed.

(** Every path is its components joined by slashes. *)
Fixpoint join (l : list bytes) : bytes :=
  match l with
  | [] => []
  | [x] => x
  | x :: l' => x ++ SLASH :: join l'
  end.

Lemma join_comps s : join (comps s) = s.
Proof.
  induction s as [|c s IH]; cbn [comps]; [done|].
  destruct (comps s) as [|f fs] eqn:E; [by apply comps_cons_ne in E|].
  case_bool_decide as Hc; subst; [done|]. by destruct fs; cbn in *.
Qed.

Lemma join_app l k : l ≠ [] → k ≠ [] → join (l ++ k) = join l ++ SLASH :: join k.
Proof.
  intros Hl Hk. induction l as [|x [|y l] IH]; [done|by destruct k|].
  change (x ++ SLASH :: join ((y :: l) ++ k) = (x ++ SLASH :: join (y :: l)) ++ SLASH :: join k).
  rewrite IH by done. by rewrite <- app_assoc.
Qed.

Lemma head_app_ne {A} (l k : list A) : l ≠ [] → head (l ++ k) = head l.
Proof. by destruct l. Qed.

Lemma last_app_ne {A} (l k : list A) : k ≠ [] → last (l ++ k) = last k.
Proof. intros Hk. destruct k as [|x k]; [done|]. apply last_app_cons. Qed.

Lemma removelast_elem {A} (x : A) l :
  x ∈ removelast l → ∃ l1 l2, l = l1 ++ x :: l2 ∧ l2 ≠ [].
Proof.
  induction l as [|y [|z l] IH]; cbn [removelast]; try (intros H; inversion H; fail).
  rewrite elem_of_cons. intros [->|H].
  - by exists [], (z :: l).
  - destruct (IH H) as (l1 & l2 & -> & ?). by exists (y :: l1), l2.
Qed.

Lemma inner_app a b : inner (a ++ SLASH :: b) = tail (comps a) ++ removelast (comps b).
Proof.
  unfold inner. rewrite comps_app.
  destruct (comps a) as [|f fs] eqn:E; [by apply comps_cons_ne in E|]. cbn.
  apply removelast_app, comps_cons_ne.
Qed.

(** A component inside the path stands between two slashes, so the code that
    looks for it with its slashes finds one. *)
Lemma inner_locate x s :
  x ∈ inner s → t_locate s (SLASH :: x ++ [SLASH]) ≠ None.
Proof.
  unfold inner. intros (l1 & l2 & E & Hl2)%removelast_elem H.
  destruct (comps s) as [|f fs] eqn:Ec; [by apply comps_cons_ne in Ec|]. cbn in E. subst fs.
  assert (s = join (f :: l1) ++ SLASH :: x ++ SLASH :: join l2) as Es.
  { rewrite <- (join_comps s), Ec. change (f :: l1 ++ x :: l2) with ((f :: l1) ++ x :: l2).
    rewrite join_app by done. do 2 f_equal. by apply (join_app [x] l2). }
  apply t_locate_None in H as [H|H]; [done|].
  specialize (H (length (join (f :: l1)))). rewrite Es, drop_app_length in H.
  change (SLASH :: x ++ SLASH :: join l2) with ((SLASH :: x) ++ SLASH :: join l2) in H.
  rewrite (cons_middle SLASH (SLASH :: x) (join l2)), app_assoc in H.
  change ((SLASH :: x) ++ [SLASH]) with (SLASH :: x ++ [SLASH]) in H.
  by rewrite starts_with_refl in H.
Qed.

Lemma resolve_app a b : resolve (a ++ SLASH :: b) = foldl enter (resolve a) (comps b).
Proof. unfold resolve. by rewrite comps_app, foldl_app. Qed.

(** ** The first loop *)

Lemma replace_dot_step n s i :
  t_locate s slash_dot = Some i →
  s = take i s ++ slash_dot ++ drop (i + 3) s ∧
  replace_fuel (S n) s slash_dot [SLASH] =
    (take i s ++ [SLASH]) ++ replace_fuel n (drop (i + 3) s) slash_dot [SLASH].
Proof.
  intros H. cbn [replace_fuel]. rewrite H. split.
  - pose proof (t_split_text_found _ _ _ H) as Hs. unfold t_split_text in Hs.
    by rewrite H in Hs.
  - by rewrite <- app_assoc.
Qed.

Lemma replace_dot_length n s :
  (length (replace_fuel n s slash_dot [SLASH]) ≤ length s)%nat.
Proof.
  revert s; induction n as [|n IH]; intros s; [done|].
  destruct (t_locate s slash_dot) as [i|] eqn:E; [|cbn [replace_fuel]; by rewrite E].
  destruct (replace_dot_step n s i E) as [Hs ->]. specialize (IH (drop (i + 3) s)).
  apply (f_equal length) in Hs. rewrite !length_app in *. cbn in Hs. change (length [SLASH]) with 1%nat. lia.
Qed.

Lemma replace_dot_shorter s i :
  t_locate s slash_dot = Some i →
  (length (t_replace_text s slash_dot [SLASH]) < length s)%nat.
Proof.
  intros E. unfold t_replace_text.
  destruct (replace_dot_step (length s) s i E) as [Hs ->].
  pose proof (replace_dot_length (length s) (drop (i + 3) s)).
  apply (f_equal length) in Hs. rewrite !length_app in *. cbn in Hs. change (length [SLASH]) with 1%nat. lia.
Qed.

(** What normalisation has to keep, for a path and a shorter one. *)
Record same_place (s s' : bytes) : Prop := {
  sp_resolve : resolve s' = resolve s;
  sp_head : head (comps s') = head (comps s);
  sp_inner x : x ∈ inner s' → x ∈ inner s;
  sp_last : last (comps s') = last (comps s)
}.

#[global] Instance same_place_preorder : PreOrder same_place.
Proof.
  split; [by constructor|]. intros s1 s2 s3 [] []. constructor; [congruence..| |congruence].
  eauto.
Qed.

Lemma same_place_cut a c b :
  c = [] ∨ c = dot → same_place (a ++ SLASH :: c ++ SLASH :: b) (a ++ SLASH :: b).
Proof.
  intros Hc. assert (SLASH ∉ c) as Hs by (destruct Hc as [->| ->]; vmdec).
  assert (comps (c ++ SLASH :: b) = c :: comps b) as Ec by (by rewrite comps_app, comps_one).
  constructor.
  - rewrite !resolve_app, Ec. cbn. unfold enter at 3. by destruct Hc as [->| ->].
  - by rewrite !comps_app, !head_app_ne by apply comps_cons_ne.
  - intros x. rewrite !inner_app, Ec, !elem_of_app. intros [?|Hx]; [by left|right].
    destruct (comps b) as [|f fs]; [done|]. cbn. apply elem_of_cons. by right.
  - rewrite (comps_app a (c ++ _)), (comps_app a b), Ec.
    rewrite !last_app_ne by (try done; apply comps_cons_ne).
    destruct (comps b) as [|f fs] eqn:E; [by apply comps_cons_ne in E|done].
Qed.

Lemma replace_dot_same n pre s :
  same_place (pre ++ s) (pre ++ replace_fuel n s slash_dot [SLASH]).
Proof.
  revert pre s; induction n as [|n IH]; intros pre s; [done|].
  destruct (t_locate s slash_dot) as [i|] eqn:E; [|cbn [replace_fuel]; by rewrite E].
  destruct (replace_dot_step n s i E) as [Hs ->]. clear E.
  set (x := take i s) in *. set (y := drop (i + 3) s) in *. clearbody x y. subst s.
  rewrite (app_assoc pre (x ++ _)). etrans; [|apply IH]. rewrite !app_assoc.
  rewrite <- (app_assoc _ slash_dot y), <- (app_assoc _ [SLASH] y).
  apply (same_place_cut _ dot). by right.
Qed.

Lemma drop_dot_spec n s :
  (length s < n)%nat →
  same_place s (drop_dot n s) ∧ dot ∉ inner (drop_dot n s).
Proof.
  revert s; induction n as [|n IH]; intros s Hn; [lia|]. cbn [drop_dot].
  set (s' := t_replace_text s slash_dot [SLASH]).
  assert (same_place s s') as Hs by exact (replace_dot_same (S (length s)) [] s).
  destruct (Nat.eqb_spec (length s') (length s)) as [El|El].
  - split; [done|]. intros Hd.
    assert (t_locate s slash_dot = None) as E.
    { destruct (t_locate s slash_dot) as [i|] eqn:E; [|done].
      apply replace_dot_shorter in E. unfold s' in El. lia. }
    apply (inner_locate dot s) in E as []. by apply (sp_inner _ _ Hs).
  - pose proof (replace_dot_length (S (length s)) s).
    destruct (IH s') as [H1 H2].
    { unfold s', t_replace_text in *. lia. }
    split; [by etrans|done].
Qed.

(** ** The second loop *)

Lemma rfind_from_char (c : byte) (a b : bytes) (k : nat) :
  c ∉ b → (length a <= k)%nat → (k <= length (a ++ c :: b) - 1)%nat →
  rfind_from [c] (a ++ c :: b) k = Some (length a).
Proof.
  intros Hb. revert b Hb. induction k as [|k IH]; intros b Hb H1 H2; cbn [rfind_from].
  - destruct a; cbn in *; [|lia]. by rewrite bool_decide_eq_true_2.
  - rewrite length_app in H2. cbn in H2. destruct (decide (S k = length a)) as [E|E].
    + rewrite E, drop_app_length. cbn. by rewrite bool_decide_eq_true_2.
    + rewrite drop_app_ge by lia. replace (S k - length a)%nat with (S (k - length a)) by lia.
      cbn [drop]. destruct (drop (k - length a) b) as [|d r] eqn:Ed.
      * apply IH; [done|lia|rewrite length_app; cbn; lia].
      * rewrite starts_with_one, bool_decide_eq_false_2.
        { apply IH; [done|lia|rewrite length_app; cbn; lia]. }
        intros <-. apply Hb. rewrite <- (take_drop (k - length a) b), Ed. set_solver.
Qed.

Lemma rfind_from_char_None (c : byte) (a : bytes) (k : nat) :
  c ∉ a → rfind_from [c] a k = None.
Proof.
  intros Ha. assert (∀ i, starts_with [c] (drop i a) = false) as H.
  { intros i. destruct (drop i a) as [|d r] eqn:Ed; [done|].
    rewrite starts_with_one, bool_decide_eq_false_2; [done|]. intros <-. apply Ha.
    rewrite <- (take_drop i a), Ed. set_solver. }
  induction k as [|k IH]; cbn [rfind_from]; rewrite H; [done|exact IH].
Qed.

(** Going up: the part before the last slash. *)
Lemma up_app d c : SLASH ∉ c → (t_split_char_reverse (d ++ SLASH :: c) SLASH).1 = d.
Proof.
  intros Hc. unfold t_split_char_reverse, t_split_text_reverse, t_rlocate, char_text.
  rewrite bool_decide_eq_false_2 by done. rewrite (bool_decide_eq_false_2 ([SLASH] = [])) by done.
  cbn [orb length]. rewrite length_app. cbn [length].
  destruct (Nat.ltb_spec (length d + S (length c)) 1); [lia|].
  rewrite rfind_from_char; [cbn; by rewrite take_app_length|done|lia|rewrite length_app; cbn; lia].
Qed.

Lemma up_none c : SLASH ∉ c → (t_split_char_reverse c SLASH).1 = c.
Proof.
  intros Hc. unfold t_split_char_reverse, t_split_text_reverse, t_rlocate, char_text.
  rewrite bool_decide_eq_false_2 by done. rewrite (bool_decide_eq_false_2 ([SLASH] = [])) by done.
  cbn [orb length]. destruct (length c <? 1)%nat; [done|]. by rewrite rfind_from_char_None.
Qed.

Lemma comps_last s : ∃ d c, SLASH ∉ c ∧ (s = c ∨ s = d ++ SLASH :: c).
Proof.
  induction s as [|b s (d & c & Hc & H)]; [exists [], []; split; [apply not_elem_of_nil|auto]|].
  destruct H as [->| ->].
  - destruct (decide (b = SLASH)) as [->|]; [exists [], c; auto|].
    exists [], (b :: c). rewrite not_elem_of_cons. auto.
  - exists (b :: d), c. auto.
Qed.

(** The paths the second loop goes through. *)
Record clean (s : bytes) : Prop := {
  cl_abs : absolute s;
  cl_empty : [] ∉ inner s;
  cl_dot : dot ∉ inner s;
  cl_last : last (comps s) ≠ Some dotdot
}.

Definition up_step (lhs rhs : bytes) : bytes :=
  let up := (t_split_char_reverse lhs SLASH).1 in
  if isempty rhs then up else up ++ [SLASH] ++ rhs.

Lemma up_step_length lhs rhs :
  (length (up_step lhs rhs) <= length lhs + 1 + length rhs)%nat.
Proof.
  unfold up_step, isempty.
  assert (length (t_split_char_reverse lhs SLASH).1 <= length lhs)%nat.
  { unfold t_split_char_reverse, t_split_text_reverse.
    destruct (t_rlocate _ _); cbn; [rewrite length_take|]; lia. }
  case_bool_decide; [lia|]. rewrite !length_app. cbn. lia.
Qed.

Lemma first_dotdot s i a b :
  t_locate s slash_dotdot = Some i → s = a ++ SLASH :: dotdot ++ SLASH :: b → (i <= length a)%nat.
Proof.
  intros (_ & _ & H)%t_locate_Some ->. destruct (decide (i <= length a)%nat); [done|].
  specialize (H (length a) ltac:(lia)). rewrite drop_app_length in H. done.
Qed.

Lemma comps_dotdot lhs rhs :
  comps (lhs ++ slash_dotdot ++ rhs) = comps lhs ++ dotdot :: comps rhs.
Proof.
  change (lhs ++ slash_dotdot ++ rhs) with (lhs ++ SLASH :: dotdot ++ SLASH :: rhs).
  by rewrite !comps_app.
Qed.

Section UpStep.
Context (lhs rhs : bytes).
Let s := lhs ++ slash_dotdot ++ rhs.
Context (Hc : clean s) (Hl : t_locate s slash_dotdot = Some (length lhs)).

(** Nothing to go up from: the path starts with "/../". *)
Lemma up_step_root : SLASH ∉ lhs → lhs = [].
Proof.
  intros Hn. pose proof (cl_abs _ Hc) as Ha. unfold absolute, s in Ha.
  rewrite comps_dotdot, comps_one in Ha by done. by injection Ha.
Qed.

Lemma up_step_comp d c :
  SLASH ∉ c → lhs = d ++ SLASH :: c →
  c ≠ [] ∧ c ≠ dot ∧ c ≠ dotdot ∧ last (comps d) ≠ Some dotdot.
Proof.
  unfold s in *. clear s. intros Hn ->. set (s := _ ++ slash_dotdot ++ rhs) in *. assert (c ∈ inner s) as Hi.
  { unfold s, inner. rewrite comps_dotdot, comps_app, (comps_one c) by done.
    destruct (comps d) as [|f fs] eqn:E; [by apply comps_cons_ne in E|]. cbn.
    rewrite <- app_assoc. cbn. rewrite removelast_app by done. set_solver. }
  split_and!; [intros ->; by apply (cl_empty _ Hc)|intros ->; by apply (cl_dot _ Hc)| |].
  - intros ->. pose proof (first_dotdot s _ d (lit "../" ++ rhs) Hl) as H.
    rewrite length_app in H. cbn in H. unfold s in H. rewrite <- app_assoc in H. specialize (H eq_refl). lia.
  - intros Hd. destruct (comps_last d) as (d' & e & He & Hde).
    assert (e = dotdot) as ->.
    { destruct Hde as [->| ->]; [|rewrite comps_app, last_app_ne in Hd by apply comps_cons_ne];
        rewrite comps_one in Hd by done; by injection Hd. }
    destruct Hde as [->| ->].
    + pose proof (cl_abs _ Hc) as Ha. unfold absolute, s in Ha.
      by rewrite comps_dotdot, comps_app in Ha.
    + pose proof (first_dotdot s _ d' (c ++ slash_dotdot ++ rhs) Hl) as H.
      rewrite !length_app in H. cbn in H. unfold s in H. rewrite <- !app_assoc in H.
      specialize (H eq_refl). lia.
Qed.

Lemma up_step_spec :
  clean (up_step lhs rhs) ∧ resolve (up_step lhs rhs) = resolve s.
Proof.
  destruct (comps_last lhs) as (d & c & Hn & H).
  assert (∃ d, (t_split_char_reverse lhs SLASH).1 = d ∧ head (comps d) = Some [] ∧
    (∀ x, x ∈ tail (comps d) → x ∈ tail (comps lhs)) ∧ last (comps d) ≠ Some dotdot ∧
    resolve d = tail (resolve lhs)) as (u & Hu & Hh & Ht & Hd & Hr).
  { destruct H as [H|H].
    - assert (lhs = []) as Hnil by (apply up_step_root; by rewrite H).
      exists []. by rewrite Hnil.
    - exists d. destruct (up_step_comp d c Hn H) as (H1 & H2 & H3 & H4).
      rewrite H, up_app by done. pose proof (cl_abs _ Hc) as Ha. unfold absolute, s in Ha.
      rewrite comps_dotdot, H, comps_app, <- app_assoc, head_app_ne in Ha by apply comps_cons_ne.
      split_and!; [done|done| |done|].
      + rewrite comps_app. intros x. destruct (comps d); cbn; set_solver.
      + rewrite resolve_app, comps_one by done. cbn. unfold enter.
        rewrite !bool_decide_eq_false_2 by done. done. }
  assert (resolve s = foldl enter (tail (resolve lhs)) (comps rhs)) as Hs.
  { unfold resolve at 1, s. rewrite comps_dotdot, foldl_app. cbn [foldl]. done. }
  unfold up_step. rewrite Hu, Hs, <- Hr. unfold isempty.
  assert (∀ x, x ∈ tail (comps u) ++ removelast (comps rhs) → x ∈ inner s) as Hin.
  { intros x. unfold s. change (lhs ++ slash_dotdot ++ rhs) with (lhs ++ SLASH :: dotdot ++ SLASH :: rhs).
    rewrite inner_app, comps_app. change (comps dotdot) with [dotdot].
    rewrite removelast_app by apply comps_cons_ne. set_solver. }
  destruct Hc as [_ He Hdot Hlast].
  case_bool_decide as Hrhs; [subst rhs|change ([SLASH] ++ rhs) with (SLASH :: rhs)].
  - split; [|done]. constructor; [done| | |done]; intros Hx;
      [apply He|apply Hdot]; apply Hin, elem_of_app; left; unfold inner in Hx;
      apply removelast_elem in Hx as (? & ? & -> & _); set_solver.
  - split; [|by rewrite resolve_app]. constructor.
    + unfold absolute. by rewrite comps_app, head_app_ne by apply comps_cons_ne.
    + rewrite inner_app. auto.
    + rewrite inner_app. auto.
    + unfold s in Hlast. rewrite comps_dotdot, last_app_ne in Hlast by done.
      rewrite comps_app, last_app_ne by apply comps_cons_ne.
      destruct (comps rhs) eqn:E; [by apply comps_cons_ne in E|]. done.
Qed.

End UpStep.

Lemma drop_dotdot_spec n s :
  (length s < n)%nat → clean s →
  clean (drop_dotdot n s) ∧ dotdot ∉ inner (drop_dotdot n s) ∧
  resolve (drop_dotdot n s) = resolve s.
Proof.
  revert s; induction n as [|n IH]; intros s Hn Hc; [lia|]. cbn [drop_dotdot].
  pose proof (t_split_text_found s slash_dotdot) as Hf.
  destruct (t_locate s slash_dotdot) as [i|] eqn:E.
  - specialize (Hf i eq_refl). unfold t_split_text in *. rewrite E in *. cbn [split_at fst snd] in *.
    pose proof (t_locate_length _ _ _ E) as [_ Hi].
    set (lhs := take i s) in *. set (rhs := drop (i + length slash_dotdot) s) in *.
    assert (length lhs = i) as Hl by (unfold lhs; rewrite length_take; lia).
    pose proof (f_equal length Hf) as Hlen. rewrite !length_app in Hlen. cbn in Hlen.
    destruct (Nat.eqb_spec (length lhs) (length s)) as [El|_]; [cbn in Hi; lia|].
    fold (up_step lhs rhs). pose proof (up_step_length lhs rhs).
    destruct (up_step_spec lhs rhs) as [H1 H2]; [by rewrite <- Hf|by rewrite <- Hf, Hl|].
    destruct (IH (up_step lhs rhs)) as (H3 & H4 & H5); [lia|done|].
    split_and!; [done|done|]. by rewrite H5, H2, <- Hf.
  - unfold t_split_text. rewrite E. cbn [split_at].
    rewrite Nat.eqb_refl. split_and!; [done| |done].
    intros Hd. by apply (inner_locate dotdot s) in Hd.
Qed.

(** ** The whole normalisation *)

Lemma normalise_spec s :
  absolute s → [] ∉ inner s → last (comps s) ≠ Some dotdot →
  clean (normalise s) ∧ dotdot ∉ inner (normalise s) ∧ resolve (normalise s) = resolve s.
Proof.
  intros Ha He Hl. unfold normalise.
  destruct (drop_dot_spec (S (length s)) s ltac:(lia)) as [[Hr Hh Hi Hla] Hd].
  set (s' := drop_dot _ _) in *.
  destruct (drop_dotdot_spec (S (length s')) s' ltac:(lia)) as (H1 & H2 & H3).
  { constructor; [unfold absolute; congruence|auto|done|congruence]. }
  split_and!; [done|done|congruence].
Qed.

Lemma foldl_enter_suffix l st : dotdot ∉ l → st `suffix_of` foldl enter st l.
Proof.
  revert st; induction l as [|c l IH]; intros st Hl; cbn; [done|].
  apply not_elem_of_cons in Hl as [Hc Hl]. etrans; [|by apply IH]. unfold enter.
  destruct (_ || _); [done|]. rewrite bool_decide_eq_false_2 by done. by apply suffix_cons_r.
Qed.

(** The normalised path with a final slash, as it is compared. *)
Definition with_slash (real : bytes) : bytes :=
  if isempty real || negb (ends_with_slash real) then real ++ [SLASH] else real.

Lemma with_slash_spec s :
  clean s → dotdot ∉ inner s →
  resolve (with_slash s) = resolve s ∧ ∀ root t, with_slash s = root ++ SLASH :: t → dotdot ∉ comps t.
Proof.
  intros Hc Hd. unfold with_slash.
  assert (∀ s, dotdot ∉ inner s → last (comps s) ≠ Some dotdot →
    ∀ root t, s = root ++ SLASH :: t → dotdot ∉ comps t) as Hgen.
  { clear. intros s Hd Hl root t -> Ht. rewrite inner_app in Hd.
    rewrite comps_app, last_app_ne in Hl by apply comps_cons_ne.
    rewrite (app_removelast_last [] (comps_cons_ne t)) in Ht.
    apply elem_of_app in Ht as [Ht|Ht]; [set_solver|].
    apply list_elem_of_singleton in Ht. apply Hl.
    rewrite (app_removelast_last [] (comps_cons_ne t)), <- Ht. apply last_snoc. }
  destruct (isempty s || _).
  - split.
    + rewrite resolve_app. done.
    + apply Hgen; [|by rewrite (comps_app s []); cbn [comps]; rewrite last_snoc].
      rewrite (inner_app s []). cbn. rewrite app_nil_r. intros Ht.
      assert (tail (comps s) ≠ []) as Hne by (intros E; rewrite E in Ht; inversion Ht).
      rewrite (app_removelast_last [] Hne) in Ht. apply elem_of_app in Ht as [Ht|Ht]; [done|].
      apply list_elem_of_singleton in Ht. apply (cl_last _ Hc).
      destruct (comps s) as [|f fs]; [done|]. cbn in *.
      rewrite (app_removelast_last [] Hne), <- Ht.
      rewrite app_comm_cons. apply last_snoc.
  - split; [done|]. apply Hgen; [done|apply Hc].
Qed.

Lemma cstr_prefix s : ∃ t, s = cstr s ++ t.
Proof.
  induction s as [|c s [t IH]]; cbn; [by exists []|]. case_bool_decide; [by exists (c :: s)|].
  exists t. cbn. by rewrite <- IH.
Qed.

Lemma cstr_app_prefix a b : NUL ∉ a → ∃ t, cstr (a ++ b) = a ++ t.
Proof.
  induction a as [|c a IH]; cbn; [eauto|]. rewrite not_elem_of_cons. intros [Hc Ha].
  rewrite bool_decide_eq_false_2 by done. destruct (IH Ha) as [t ->]. by exists t.
Qed.

(** The comparison is a prefix test. *)
Lemma below_root_spec root real :
  NUL ∉ root → below_root root real = true ↔ ∃ t, with_slash real = root ++ SLASH :: t.
Proof.
  intros Hn. unfold below_root. fold (with_slash real).
  assert (NUL ∉ root ++ [SLASH]) as Hn' by set_solver.
  rewrite bool_decide_eq_true, cstr_no_nul, take_ge by (done || lia). split.
  - intros H. destruct (cstr_prefix (with_slash real)) as [t Ht].
    exists (drop (length (root ++ [SLASH])) (cstr (with_slash real)) ++ t).
    rewrite Ht at 1. rewrite <- (take_drop (length (root ++ [SLASH])) (cstr _)) at 1.
    rewrite <- H, <- !app_assoc. done.
  - intros [t ->]. change (SLASH :: t) with ([SLASH] ++ t). rewrite app_assoc.
    destruct (cstr_app_prefix _ t Hn') as [t' ->]. by rewrite take_app_length.
Qed.

Lemma below_root_sound root full :
  NUL ∉ root → absolute full → [] ∉ inner full → last (comps full) ≠ Some dotdot →
  below_root root (normalise full) = true → resolve root `suffix_of` resolve full.
Proof.
  intros Hn Ha He Hl Hb.
  destruct (normalise_spec full Ha He Hl) as (Hc & Hd & <-).
  apply below_root_spec in Hb as [t Ht]; [|done].
  destruct (with_slash_spec _ Hc Hd) as [<- Hdd].
  specialize (Hdd root t Ht). rewrite Ht, resolve_app. by apply foldl_enter_suffix.
Qed.

(** ** The converse: nothing below the root is refused *)

(** A root directory written without ".", ".." or empty components. *)
Definition plain (c : bytes) : Prop := c ≠ [] ∧ c ≠ dot ∧ c ≠ dotdot.

Definition plain_root (root : bytes) : Prop :=
  ∃ rs, rs ≠ [] ∧ comps root = [] :: rs ∧ Forall plain rs.

Lemma foldl_enter_plain l st : Forall plain l → foldl enter st l = rev l ++ st.
Proof.
  revert st; induction l as [|c l IH]; intros st Hl; cbn; [done|].
  apply Forall_cons in Hl as [(H1 & H2 & H3) Hl]. rewrite IH by done. unfold enter.
  rewrite !bool_decide_eq_false_2 by done. cbn. by rewrite <- app_assoc.
Qed.

Lemma resolve_plain_root root rs :
  comps root = [] :: rs → Forall plain rs → resolve root = rev rs.
Proof. intros E H. unfold resolve. rewrite E. cbn. by rewrite foldl_enter_plain, app_nil_r. Qed.

(** A normalised path is its plain components and a last one. *)
Lemma clean_shape s :
  clean s → dotdot ∉ inner s →
  comps s = [[]] ∨
  ∃ mid l, comps s = [] :: mid ++ [l] ∧ Forall plain mid ∧ l ≠ dotdot.
Proof.
  intros [Ha He Hdot Hl] Hd. unfold absolute, inner in *.
  destruct (comps s) as [|f fs]; [done|]. cbn in *. injection Ha as ->.
  destruct (decide (fs = [])) as [->|Hne]; [by left|right].
  exists (removelast fs), (List.last fs []). rewrite <- app_removelast_last by done.
  split_and!; [done| |].
  - apply Forall_forall. intros x Hx. split_and!; intros ->; auto.
  - intros E. apply Hl. rewrite (app_removelast_last [] Hne), E, app_comm_cons. apply last_snoc.
Qed.

Lemma with_slash_plain s c :
  c ≠ [] → SLASH ∉ c → with_slash (s ++ SLASH :: c) = (s ++ SLASH :: c) ++ [SLASH].
Proof.
  intros Hc Hs. unfold with_slash, isempty, ends_with_slash.
  rewrite (bool_decide_eq_false_2 (last _ = _)); [by rewrite orb_true_r|].
  change (SLASH :: c) with ([SLASH] ++ c). rewrite !last_app_ne by done.
  intros (l & ->)%last_Some. set_solver.
Qed.

Lemma comps_no_slash s x : x ∈ comps s → SLASH ∉ x.
Proof.
  revert x; induction s as [|c s IH]; intros x; cbn [comps].
  - intros ->%list_elem_of_singleton. apply not_elem_of_nil.
  - case_bool_decide as Hc.
    + intros [->|Hx]%elem_of_cons; [apply not_elem_of_nil|auto].
    + destruct (comps s) as [|f fs]; [by intros ->%list_elem_of_singleton; set_solver|].
      intros [->|Hx]%elem_of_cons; [|apply IH; set_solver].
      apply not_elem_of_cons. split; [done|]. apply IH. set_solver.
Qed.

Lemma with_slash_prefix s rs mid l :
  comps s = [] :: mid ++ [l] → Forall plain mid → Forall plain rs → rs ≠ [] → l ≠ dotdot →
  rev rs `suffix_of` enter (rev mid) l → ∃ t, with_slash s = join ([] :: rs) ++ SLASH :: t.
Proof.
  intros Hs Hmid Hrs Hne Hl Hsuf. rewrite <- (join_comps s), Hs.
  assert (rs `prefix_of` mid ∨ rs = mid ++ [l] ∧ l ≠ []) as [[k ->]|[-> Hl']].
  { assert (∀ k, rev mid = k ++ rev rs → rs `prefix_of` mid) as Hpre.
    { intros k Hk. exists (rev k). rewrite <- (rev_involutive mid), Hk.
      by rewrite rev_app_distr, rev_involutive. }
    unfold enter in Hsuf. destruct (_ || _) eqn:El.
    - left. destruct Hsuf as [k Hk]. by apply (Hpre k).
    - apply orb_false_iff in El as [El _]. b2p.
      rewrite bool_decide_eq_false_2 in Hsuf by done.
      destruct Hsuf as [[|y k] Hk]; cbn in Hk; [|injection Hk as -> Hk; eauto].
      right. split; [|done]. rewrite <- (rev_involutive rs), <- Hk. cbn.
      by rewrite rev_involutive. }
  - assert (join ([] :: (rs ++ k) ++ [l]) = join ([] :: rs) ++ SLASH :: join (k ++ [l])) as ->.
    { rewrite <- app_assoc, app_comm_cons. apply join_app; [done|by destruct k]. }
    unfold with_slash. destruct (_ || _); [|by eexists]. exists (join (k ++ [l]) ++ [SLASH]).
    by rewrite <- app_assoc.
  - assert (join ([] :: mid ++ [l]) = join ([] :: mid) ++ SLASH :: l) as E.
    { rewrite app_comm_cons. by apply join_app. }
    exists []. rewrite E. apply with_slash_plain; [done|].
    apply (comps_no_slash s). rewrite Hs. set_solver.
Qed.

Lemma below_root_complete root full :
  NUL ∉ root → plain_root root →
  absolute full → [] ∉ inner full → last (comps full) ≠ Some dotdot →
  resolve root `suffix_of` resolve full → below_root root (normalise full) = true.
Proof.
  intros Hn (rs & Hne & Er & Hp) Ha He Hl Hsuf. apply below_root_spec; [done|].
  destruct (normalise_spec full Ha He Hl) as (Hc & Hd & Hr).
  rewrite <- Hr, (resolve_plain_root _ _ Er Hp) in Hsuf.
  rewrite <- (join_comps root), Er.
  destruct (clean_shape _ Hc Hd) as [E|(mid & l & E & Hm & Hld)].
  - unfold resolve in Hsuf. rewrite E in Hsuf. cbn in Hsuf.
    apply suffix_nil_inv in Hsuf. destruct rs as [|r rs]; [done|]. cbn in Hsuf. by apply app_nil in Hsuf as [_ ?].
  - apply (with_slash_prefix _ rs mid l); try assumption. unfold resolve in Hsuf. rewrite E in Hsuf.
    rewrite app_comm_cons, foldl_app in Hsuf.
    change (foldl enter [] ([] :: mid)) with (foldl enter [] mid) in Hsuf.
    rewrite (foldl_enter_plain mid), app_nil_r in Hsuf by done. exact Hsuf.
Qed.

(** ** The check, as the handlers call it *)

Section Check.
Context `{E : Env} `{T : Tun}.

(** What the check looks at: the name below the working directory or the root,
    as the session's working directory is now. *)
Definition checked_path (root p : bytes) (w : world) : bytes :=
  session_path root (text_of (env (hist w) (Fs Getcwd))) p.

Lemma session_real_path_run p w root :
  get_user_root_dir = Ok root →
  ∃ w', session_real_path p w = (Ok (normalise (checked_path root p w)), w').
Proof.
  intros Hr. unfold session_real_path, prepend_session_path_to_filename, checked_path,
    session_path, str_getcwd, ask, lift. rewrite Hr.
  destruct (is_relative p); eexists; reflexivity.
Qed.

(** Without a deny_file setting the check is the comparison. *)
Lemma access_session_check_run p w root :
  get_user_root_dir = Ok root → ts tun "deny_file" = None →
  ∃ w', vsf_access_session_check_file p w =
        (Ok (below_root root (normalise (checked_path root p w))), w').
Proof.
  intros Hr Hd. unfold vsf_access_session_check_file, vsf_access_check_file. rewrite Hd.
  destruct (session_real_path_run p w root Hr) as [w1 H1].
  unfold mbind at 1, M_bind. rewrite H1. unfold lift, mbind, M_bind. rewrite Hr.
  destruct (below_root _ _); by eexists.
Qed.

(** C12: The access check accepts exactly the names that stay below the user's
    root directory. For a root directory in plain form and a name whose full
    path is absolute, has no empty component and does not end in "..",
    [vsf_access_session_check_file] (with no [deny_file] setting) returns 1 if
    and only if the lexical resolution of the full path passes through the
    root. *)
Theorem access_check_exact (p root : bytes) (w : world) :
  get_user_root_dir = Ok root → ts tun "deny_file" = None →
  NUL ∉ root → plain_root root →
  absolute (checked_path root p w) → [] ∉ inner (checked_path root p w) →
  last (comps (checked_path root p w)) ≠ Some dotdot →
  ∃ b w', vsf_access_session_check_file p w = (Ok b, w') ∧
    (b = true ↔ resolve root `suffix_of` resolve (checked_path root p w)).
Proof.
  intros Hr Hd Hn Hp Ha He Hl.
  destruct (access_session_check_run p w root Hr Hd) as [w' H].
  eexists _, w'. split; [exact H|]. split.
  - by apply below_root_sound.
  - by apply below_root_complete.
Qed.

End Check.

(** A site whose users live under /data/100/files. *)
Definition demo_tun : tunables :=
  Tunables ∅ ∅ (<["user_home_dir"%string := Some (lit "/data")]>
    (<["cos_appid"%string := Some (lit "100")]>
    (<["cos_bucket"%string := Some (lit "files")]> ∅))).

Definition demo_root : bytes := lit "/data/100/files".

(** The process works in its root directory. *)
Definition demo_env : Env := λ _ _, answer_with 0 demo_root.

Definition demo_world : world :=
  fresh_world (fresh_session vsf_sysutil_sockaddr_alloc vsf_sysutil_sockaddr_alloc) [].

Lemma access_check_exact_witness :
  ∃ b w', vsf_access_session_check_file (E := demo_env) (T := demo_tun)
            (lit "pub/./a/../b") demo_world = (Ok b, w') ∧
    (b = true ↔ resolve demo_root `suffix_of`
                resolve (checked_path (E := demo_env) demo_root (lit "pub/./a/../b") demo_world)).
Proof.
  apply (access_check_exact (E := demo_env) (T := demo_tun)); try (by vm_compute); try vmdec.
  exists [lit "data"; lit "100"; lit "files"]. split_and!; [done|by vm_compute|].
  repeat constructor; vm_compute; discriminate.
Defined.

(** The access check can be left behind: with the users' root
    /data/100/files, [CWD ..] and [CWD x//../../y] both pass
    [vsf_access_session_check_file], although they resolve to /data/100 and
    /data/100/y, outside the root. A final ".." is never removed, and an empty
    component absorbs one "..". *)
Theorem access_check_escape :
  ∀ p, p ∈ [lit ".."; lit "x//../../y"] →
  ∃ w', vsf_access_session_check_file (E := demo_env) (T := demo_tun) p demo_world = (Ok true, w')
        ∧ ¬ resolve demo_root `suffix_of` resolve (checked_path (E := demo_env) demo_root p demo_world).
Proof.
  intros p Hp. destruct (access_session_check_run (E := demo_env) (T := demo_tun) p demo_world demo_root)
    as [w' H]; [by vm_compute|by vm_compute|].
  exists w'. repeat (apply elem_of_cons in Hp as [->|Hp]); [split|split|by apply elem_of_nil in Hp];
    try (rewrite H; f_equal; by vm_compute); vmdec.
Qed.

Lemma access_check_escape_witness :
  lit ".." ∈ [lit ".."; lit "x//../../y"] ∧
  ∃ w', vsf_access_session_check_file (E := demo_env) (T := demo_tun) (lit "..") demo_world = (Ok true, w')
        ∧ ¬ resolve demo_root `suffix_of` resolve (checked_path (E := demo_env) demo_root (lit "..") demo_world).
Proof. split; [vmdec|]. apply (access_check_escape (lit "..")). vmdec. Defined.
