(* ===== verification/Stops.v ===== *)
(** * Which assertions code can trip

    [bug] reports a broken assertion. The string, address, list and network
    routines have assertions of their own; the code of the control connection
    has no others. [polite φ m]: the run of [m] trips only assertions with a
    message in [φ]. *)

From Stdlib Require Import Init.Byte Strings.Byte.
From Stdlib Require Import ZArith Lia String.
From stdpp Require Import base list numbers option gmap strings.
From S2P Require Import Prelude SysUtil Text StrList IpAddr Filter Tunables Ascii Session CmdIO.
From S2P Require Import Signals Logic Paths.

(** The messages of the shared routines. *)
Definition common_bugs : list string :=
  ["poor buffer accounting in str_netfd_alloc"; "bytes_read > left in str_netfd_alloc";
   "zero str_len in str_netfd_write"; "chars invalid in str_left"; "chars invalid in str_right";
   "invalid indexx in str_mid_to_end"; "bad indexx in str_get_char_at"; "zero or big size";
   "indexx out of range in str_list_get_str"; "bad family"]%string.

Class Fair (φ : bytes → Prop) : Prop := fair_common s : s ∈ common_bugs → φ (lit s).

Definition may_stop (φ : bytes → Prop) (s : stop) : Prop :=
  match s with Bug b => φ b | _ => True end.

Definition polite {A} (φ : bytes → Prop) (m : M A) : Prop :=
  ∀ w, match (m w).1 with Err s => may_stop φ s | Ok _ => True end.

Definition polite_res {A} (φ : bytes → Prop) (r : res A) : Prop :=
  match r with Err s => may_stop φ s | Ok _ => True end.

Section Rules.
Context (φ : bytes → Prop) {A B : Type}.

Lemma polite_ret (a : A) : polite φ (mret a).
Proof. done. Qed.
Lemma polite_bind (m : M A) (k : A → M B) :
  polite φ m → (∀ a, polite φ (k a)) → polite φ (m ≫= k).
Proof.
  intros Hm Hk w. specialize (Hm w). unfold mbind, M_bind. destruct (m w) as [[a|s] w']; [apply Hk|done].
Qed.
Lemma polite_stop s : may_stop φ s → polite φ (stop_with (A := A) s).
Proof. by intros H w. Qed.
Lemma polite_gets (f : vsf_session → A) : polite φ (gets f).
Proof. done. Qed.
Lemma polite_getw (f : world → A) : polite φ (getw f).
Proof. done. Qed.
Lemma polite_lift (r : res A) : polite_res φ r → polite φ (lift r).
Proof. by intros H w. Qed.
Lemma polite_on_parent (m : M A) : polite φ m → polite φ (on_parent m).
Proof.
  intros H w. specialize (H (put_parent (sess w) (put_sess (parent w) w))).
  unfold on_parent. by destruct (m _).
Qed.
Lemma polite_res_bind (r : res A) (k : A → res B) :
  polite_res φ r → (∀ a, polite_res φ (k a)) → polite_res φ (res_bind r k).
Proof. intros Hr Hk. destruct r; cbn; [apply Hk|done]. Qed.

(** A run from a state of the invariant keeps it, or stops politely. *)
Lemma polite_inv I (m : M A) :
  polite φ m → inv I m → hoare I m (λ _, I) (λ s _, may_stop φ s).
Proof.
  intros Hp Hi w Hw. specialize (Hp w). specialize (Hi w Hw). by destruct (m w) as [[a|s] w'].
Qed.

End Rules.

Section Rules.
Context (φ : bytes → Prop).
Lemma polite_when b m : polite φ m → polite φ (when b m).
Proof. by destruct b. Qed.
Lemma polite_upd f : polite φ (upd f).
Proof. done. Qed.
Lemma polite_modw f : polite φ (modw f).
Proof. done. Qed.
Lemma polite_ask `{E : Env} c : polite φ (ask c).
Proof. done. Qed.
End Rules.

Create HintDb polite discriminated.
#[export] Hint Constants Opaque : polite.
#[export] Hint Resolve polite_ret polite_gets polite_getw polite_upd polite_modw polite_ask : polite.

(** A message of the shared routines. *)
Ltac common_msg := apply fair_common; unfold common_bugs; set_solver.

Ltac polite_step :=
  match goal with
  | |- polite _ (mret _) => apply polite_ret
  | |- polite _ (mbug _) => apply polite_stop; first [common_msg | assumption | solve [eauto with polite]]
  | |- polite _ (mdie _) => by apply polite_stop
  | |- polite _ (stop_with _) => by apply polite_stop
  | |- polite _ (lift _) => apply polite_lift
  | |- polite _ (when _ _) => apply polite_when
  | |- polite _ (on_parent _) => apply polite_on_parent
  | |- polite _ (mbind _ _) => apply polite_bind; [|intros ?]
  | |- polite _ (sys _) => unfold sys
  | |- polite _ (do_ _) => unfold do_
  | |- polite _ (must _ _) => unfold must
  | |- polite _ (if ?b then _ else _) => destruct b
  | |- polite _ (match ?x with _ => _ end) => destruct x
  | |- polite _ (let _ := _ in _) => cbv zeta
  | |- polite _ _ => solve [eauto with polite]
  | |- polite_res _ (Ok _) => exact I
  | |- polite_res _ (Err (Die _)) => exact I
  | |- polite_res _ (Err UB) => exact I
  | |- polite_res _ (Err Fuel) => exact I
  | |- polite_res _ (die _) => exact I
  | |- polite_res _ (bug _) => common_msg
  | |- polite_res _ (res_bind _ _) => apply polite_res_bind; [|intros ?]
  | |- polite_res _ (if ?b then _ else _) => destruct b
  | |- polite_res _ (match ?x with _ => _ end) => destruct x
  | |- polite_res _ (let _ := _ in _) => cbv zeta
  | |- polite_res _ _ => solve [eauto with polite]
  end.
Ltac polite_auto := repeat polite_step.

(** ** The pure routines *)

Section Pure.
Context (φ : bytes → Prop) `{F : !Fair φ}.

Lemma polite_left s n : polite_res φ (t_left s n).
Proof. unfold t_left. polite_auto. Qed.
Lemma polite_right s n : polite_res φ (t_right s n).
Proof. unfold t_right. polite_auto. Qed.
Lemma polite_mid s n : polite_res φ (t_mid_to_end s n).
Proof. unfold t_mid_to_end. polite_auto. Qed.
Lemma polite_char_at s n : polite_res φ (t_get_char_at s n).
Proof. unfold t_get_char_at. polite_auto. Qed.
Lemma polite_clone a : polite_res φ (vsf_sysutil_sockaddr_clone a).
Proof. unfold vsf_sysutil_sockaddr_clone. polite_auto. Qed.
Lemma polite_copy r n : polite_res φ (copy_bytes r n).
Proof. unfold copy_bytes. polite_auto. Qed.
#[local] Hint Resolve polite_copy polite_left polite_right polite_mid polite_char_at : polite.
Lemma polite_set4 a r : polite_res φ (vsf_sysutil_sockaddr_set_ipv4addr a r).
Proof. unfold vsf_sysutil_sockaddr_set_ipv4addr. polite_auto. Qed.
Lemma polite_set6 a r : polite_res φ (vsf_sysutil_sockaddr_set_ipv6addr a r).
Proof. unfold vsf_sysutil_sockaddr_set_ipv6addr. polite_auto. Qed.
Lemma polite_get_port a : polite_res φ (vsf_sysutil_sockaddr_get_port a).
Proof. unfold vsf_sysutil_sockaddr_get_port. polite_auto. Qed.
Lemma polite_set_port a p : polite_res φ (vsf_sysutil_sockaddr_set_port a p).
Proof. unfold vsf_sysutil_sockaddr_set_port. polite_auto. Qed.
Lemma polite_list_add l s k : polite_res φ (str_list_add l s k).
Proof. unfold str_list_add, alloc_ok. polite_auto. Qed.

Lemma polite_brace try f n b t it :
  (∀ g i, polite_res φ (try g i)) → polite_res φ (brace_loop try f n b t it).
Proof.
  intros Ht. revert b t it. induction n as [|n IH]; intros b t it; cbn [brace_loop]; polite_auto;
    try apply Ht; try apply IH.
Qed.
Lemma polite_filter n name f it last must : polite_res φ (filter_loop n name f it last must).
Proof.
  revert name f it last must. induction n as [|n IH]; intros; cbn [filter_loop]; [done|].
  polite_auto; try apply IH. by apply polite_brace.
Qed.
Lemma polite_passes_filter name f : polite_res φ (vsf_filename_passes_filter name f 0).
Proof. apply polite_filter. Qed.
Lemma polite_check_filter c d f : polite_res φ (check_filter c d f).
Proof.
  unfold check_filter. pose proof (polite_passes_filter f (if isempty c then cstr d else c)) as H.
  by destruct (vsf_filename_passes_filter _ _ _) as [[[] ?]|s].
Qed.

Lemma polite_arr_get p i : polite_res φ (arr_get p i).
Proof. unfold arr_get. polite_auto. Qed.
Lemma polite_arr_set p i c : polite_res φ (arr_set p i c).
Proof. unfold arr_set. polite_auto. Qed.
#[local] Hint Resolve polite_arr_get polite_arr_set : polite.
Lemma polite_b2a p o n c b : polite_res φ (bin_to_ascii_loop p o n c b).
Proof. revert o n c b. induction p as [|x p IH]; intros; cbn [bin_to_ascii_loop]; polite_auto; apply IH. Qed.
Lemma polite_bin_to_ascii p o b : polite_res φ (vsf_ascii_bin_to_ascii p o b).
Proof. unfold vsf_ascii_bin_to_ascii. polite_auto; apply polite_b2a. Qed.
Lemma polite_a2b n len i p o wr b : polite_res φ (ascii_to_bin_loop n len i p o wr b).
Proof.
  revert i p o wr b. induction n as [|n IH]; intros; cbn [ascii_to_bin_loop]; polite_auto; apply IH.
Qed.
#[local] Hint Resolve polite_a2b : polite.
Lemma polite_ascii_to_bin p n b : polite_res φ (vsf_ascii_ascii_to_bin p n b).
Proof. unfold vsf_ascii_ascii_to_bin. polite_auto. Qed.
Lemma polite_root `{T : Tun} : polite_res φ get_user_root_dir.
Proof. unfold get_user_root_dir. polite_auto. Qed.
End Pure.
#[export] Hint Resolve polite_char_at polite_clone polite_set4 polite_set6 polite_get_port polite_set_port
  polite_list_add polite_check_filter polite_bin_to_ascii polite_ascii_to_bin polite_root : polite.

(** ** The control connection *)

Section Control.
Context `{E : Env} `{P : Pend} `{T : Tun} (φ : bytes → Prop) `{F : !Fair φ}.
Context (HP : ∀ ctx, polite φ (check_pending ctx)).
#[local] Hint Resolve HP : polite.

Lemma polite_write fd b : polite φ (vsf_sysutil_write fd b).
Proof. unfold vsf_sysutil_write. polite_auto. Qed.
#[local] Hint Resolve polite_write : polite.
Lemma polite_write_loop_fuel n fd b k : polite φ (write_loop n fd b k).
Proof. revert b k. induction n as [|n IH]; intros; cbn [write_loop]; polite_auto; apply IH. Qed.
#[local] Hint Resolve polite_write_loop_fuel : polite.
Lemma polite_write_loop fd b : polite φ (vsf_sysutil_write_loop fd b).
Proof. unfold vsf_sysutil_write_loop. polite_auto. Qed.
Lemma polite_recv_peek n : polite φ (vsf_sysutil_recv_peek n).
Proof. unfold vsf_sysutil_recv_peek. polite_auto. Qed.
Lemma polite_read_control n : polite φ (vsf_sysutil_read_control n).
Proof. unfold vsf_sysutil_read_control. polite_auto. Qed.
#[local] Hint Resolve polite_write_loop polite_recv_peek polite_read_control : polite.
Lemma polite_read_loop_fuel n size b : polite φ (read_loop vsf_sysutil_read_control n size b).
Proof. revert size b. induction n as [|n IH]; intros; cbn [read_loop]; polite_auto; apply IH. Qed.
#[local] Hint Resolve polite_read_loop_fuel : polite.
Lemma polite_read_loop n : polite φ (vsf_sysutil_read_loop vsf_sysutil_read_control n).
Proof. unfold vsf_sysutil_read_loop. polite_auto. Qed.
Lemma polite_close fd : polite φ (vsf_sysutil_close fd).
Proof. unfold vsf_sysutil_close. polite_auto. Qed.
Lemma polite_sleep n : polite φ (vsf_sysutil_sleep n).
Proof. unfold vsf_sysutil_sleep. polite_auto. Qed.
Lemma polite_lock fd b : polite φ (lock_file_write fd b).
Proof. unfold lock_file_write. polite_auto. Qed.
Lemma polite_fstat fd : polite φ (vsf_sysutil_fstat fd).
Proof. unfold vsf_sysutil_fstat. polite_auto. Qed.
#[local] Hint Resolve polite_read_loop polite_close polite_sleep polite_lock : polite.
Lemma polite_netfd_loop n term len peek read b left :
  (∀ z, polite φ (peek z)) → (∀ z, polite φ (read z)) →
  polite φ (netfd_loop n term len peek read b left).
Proof.
  intros Hp Hr. revert b left.
  induction n as [|n IH]; intros b left; cbn [netfd_loop]; polite_auto; auto.
Qed.
Lemma polite_netfd_alloc term len peek read :
  (∀ z, polite φ (peek z)) → (∀ z, polite φ (read z)) →
  polite φ (str_netfd_alloc term len peek read).
Proof. apply polite_netfd_loop. Qed.
Lemma polite_netfd_write s fd : polite φ (str_netfd_write s fd).
Proof. unfold str_netfd_write. polite_auto. Qed.
#[local] Hint Resolve polite_netfd_write : polite.
Lemma polite_ftp_write_str s t : polite φ (ftp_write_str s t).
Proof. unfold ftp_write_str. polite_auto. Qed.
Lemma polite_sysutil_read fd n : polite φ (vsf_sysutil_read fd n).
Proof. unfold vsf_sysutil_read. polite_auto. Qed.
#[local] Hint Resolve polite_ftp_write_str polite_sysutil_read : polite.
Lemma polite_ftp_read_data n : polite φ (ftp_read_data n).
Proof. unfold ftp_read_data. polite_auto. Qed.
Lemma polite_ftp_write_data s : polite φ (ftp_write_data s).
Proof. unfold ftp_write_data. polite_auto. Qed.
Lemma polite_adapter f n : polite φ (ssl_adapter f n).
Proof. unfold ssl_adapter. polite_auto. Qed.
#[local] Hint Resolve polite_adapter : polite.
Lemma polite_getline : polite φ ftp_getline.
Proof. unfold ftp_getline. polite_auto; apply polite_netfd_alloc; auto with polite. Qed.
#[local] Hint Resolve polite_getline : polite.

Lemma polite_log_to_file fd s : polite φ (vsf_log_do_log_to_file fd s).
Proof. unfold vsf_log_do_log_to_file. polite_auto. Qed.
Lemma polite_wuftpd b : polite φ (vsf_log_do_log_wuftpd_format b).
Proof. unfold vsf_log_do_log_wuftpd_format. polite_auto. Qed.
Lemma polite_log_rate s : polite φ (log_rate s).
Proof. unfold log_rate. polite_auto. Qed.
#[local] Hint Resolve polite_log_to_file polite_wuftpd polite_log_rate : polite.
(** A known kind of entry. *)
Lemma polite_vsftpd b what s : log_action what ≠ None → polite φ (vsf_log_do_log_vsftpd_format b what s).
Proof.
  intros Hw. unfold vsf_log_do_log_vsftpd_format. destruct (log_action what); [|done]. polite_auto.
Qed.
Lemma polite_log_common b what s : log_action what ≠ None → polite φ (vsf_log_common b what s).
Proof. intros Hw. pose proof (polite_vsftpd b what s Hw). unfold vsf_log_common. polite_auto. Qed.
Lemma polite_log_line what s : what ≠ kVSFLogEntryNull → polite φ (vsf_log_line what s).
Proof. intros Hw. apply polite_log_common. by destruct what. Qed.
#[local] Hint Extern 1 (polite _ (vsf_log_line _ _)) => by apply polite_log_line : polite.
Lemma polite_write_str_common st sep s : polite φ (ftp_write_str_common st sep s).
Proof. unfold ftp_write_str_common. polite_auto. Qed.
#[local] Hint Resolve polite_write_str_common : polite.
Lemma polite_cmdio_write st t : polite φ (vsf_cmdio_write st t).
Proof. apply polite_write_str_common. Qed.
Lemma polite_cmdio_write_hyphen st t : polite φ (vsf_cmdio_write_hyphen st t).
Proof. apply polite_write_str_common. Qed.
Lemma polite_cmdio_write_str st t : polite φ (vsf_cmdio_write_str st t).
Proof. apply polite_write_str_common. Qed.
Lemma polite_cmdio_write_str_hyphen st t : polite φ (vsf_cmdio_write_str_hyphen st t).
Proof. apply polite_write_str_common. Qed.
Lemma polite_cmdio_write_raw t : polite φ (vsf_cmdio_write_raw t).
Proof. unfold vsf_cmdio_write_raw. polite_auto. Qed.
#[local] Hint Resolve polite_cmdio_write polite_cmdio_write_hyphen polite_cmdio_write_str
  polite_cmdio_write_str_hyphen polite_cmdio_write_raw : polite.
Lemma polite_cmdio_write_exit {A} st t v : polite φ (vsf_cmdio_write_exit (A := A) st t v).
Proof. unfold vsf_cmdio_write_exit. polite_auto. Qed.
#[local] Hint Resolve polite_cmdio_write_exit : polite.
Lemma polite_set_alarm : polite φ vsf_cmdio_set_alarm.
Proof. unfold vsf_cmdio_set_alarm. polite_auto. Qed.
Lemma polite_control_getline : polite φ control_getline.
Proof. unfold control_getline. polite_auto. Qed.
#[local] Hint Resolve polite_set_alarm polite_control_getline : polite.
Lemma polite_get_cmd_and_arg b : polite φ (vsf_cmdio_get_cmd_and_arg b).
Proof. unfold vsf_cmdio_get_cmd_and_arg. polite_auto. Qed.
Lemma polite_write_lines l c : polite φ (write_lines l c).
Proof. induction l as [|x l IH]; cbn [write_lines]; polite_auto. Qed.
Lemma polite_banner_write s c : polite φ (vsf_banner_write s c).
Proof. apply polite_write_lines. Qed.
Lemma polite_getcwd : polite φ str_getcwd.
Proof. unfold str_getcwd. polite_auto. Qed.
#[local] Hint Resolve polite_get_cmd_and_arg polite_banner_write polite_getcwd : polite.
Lemma polite_dir_changed c : polite φ (vsf_banner_dir_changed c).
Proof. unfold vsf_banner_dir_changed. polite_auto. Qed.
Lemma polite_raw_line t : polite φ (raw_line t).
Proof. unfold raw_line. polite_auto. Qed.
#[local] Hint Resolve polite_raw_line : polite.
Lemma polite_feat : polite φ handle_feat.
Proof. unfold handle_feat. polite_auto. Qed.
Lemma polite_opts : polite φ handle_opts.
Proof. unfold handle_opts. polite_auto. Qed.
Lemma polite_start_data_alarm : polite φ start_data_alarm.
Proof. unfold start_data_alarm. polite_auto. Qed.
#[local] Hint Resolve polite_start_data_alarm : polite.
Lemma polite_run_signal x : polite φ (run_signal x).
Proof.
  unfold run_signal, run_alarm, handle_alarm_timeout, handle_sigalrm, handle_sigterm, handle_sigurg.
  polite_auto.
Qed.
#[local] Hint Resolve polite_run_signal : polite.
Lemma polite_run_signals l : polite φ (run_signals l).
Proof. induction l as [|x l IH]; cbn [run_signals]; polite_auto. Qed.
Lemma polite_handle_io r fd : polite φ (handle_io r fd).
Proof. unfold handle_io. polite_auto. Qed.
#[local] Hint Resolve polite_run_signals polite_handle_io : polite.
Lemma polite_pending ctx : polite φ (pending_actions ctx).
Proof. unfold pending_actions, run_io_handler. polite_auto. Qed.
End Control.

(** The handlers that run while a session waits. *)
Lemma polite_check_pending `{E : Env} `{T : Tun} (φ : bytes → Prop) `{F : !Fair φ} ctx :
  polite φ (check_pending ctx).
Proof.
  unfold check_pending, vsf_sysutil_check_pending_actions.
  assert (∀ n c, polite φ (check_pending_at n c)) as H; [|apply H].
  intros n; induction n as [|n IH]; intros c; cbn [check_pending_at]; [done|].
  apply (polite_pending (P := check_pending_at n)); auto.
Qed.

#[export] Hint Resolve polite_check_pending polite_write_loop polite_close polite_sleep polite_lock
  polite_fstat polite_ftp_write_str polite_ftp_read_data polite_ftp_write_data polite_getline
  polite_cmdio_write polite_cmdio_write_hyphen polite_cmdio_write_str
  polite_cmdio_write_str_hyphen polite_cmdio_write_raw polite_cmdio_write_exit polite_set_alarm
  polite_get_cmd_and_arg polite_banner_write polite_getcwd polite_dir_changed polite_feat
  polite_opts polite_start_data_alarm polite_netfd_write : polite.
#[export] Hint Extern 1 (polite _ (vsf_log_line _ _)) =>
  (apply polite_log_line; [intros ?; apply polite_check_pending; exact _|done]) : polite.
#[export] Hint Extern 0 (Fair _) => exact _ : polite.

(** ** Names and paths *)

Section Paths.
Context `{E : Env} `{T : Tun} (φ : bytes → Prop) `{F : !Fair φ}.

Lemma polite_prepend s : polite φ (prepend_path_to_filename s).
Proof. unfold prepend_path_to_filename. polite_auto. Qed.
Lemma polite_session_prepend s : polite φ (prepend_session_path_to_filename s).
Proof. unfold prepend_session_path_to_filename. polite_auto. Qed.
#[local] Hint Resolve polite_prepend polite_session_prepend : polite.
Lemma polite_session_real_path s : polite φ (session_real_path s).
Proof. unfold session_real_path. polite_auto. Qed.
Lemma polite_access_file s : polite φ (vsf_access_check_file s).
Proof. unfold vsf_access_check_file. polite_auto. Qed.
Lemma polite_access_visible s : polite φ (vsf_access_check_file_visible s).
Proof. unfold vsf_access_check_file_visible. polite_auto. Qed.
#[local] Hint Resolve polite_session_real_path polite_access_file : polite.
Lemma polite_access s : polite φ (vsf_access_session_check_file s).
Proof. unfold vsf_access_session_check_file. polite_auto. Qed.
Lemma polite_tilde s : polite φ (resolve_tilde s).
Proof. unfold resolve_tilde. polite_auto. Qed.
Lemma polite_mkdirs n d m : polite φ (str_mkdirs n d m).
Proof. revert d. induction n as [|n IH]; intros; cbn [str_mkdirs]; polite_auto; apply IH. Qed.
Lemma polite_session_getcwd : polite φ str_session_getcwd.
Proof. unfold str_session_getcwd. polite_auto. Qed.
End Paths.
#[export] Hint Resolve polite_prepend polite_session_prepend polite_access polite_access_visible
  polite_access_file polite_tilde polite_mkdirs polite_session_getcwd polite_session_real_path : polite.
