(* ===== verification/FileStr.v ===== *)
(** * Guarded buffers and whole-file reads

    secbuf.c and filestr.c. The buffers that the program reads into end at a page
    that cannot be accessed; [str_fileread] reads a file into one. The memory
    calls of the kernel are the interface [Vm]. *)

From Stdlib Require Import Init.Byte Strings.Byte.
From Stdlib Require Import ZArith Lia String.
From stdpp Require Import base list numbers option gmap strings.
From S2P Require Import Prelude SysUtil Text IpAddr Tunables Session CmdIO.
From S2P Require Import Signals Logic Traffic.
Import ResNotations.

(** ** Memory *)

Inductive prot := ProtNone | ProtReadOnly | ProtReadWrite.

#[global] Instance prot_eq_dec : EqDecision prot.
Proof. solve_decision. Defined.

(** mmap, mprotect and munmap, and an [unsigned int] in memory. [vm_prot] is the
    protection of the byte at an address, if it is mapped. *)
Class Vm := {
  memory : Type;
  page_size : Z;
  vm_prot : memory → Z → option prot;
  vm_word : memory → Z → Z;
  vm_map : Z → memory → option (Z * memory);
  vm_protect : Z → Z → prot → memory → option memory;
  vm_unmap : Z → Z → memory → option memory;
  vm_write : Z → Z → memory → memory
}.

(** The byte at [x] is one of the [len] bytes from [a] on. *)
Definition inside (a len x : Z) : bool := (a <=? x) && (x <? a + len).

(** What the kernel documents, for lengths that are multiples of the page size:
    a new mapping is aligned, fresh, below 2^64 and not at 0; mprotect and munmap
    succeed on mapped pages and change nothing else. *)
Class VmLaws `{Vm} : Prop := {
  page_range : 4 ≤ page_size < 2 ^ 30;
  map_law len m a m' : 0 ≤ len → len mod page_size = 0 → vm_map len m = Some (a, m') →
    a mod page_size = 0 ∧ 0 < a ∧ a + len < 2 ^ 64 ∧
    ∀ x, vm_prot m' x = (if inside a len x then Some ProtReadWrite else vm_prot m x) ∧
         (inside a len x = true → vm_prot m x = None);
  protect_law a len p m : 0 ≤ len → a mod page_size = 0 → len mod page_size = 0 →
    (∀ x, inside a len x = true → vm_prot m x ≠ None) →
    ∃ m', vm_protect a len p m = Some m' ∧
      ∀ x, vm_prot m' x = (if inside a len x then Some p else vm_prot m x) ∧
           vm_word m' x = vm_word m x;
  unmap_law a len m : 0 ≤ len → a mod page_size = 0 → len mod page_size = 0 →
    ∃ m', vm_unmap a len m = Some m' ∧
      ∀ x, vm_prot m' x = if inside a len x then None else vm_prot m x;
  write_law a v m : vm_word (vm_write a v m) a = v ∧ ∀ x, vm_prot (vm_write a v m) x = vm_prot m x
}.

(** ** secbuf.c *)

Section SecBuf.
Context `{V : Vm}.

Definition vsf_sysutil_getpagesize : res Z :=
  if page_size =? 0 then die "getpagesize" else Ok page_size.

Definition vsf_sysutil_map_anon_pages (length : Z) (m : memory) : res (Z * memory) :=
  match vm_map length m with None => die "mmap" | Some r => Ok r end.

Definition vsf_sysutil_memprotect (p_addr len : Z) (perm : prot) (m : memory) : res memory :=
  match vm_protect p_addr len perm m with None => die "mprotect" | Some m => Ok m end.

Definition vsf_sysutil_memunmap (p_start length : Z) (m : memory) : res memory :=
  match vm_unmap p_start length m with None => die "munmap" | Some m => Ok m end.

(** An access to the [unsigned int] at [p]. *)
Definition accessible (p : Z) (write : bool) (m : memory) : bool :=
  forallb (λ i, match vm_prot m (p + i) with
                | Some ProtReadWrite => true
                | Some ProtReadOnly => negb write
                | _ => false
                end) [0; 1; 2; 3].

Definition load_uint (p : Z) (m : memory) : res Z :=
  if accessible p false m then Ok (vm_word m p) else Err UB.

Definition store_uint (p v : Z) (m : memory) : res memory :=
  if accessible p true m then Ok (vm_write p v m) else Err UB.

Definition vsf_secbuf_free (p_mmap : Z) (m : memory) : res memory :=
  let* page_size := vsf_sysutil_getpagesize in
  if p_mmap =? 0 then Ok m
  else
    let page_offset := p_mmap mod page_size in
    let p_mmap := if negb (page_offset =? 0) then p_mmap - page_offset else p_mmap in
    let p_mmap := p_mmap - page_size in
    let* m := vsf_sysutil_memprotect p_mmap page_size ProtReadOnly m in
    let* map_size := load_uint p_mmap m in
    vsf_sysutil_memunmap p_mmap map_size m.

(** How much is mapped for a buffer: whole pages and two more. *)
Definition secbuf_round_up (page_size size : Z) : Z :=
  let page_offset := size mod page_size in
  let round_up := if negb (page_offset =? 0) then u32 (u32 (size / page_size + 1) * page_size)
                  else size in
  u32 (round_up + u32 (page_size * 2)).

(** [p] is the buffer that the pointer holds so far. *)
Definition vsf_secbuf_alloc (p size : Z) (m : memory) : res (Z * memory) :=
  let* page_size := vsf_sysutil_getpagesize in
  let* m := vsf_secbuf_free p m in
  let page_offset := size mod page_size in
  let round_up := secbuf_round_up page_size size in
  let* (p_mmap, m) := vsf_sysutil_map_anon_pages round_up m in
  let p_no_access_page := p_mmap + round_up - page_size in
  let* m := vsf_sysutil_memprotect p_no_access_page page_size ProtNone m in
  let* m := store_uint p_mmap round_up m in
  let* m := vsf_sysutil_memprotect p_mmap page_size ProtNone m in
  let p_mmap := p_mmap + page_size in
  Ok (if negb (page_offset =? 0) then p_mmap + (page_size - page_offset) else p_mmap, m).

Context `{L : !VmLaws}.
Implicit Types m : memory.
Abbreviation PG := (page_size (Vm := V)).

Lemma round_up_exact size : 0 ≤ size → size + 3 * PG ≤ UINT_MOD →
  ∃ k, 0 ≤ k ∧ secbuf_round_up PG size = (k + 2) * PG ∧
    if size mod PG =? 0 then size = k * PG else size = k * PG - (PG - size mod PG).
Proof.
  pose proof page_range. pose proof (Z.div_mod size PG ltac:(lia)) as Hd.
  pose proof (Z.mod_pos_bound size PG ltac:(lia)). intros Hsize Hmax.
  assert (0 ≤ size / PG) by (apply Z.div_pos; lia).
  unfold secbuf_round_up, UINT_MOD in *. destruct (size mod PG =? 0) eqn:Ho; cbn [negb]; b2p.
  - exists (size / PG). rewrite (u32_small (PG * 2)), u32_small by (unfold UINT_MOD; lia). lia.
  - exists (size / PG + 1). assert ((size / PG + 1) * PG < size + PG) by nia.
    rewrite (u32_small (PG * 2)), (u32_small (size / PG + 1)), (u32_small (_ * _)), u32_small
      by (unfold UINT_MOD; nia).
    split_and!; lia.
Qed.

Lemma accessible_write m p a len :
  (∀ x, inside a len x = true → vm_prot m x = Some ProtReadWrite) →
  a ≤ p → p + 4 ≤ a + len → accessible p true m = true.
Proof.
  intros H Hl Hh. unfold accessible. cbn [forallb].
  rewrite !H by (unfold inside; ztest; done). done.
Qed.

Lemma accessible_read m p a len :
  (∀ x, inside a len x = true → vm_prot m x = Some ProtReadOnly) →
  a ≤ p → p + 4 ≤ a + len → accessible p false m = true.
Proof.
  intros H Hl Hh. unfold accessible. cbn [forallb].
  rewrite !H by (unfold inside; ztest; done). done.
Qed.

(** A protection change on a page that is mapped. *)
Lemma memprotect_ok a p m :
  a mod PG = 0 → (∀ x, inside a PG x = true → vm_prot m x ≠ None) →
  ∃ m', vsf_sysutil_memprotect a PG p m = Ok m' ∧
    ∀ x, vm_prot m' x = (if inside a PG x then Some p else vm_prot m x) ∧
         vm_word m' x = vm_word m x.
Proof.
  intros Ha Hm. pose proof page_range. unfold vsf_sysutil_memprotect.
  destruct (protect_law a PG p m) as (m' & -> & H'); [lia|done|by apply Z.mod_same; lia|done|].
  by exists m'.
Qed.

(** The mapping of a buffer: between two pages that cannot be accessed, with its
    length at its start. *)
Record buffer_at (m0 m : memory) (a k : Z) : Prop := {
  buffer_pos : 0 < a ∧ 0 ≤ k;
  buffer_aligned : a mod PG = 0;
  buffer_word : vm_word m a = (k + 2) * PG;
  buffer_fresh x : inside a ((k + 2) * PG) x = true → vm_prot m0 x = None;
  buffer_prot x : vm_prot m x =
    if inside a PG x then Some ProtNone
    else if inside (a + (k + 1) * PG) PG x then Some ProtNone
    else if inside a ((k + 2) * PG) x then Some ProtReadWrite else vm_prot m0 x
}.

Ltac inside_tac := unfold inside; ztest; cbn [andb]; done.

Lemma page_start a p : a mod PG = 0 → 0 ≤ p - (a + PG) < PG → p mod PG = p - (a + PG).
Proof.
  intros Ha Hb. pose proof page_range. pose proof (Z.div_mod a PG ltac:(lia)).
  replace p with ((p - (a + PG)) + (a / PG + 1) * PG) at 1 by lia.
  rewrite Z.mod_add by lia. by apply Z.mod_small.
Qed.

Lemma alloc_buffer size m p m' :
  0 ≤ size → size + 3 * PG ≤ UINT_MOD → vsf_secbuf_alloc 0 size m = Ok (p, m') →
  ∃ a k, buffer_at m m' a k ∧ p + size = a + (k + 1) * PG ∧ 0 ≤ p - (a + PG) < PG.
Proof.
  intros Hsize Hmax. pose proof page_range. destruct (round_up_exact size) as (k & Hk & HR & Hs); [done..|].
  assert (((k + 2) * PG) mod PG = 0) as HkP by (by rewrite Z.mod_mul by lia).
  unfold vsf_secbuf_alloc, vsf_secbuf_free, vsf_sysutil_getpagesize.
  destruct (PG =? 0) eqn:?; b2p; [lia|]. cbn [res_bind Z.eqb]. cbv zeta. rewrite HR.
  unfold vsf_sysutil_map_anon_pages.
  destruct (vm_map _ m) as [[a m1]|] eqn:Hmap; [cbn [res_bind]|done].
  apply map_law in Hmap as (Ha & Hpos & _ & Hm1); [|nia|done].
  replace (a + (k + 2) * PG - PG) with (a + (k + 1) * PG) by lia.
  destruct (memprotect_ok (a + (k + 1) * PG) ProtNone m1) as (m2 & -> & Hm2).
  { rewrite Z.mod_add by lia. done. }
  { intros x Hx. rewrite (proj1 (Hm1 x)). unfold inside in *. b2p. ztest. done. }
  cbn [res_bind]. unfold store_uint.
  rewrite (accessible_write m2 a a PG); [cbn [res_bind]| |lia..].
  2:{ intros x Hx. rewrite (proj1 (Hm2 x)), (proj1 (Hm1 x)). unfold inside in *. b2p. ztest. done. }
  set (m3 := vm_write _ _ m2). destruct (write_law a ((k + 2) * PG) m2) as [Hw3 Hm3].
  destruct (memprotect_ok a ProtNone m3) as (m4 & -> & Hm4); [done| |].
  { intros x Hx. unfold m3. rewrite Hm3, (proj1 (Hm2 x)), (proj1 (Hm1 x)).
    unfold inside in *. b2p. ztest. done. }
  intros [= <- <-]. exists a, k. split; [split|].
  - done.
  - done.
  - rewrite (proj2 (Hm4 a)). exact Hw3.
  - intros x. apply (Hm1 x).
  - intros x. rewrite (proj1 (Hm4 x)). unfold m3. by rewrite Hm3, (proj1 (Hm2 x)), (proj1 (Hm1 x)).
  - pose proof (Z.mod_pos_bound size PG ltac:(lia)).
    destruct (size mod PG =? 0) eqn:?; cbn [negb]; b2p; lia.
Qed.

(** Freeing gives back the whole mapping and nothing else. *)
Lemma free_buffer m0 m a k p :
  buffer_at m0 m a k → 0 ≤ p - (a + PG) < PG →
  ∃ m', vsf_secbuf_free p m = Ok m' ∧ ∀ x, vm_prot m' x = vm_prot m0 x.
Proof.
  intros [[Hpos Hk] Ha Hw Hf Hp] Hb. pose proof page_range.
  unfold vsf_secbuf_free, vsf_sysutil_getpagesize.
  destruct (PG =? 0) eqn:?; b2p; [lia|]. cbn [res_bind]. destruct (p =? 0) eqn:?; b2p; [lia|].
  cbv zeta. set (q := if negb _ then _ else _).
  assert (q = a + PG) as ->.
  { pose proof (page_start a p Ha Hb). subst q. destruct (p mod PG =? 0) eqn:?; cbn [negb]; b2p; lia. }
  replace (a + PG - PG) with a by lia.
  destruct (memprotect_ok a ProtReadOnly m) as (m1 & -> & Hm1); [done| |].
  { intros x Hx. by rewrite Hp, Hx. }
  cbn [res_bind]. unfold load_uint.
  rewrite (accessible_read m1 a a PG); [|intros x Hx; by rewrite (proj1 (Hm1 x)), Hx|lia..].
  cbn [res_bind]. rewrite (proj2 (Hm1 a)), Hw. unfold vsf_sysutil_memunmap.
  destruct (unmap_law a ((k + 2) * PG) m1) as (m2 & -> & Hm2);
    [nia|done|by rewrite Z.mod_mul by lia|].
  exists m2. split; [done|]. intros x. rewrite Hm2, (proj1 (Hm1 x)), Hp.
  specialize (Hf x). unfold inside in *. destruct (_ && _) eqn:Hx; [by rewrite Hf|].
  repeat case_match; b2p; try done; exfalso; apply andb_false_iff in Hx as [Hx|Hx]; b2p; nia.
Qed.


End SecBuf.

(** *** A memory with these laws

    Pages of 4096 bytes, mapped one after the other. *)

Record flat := Flat { f_next : Z; f_pages : gmap Z prot; f_words : gmap Z Z }.

Definition PAGE : Z := 4096.

Fixpoint set_pages (k : nat) (n : Z) (v : option prot) (ps : gmap Z prot) : gmap Z prot :=
  match k with
  | O => ps
  | S k' => partial_alter (λ _, v) n (set_pages k' (n + 1) v ps)
  end.

Definition all_pages (f : option prot → bool) (n k : Z) (ps : gmap Z prot) : bool :=
  forallb (λ i, f (ps !! i)) (seqZ n k).

Definition flat_set (a len : Z) (v : option prot) (m : flat) : flat :=
  Flat (f_next m) (set_pages (Z.to_nat (len / PAGE)) (a / PAGE) v (f_pages m)) (f_words m).

Definition is_none {A} (o : option A) : bool := match o with None => true | _ => false end.

Definition flat_map (len : Z) (m : flat) : option (Z * flat) :=
  let n := f_next m in
  if (0 <? n) && (n * PAGE + len <? 2 ^ 64) && all_pages is_none n (len / PAGE) (f_pages m)
  then Some (n * PAGE, Flat (n + len / PAGE) (f_pages (flat_set (n * PAGE) len (Some ProtReadWrite) m))
                         (f_words m))
  else None.

#[global] Instance flat_vm : Vm := {
  memory := flat;
  page_size := PAGE;
  vm_prot m x := f_pages m !! (x / PAGE);
  vm_word m x := default 0 (f_words m !! x);
  vm_map := flat_map;
  vm_protect a len p m :=
    if all_pages (negb ∘ is_none) (a / PAGE) (len / PAGE) (f_pages m)
    then Some (flat_set a len (Some p) m) else None;
  vm_unmap a len m := Some (flat_set a len None m);
  vm_write a v m := Flat (f_next m) (f_pages m) (<[a := v]> (f_words m))
}.

Lemma lookup_set_pages k n v ps i :
  set_pages k n v ps !! i = if (n <=? i) && (i <? n + Z.of_nat k) then v else ps !! i.
Proof.
  revert n. induction k as [|k IH]; intros n; cbn [set_pages].
  - destruct (n <=? i) eqn:?; cbn [andb]; [|done]. b2p. ztest. done.
  - destruct (decide (i = n)) as [->|Hn].
    + rewrite lookup_partial_alter_eq. ztest. done.
    + rewrite lookup_partial_alter_ne, IH by done. destruct (n <=? i) eqn:?; b2p; ztest; cbn [andb].
      * destruct (i <? n + 1 + Z.of_nat k) eqn:?; b2p; ztest; done.
      * done.
Qed.

Lemma inside_pages a len x : a mod PAGE = 0 → len mod PAGE = 0 → 0 ≤ len →
  inside a len x = (a / PAGE <=? x / PAGE) && (x / PAGE <? a / PAGE + len / PAGE).
Proof.
  unfold inside, PAGE. intros. pose proof (Z.div_mod x 4096 ltac:(lia)).
  pose proof (Z.mod_pos_bound x 4096 ltac:(lia)).
  pose proof (Z.div_mod a 4096 ltac:(lia)). pose proof (Z.div_mod len 4096 ltac:(lia)).
  f_equal; apply eq_true_iff_eq; rewrite ?Z.leb_le, ?Z.ltb_lt; lia.
Qed.

Lemma flat_set_prot a len v m x : a mod PAGE = 0 → len mod PAGE = 0 → 0 ≤ len →
  f_pages (flat_set a len v m) !! (x / PAGE) =
  if inside a len x then v else f_pages m !! (x / PAGE).
Proof.
  intros Ha Hl Hp. cbn [flat_set f_pages]. rewrite lookup_set_pages, (inside_pages a) by done.
  rewrite Z2Nat.id; [done|]. apply Z.div_pos; [done|]. unfold PAGE. lia.
Qed.

Lemma all_pages_inside f a len (m : flat) : a mod PAGE = 0 → len mod PAGE = 0 → 0 ≤ len →
  all_pages f (a / PAGE) (len / PAGE) (f_pages m) = true ↔
  ∀ x, inside a len x = true → f (f_pages m !! (x / PAGE)) = true.
Proof.
  intros Ha Hl Hp. unfold all_pages. rewrite forallb_forall. split.
  - intros H x Hx. apply H. apply list_elem_of_In, elem_of_seqZ. rewrite inside_pages in Hx by done.
    b2p. lia.
  - intros H i Hi. apply list_elem_of_In, elem_of_seqZ in Hi.
    assert (i * PAGE / PAGE = i) as Hd by (apply Z.div_mul; unfold PAGE; lia).
    specialize (H (i * PAGE)). rewrite Hd in H. apply H. rewrite inside_pages by done.
    rewrite Hd. ztest. done.
Qed.

#[global] Instance flat_laws : VmLaws (H := flat_vm).
Proof.
  split; cbn.
  - unfold PAGE. lia.
  - intros len m a m' Hp Hl. unfold flat_map. destruct (_ && _) eqn:E; [|done].
    intros [= <- <-]. b2p. cbn. assert (f_next m * PAGE mod PAGE = 0) as Ha by (by apply Z.mod_mul).
    split_and!; [done|unfold PAGE; lia|lia|]. intros x. rewrite <- flat_set_prot by done. split; [done|].
    intros Hx. assert (f_next m * PAGE / PAGE = f_next m) as Hd by (by apply Z.div_mul).
    match goal with H : all_pages _ _ _ _ = true |- _ => rewrite <- Hd in H at 1;
      apply (all_pages_inside is_none) with (x := x) in H; [|done..] end.
    by destruct (_ !! _).
  - intros a len p m Hp Ha Hl Hm. rewrite (proj2 (all_pages_inside (negb ∘ is_none) a len m Ha Hl Hp)).
    + eexists; split; [done|]. intros x. by rewrite <- flat_set_prot.
    + intros x Hx. specialize (Hm x Hx). cbn. by destruct (_ !! _).
  - intros a len m Hp Ha Hl. eexists; split; [done|]. intros x. by apply flat_set_prot.
  - intros a v m. split; [by rewrite lookup_insert_eq|done].
Qed.


(** ** filestr.c *)

Section FileStr.
Context `{E : Env} `{P : Pend}.

Definition vsf_sysutil_statbuf_get_size (st : answer) : M Z :=
  if a_size st <? 0 then mdie "invalid inode size in vsf_sysutil_statbuf_get_size"
  else mret (a_size st).

(** The return value, and the text: at most [maxsize] bytes. *)
Definition str_fileread (p_filename : bytes) (maxsize : Z) : M (Z * bytes) :=
  fd ← sys (Fs (OpenRead (cstr p_filename)));
  if vsf_sysutil_retval_is_error fd then mret (fd, [])
  else
    st ← vsf_sysutil_fstat fd;
    r ← (if a_regfile st then
           size ← vsf_sysutil_statbuf_get_size st;
           let size := if maxsize <? size then maxsize else size in
           '(retval, data) ← vsf_sysutil_read_loop (vsf_sysutil_read fd) (u32 size);
           if vsf_sysutil_retval_is_error retval then mret (retval, [])
           else if negb (u32 retval =? size) then mdie "read size mismatch"
           else mret (retval, data)
         else mret (0, []));
    vsf_sysutil_close fd;;
    mret r.

End FileStr.

(** [f] is a regular file that holds [O], opened as [fd]. *)
Class Holds (E : Env) (f : bytes) (fd : Z) (O : bytes) : Prop := {
  holds_open h : a_int (env h (Fs (OpenRead f))) = fd;
  holds_stat h : let a := env h (Fs (Fstat fd)) in
    0 ≤ a_int a ∧ a_regfile a = true ∧ a_size a = zlen O;
  holds_read h n : 0 ≤ n →
    let rest := drop (length (since_open fd h)) O in
    let a := env h (Read fd n) in
    0 ≤ a_int a ≤ Z.min n (zlen rest) ∧ (rest ≠ [] → 0 < n → 1 ≤ a_int a) ∧
    take (Z.to_nat (a_int a)) (text_of a) = take (Z.to_nat (a_int a)) rest;
  holds_close h : a_int (env h (Close fd)) = 0
}.

Section FileRead.
Context `{E : Env} `{T : Tun} {HS : NoSignals E}.
Context (f : bytes) (fd : Z) (O : bytes) {HO : Holds E f fd O}.

Definition unread (w : world) : bytes := drop (length (since_open fd (hist w))) O.

Lemma wp_file_read n (Q : Z * bytes → world → Prop) (w : world) :
  0 ≤ n →
  (∀ m (w' : world), (m ≤ Z.to_nat n)%nat → (0 < n → unread w ≠ [] → (1 ≤ m)%nat) → (m ≤ length (unread w))%nat →
     unread w' = drop m (unread w) → Q (Z.of_nat m, take m (unread w)) w') →
  wp (vsf_sysutil_read fd n) Q (λ _ _, False) w.
Proof.
  intros Hn HQ. unfold vsf_sysutil_read. do 2 wp_step. wp_step. apply wp_pend. intros w' Hk.
  destruct (holds_read (hist w) n Hn) as (H1 & H2 & H3). subst a. set (a := env _ _) in *.
  clearbody a. wp_step. fold (unread w) in *.
  replace (Z.min (a_int a) n) with (a_int a) by lia. rewrite H3.
  rewrite <- (Z2Nat.id (a_int a)) at 1 by lia. apply HQ; unfold zlen in *; [lia|intros Hn0 Hr; specialize (H2 Hr Hn0); lia|lia|].
  unfold unread at 1. rewrite (kept_since _ _ Hk). cbn [hist put_hist since_open].
  rewrite Z.eqb_refl, length_app. replace (Z.min (a_int a) n) with (a_int a) by lia.
  rewrite H3, length_take, Nat.min_l by lia. unfold unread. by rewrite drop_drop.
Qed.

Lemma wp_file_loop n size buf (Q : Z * bytes → world → Prop) w :
  0 ≤ size → (Z.to_nat size ≤ length (unread w))%nat → size < Z.of_nat n →
  (∀ w', Q (zlen buf + size, buf ++ take (Z.to_nat size) (unread w)) w') →
  wp (read_loop (vsf_sysutil_read fd) n size buf) Q (λ _ _, False) w.
Proof.
  revert size buf Q w. induction n as [|n IH]; intros size buf Q w H0 Hs Hn HQ; [lia|].
  cbn [read_loop]. wp_step. apply wp_file_read; [done|]. intros m w' Hm1 Hm2 Hm3 Hu.
  wp_auto; b2p; try lia.
  - assert (size = 0) as ->. { destruct (decide (size = 0)); [done|]. destruct (unread w); [cbn in *; lia|]. 
      specialize (Hm2 ltac:(lia) ltac:(done)). lia. }
    specialize (HQ w'). cbn [Z.to_nat take] in HQ. by rewrite Z.add_0_r, app_nil_r in HQ.
  - assert (m = Z.to_nat size) as -> by lia. unfold zlen. rewrite length_app, length_take.
    replace (Z.of_nat _) with (zlen buf + size) by (unfold zlen; lia). apply HQ.
  - apply IH; [lia|rewrite Hu, length_drop; lia|lia|]. intros w2. rewrite Hu, <- app_assoc.
    assert (take (Z.to_nat size) (unread w) =
            take m (unread w) ++ take (Z.to_nat (size - Z.of_nat m)) (drop m (unread w))) as <-.
    { replace (Z.to_nat size) with (m + Z.to_nat (size - Z.of_nat m))%nat by lia.
      by rewrite take_take_drop. }
    unfold zlen. rewrite length_app, length_take.
    replace (Z.of_nat _ + _) with (zlen buf + size) by (unfold zlen; lia). apply HQ.
Qed.

Lemma wp_file_close {A} (r : A) (Q : A → world → Prop) w :
  (∀ w', (∃ a h, hist w' = (Close fd, a) :: h) → Q r w') →
  wp (vsf_sysutil_close fd;; mret r) Q (λ _ _, False) w.
Proof.
  intros HQ. unfold vsf_sysutil_close. do 5 wp_step. subst a. wp_step. rewrite holds_close.
  cbn [negb Z.eqb]. do 2 wp_step. apply HQ. by eexists _, _.
Qed.

End FileRead.


(** A kernel that reads two bytes at a time. *)
Definition file_env (fd : Z) (O : bytes) : Env := λ h c,
  match c with
  | Fs (OpenRead _) => answer_with fd []
  | Fs (Fstat _) => Answer 0 None vsf_sysutil_sockaddr_alloc true (zlen O) 0 []
  | Read _ n =>
      let d := take (Nat.min 2 (Z.to_nat n)) (drop (length (since_open fd h)) O) in
      answer_with (zlen d) d
  | _ => answer_with 0 []
  end.

Lemma file_env_holds f fd O : Holds (file_env fd O) f fd O.
Proof.
  split; [done|done| |done]. intros h n Hn rest a. subst a. unfold env, file_env. fold rest.
  cbv zeta. cbn [a_int answer_with text_of a_text default]. clearbody rest. unfold zlen.
  rewrite length_take, Nat2Z.id. split_and!; [lia|lia| |].
  - intros Hs Hp. destruct rest; [done|]. cbn [length]. lia.
  - unfold id. rewrite take_take. f_equal. lia.
Qed.

