(* ===== verification/PrivOps.v ===== *)
(** * Privileged operations

    privops.c, and the two ways the session reaches it: oneprocess.c calls it
    directly, twoprocess.c asks the privileged parent, whose request handlers
    are those of postprivparent.c. The parent runs them on its own copy of the
    session ([on_parent]): here a request is the handler's run. Privsock.v models
    the requests on the socket pair, and PrivsockRefine.v shows that the two
    agree. *)

From Stdlib Require Import Init.Byte Strings.Byte.
From Stdlib Require Import ZArith Lia String.
From stdpp Require Import base list numbers option gmap strings.
From S2P Require Import Prelude SysUtil Text StrList IpAddr Tunables Session CmdIO.
From S2P Require Import Signals Logic.

Definition VSFTP_USERNAME_MAX : Z := 128.
Definition VSFTP_PASSWORD_MAX : Z := 128.
Definition Global_READ : Z := 1.
Definition Global_WRITE : Z := 2.

(** kVSFSysUtilErrADDRINUSE, kVSFSysUtilErrACCES (Linux values). *)
Definition EADDRINUSE : Z := 98.
Definition EACCES : Z := 13.

Inductive login_result := kVSFLoginNull | kVSFLoginFail | kVSFLoginAnon | kVSFLoginReal.

(** ** cosswitch.cpp: the password list

    [login_users] is a list of user:password:permissions entries separated by
    semicolons; [strtok_r] skips empty fields. *)

Fixpoint split_on (c : byte) (s : bytes) : list bytes :=
  match s with
  | [] => [[]]
  | d :: s' =>
      if bool_decide (d = c) then [] :: split_on c s'
      else match split_on c s' with
           | f :: fs => (d :: f) :: fs
           | [] => [[d]]
           end
  end.

Definition strtok (c : byte) (s : bytes) : list bytes :=
  filter (λ f, f ≠ []) (split_on c s).

Definition permission_bit (c : byte) : Z :=
  if bool_decide (c = x52) || bool_decide (c = x72) then Global_READ
  else if bool_decide (c = x57) || bool_decide (c = x77) then Global_WRITE
  else 0.

Definition permission_bits (s : bytes) : Z :=
  foldl (λ acc c, Z.lor acc (permission_bit c)) 0 s.

Definition SEMICOLON : byte := x3b.

Fixpoint find_login (entries : list bytes) (user passwd : bytes) : option Z :=
  match entries with
  | [] => None
  | tp :: entries' =>
      match strtok COLON tp with
      | myuser :: mypasswd :: mypermission :: _ =>
          if bool_decide (myuser = cstr user) && bool_decide (mypasswd = cstr passwd)
          then Some (permission_bits mypermission)
          else find_login entries' user passwd
      | _ => find_login entries' user passwd
      end
  end.

Definition cos_handle_login (login_users : option bytes) (user passwd : bytes) : option Z :=
  match login_users with
  | None => None
  | Some users => find_login (strtok SEMICOLON users) user passwd
  end.

Section PrivOps.
Context `{E : Env} `{P : Pend} `{T : Tun}.

(** ** privops.c: the passive socket *)

Definition vsf_privop_pasv_cleanup : M unit :=
  fd ← gets pasv_listen_fd;
  if negb (fd =? -1) then
    vsf_sysutil_close fd;;
    upd (set_pasv_listen_fd (-1))
  else mret tt.

Definition vsf_privop_pasv_active : M bool :=
  fd ← gets pasv_listen_fd; mret (negb (fd =? -1)).

(** The bounds of the port, after the settings. *)
Definition pasv_port_range : Z * Z :=
  let min_port := 1024 in
  let max_port := 65535 in
  let min_port :=
    if (min_port <? tu tun "pasv_min_port") && (tu tun "pasv_min_port" <=? max_port)
    then u16 (tu tun "pasv_min_port") else min_port in
  let max_port :=
    if (min_port <=? tu tun "pasv_max_port") && (tu tun "pasv_max_port" <? max_port)
    then u16 (tu tun "pasv_max_port") else max_port in
  (min_port, max_port).

(** [min_port + (the_port / 65536.0) * (max_port - min_port + 1)], truncated:
    the operands are below 2^16 and the divisor is a power of two, so the
    double arithmetic is exact. *)
Definition scale_port (min_port max_port the_port : Z) : Z :=
  u16 (min_port + the_port * (max_port - min_port + 1) / 65536).

Definition random_port (b1 b2 : Z) : Z := u16 (Z.lor (u16 (Z.shiftl (b1 mod 256) 8)) (b2 mod 256)).

Definition vsf_sysutil_get_sock (ipv6 : bool) : M Z :=
  fd ← sys (Sock (Socket ipv6)); if fd <? 0 then mdie "socket" else mret fd.

(** One attempt to bind and listen: [None] asks for another. *)
Definition pasv_try (min_port max_port : Z) (is_ipv6 : bool) : M (option Z) :=
  b1 ← sys (Sys RandomByte);
  b2 ← sys (Sys RandomByte);
  let the_port := scale_port min_port max_port (random_port b1 b2) in
  fd ← vsf_sysutil_get_sock is_ipv6;
  upd (set_pasv_listen_fd fd);;
  must (Sock (Reuseaddr fd)) "setsockopt: reuseaddr";;
  local ← gets p_local_addr;
  s_p_sockaddr ← lift (vsf_sysutil_sockaddr_clone local);
  s_p_sockaddr ← lift (vsf_sysutil_sockaddr_set_port s_p_sockaddr the_port);
  retval ← sys (Sock (Bind fd s_p_sockaddr));
  ok ← (if negb (vsf_sysutil_retval_is_error retval) then
          retval ← sys (Sock (Listen fd 1));
          mret (negb (vsf_sysutil_retval_is_error retval))
        else mret false);
  if ok : bool then mret (Some the_port)
  else
    err ← sys (Sys Errno);
    if (err =? EADDRINUSE) || (err =? EACCES) then
      vsf_sysutil_close fd;;
      upd (set_pasv_listen_fd (-1));;
      mret None
    else mdie "vsf_sysutil_bind / listen".

(** [while (--bind_retries)]: nine attempts. *)
Fixpoint pasv_retry (bind_retries : nat) (min_port max_port : Z) (is_ipv6 : bool) : M Z :=
  match bind_retries with
  | O => mdie "vsf_sysutil_bind"
  | S n =>
      r ← pasv_try min_port max_port is_ipv6;
      match r with
      | Some the_port => mret the_port
      | None => pasv_retry n min_port max_port is_ipv6
      end
  end.

Definition vsf_privop_pasv_listen : M Z :=
  local ← gets p_local_addr;
  fd ← gets pasv_listen_fd;
  if negb (fd =? -1) then mdie "listed fd already active"
  else
    let '(min_port, max_port) := pasv_port_range in
    pasv_retry 9 min_port max_port (vsf_sysutil_sockaddr_is_ipv6 local).

(** [vsf_sysutil_accept_timeout] gives the address of the peer. *)
Definition vsf_privop_accept_pasv : M Z :=
  fd ← gets pasv_listen_fd;
  if fd =? -1 then mdie "listed fd not active"
  else
    a ← ask (Sock (Accept fd (tu tun "accept_timeout")));
    check_pending CtxUnknown;;
    let remote_fd := a_int a in
    if vsf_sysutil_retval_is_error remote_fd then mret (-1)
    else
      remote ← gets p_remote_addr;
      if negb (tb tun "pasv_promiscuous") &&
         negb (vsf_sysutil_sockaddr_addr_equal remote (a_addr a))
      then vsf_sysutil_close remote_fd;; mret (-2)
      else mret remote_fd.

(** ** privops.c: the active data socket *)

Fixpoint port_bind (tries : nat) (s : Z) (port : Z) : M unit :=
  match tries with
  | O => mret tt
  | S n =>
      local ← gets p_local_addr;
      p_sockaddr ← lift (vsf_sysutil_sockaddr_clone local);
      p_sockaddr ← lift (vsf_sysutil_sockaddr_set_port p_sockaddr port);
      retval ← sys (Sock (Bind s p_sockaddr));
      if retval =? 0 then mret tt
      else
        err ← sys (Sys Errno);
        if negb (err =? EADDRINUSE) || (n =? 0)%nat then mdie "vsf_sysutil_bind"
        else
          r ← sys (Sys RandomByte);
          vsf_sysutil_sleep (1000000 + r mod 256 * 1000000 / 256);;
          port_bind n s port
  end.

Definition vsf_privop_get_ftp_port_sock (remote_port : Z) (use_port_sockaddr : bool) : M Z :=
  local ← gets p_local_addr;
  s ← vsf_sysutil_get_sock (vsf_sysutil_sockaddr_is_ipv6 local);
  lfd ← gets pasv_listen_fd;
  if negb (lfd =? -1) then mdie "listed fd is active?"
  else if vsf_sysutil_is_port_reserved remote_port then mdie "Illegal port request"
  else
    let port := if tb tun "connect_from_port_20" then u16 (tu tun "ftp_data_port") else 0 in
    must (Sock (Reuseaddr s)) "setsockopt: reuseaddr";;
    port_bind 2 s port;;
    p_connect_to ←
      (if use_port_sockaddr then
         p ← gets p_port_sockaddr;
         match p with Some a => mret a | None => stop_with UB end
       else
         remote ← gets p_remote_addr;
         a ← lift (vsf_sysutil_sockaddr_set_port remote remote_port);
         upd (set_p_remote_addr a);;
         mret a);
    retval ← sys (Sock (Connect s p_connect_to (tu tun "connect_timeout")));
    check_pending CtxUnknown;;
    if vsf_sysutil_retval_is_error retval then vsf_sysutil_close s;; mret (-1)
    else mret s.

(** ** privops.c: chown *)

Definition vsf_privop_do_file_chown (fd : Z) : M unit :=
  st ← vsf_sysutil_fstat fd;
  chown_uid ← gets anon_upload_chown_uid;
  ftp_uid ← gets anon_ftp_uid;
  guest_uid ← gets guest_user_uid;
  if a_uid st =? chown_uid then mret tt
  else if (chown_uid =? -1) || negb (a_regfile st) ||
          (negb (a_uid st =? ftp_uid) && negb (a_uid st =? guest_uid))
  then mdie "invalid fd in cmd_process_chown"
  else must (Fs (Fchown fd chown_uid)) "fchown".

(** ** privops.c: login *)

Definition setup_username_globals (p_str : bytes) : M unit :=
  upd (set_user_str p_str);;
  if tb tun "setproctitle_enable" then
    ip ← gets remote_ip_str;
    do_ (Sys (Proctitle (ip ++ lit "/" ++ p_str)))
  else mret tt.

Definition handle_anonymous_login (p_pass_str : bytes) : M login_result :=
  banned ← gets banned_email_str;
  allowed ← gets email_passwords_str;
  if negb (isempty banned) && t_contains_line banned p_pass_str then mret kVSFLoginFail
  else if negb (isempty allowed) &&
          (negb (t_contains_line allowed p_pass_str) || isempty p_pass_str)
  then mret kVSFLoginFail
  else
    let pass := if isempty p_pass_str then lit "?" else p_pass_str in
    upd (set_anon_pass_str (t_replace_char (t_replace_char pass SP x5f) LF x3f));;
    setup_username_globals (default [] (ts tun "ftp_username"));;
    upd (set_permissions (Z.lor Global_WRITE Global_READ));;
    upd (set_banned_email_str []);;
    upd (set_email_passwords_str []);;
    mret kVSFLoginAnon.

Definition handle_local_login (p_user_str p_pass_str : bytes) : M login_result :=
  match cos_handle_login (ts tun "login_users") p_user_str p_pass_str with
  | None => mret kVSFLoginFail
  | Some permission =>
      upd (set_permissions permission);;
      setup_username_globals p_user_str;;
      mret kVSFLoginReal
  end.

(** The guards on the user name and the password. *)
Definition login_input_ok (p_user_str p_pass_str : bytes) : bool :=
  match p_user_str with
  | [] => false
  | first_char :: _ =>
      (zlen p_user_str <=? VSFTP_USERNAME_MAX) &&
      (vsf_sysutil_isalnum first_char || bool_decide (first_char = x5f)
       || bool_decide (first_char = x2e)) &&
      negb (t_contains_space p_user_str || t_contains_unprintable p_user_str) &&
      (zlen p_pass_str <=? VSFTP_PASSWORD_MAX)
  end.

Definition is_anon_name (user : bytes) : bool :=
  eqtext (t_upper user) "FTP" || eqtext (t_upper user) "ANONYMOUS".

Definition handle_login (p_user_str p_pass_str : bytes) : M login_result :=
  if negb (login_input_ok p_user_str p_pass_str) then mret kVSFLoginFail
  else if tb tun "anonymous_enable" && is_anon_name p_user_str then
    handle_anonymous_login p_pass_str
  else if negb (tb tun "local_enable") then mdie "unexpected local login in handle_login"
  else handle_local_login p_user_str p_pass_str.

Definition vsf_privop_do_login (p_pass_str : bytes) : M login_result :=
  user ← gets user_str;
  result ← handle_login user p_pass_str;
  vsf_log_start_entry kVSFLogEntryLogin;;
  match result with
  | kVSFLoginFail =>
      vsf_log_do_log false;;
      when (negb (tu tun "delay_failed_login" =? 0))
        (vsf_sysutil_sleep (tu tun "delay_failed_login" * 1000000))
  | _ =>
      vsf_log_do_log true;;
      when (negb (tu tun "delay_successful_login" =? 0))
        (vsf_sysutil_sleep (tu tun "delay_successful_login" * 1000000))
  end;;
  mret result.

(** ** postprivparent.c *)

Definition cmd_process_chown (the_fd : Z) : M unit :=
  vsf_privop_do_file_chown the_fd;;
  vsf_sysutil_close the_fd.

(** The result, or -1 for PRIV_SOCK_RESULT_BAD; the parent closes its copy of
    the descriptor it sent. *)
Definition cmd_process_get_data_sock (port : Z) : M Z :=
  sock_fd ← vsf_privop_get_ftp_port_sock (u16 port) false;
  if sock_fd =? -1 then mret (-1)
  else vsf_sysutil_close sock_fd;; mret sock_fd.

Definition cmd_process_pasv_accept : M Z :=
  fd ← vsf_privop_accept_pasv;
  if fd <? 0 then mret fd
  else vsf_sysutil_close fd;; mret fd.

(** ** oneprocess.c and twoprocess.c: the session's side *)

Definition one_process : bool := tb tun "one_process_model".

Definition pasv_cleanup : M unit :=
  if one_process then vsf_privop_pasv_cleanup else on_parent vsf_privop_pasv_cleanup.

Definition query_pasv_active : M bool :=
  if one_process then vsf_privop_pasv_active else on_parent vsf_privop_pasv_active.

Definition pasv_listen : M Z :=
  if one_process then vsf_privop_pasv_listen
  else the_port ← on_parent vsf_privop_pasv_listen; mret (u16 the_port).

Definition get_pasv_fd : M Z :=
  if one_process then vsf_privop_accept_pasv else on_parent cmd_process_pasv_accept.

Definition get_priv_data_sock (one : bool) : M Z :=
  p ← gets p_port_sockaddr;
  port ← match p with
         | Some a => lift (vsf_sysutil_sockaddr_get_port a)
         | None => stop_with UB
         end;
  if one then vsf_privop_get_ftp_port_sock port true
  else on_parent (cmd_process_get_data_sock port).

(** The parent serves PRIV_SOCK_CHOWN only with chown_uploads set. *)
Definition chown_upload (fd : Z) : M unit :=
  if one_process then vsf_privop_do_file_chown fd
  else if tb tun "chown_uploads" then on_parent (cmd_process_chown fd)
  else mdie "bad request in process_post_login_req".

End PrivOps.
