(* ===== verification/Cos.v ===== *)
(** * The COS client

    cosswitch.cpp and encode.cpp: what the session asks COS for, how the
    responses are read, and the conversion of commands to UTF-8. The client
    library and its JSON parser are not part of the program: requests are calls
    of the environment and the parser is the class [Json]. *)

From Stdlib Require Import Init.Byte Strings.Byte.
From Stdlib Require Import ZArith Lia String.
From stdpp Require Import base list numbers option gmap strings.
From S2P Require Import Prelude SysUtil Text StrList IpAddr Filter Tunables Session.
From S2P Require Import CmdIO Signals Logic Paths.

Definition TYPE_FILE : Z := 1.
Definition TYPE_DIR : Z := 2.

(** [struct file_info] of cosswitch.h. *)
Record file_info := FileInfo {
  fi_type : Z;
  file_name : bytes;
  file_size : Z;
  fi_ctime : Z;
  fi_mtime : Z
}.

(** jsoncpp. [json_parse] is [Json::Reader::parse]; [json_members] is
    [isMember] with [operator[]], for the values that have members; [json_int] is
    [isInt] with [asInt], and so on. *)
Class Json := {
  jvalue : Type;
  json_parse : bytes → option jvalue;
  json_members : jvalue → option (string → option jvalue);
  json_int : jvalue → option Z;
  json_int64 : jvalue → option Z;
  json_bool : jvalue → option bool;
  json_string : jvalue → option bytes;
  json_array : jvalue → option (list jvalue);
  json_is_object : jvalue → bool
}.

(** ** encode.cpp *)

(** How many bytes the first byte of a sequence announces. *)
Definition utf8_count (cChar : Z) : nat :=
  if 252 <=? cChar then 5
  else if 248 <=? cChar then 4
  else if 240 <=? cChar then 3
  else if 224 <=? cChar then 2
  else 1.

Definition is_trail (c : Z) : bool := negb ((c <? 128) || (191 <? c)).

(** The inner loop: how many of the next [n] bytes continue the sequence. *)
Fixpoint count_trail (n : nat) (s : bytes) : nat :=
  match n, s with
  | S n', c :: s' => if is_trail (uchar c) then S (count_trail n' s') else O
  | _, _ => O
  end.

(** The loop of [IsUtf8] on what is left of the text: the counts of bytes in
    well-formed sequences, [udwUtf8Len], and of others, [udwUnkouwnLen]. *)
Fixpoint utf8_scan (fuel : nat) (s : bytes) (utf8 unknown : Z) : Z * Z :=
  match fuel, s with
  | S fuel', c :: s' =>
      let cChar := uchar c in
      if cChar <? 127 then utf8_scan fuel' s' utf8 unknown
      else if (cChar <? 192) || (253 <? cChar) then utf8_scan fuel' s' utf8 (u32 (unknown + 1))
      else
        let dwCount := utf8_count cChar in
        if (length s <? dwCount)%nat then utf8_scan fuel' s' utf8 (u32 (unknown + 1))
        else
          let j := count_trail dwCount s' in
          if (j <? dwCount)%nat
          then utf8_scan fuel' (drop j s') utf8 (u32 (unknown + 2))
          else utf8_scan fuel' (drop j s') (u32 (utf8 + Z.of_nat dwCount + 1)) unknown
  | _, _ => (utf8, unknown)
  end.

(** [udwUtf8Len >= (udwUnkouwnLen + udwUtf8Len) * 0.9]: the double nearest to
    0.9 is off by 2^-55, so that the test is exact for all 32-bit counts. *)
Definition IsUtf8 (pszStr : bytes) : bool :=
  let s := cstr pszStr in
  if isempty s then false
  else
    let '(utf8, unknown) := utf8_scan (length s) s 0 0 in
    9 * u32 (unknown + utf8) <=? 10 * utf8.

Fixpoint gbk_scan (fuel : nat) (s : bytes) : bool :=
  match fuel, s with
  | S fuel', c :: s' =>
      if uchar c <? 127 then gbk_scan fuel' s'
      else match s' with
           | [] => false
           | d :: s'' =>
               if (176 <=? uchar c) && (uchar c <=? 247) && (161 <=? uchar d) && (uchar d <=? 254)
               then gbk_scan fuel' s'' else false
           end
  | _, _ => true
  end.

Definition IsGBKChin (pszStr : bytes) : bool :=
  let s := cstr pszStr in if isempty s then false else gbk_scan (length s) s.

Section Encode.
Context `{E : Env}.

(** [iconv]: its result, and how much of the input it took. *)
Definition iconv (cd : Z) (inbuf : bytes) (outlen : Z) : M (Z * bytes * bytes) :=
  a ← ask (Sys (Iconv cd inbuf outlen));
  mret (a_int a, drop (Z.to_nat (a_size a)) inbuf, take (Z.to_nat outlen) (text_of a)).

(** Every failure costs at least a byte of the input, so that its length bounds
    the rounds. *)
Fixpoint convert_loop (rounds : nat) (cd rc : Z) (inbuf out : bytes) (outlen : Z) : M bytes :=
  if (rc =? -1) && negb (isempty inbuf) && (0 <? outlen) then
    match rounds with
    | O => stop_with Fuel
    | S n =>
        '(rc, inbuf, o) ← iconv cd (drop 1 inbuf) outlen;
        convert_loop n cd rc inbuf (out ++ o) (outlen - zlen o)
    end
  else mret out.

(** What it writes into the zeroed buffer of [outlen] bytes. *)
Definition CodeConvert (from_charset to_charset : string) (inbuf : bytes) (outlen : Z)
    : M (option bytes) :=
  cd ← sys (Sys (IconvOpen to_charset from_charset));
  if cd =? 0 then mret None
  else
    '(rc, rest, out) ← iconv cd inbuf outlen;
    out ← convert_loop (length inbuf) cd rc rest out (outlen - zlen out);
    do_ (Sys (IconvClose cd));;
    mret (Some out).

End Encode.

(** ** cosswitch.cpp *)

Definition hexBytes : bytes := lit "0123456789abcdef".
Definition hex_digit (n : Z) : byte := nth (Z.to_nat n) hexBytes NUL.
Definition inner_asc_2_bcd (asc : bytes) : bytes :=
  asc ≫= λ c, [hex_digit (Z.shiftr (uchar c) 4); hex_digit (Z.land (uchar c) 15)].

(** A setting that is not set is a null pointer. *)
Definition setting `{T : Tun} (name : string) : res bytes :=
  match ts tun name with Some t => Ok (cstr t) | None => Err UB end.

Section CosSwitch.
Context `{E : Env} `{P : Pend} `{T : Tun} `{JS : Json}.

(** Once in a process. *)
Definition cos_env_init : M unit :=
  init ← getw has_init;
  if init : bool then mret tt
  else
    region ← lift (setting "cos_region");
    domain ← lift (setting "cos_download_domain");
    appid ← lift (setting "cos_appid");
    secretid ← lift (setting "cos_secretid");
    secretkey ← lift (setting "cos_secretkey");
    do_ (Cos (CosConfigure (tu tun "cos_sign_expire_s") (tu tun "cos_conn_timeout_ms")
                (tu tun "cos_req_timeout_ms") (default 0 (t_bool tun !! "cos_take_sha"%string) =? 1)
                (tu tun "cos_upload_slice_size") region
                (bool_decide (t_upper domain = lit "CDN")) (atol appid) secretid secretkey));;
    modw (put_has_init true).

(** The path of an object: below the working directory of the session, unless
    the name is absolute. *)
Definition get_cos_path_from_disk_path (p_list_path : bytes) : M bytes :=
  if is_relative p_list_path then
    cwd ← str_session_getcwd;
    mret (cwd ++ [SLASH] ++ p_list_path)
  else mret p_list_path.

(** Folder requests end in a slash. *)
Definition folder_path (path : bytes) : M bytes :=
  s_cos_path ← get_cos_path_from_disk_path path;
  last_char ← lift (t_get_char_at s_cos_path (zlen s_cos_path - 1));
  mret (cstr (if bool_decide (last_char = SLASH) then s_cos_path else s_cos_path ++ [SLASH])).

Definition file_path (path : bytes) : M bytes :=
  s_cos_path ← get_cos_path_from_disk_path path; mret (cstr s_cos_path).

Definition request (op : cos_op) : M bytes := a ← ask (Cos op); mret (text_of a).

Definition log_response (what : log_entry_type) (result : bytes) : M unit :=
  vsf_log_line what (cstr result).

(** [isMember] throws on a value that has no members. *)
Definition json_find (v : jvalue) (key : string) : res (option jvalue) :=
  match json_members v with Some find => Ok (find key) | None => die "Json::Value::isMember" end.

(** [isMember] and the test of the type of the member, in one. *)
Definition member {A} (v : jvalue) (key : string) (get : jvalue → option A) : res (option A) :=
  res_bind (json_find v key) (λ m, Ok (m ≫= get)).

(** The parsed response and its code. *)
Definition parse_code (result : bytes) : res (option (jvalue * Z)) :=
  match json_parse result with
  | None => Ok None
  | Some root => res_bind (member root "code" json_int) (λ code, Ok ((root,.) <$> code))
  end.

Definition object (v : jvalue) : option jvalue := if json_is_object v then Some v else None.

(** The data of a response that reports success. *)
Definition parse_data (result : bytes) : res (option jvalue) :=
  res_bind (parse_code result) (λ rc,
    match rc with
    | Some (root, code) => if code =? 0 then member root "data" object else Ok None
    | None => Ok None
    end).

Definition member_or {A} (v : jvalue) (key : string) (get : jvalue → option A) (d : A) : res A :=
  res_bind (member v key get) (λ m, Ok (default d m)).

(** *** Listings *)

(** A page: the entries, whether it is the last, and where the next starts. *)
Definition parse_page (result : bytes) : res (option (list jvalue * bool * bytes)) :=
  res_bind (parse_data result) (λ data,
    match data with
    | None => Ok None
    | Some data =>
        res_bind (member data "infos" json_array) (λ infos,
        match infos with
        | None => Ok None
        | Some infos =>
            res_bind (member data "listover" json_bool) (λ listover,
            match listover with
            | None => Ok None
            | Some listover =>
                res_bind (member data "context" json_string) (λ context,
                  Ok ((λ next, (infos, listover, next)) <$> context))
            end)
        end)
    end).

Definition entry_name (entry : jvalue) : res bytes :=
  res_bind (member_or entry "name" json_string []) (λ name, Ok (cstr name)).

Definition entry_info (entry : jvalue) (name : bytes) : res file_info :=
  res_bind (json_find entry "sha") (λ sha,
  res_bind (member_or entry "filelen" json_int64 0) (λ filelen,
  res_bind (member_or entry "ctime" json_int 0) (λ ctime,
  res_bind (member_or entry "mtime" json_int 0) (λ mtime,
    Ok (FileInfo (match sha with Some _ => TYPE_FILE | None => TYPE_DIR end) name
          (u64 filelen) ctime mtime))))).

(** The filter, when there is one. *)
Definition passes (filter : option bytes) (name : bytes) : res bool :=
  match filter with
  | None => Ok true
  | Some f => res_bind (vsf_filename_passes_filter name f 0) (λ r, Ok r.1)
  end.

Definition list_full (flist : list file_info) : bool :=
  let max := tu tun "list_max_count" in (0 <? max) && (max <=? Z.of_nat (length flist)).

(** The entries of a page, and whether the listing is full. *)
Fixpoint list_infos (filter : option bytes) (infos : list jvalue) (flist : list file_info)
    : res (bool * list file_info) :=
  match infos with
  | [] => Ok (false, flist)
  | entry :: infos' =>
      res_bind (entry_name entry) (λ name,
      res_bind (passes filter name) (λ pass,
        if negb pass then list_infos filter infos' flist
        else
          res_bind (entry_info entry name) (λ info,
            let flist := flist ++ [info] in
            if list_full flist then Ok (true, flist) else list_infos filter infos' flist)))
  end.

Fixpoint list_loop (fuel : nat) (filter : option bytes) (bucket cos_path context : bytes)
    (try_times : Z) (flist : list file_info) : M (list file_info) :=
  match fuel with
  | O => stop_with Fuel
  | S fuel' =>
      if try_times <=? 0 then mret flist
      else
        result ← request (FolderList bucket cos_path 1000 context);
        page ← lift (parse_page result);
        match page with
        | Some (infos, listover, context) =>
            '(full, flist) ← lift (list_infos filter infos flist);
            if full || listover : bool then mret flist
            else list_loop fuel' filter bucket cos_path context try_times flist
        | None =>
            log_response kVSFLogEntryDebug result;;
            list_loop fuel' filter bucket cos_path context (try_times - 1) flist
        end
  end.

Definition cos_get_list (fuel : nat) (path : bytes) (filter : option bytes) : M (list file_info) :=
  cos_path ← folder_path path;
  bucket ← lift (setting "cos_bucket");
  list_loop fuel filter bucket cos_path [] 2 [].

Definition cos_list_next (flist : list file_info) : option (file_info * list file_info) :=
  match flist with [] => None | info :: rest => Some (info, rest) end.

(** *** Single objects *)

(** A request whose response carries data. [None]: it was logged. *)
Definition data_request (op : cos_op) : M (option jvalue) :=
  result ← request op;
  data ← lift (parse_data result);
  match data with
  | Some data => mret (Some data)
  | None => log_response kVSFLogEntryDebug result;; mret None
  end.

(** What [info] is filled with. *)
Definition stat_info (type : Z) (path : bytes) (file_size : Z) (data : jvalue) : M file_info :=
  ctime ← lift (member_or data "ctime" json_int 0);
  mtime ← lift (member_or data "mtime" json_int 0);
  mret (FileInfo type path file_size ctime mtime).

Definition cos_stat_file (path : bytes) : M (option file_info) :=
  cos_path ← file_path path;
  bucket ← lift (setting "cos_bucket");
  data ← data_request (FileStat bucket cos_path);
  match data with
  | Some data =>
      filelen ← lift (member_or data "filelen" json_int64 0);
      info ← stat_info TYPE_FILE path (u64 filelen) data;
      mret (Some info)
  | None => mret None
  end.

(** [cos_stat_dir] without [info]. *)
Definition folder_stat (path : bytes) : M (option jvalue) :=
  cos_path ← folder_path path;
  bucket ← lift (setting "cos_bucket");
  data_request (FolderStat bucket cos_path).

Definition cos_stat_dir (path : bytes) : M (option file_info) :=
  data ← folder_stat path;
  match data with
  | Some data => info ← stat_info TYPE_DIR path 0 data; mret (Some info)
  | None => mret None
  end.

(** The page that tells whether a folder is empty: the context is not looked at. *)
Definition parse_isempty (result : bytes) : res (option bool) :=
  res_bind (parse_data result) (λ data,
    match data with
    | None => Ok None
    | Some data =>
        res_bind (member data "infos" json_array) (λ infos,
        match infos with
        | None => Ok None
        | Some infos =>
            res_bind (member data "listover" json_bool) (λ listover,
              Ok ((λ b : bool, bool_decide (infos = []) && b) <$> listover))
        end)
    end).

(** 1: not empty; 0: empty; -1: an error. *)
Definition cos_dir_isempty (path : bytes) : M Z :=
  cos_path ← folder_path path;
  bucket ← lift (setting "cos_bucket");
  result ← request (FolderList bucket cos_path 3 []);
  isempty ← lift (parse_isempty result);
  match isempty with
  | Some true => mret 0
  | Some false => mret 1
  | None => log_response kVSFLogEntryDebug result;; mret (-1)
  end.

(** 0: a directory. *)
Definition cos_isdir (path : bytes) : M Z :=
  stat ← folder_stat path;
  match stat with
  | Some _ => mret 0
  | None =>
      isempty ← cos_dir_isempty path;
      mret (if isempty =? 1 then 0 else -1)
  end.

(** A request of which only the code matters: 0, or 1 when [absent] is what COS
    says of an object that does not exist, or -1 after the log. *)
Definition code_request (op : cos_op) (absent : option Z) (what : log_entry_type) : M Z :=
  result ← request op;
  code ← lift (parse_code result);
  match code with
  | Some (_, code) =>
      if code =? 0 then mret 0
      else if bool_decide (Some code = absent) then mret 1
      else log_response what result;; mret (-1)
  | None => log_response what result;; mret (-1)
  end.

Definition cos_mkdir (path : bytes) : M Z :=
  cos_path ← folder_path path;
  bucket ← lift (setting "cos_bucket");
  code_request (FolderCreate bucket cos_path) None kVSFLogEntryMkdir.

Definition cos_rmdir (path : bytes) : M Z :=
  cos_path ← folder_path path;
  bucket ← lift (setting "cos_bucket");
  code_request (FolderDelete bucket cos_path) (Some (-197)) kVSFLogEntryRmdir.

Definition cos_unlink (path : bytes) : M Z :=
  cos_path ← file_path path;
  bucket ← lift (setting "cos_bucket");
  code_request (FileDelete bucket cos_path) (Some (-197)) kVSFLogEntryDelete.

(** *** Transfers *)

Fixpoint upload_loop (trytime : nat) (op : cos_op) : M Z :=
  match trytime with
  | O => mret (-1)
  | S n =>
      r ← code_request op None kVSFLogEntryUpload;
      if r =? 0 then mret 0 else upload_loop n op
  end.

Definition cos_upload_file (src_path path : bytes) : M Z :=
  cos_path ← file_path path;
  bucket ← lift (setting "cos_bucket");
  upload_loop 2 (FileUpload bucket (cstr src_path) cos_path).

(** The length, or the error of the last try, and the data. *)
Fixpoint download_loop (trytime : nat) (op : cos_op) (bufflen recvlen : Z) : M (Z * bytes) :=
  match trytime with
  | O => mret (recvlen, [])
  | S n =>
      a ← ask (Cos op);
      if 0 <=? a_int a then
        let data := take (Z.to_nat (Z.min (a_int a) bufflen)) (text_of a) in
        mret (zlen data, data)
      else
        vsf_log_line kVSFLogEntryDownload
          (lit "Download retcode:" ++ vsf_sysutil_int_to_str (s32 (a_size a)));;
        download_loop n op bufflen (a_int a)
  end.

(** At most what is left of the object. *)
Definition cos_download_file (path : bytes) (bufflen offset filesize : Z) : M (Z * bytes) :=
  cos_path ← file_path path;
  bucket ← lift (setting "cos_bucket");
  let bufflen := if u64 (filesize - offset) <? bufflen then u32 (u64 (filesize - offset)) else bufflen in
  download_loop 2 (FileDownload bucket cos_path bufflen offset) bufflen 0.

(** *** The arguments of commands *)

(** The argument of a command becomes UTF-8 when it does not look like it. *)
Definition cos_conv_gbk_2_utf : M Z :=
  ftp_arg_str ← gets ftp_arg_str;
  if isempty ftp_arg_str || IsUtf8 ftp_arg_str then mret 0
  else
    let size := zlen ftp_arg_str * 2 + 1 in
    out ← CodeConvert "GBK" "UTF-8" ftp_arg_str size;
    match out with
    | Some out =>
        if size <=? zlen out then stop_with UB
        else
          let temp := cstr out in
          upd (set_ftp_arg_str temp);;
          vsf_log_line kVSFLogEntryFTPInput
            (lit "conv gbk to utf-8, src:" ++ ftp_arg_str ++ lit "  dst:" ++ temp);;
          vsf_log_line kVSFLogEntryFTPInput (inner_asc_2_bcd temp);;
          mret 0
    | None =>
        vsf_log_line kVSFLogEntryFTPInput (lit "conv gbk to utf-8 error:");;
        mret (-1)
    end.

End CosSwitch.
