(* ===== verification/DataIO.v ===== *)
(** * The data connection

    ftpdataio.c: obtaining and disposing of the data connection, downloads from
    COS, uploads to the local file, and directory listings. *)

From Stdlib Require Import Init.Byte Strings.Byte.
From Stdlib Require Import ZArith Lia String.
From stdpp Require Import base list numbers option gmap strings.
From S2P Require Import Prelude SysUtil Text StrList IpAddr Tunables Ascii Session.
From S2P Require Import CmdIO Signals Logic Paths PrivOps Cos.

Definition VSFTP_DATA_BUFSIZE : Z := 65536.
Definition VSFTP_DIR_BUFSIZE : Z := 16384.
Definition VSFTP_COS_DOWNLOAD_BUFSIZE : Z := 64 * 1024 * 1024.

Record vsf_transfer_ret := TransferRet { retval : Z; transferred : Z }.

Section Sizes.
Context `{T : Tun}.

Definition get_chunk_size : Z :=
  let c := tu tun "trans_chunk_size" in
  if (c <? VSFTP_DATA_BUFSIZE) && (0 <? c) then (if c <? 4096 then 4096 else c)
  else VSFTP_DATA_BUFSIZE.

Definition get_cos_download_chunksize : Z :=
  let c := tu tun "cos_download_chunk_size" in
  if (c <? VSFTP_COS_DOWNLOAD_BUFSIZE) && (0 <? c) then (if c <? 65536 then 65536 else c)
  else VSFTP_COS_DOWNLOAD_BUFSIZE.

End Sizes.

(** The test of [do_file_recv], with the parentheses where the code has them:
    the comparison is with the value of a conjunction. *)
Definition size_exceeded (max_upload_file_size total : Z) : bool :=
  max_upload_file_size <? of_bool ((0 <? max_upload_file_size) && negb (total =? 0)).

Section DataIO.
Context `{E : Env} `{P : Pend} `{T : Tun}.

(** ** The connection *)

Definition vsf_sysutil_install_io_handler : M unit :=
  installed ← getw io_handler;
  if installed : bool then mbug "double register of i/o handler"
  else modw (put_io_handler true).

Definition vsf_sysutil_uninstall_io_handler : M unit :=
  installed ← getw io_handler;
  if negb installed then mbug "no i/o handler to unregister!"
  else modw (put_io_handler false).

Definition init_data_sock_params (sock_fd : Z) : M unit :=
  fd ← gets data_fd;
  if negb (fd =? -1) then mbug "data descriptor still present in init_data_sock_params"
  else
    upd (set_data_fd sock_fd);;
    upd (set_data_progress false);;
    must (Sock (Sockopt sock_fd "keepalive")) "setsockopt: keepalive";;
    do_ (Sock (Sockopt sock_fd "iptos_throughput"));;
    vsf_sysutil_install_io_handler;;
    start_data_alarm.

(** Closing the SSL layer of the data connection, if there is one. *)
Definition dispose_ssl : M bool :=
  ssl ← gets data_use_ssl;
  slave ← gets ssl_slave_active;
  dssl ← gets p_data_ssl;
  if ssl && slave then
    start_data_alarm;;
    result ← sys (Ssl (SlaveCmd "SSL_CLOSE" []));
    mret (result =? 1)
  else if dssl : bool then
    start_data_alarm;;
    result ← sys (Ssl (SslCall "ssl_data_close" []));
    upd (set_p_data_ssl false);;
    mret (result =? 1)
  else mret true.

Definition vsf_ftpdataio_dispose_transfer_fd : M bool :=
  fd ← gets data_fd;
  if fd =? -1 then mbug "no data descriptor in vsf_ftpdataio_dispose_transfer_fd"
  else
    vsf_sysutil_uninstall_io_handler;;
    dispose_ret ← dispose_ssl;
    abor ← gets abor_received;
    timeout ← gets data_timeout;
    when (negb abor && negb timeout && dispose_ret)
      (start_data_alarm;; must (Sock (Sockopt fd "linger")) "setsockopt: linger");;
    retval ← sys (Close fd);
    (if vsf_sysutil_retval_is_error retval then
       do_ (Sock (Sockopt fd "nolinger"));;
       do_ (Close fd)
     else mret tt);;
    upd (set_data_fd (-1));;
    when (0 <? tu tun "data_connection_timeout") (do_ (Sys (Alarm 0)));;
    abor ← gets abor_received;
    timeout ← gets data_timeout;
    mret (if abor || timeout then false else dispose_ret).

Definition vsf_ftpdataio_get_pasv_fd : M Z :=
  remote_fd ← get_pasv_fd;
  if remote_fd =? -1 then
    vsf_cmdio_write 425 "Failed to establish connection.";;
    mret remote_fd
  else if remote_fd =? -2 then
    vsf_cmdio_write 425 "Security: Bad IP connecting.";;
    mret (-1)
  else
    init_data_sock_params remote_fd;;
    mret remote_fd.

Definition vsf_ftpdataio_get_port_fd : M Z :=
  remote_fd ← get_priv_data_sock (one_process || tb tun "port_promiscuous");
  if vsf_sysutil_retval_is_error remote_fd then
    vsf_cmdio_write 425 "Failed to establish connection.";;
    mret (-1)
  else
    init_data_sock_params remote_fd;;
    mret remote_fd.

Definition vsf_ftpdataio_post_mark_connect : M bool :=
  ssl ← gets data_use_ssl;
  slave ← gets ssl_slave_active;
  if negb ssl then mret true
  else
    ret ← (if negb slave then
             r ← sys (Ssl (SslCall "ssl_accept" []));
             upd (set_p_data_ssl (r =? 1));;
             mret (r =? 1)
           else
             r ← sys (Ssl (SlaveCmd "SSL_HANDSHAKE" []));
             mret (r =? 1));
    (if negb ret then
       if tb tun "require_ssl_reuse" then
         vsf_cmdio_write_exit 522 "SSL connection failed: session reuse required" 1
       else vsf_cmdio_write 522 "SSL connection failed"
     else mret tt);;
    mret ret.

(** ** Downloads *)

(** [dlbuf]: the part of the download buffer between [dlbuf_curpos] and
    [dlbuf_len]. *)
Fixpoint send_loop (fuel : nat) (is_ascii : bool) (chunk_size bufsize file_size : Z)
    (dlbuf : bytes) (offset : Z) (prev_cr : bool) (transferred : Z) : M vsf_transfer_ret :=
  match fuel with
  | O => stop_with Fuel
  | S fuel' =>
      '(dlbuf_len, dlbuf, offset) ←
        (if isempty dlbuf then
           if file_size <=? offset then mret (0, [], offset)
           else
             path ← gets ftp_arg_str;
             '(dlbuf_len, data) ← cos_download_file path bufsize offset file_size;
             mret (dlbuf_len, data, offset + dlbuf_len)
         else mret (zlen dlbuf, dlbuf, offset));
      if dlbuf_len <? 0 then mret (TransferRet (-1) transferred)
      else if dlbuf_len =? 0 then mret (TransferRet 0 transferred)
      else
        let chunk := take (Z.to_nat chunk_size) dlbuf in
        let rest := drop (Z.to_nat chunk_size) dlbuf in
        '(out, prev_cr) ←
          (if is_ascii then
             '(r, buf) ← lift (vsf_ascii_bin_to_ascii chunk
                                 (replicate (Z.to_nat (VSFTP_DATA_BUFSIZE * 2)) NUL) prev_cr);
             mret (take (b2a_stored r) buf, b2a_last_was_cr r)
           else mret (chunk, prev_cr));
        retval ← ftp_write_data out;
        let transferred :=
          if vsf_sysutil_retval_is_error retval then transferred else transferred + retval in
        if vsf_sysutil_retval_is_error retval || negb (retval =? zlen out)
        then mret (TransferRet (-2) transferred)
        else send_loop fuel' is_ascii chunk_size bufsize file_size rest offset prev_cr transferred
  end.

(** The download buffer keeps the size of its first allocation. *)
Definition download_bufsize : M Z :=
  s ← getw s_download_bufsize;
  match s with
  | Some n => mret n
  | None =>
      modw (put_s_download_bufsize (Some get_cos_download_chunksize));;
      mret get_cos_download_chunksize
  end.

Definition do_file_send_rwloop (fuel : nat) (is_ascii : bool) (offset file_size : Z)
    : M vsf_transfer_ret :=
  bufsize ← download_bufsize;
  send_loop fuel is_ascii get_chunk_size bufsize file_size [] offset false 0.

(** ** Uploads *)

Definition max_upload : M Z :=
  m ← getw s_max_upload;
  if m <? 0 then
    modw (put_s_max_upload (tu tun "max_upload_file_size" * 1024));;
    mret (tu tun "max_upload_file_size" * 1024)
  else mret m.

Fixpoint recv_loop (fuel : nat) (file_fd : Z) (is_ascii : bool) (chunk_size have_recv_len : Z)
    (prev_cr : bool) (transferred : Z) : M vsf_transfer_ret :=
  match fuel with
  | O => stop_with Fuel
  | S fuel' =>
      '(retval, data) ← ftp_read_data chunk_size;
      if vsf_sysutil_retval_is_error retval then mret (TransferRet (-2) transferred)
      else if (retval =? 0) && negb prev_cr then mret (TransferRet 0 transferred)
      else
        let transferred := transferred + retval in
        max_upload_file_size ← max_upload;
        if size_exceeded max_upload_file_size (transferred + have_recv_len)
        then mret (TransferRet (-3) transferred)
        else
          '(out, prev_cr) ←
            (if is_ascii then
               r ← lift (vsf_ascii_ascii_to_bin (NUL :: data) (length data) prev_cr);
               mret (a2b_text r, a2b_last_was_cr r.1)
             else mret (data, prev_cr));
          retval ← vsf_sysutil_write_loop file_fd out;
          if vsf_sysutil_retval_is_error retval || negb (retval =? zlen out)
          then mret (TransferRet (-1) transferred)
          else recv_loop fuel' file_fd is_ascii chunk_size have_recv_len prev_cr transferred
  end.

Definition do_file_recv (fuel : nat) (file_fd : Z) (is_ascii : bool) (have_recv_len : Z)
    : M vsf_transfer_ret :=
  recv_loop fuel file_fd is_ascii get_chunk_size have_recv_len false 0.

Definition vsf_ftpdataio_transfer_file (fuel : nat) (file_fd : Z) (is_recv is_ascii : bool)
    (have_recv_len file_size : Z) : M vsf_transfer_ret :=
  if negb is_recv then do_file_send_rwloop fuel is_ascii have_recv_len file_size
  else do_file_recv fuel file_fd is_ascii have_recv_len.

(** [calc_num_send], for a file of size [bytes_to_send]. *)
Definition calc_num_send (file_fd init_offset : Z) : M Z :=
  a ← vsf_sysutil_fstat file_fd;
  let bytes_to_send := a_size a in
  if (init_offset <? 0) || (bytes_to_send <? 0) then
    mdie "calc_num_send: negative file offset or send count"
  else mret (if bytes_to_send <? init_offset then 0 else bytes_to_send - init_offset).

(** ** Directory listings *)

(** The lines go out in blocks: a block is written when it is the last or the
    next line would not fit. *)
Fixpoint write_dir_list_loop (lines : list bytes) (buf_str : bytes) (tgt : target) : M bool :=
  match lines with
  | [] => mret false
  | l :: lines' =>
      let buf := buf_str ++ l in
      if match lines' with
         | [] => true
         | next :: _ => VSFTP_DIR_BUFSIZE <? zlen buf + zlen next
         end
      then
        writeret ← ftp_write_str buf tgt;
        if negb (writeret =? 0) then mret true
        else write_dir_list_loop lines' [] tgt
      else write_dir_list_loop lines' buf tgt
  end.

Definition write_dir_list (p_dir_list : mystr_list) (tgt : target) : M bool :=
  write_dir_list_loop (str <$> p_nodes p_dir_list) [] tgt.

End DataIO.
