(* ===== verification/Transfers.v ===== *)
(** * File transfers, end to end

    The loops of ftpdataio.c between COS, the local file and the data
    connection, for any way in which COS and the kernel cut the data. *)

From Stdlib Require Import Init.Byte Strings.Byte.
From Stdlib Require Import ZArith Lia String.
From stdpp Require Import base list numbers option gmap strings.
From S2P Require Import Prelude SysUtil Text StrList IpAddr Tunables Ascii Session.
From S2P Require Import CmdIO Signals Logic Traffic Interrupts Paths PrivOps Cos DataIO.

Lemma chunk_size_range `{T : Tun} : 4096 ≤ get_chunk_size ≤ VSFTP_DATA_BUFSIZE.
Proof.
  unfold get_chunk_size, VSFTP_DATA_BUFSIZE. generalize (tu tun "trans_chunk_size"). intros c.
  repeat (case_match; b2p); lia.
Qed.

Lemma download_chunk_range `{T : Tun} :
  65536 ≤ get_cos_download_chunksize ≤ VSFTP_COS_DOWNLOAD_BUFSIZE.
Proof.
  unfold get_cos_download_chunksize, VSFTP_COS_DOWNLOAD_BUFSIZE.
  generalize (tu tun "cos_download_chunk_size"). intros c. repeat (case_match; b2p); lia.
Qed.

Lemma wp_download_bufsize `{T : Tun} w :
  (∀ n, s_download_bufsize w = Some n → 0 < n < 2 ^ 32) →
  wp download_bufsize (λ n w', 0 < n < 2 ^ 32 ∧ hist w' = hist w ∧ sess w' = sess w) (λ _ _, False) w.
Proof.
  intros Hbuf. pose proof download_chunk_range. unfold download_bufsize.
  wp_auto; [split; [by apply Hbuf|done]|]. split; [|done]. unfold VSFTP_COS_DOWNLOAD_BUFSIZE in *. lia.
Qed.

(** What a download sends for the bytes [s] of the object, and an upload
    stores for the bytes [s] of the connection. *)
Definition sent_form (is_ascii : bool) (s : bytes) : bytes := if is_ascii then (enc false s).1 else s.
Definition stored_form (is_ascii : bool) (s : bytes) : bytes := if is_ascii then crlf_to_lf s else s.

(** ** Downloads *)

(** COS gives the bytes of the object [O] at the offset, at least one. *)
Class Serves (E : Env) (bucket path O : bytes) : Prop := serves h n off :
  0 < n → 0 ≤ off < zlen O →
  let a := env h (Cos (FileDownload bucket (cstr path) n off)) in
  1 ≤ a_int a ∧ take (Z.to_nat (Z.min (a_int a) n)) (text_of a)
    = take (Z.to_nat (Z.min (a_int a) n)) (drop (Z.to_nat off) O).

Section Download.
Context `{E : Env} `{T : Tun} {HS : NoSignals E}.
Context (dfd : Z) {HP : Progress E dfd} (bucket path O : bytes) {HO : Serves E bucket path O}.
Context (Hbucket : setting "cos_bucket" = Ok bucket) (Habs : is_relative path = false).
Context (Hsize : zlen O < 2 ^ 63).

Definition on_data (w : world) : Prop :=
  data_fd (sess w) = dfd ∧ data_use_ssl (sess w) = false ∧ ftp_arg_str (sess w) = path.

Lemma on_data_wrote fd d w w' : on_data w → wrote fd d w w' → on_data w'.
Proof. intros (H1 & H2 & H3) [_ _ _ Hs _ _]. injection Hs as E1 E2 _ _ E3 _ _.
  split_and!; congruence.
Qed.

Lemma wp_write_data d (Q : Z → world → Prop) w :
  on_data w → zlen d ≤ INT_MAX →
  (∀ w', wrote dfd d w w' → Q (zlen d) w') → wp (ftp_write_data d) Q (λ _ _, False) w.
Proof.
  intros (Hfd & Hssl & _) Hl HQ. unfold ftp_write_data. do 6 wp_step. rewrite Hssl, Hfd. cbn [andb].
  unfold vsf_sysutil_write_loop. destruct (INT_MAX <? _) eqn:?; [ztest; lia|].
  apply wp_write_loop_total; [done|lia|done].
Qed.

(** One round of the loop, from the next chunk on. *)
Lemma wp_send_chunk (asc : bool) chunk prev_cr (k : bytes * bool → M vsf_transfer_ret) Q Ex w :
  zlen chunk ≤ VSFTP_DATA_BUFSIZE →
  wp (k (if asc then (enc prev_cr chunk).1 else chunk, if asc then (enc prev_cr chunk).2 else prev_cr)) Q Ex w →
  wp ((if asc then
         '(r, buf) ← lift (vsf_ascii_bin_to_ascii chunk
                             (replicate (Z.to_nat (VSFTP_DATA_BUFSIZE * 2)) NUL) prev_cr);
         mret (take (b2a_stored r) buf, b2a_last_was_cr r)
       else mret (chunk, prev_cr)) ≫= k) Q Ex w.
Proof.
  intros Hl Hk. apply wp_bind. destruct asc; [|by wp_step].
  destruct (bin_to_ascii_ok chunk (replicate (Z.to_nat (VSFTP_DATA_BUFSIZE * 2)) NUL) prev_cr)
    as (rest & Hr).
  { rewrite length_replicate. unfold zlen in Hl. lia. }
  rewrite Hr. do 2 wp_step; [|done]. simplify_eq. wp_step. cbn [b2a_stored b2a_last_was_cr].
  by rewrite take_app_length.
Qed.

(** What is still to be sent: the rest of the buffer and of the object. *)
Definition pending (dlbuf : bytes) (off : Z) : bytes := dlbuf ++ drop (Z.to_nat off) O.

(** A part of the object has come. *)
Lemma pending_take m off :
  0 ≤ off → let d := take m (drop (Z.to_nat off) O) in pending d (off + zlen d) = pending [] off.
Proof.
  intros Hoff d. unfold pending, zlen. cbn [app].
  rewrite Z2Nat.inj_add, Nat2Z.id, <- drop_drop by lia. subst d.
  set (s := drop (Z.to_nat off) O). rewrite length_take. destruct (decide (m <= length s)%nat).
  - rewrite Nat.min_l by done. apply take_drop.
  - rewrite Nat.min_r, take_ge, drop_all by lia. apply app_nil_r.
Qed.

(** Filling the buffer. *)
Definition filled (dlbuf : bytes) (off : Z) (w : world) (r : Z * bytes * Z) (w' : world) : Prop :=
  let '(len, d, o) := r in
  wrote dfd [] w w' ∧ len = zlen d ∧ pending d o = pending dlbuf off ∧
  0 ≤ o ≤ zlen O ∧ (d = [] → pending dlbuf off = []).

(** One request for a part of the object. *)
Lemma wp_download bs off (Q : Z * bytes → world → Prop) w :
  0 < bs < 2 ^ 32 → 0 ≤ off < zlen O →
  (∀ w' m, wrote dfd [] w w' → (0 < m)%nat →
     let d := take m (drop (Z.to_nat off) O) in Q (zlen d, d) w') →
  wp (cos_download_file path bs off (zlen O)) Q (λ _ _, False) w.
Proof.
  intros Hbs Hoff HQ. unfold cos_download_file, file_path, get_cos_path_from_disk_path.
  rewrite Habs, Hbucket. cbv zeta. set (bl := if u64 _ <? bs then _ else _).
  assert (0 < bl) as Hbl.
  { subst bl. assert (u64 (zlen O - off) = zlen O - off) as -> by (unfold u64; rewrite Z.mod_small; lia).
    destruct (_ <? bs) eqn:?; b2p; [|lia]. rewrite u32_small; unfold UINT_MOD; lia. }
  clearbody bl. change (wp (download_loop 2 (FileDownload bucket (cstr path) bl off) bl 0) Q (λ _ _, False) w).
  cbn [download_loop]. wp_step. apply wp_ask. intros a ->.
  destruct (HO (hist w) bl off) as [H1 H2]; [lia..|].
  set (a := env _ _) in *. clearbody a. rewrite (proj2 (Z.leb_le 0 (a_int a))) by lia. rewrite H2.
  apply HQ; [|lia]. split; intros; cbn; rewrite ?app_nil_r; try case_match; by rewrite ?app_nil_r.
Qed.

Lemma wp_fill bs dlbuf off w :
  on_data w → 0 < bs < 2 ^ 32 → 0 ≤ off ≤ zlen O →
  wp (if isempty dlbuf then
        if zlen O <=? off then mret (0, [], off)
        else
          path ← gets ftp_arg_str;
          '(dlbuf_len, data) ← cos_download_file path bs off (zlen O);
          mret (dlbuf_len, data, off + dlbuf_len)
      else mret (zlen dlbuf, dlbuf, off)) (filled dlbuf off w) (λ _ _, False) w.
Proof.
  intros (_ & _ & Hpath) Hbs Hoff. unfold zlen in Hoff.
  assert (wrote dfd [] w w) as Hrefl by (apply kept_wrote; reflexivity).
  unfold isempty. case_bool_decide as Hd.
  2:{ wp_step. repeat (split; [done|]). by intros ->. }
  subst dlbuf. destruct (zlen O <=? off) eqn:Ho; ztest.
  - wp_step. unfold zlen in *. repeat (split; [done || lia|]).
    intros _. unfold pending. cbn. apply drop_ge. lia.
  - do 2 wp_step. rewrite Hpath. wp_step. apply wp_download; [done|unfold zlen in *; b2p; lia|].
    intros w' m Hw' Hm. cbv zeta. wp_step.
    assert (0 < length (drop (Z.to_nat off) O))%nat as Hl by (rewrite length_drop; unfold zlen in *; lia).
    unfold filled. split; [done|]. split; [done|]. rewrite pending_take by lia. unfold zlen in *.
    rewrite length_take. split_and!; [done|lia|..].
    + rewrite length_drop. lia.
    + intros Hnil. apply (f_equal length) in Hnil. rewrite length_take in Hnil. cbn in Hnil. lia.
Qed.

Lemma send_loop_total fuel (asc : bool) cs bs dlbuf off prev tr (Q : vsf_transfer_ret → world → Prop) w :
  on_data w → 0 < cs ≤ VSFTP_DATA_BUFSIZE → 0 < bs < 2 ^ 32 → 0 ≤ off ≤ zlen O →
  (length (pending dlbuf off) < fuel)%nat →
  (let out := if asc then (enc prev (pending dlbuf off)).1 else pending dlbuf off in
   ∀ w', wrote dfd out w w' → Q (TransferRet 0 (tr + zlen out)) w') →
  wp (send_loop fuel asc cs bs (zlen O) dlbuf off prev tr) Q (λ _ _, False) w.
Proof.
  revert dlbuf off prev tr Q w. induction fuel as [|fuel IH]; intros dlbuf off prev tr Q w Hw Hcs Hbs Hoff Hf HQ; [lia|].
  cbn [send_loop]. apply wp_bind. eapply wp_mono; [by apply wp_fill| |done].
  intros [[len d] o] w1 (Hw1 & -> & Hp & Ho & Hnil). pose proof (on_data_wrote _ _ _ _ Hw Hw1) as Hd1.
  rewrite <- Hp in *. rewrite (proj2 (Z.ltb_ge (zlen d) 0)) by (unfold zlen; lia).
  destruct (zlen d =? 0) eqn:Hd0; b2p.
  { assert (d = []) as -> by (destruct d; [done|unfold zlen in Hd0; cbn in Hd0; lia]).
    specialize (Hnil eq_refl). rewrite Hnil in HQ. wp_step. destruct asc; cbn in HQ;
      (rewrite Z.add_0_r in HQ; by apply HQ). }
  assert (d ≠ []) as Hd by (by intros ->).
  set (chunk := take (Z.to_nat cs) d). set (rest := drop (Z.to_nat cs) d).
  assert (d = chunk ++ rest) as Hcr by (symmetry; apply take_drop).
  assert (chunk ≠ []) as Hc0.
  { subst chunk. destruct d; [done|]. destruct (Z.to_nat cs) eqn:?; [lia|done]. }
  assert (zlen chunk ≤ VSFTP_DATA_BUFSIZE) as Hcl by (unfold zlen, chunk; rewrite length_take; lia).
  apply wp_send_chunk; [done|]. clearbody chunk rest.
  set (out := if asc then (enc prev chunk).1 else chunk).
  assert (zlen out ≤ INT_MAX) as Hol.
  { subst out. unfold zlen, VSFTP_DATA_BUFSIZE, INT_MAX in *. pose proof (enc_length prev chunk).
    destruct asc; lia. }
  apply wp_bind. apply wp_write_data; [done..|]. intros w2 Hw2.
  unfold vsf_sysutil_retval_is_error. rewrite (proj2 (Z.ltb_ge _ 0)) by (unfold zlen; lia).
  rewrite Z.eqb_refl. cbn [orb negb]. apply IH; [by eapply on_data_wrote|done..| |].
  { unfold pending in *. rewrite Hcr, <- app_assoc, length_app in Hf. destruct chunk; [done|]. cbn in Hf. lia. }
  assert ((if asc then (enc prev (pending d o)).1 else pending d o) = out ++
    (if asc then (enc (if asc then (enc prev chunk).2 else prev) (pending rest o)).1
     else pending rest o)) as Hx.
  { unfold pending, out. rewrite Hcr, <- app_assoc. destruct asc; [|done]. by rewrite enc_app. }
  rewrite Hx in HQ. cbv zeta. revert HQ.
  generalize (if asc then (enc (if asc then (enc prev chunk).2 else prev) (pending rest o)).1
     else pending rest o). intros nx HQ w3 Hw3. cbv zeta in HQ.
  replace (tr + zlen out + zlen nx) with (tr + zlen (out ++ nx))
    by (unfold zlen; rewrite length_app; lia).
  apply HQ. change out with ([] ++ out). rewrite <- app_assoc. eapply wrote_trans; [exact Hw1|].
  by eapply wrote_trans.
Qed.

End Download.

Section DownloadResult.
Context `{E : Env} `{T : Tun} {HS : NoSignals E}.

(** C7: A download delivers the object of an absolute path in the
    configured bucket. Whatever the sizes of the blocks that COS returns, one byte
    at least each, and whatever the sizes of those that the kernel takes, one byte
    at least each, a download of the object [O] from [offset]
    ends after finitely many rounds with success and sends on the data
    connection exactly the rest of the object, in ASCII mode with its line
    ends converted, and counts the bytes it sent. Assumed: a plain data connection
    ([data_use_ssl] is off), and no signals ([NoSignals]). A block of no bytes, a
    failure or a signal is the subject of [download_honest]. *)
Theorem download_delivers (fuel : nat) (is_ascii : bool) (offset : Z) (bucket path O : bytes) (w : world) :
  Progress E (data_fd (sess w)) → Serves E bucket path O →
  setting "cos_bucket" = Ok bucket → is_relative path = false → zlen O < 2 ^ 63 →
  data_use_ssl (sess w) = false → ftp_arg_str (sess w) = path →
  (∀ n, s_download_bufsize w = Some n → 0 < n < 2 ^ 32) →
  0 ≤ offset ≤ zlen O → (length O < fuel)%nat →
  let out := sent_form is_ascii (drop (Z.to_nat offset) O) in
  ∃ w', do_file_send_rwloop fuel is_ascii offset (zlen O) w = (Ok (TransferRet 0 (zlen out)), w') ∧
        sent (data_fd (sess w)) (hist w') = sent (data_fd (sess w)) (hist w) ++ out.
Proof.
  intros HP HO Hbucket Habs Hsize Hssl Hpath Hbuf Hoff Hfuel out.
  assert (wp (do_file_send_rwloop fuel is_ascii offset (zlen O)) (λ r w', r = TransferRet 0 (zlen out) ∧
    sent (data_fd (sess w)) (hist w') = sent (data_fd (sess w)) (hist w) ++ out) (λ _ _, False) w) as H.
  { unfold do_file_send_rwloop. pose proof chunk_size_range. wp_step.
    eapply wp_mono; [by apply wp_download_bufsize|intros n w1 (Hn & Hh & Hse)|done].
    apply (send_loop_total (data_fd (sess w)) bucket path O); [done..| |lia|done|done| |].
    - unfold on_data. by rewrite Hse.
    - unfold pending. cbn [app]. rewrite length_drop. lia.
    - unfold pending. cbn [app].
      change (if is_ascii then (enc false (drop (Z.to_nat offset) O)).1
              else drop (Z.to_nat offset) O) with out.
      intros w' Hw'. split; [done|]. by rewrite (wrote_sent _ _ _ _ Hw'), Z.eqb_refl, Hh. }
  unfold wp in H. destruct (do_file_send_rwloop _ _ _ _ w) as [[r|] w']; [|done].
  destruct H as [-> H]. eauto.
Qed.

End DownloadResult.

(** ** Uploads *)

(** The size limit never applies: the code compares the limit with the value
    of a conjunction. *)
Lemma size_never_exceeded m total : 0 ≤ m → size_exceeded m total = false.
Proof.
  intros Hm. unfold size_exceeded, of_bool. apply Z.ltb_ge. case_match; b2p; lia.
Qed.

Lemma dec_length p s : (length (dec p s).1 <= 2 * length s)%nat.
Proof.
  revert p; induction s as [|c s IH]; intros p; cbn [dec length]; [done|].
  specialize (IH (bool_decide (c = CR))). destruct (dec _ s) as [o f]. cbn in *.
  rewrite !length_app. repeat case_match; cbn; lia.
Qed.

(** The peer sends the stream [S] and closes: a read gives something of what
    is left of it, and nothing only at its end. *)
Class Streams (E : Env) (dfd : Z) (S : bytes) : Prop := streams h n :
  0 < n →
  let rest := drop (length (received dfd h)) S in
  let a := env h (Read dfd n) in
  0 ≤ a_int a ≤ Z.min n (zlen rest) ∧ (rest ≠ [] → 1 ≤ a_int a) ∧
  take (Z.to_nat (a_int a)) (text_of a) = take (Z.to_nat (a_int a)) rest.

Section Upload.
Context `{E : Env} `{T : Tun} {HS : NoSignals E}.
Context (dfd fd : Z) {HP : Progress E fd} (S : bytes) {HST : Streams E dfd S}.
Context (Hmax : 0 ≤ tu tun "max_upload_file_size").

Definition on_upload (w : world) : Prop := data_fd (sess w) = dfd ∧ data_use_ssl (sess w) = false.

Definition left (w : world) : bytes := drop (length (received dfd (hist w))) S.

Lemma wp_read_data n (Q : Z * bytes → world → Prop) w :
  on_upload w → 0 < n →
  (∀ d w', on_upload w' → left w = d ++ left w' → (d = [] → left w = []) → zlen d ≤ n →
     sent fd (hist w') = sent fd (hist w) → Q (zlen d, d) w') →
  wp (ftp_read_data n) Q (λ _ _, False) w.
Proof.
  intros (Hfd & Hssl) Hn HQ. unfold ftp_read_data, vsf_sysutil_read. do 6 wp_step. rewrite Hssl, Hfd.
  cbn [andb]. do 2 wp_step. wp_step. apply wp_pend. intros w' Hk. wp_step.
  destruct (HST (hist w) n Hn) as (H1 & H2 & H3). subst a. set (a := env _ _) in *. clearbody a.
  fold (left w) in *. replace (Z.min (a_int a) n) with (a_int a) by lia. rewrite H3.
  set (m := Z.to_nat (a_int a)) in *. unfold zlen in *.
  assert (length (take m (left w)) = m) as Hm by (rewrite length_take_le; lia).
  replace (a_int a) with (Z.of_nat (length (take m (left w)))) at 1 by lia.
  assert (received dfd (hist w') = received dfd (hist w) ++ take m (left w)) as Hr.
  { rewrite (kept_received _ _ Hk). cbn. rewrite Z.eqb_refl. f_equal.
    replace (Z.min (a_int a) n) with (a_int a) by lia. exact H3. }
  apply HQ.
  - pose proof (kept_steady _ _ Hk) as Hst. injection Hst as E1 E2 _ _ _ _ _. by split; congruence.
  - unfold left at 3. rewrite Hr, length_app, Hm, <- drop_drop. fold (left w). by rewrite take_drop.
  - intros Hd. rewrite Hd in Hm. cbn in Hm. destruct (left w); [done|]. assert (1 ≤ a_int a) by (by apply H2). lia.
  - lia.
  - by rewrite (kept_sent _ _ Hk).
Qed.

(** The conversion of one block, and the bytes that are written for it. *)
Lemma wp_recv_chunk (asc : bool) d prev_cr (k : bytes * bool → M vsf_transfer_ret) Q Ex w :
  (d = [] → asc = true ∧ prev_cr = true) →
  wp (k (if asc then (if isempty d then flush prev_cr else (dec prev_cr d).1) else d,
         if asc then (if isempty d then false else (dec prev_cr d).2) else prev_cr)) Q Ex w →
  wp ((if asc then
         r ← lift (vsf_ascii_ascii_to_bin (NUL :: d) (length d) prev_cr);
         mret (a2b_text r, a2b_last_was_cr r.1)
       else mret (d, prev_cr)) ≫= k) Q Ex w.
Proof.
  intros Hd Hk. apply wp_bind. destruct asc; [|by wp_step]. unfold isempty in Hk.
  case_bool_decide as Hn.
  - subst d. destruct (Hd eq_refl) as [_ ->]. destruct (ascii_to_bin_flush NUL []) as (r & Hr & H1 & H2).
    cbn [length]. rewrite Hr. do 2 wp_step; [|done]. simplify_eq. wp_step. by rewrite H1, H2.
  - destruct (ascii_to_bin_ok NUL d [] prev_cr Hn) as (r & Hr & H1 & H2). rewrite app_nil_r in Hr.
    rewrite Hr. do 2 wp_step; [|done]. simplify_eq. wp_step. by rewrite H1, H2.
Qed.

Lemma wp_max_upload (Q : Z → world → Prop) Ex w :
  (∀ m w', 0 ≤ m → sess w' = sess w → hist w' = hist w → Q m w') →
  wp max_upload Q Ex w.
Proof.
  intros HQ. unfold max_upload. wp_auto; b2p; apply HQ; try done; lia.
Qed.

(** What is still to be stored, [prev_cr] saying that a CR is held back. *)
Definition to_store (asc prev_cr : bool) (s : bytes) : bytes :=
  if asc then (dec prev_cr s).1 ++ flush (dec prev_cr s).2 else s.

Lemma to_store_step asc prev_cr d s :
  (asc = false → prev_cr = false) → (d = [] → prev_cr = true ∧ s = []) →
  to_store asc prev_cr (d ++ s) =
  (if asc then (if isempty d then flush prev_cr else (dec prev_cr d).1) else d) ++
  to_store asc (if asc then (if isempty d then false else (dec prev_cr d).2) else prev_cr) s.
Proof.
  intros Ha Hd. unfold to_store, isempty. destruct asc; [|done]. case_bool_decide as Hn.
  - destruct (Hd Hn) as [-> ->]. subst d. done.
  - rewrite dec_app. cbn [fst snd]. by rewrite <- app_assoc.
Qed.

Lemma recv_loop_total fuel (asc : bool) cs have prev_cr tr (Q : vsf_transfer_ret → world → Prop) w :
  on_upload w → 0 < cs ≤ VSFTP_DATA_BUFSIZE → (asc = false → prev_cr = false) →
  (2 * length (left w) + (if prev_cr then 1 else 0) < fuel)%nat →
  (∀ w', sent fd (hist w') = sent fd (hist w) ++ to_store asc prev_cr (left w) →
     Q (TransferRet 0 (tr + zlen (left w))) w') →
  wp (recv_loop fuel fd asc cs have prev_cr tr) Q (λ _ _, False) w.
Proof.
  revert prev_cr tr Q w. induction fuel as [|fuel IH]; intros prev_cr tr Q w Hw Hcs Hasc Hf HQ; [lia|].
  cbn [recv_loop]. apply wp_bind. apply wp_read_data; [done|lia|]. intros d w1 Hw1 Hleft Hnil Hdn Hs1.
  unfold vsf_sysutil_retval_is_error. rewrite (proj2 (Z.ltb_ge _ 0)) by (unfold zlen; lia).
  destruct ((zlen d =? 0) && negb prev_cr) eqn:Hend.
  { b2p. destruct prev_cr; [done|]. assert (d = []) as -> by (destruct d; [done|unfold zlen in *; cbn in *; lia]).
    specialize (Hnil eq_refl). rewrite Hnil in HQ. wp_step. specialize (HQ w1). cbn in HQ.
    rewrite Z.add_0_r in HQ. apply HQ. rewrite Hs1. by destruct asc; rewrite app_nil_r. }
  assert (d = [] → prev_cr = true ∧ left w1 = []) as Hd0.
  { intros ->. rewrite Hnil in Hleft by done. by destruct prev_cr. }
  apply wp_bind, wp_max_upload. intros m w2 Hm Hse Hh. rewrite size_never_exceeded by done.
  apply wp_recv_chunk.
  { intros Hd. destruct (Hd0 Hd) as [-> _]. by destruct asc; [|specialize (Hasc eq_refl)]. }
  rewrite Hleft in HQ. rewrite to_store_step in HQ by done.
  set (out := if asc then _ else d) in *. set (p' := if asc then _ else prev_cr) in *.
  assert (zlen out ≤ INT_MAX) as Hol.
  { subst out. unfold zlen, VSFTP_DATA_BUFSIZE, INT_MAX in *. pose proof (dec_length prev_cr d).
    destruct asc; [|lia]. destruct (isempty d); [destruct prev_cr; cbn; lia|lia]. }
  assert (asc = false → p' = false) as Hp' by (intros ->; by apply Hasc).
  assert (2 * length (left w1) + (if p' then 1 else 0) < fuel)%nat as Hf'.
  { rewrite Hleft, length_app in Hf. destruct d as [|c d]; cbn [length] in *.
    - destruct (Hd0 eq_refl) as [-> _]. subst p'. destruct asc; [cbn; lia|by specialize (Hasc eq_refl)].
    - destruct p'; lia. }
  clearbody out p'. apply wp_bind. unfold vsf_sysutil_write_loop. destruct (INT_MAX <? _) eqn:?; [ztest; lia|].
  apply wp_write_loop_total; [done|lia|]. intros w3 Hw3. rewrite Z.add_0_l.
  rewrite (proj2 (Z.ltb_ge _ 0)), Z.eqb_refl by (unfold zlen; lia). cbn [orb negb].
  assert (left w3 = left w1) as Hl3 by (unfold left; by rewrite (wrote_received _ _ _ _ Hw3), Hh).
  apply IH; [|done|done|by rewrite Hl3|].
  { pose proof (wrote_steady _ _ _ _ Hw3) as Hst. injection Hst as E1 E2 _ _ _ _ _.
    destruct Hw1. rewrite Hse in *. by split; congruence. }
  intros w4 Hw4. rewrite Hl3 in *. replace (tr + zlen d + _) with (tr + zlen (d ++ left w1))
    by (unfold zlen; rewrite length_app; lia).
  apply HQ. rewrite Hw4, (wrote_sent _ _ _ _ Hw3), Z.eqb_refl, Hh, Hs1. by rewrite app_assoc.
Qed.

End Upload.

Section UploadResult.
Context `{E : Env} `{T : Tun}.

(** C5: An upload stores what the client sent. However the network cuts the
    stream [S] and however the kernel cuts the writes, [do_file_recv] ends after
    finitely many rounds with success, has written exactly the stream to the
    local file, in ASCII mode with every CR LF turned into LF (also when the
    two come in different reads, and with a final CR kept), and counts the bytes
    that came in. Assumed: a plain data connection ([data_use_ssl] is off) that was
    not read before, no signals ([NoSignals]), reads and writes that do not fail and
    move one byte at least, and a limit on uploads that is not negative. *)
Theorem upload_stores {HS : NoSignals E} (fuel : nat) (fd : Z) (is_ascii : bool) (have : Z)
    (S : bytes) (w : world) :
  Progress E fd → Streams E (data_fd (sess w)) S →
  data_use_ssl (sess w) = false → received (data_fd (sess w)) (hist w) = [] →
  0 ≤ tu tun "max_upload_file_size" → (2 * length S < fuel)%nat →
  ∃ w', do_file_recv fuel fd is_ascii have w = (Ok (TransferRet 0 (zlen S)), w') ∧
        sent fd (hist w') = sent fd (hist w) ++ stored_form is_ascii S.
Proof.
  intros HP HST Hssl Hrec Hmax Hfuel. pose proof chunk_size_range.
  assert (left (data_fd (sess w)) S w = S) as Hl by (unfold left; by rewrite Hrec).
  assert (wp (do_file_recv fuel fd is_ascii have) (λ r w', r = TransferRet 0 (zlen S) ∧
    sent fd (hist w') = sent fd (hist w) ++ stored_form is_ascii S) (λ _ _, False) w) as H0.
  { apply (recv_loop_total (data_fd (sess w)) fd S Hmax); [by split|lia|done|rewrite Hl; lia|].
    rewrite Hl. intros w' Hw'. split; [done|]. rewrite Hw'. f_equal. unfold to_store, stored_form.
    destruct is_ascii; [|done]. by rewrite dec_crlf. }
  unfold wp in H0. destruct (do_file_recv fuel fd is_ascii have w) as [[r|] w']; [|done].
  destruct H0 as [-> H0]. eauto.
Qed.

Lemma hoare_any {A} Pre (m : M A) : hoare Pre m (λ _ _, True) (λ _ _, True).
Proof. intros w _. by destruct (m w) as [[]]. Qed.

(** The result that stands for a file over the limit. *)
Definition TOO_LARGE : Z := -3.

Lemma recv_loop_no_limit fuel fd asc cs have prev_cr tr :
  0 ≤ tu tun "max_upload_file_size" →
  hoare (λ _, True) (recv_loop fuel fd asc cs have prev_cr tr)
    (λ r _, retval r ≠ TOO_LARGE) (λ _ _, True).
Proof.
  intros Hmax. revert prev_cr tr. induction fuel as [|fuel IH]; intros prev_cr tr; cbn [recv_loop]; [done|].
  eapply hoare_bind; [apply hoare_any|intros [r d]]. apply hoare_wp. intros w _.
  destruct (vsf_sysutil_retval_is_error r); [by wp_step|].
  destruct (_ && _); [by wp_step|]. cbv zeta. wp_step. apply wp_max_upload; [done|]. intros m w1 Hm _ _.
  rewrite size_never_exceeded by done. wp_step.
  eapply wp_mono; [eapply wp_hoare; [apply (hoare_any (λ _, True))|done]| |done].
  intros [out p] w2 _. wp_step.
  eapply wp_mono; [eapply wp_hoare; [apply (hoare_any (λ _, True))|done]| |done].
  intros rr w3 _. destruct (_ || _); [by wp_step|]. by apply IH.
Qed.

(** The limit on the size of an upload is never enforced: for every
    max_upload_file_size, every kernel and every length of the file,
    [do_file_recv] does not return the -3 that stands for a file that is too
    large. The condition compares the limit with the truth value of "limit > 0
    and total > 0". *)
Theorem upload_limit_ignored (fuel : nat) (fd : Z) (is_ascii : bool) (have : Z) (w w' : world)
    (r : vsf_transfer_ret) :
  0 ≤ tu tun "max_upload_file_size" →
  do_file_recv fuel fd is_ascii have w = (Ok r, w') → retval r ≠ TOO_LARGE.
Proof.
  intros Hmax Hr. pose proof (recv_loop_no_limit fuel fd is_ascii get_chunk_size have false 0 Hmax w I) as H.
  unfold do_file_recv in Hr. by rewrite Hr in H.
Qed.

End UploadResult.

(** *** Uploads that fail or are cut short *)

(** As [Streams], but a read may fail at any point, and the connection may end
    early once this process has shut it down; after the end there is nothing
    more. Nothing is said of writes. *)
Class Flaky (E : Env) (dfd : Z) (S : bytes) : Prop := flaky h n :
  0 < n →
  let rest := drop (length (received dfd h)) S in
  let a := env h (Read dfd n) in
  a_int a < 0 ∨
  0 ≤ a_int a ≤ Z.min n (zlen rest) ∧
  (rest ≠ [] → shut dfd h = false → ended dfd h = false → 1 ≤ a_int a) ∧
  (ended dfd h = true → a_int a = 0) ∧
  take (Z.to_nat (a_int a)) (text_of a) = take (Z.to_nat (a_int a)) rest.

Section UploadErrors.
Context `{E : Env} `{T : Tun}.
Context (dfd fd : Z) (S : bytes) {HST : Flaky E dfd S}.
Context (Hmax : 0 ≤ tu tun "max_upload_file_size").

(** In the middle of an upload: what came is a first part of the stream, and if
    it ended before its end, it was cut, and the session knows. *)
Record uploading (w : world) : Prop := {
  up_conn : on_upload dfd w;
  up_apart : apart_fds fd dfd w;
  up_got : received dfd (hist w) `prefix_of` S;
  up_shut : shut dfd (hist w) = true → cut_noted w;
  up_ended : ended dfd (hist w) = true → received dfd (hist w) = S ∨ cut_noted w
}.

Lemma uploading_gave d w w' : gave fd dfd d w w' → uploading w → uploading w'.
Proof.
  intros H []. pose proof (gave_steady _ _ _ _ _ H) as Hs. injection Hs as E1 E2 _ _ _ _ _.
  pose proof (apart_fds_gave _ _ _ _ _ H up_apart0) as HA.
  destruct H as [_ Hr He Hn Hc _ _ _]. split.
  - destruct up_conn0. split; congruence.
  - done.
  - by rewrite Hr.
  - intros Hd. destruct (Hc Hd); auto.
  - rewrite Hr, He. intros Hd. destruct (up_ended0 Hd); auto.
Qed.

Lemma uploading_same w w' :
  sess w' = sess w → hist w' = hist w → uploading w → uploading w'.
Proof. intros Hs Hh []. split; unfold on_upload, cut_noted in *; rewrite ?Hs, ?Hh; auto. by destruct up_apart0; split; rewrite ?Hs. Qed.

(** The read itself. *)
Lemma uploading_read n w :
  uploading w → 0 < n →
  let a := env (hist w) (Read dfd n) in
  let d := take (Z.to_nat (Z.min (a_int a) n)) (text_of a) in
  let w1 := put_hist ((Read dfd n, a) :: hist w) w in
  uploading w1 ∧
  (a_int a < 0 ∧ d = [] ∧ ended dfd (hist w1) = ended dfd (hist w) ∨
   a_int a = zlen d ∧ zlen d ≤ n ∧ (ended dfd (hist w) = true → d = []) ∧
   ended dfd (hist w1) = isempty d || ended dfd (hist w)).
Proof.
  intros Hw Hn a d w1. pose proof (HST (hist w) n Hn) as Hf. cbv zeta in Hf. fold a in Hf.
  assert (received dfd (hist w1) = received dfd (hist w) ++ d) as Hr by (cbn; by rewrite Z.eqb_refl).
  assert (shut dfd (hist w1) = shut dfd (hist w)) as Hs by done.
  assert (ended dfd (hist w1) = (a_int a =? 0) || ended dfd (hist w)) as He by (cbn; by rewrite Z.eqb_refl).
  destruct Hw as [Hc Ha [rest Hg] Hsh Hen].
  assert (drop (length (received dfd (hist w))) S = rest) as Hrest by (by rewrite Hg, drop_app_length).
  rewrite Hrest in Hf. clearbody a. destruct Hf as [Hneg|(H1 & H2 & H3 & H4)].
  - assert (d = []) as Hd by (subst d; by replace (Z.to_nat _) with 0%nat by lia).
    rewrite Hd, app_nil_r in Hr. rewrite (proj2 (Z.eqb_neq _ 0)) in He by lia. rewrite orb_false_l in He.
    split; [|by left].
    split; rewrite ?Hr, ?He, ?Hs; [done|by destruct Ha|by exists rest|done|done].
  - assert (d = take (Z.to_nat (a_int a)) rest) as Hd.
    { subst d. by replace (Z.min (a_int a) n) with (a_int a) by lia. }
    assert (a_int a = zlen d) as Hl by (rewrite Hd; unfold zlen in *; rewrite length_take_le; lia).
    assert ((a_int a =? 0) = isempty d) as Hz.
    { unfold isempty. rewrite Hl. case_bool_decide as Hn0; [by rewrite Hn0|].
      apply Z.eqb_neq. pose proof (zlen_pos _ Hn0). lia. }
    rewrite Hz in He. split.
    + split; rewrite ?Hr, ?Hs; [done|by destruct Ha| |done|].
      * exists (drop (Z.to_nat (a_int a)) rest). by rewrite Hg, Hd, <- app_assoc, take_drop.
      * rewrite He. unfold isempty. case_bool_decide as Hd0; cbn [orb].
        -- intros _. rewrite Hd0, app_nil_r. destruct (shut dfd (hist w)) eqn:Hsx; [right; by apply Hsh|].
           destruct (ended dfd (hist w)) eqn:Hex; [by apply Hen|].
           left. destruct rest as [|x rest]; [by rewrite app_nil_r in Hg|].
           assert (1 ≤ a_int a) by (by apply H2). rewrite Hd0 in Hl. unfold zlen in Hl. cbn in Hl. lia.
        -- intros He0. specialize (H3 He0). destruct Hd0. rewrite Hd, H3. done.
    + right. split_and!; [done|lia| |done]. intros He0. specialize (H3 He0). by rewrite Hd, H3.
Qed.

Lemma wp_read_flaky n (Q : Z * bytes → world → Prop) w :
  uploading w → 0 < n →
  (∀ r d w', r < 0 → uploading w' → received dfd (hist w') = received dfd (hist w) →
     ended dfd (hist w') = ended dfd (hist w) → sent fd (hist w') = sent fd (hist w) → Q (r, d) w') →
  (∀ d w', uploading w' → received dfd (hist w') = received dfd (hist w) ++ d → zlen d ≤ n →
     (ended dfd (hist w) = true → d = []) → ended dfd (hist w') = isempty d || ended dfd (hist w) →
     sent fd (hist w') = sent fd (hist w) → Q (zlen d, d) w') →
  wp (ftp_read_data n) Q (λ s _, s ≠ Fuel) w.
Proof.
  intros Hw Hn HQ0 HQ. destruct (up_conn _ Hw) as [Hfd Hssl]. unfold ftp_read_data, vsf_sysutil_read.
  do 6 wp_step. rewrite Hssl, Hfd. cbn [andb]. do 2 wp_step. wp_step. subst a.
  destruct (uploading_read n w Hw Hn) as [Hw1 Hcase]. set (w1 := put_hist _ w) in *.
  apply (wp_interrupted fd dfd); [by apply up_apart|]. intros w2 Hw2. wp_step.
  pose proof (uploading_gave _ _ _ Hw2 Hw1) as Hu. destruct Hw2 as [Hs Hr He _ _ _ _ _].
  assert (sent fd (hist w1) = sent fd (hist w)) as Hs1 by done. rewrite app_nil_r, Hs1 in Hs.
  assert (∀ a, received dfd (hist (put_hist ((Read dfd n, a) :: hist w) w)) =
    received dfd (hist w) ++ take (Z.to_nat (Z.min (a_int a) n)) (text_of a)) as Hrec
    by (intros; cbn; by rewrite Z.eqb_refl).
  subst w1. rewrite Hrec in Hr. destruct Hcase as [(Hneg & Hd & He1)|(Hl & Hln & Hend & He1)].
  - apply HQ0; [done|done| |congruence|done]. by rewrite Hr, Hd, app_nil_r.
  - rewrite Hl at 1. apply HQ; congruence || done.
Qed.

(** What belongs in the file for what came, and whether a CR is held back. *)
Definition so_far (asc over : bool) (got : bytes) : bytes :=
  if over then stored_form asc got else if asc then (dec false got).1 else got.
Definition held (asc over : bool) (got : bytes) : bool := asc && negb over && (dec false got).2.

Lemma stored_form_dec got : stored_form true got = (dec false got).1 ++ flush (dec false got).2.
Proof. by rewrite dec_crlf. Qed.

Lemma so_far_prefix asc over got : so_far asc over got `prefix_of` stored_form asc got.
Proof.
  unfold so_far. destruct over; [done|]. destruct asc; [|done]. rewrite stored_form_dec. by apply prefix_app_r.
Qed.

Lemma so_far_over asc over got : held asc over got = false → so_far asc over got = stored_form asc got.
Proof.
  unfold held, so_far. destruct over; [done|]. destruct asc; [|done]. cbn. intros H.
  by rewrite stored_form_dec, H, app_nil_r.
Qed.

(** One block. *)
Lemma so_far_step asc over got d :
  (d = [] → held asc over got = true) → (over = true → d = []) →
  let p := held asc over got in
  so_far asc (isempty d || over) (got ++ d) =
    so_far asc over got ++ (if asc then (if isempty d then flush p else (dec p d).1) else d) ∧
  held asc (isempty d || over) (got ++ d) = (if asc then (if isempty d then false else (dec p d).2) else p).
Proof.
  intros Hd Ho p. unfold isempty. case_bool_decide as Hn; cbn [orb].
  - subst d. specialize (Hd eq_refl). subst p. rewrite Hd, app_nil_r. unfold held in Hd. b2p.
    destruct asc, over; try done. unfold held. cbn. split; [|done]. by rewrite stored_form_dec, H0.
  - destruct over; [by specialize (Ho eq_refl)|]. subst p. unfold held, so_far. destruct asc; [|done].
    cbn [andb negb]. by rewrite dec_app.
Qed.

(** What a result says of what came. *)
Definition honest (asc : bool) (before : bytes) (r : vsf_transfer_ret) (w : world) : Prop :=
  let got := received dfd (hist w) in
  uploading w ∧
  ∃ part, sent fd (hist w) = before ++ part ∧ part `prefix_of` stored_form asc got ∧
    (retval r = 0 → part = stored_form asc got ∧ transferred r = zlen got ∧ (got = S ∨ cut_noted w)) ∧
    (retval r = 0 ∨ retval r = -1 ∨ retval r = -2).

Lemma recv_loop_honest fuel (asc : bool) cs have before w :
  uploading w → 0 < cs ≤ VSFTP_DATA_BUFSIZE →
  let got := received dfd (hist w) in
  let over := ended dfd (hist w) in
  sent fd (hist w) = before ++ so_far asc over got →
  (2 * length (drop (length got) S) + (if held asc over got then 1 else 0) < fuel)%nat →
  wp (recv_loop fuel fd asc cs have (held asc over got) (zlen got)) (honest asc before) (λ s _, s ≠ Fuel) w.
Proof.
  revert w. induction fuel as [|fuel IH]; intros w Hw Hcs got over Hsent Hfuel; cbn [recv_loop]; [lia|].
  apply wp_bind. apply wp_read_flaky; [done|lia|..].
  { intros r d w1 Hr Hw1 Hrec Hen Hs1. unfold vsf_sysutil_retval_is_error. rewrite (proj2 (Z.ltb_lt r 0)) by lia.
    wp_step. split; [done|]. exists (so_far asc over got). rewrite Hrec.
    split_and!; [by rewrite Hs1|apply so_far_prefix|cbn; lia|cbn; lia]. }
  intros d w1 Hw1 Hrec Hdn Hover Hen Hs1. fold got over in Hrec, Hover, Hen.
  unfold vsf_sysutil_retval_is_error. rewrite (proj2 (Z.ltb_ge _ 0)) by (unfold zlen; lia).
  destruct ((zlen d =? 0) && negb (held asc over got)) eqn:Hend.
  { b2p. assert (d = []) as -> by (destruct d; [done|unfold zlen in *; cbn in *; lia]).
    wp_step. rewrite app_nil_r in Hrec. split; [done|].
    exists (so_far asc over got). rewrite Hrec. rewrite (so_far_over _ _ _ H0) in *.
    split_and!; [by rewrite Hs1|done| |by left]. intros _. split_and!; [done|cbn; unfold zlen; cbn; lia|].
    rewrite <- Hrec. apply (up_ended _ Hw1). by rewrite Hen. }
  assert (d = [] → held asc over got = true) as Hd0.
  { intros ->. by destruct (held asc over got). }
  destruct (so_far_step asc over got d Hd0 Hover) as [Hst Hhe]. cbv zeta in Hst, Hhe.
  apply wp_bind, wp_max_upload; [done|]. intros m w2 Hm Hse Hh. rewrite size_never_exceeded by done.
  apply (uploading_same _ w2) in Hw1; [|done..]. rewrite <- Hh in Hrec, Hen, Hs1. clear w1 Hse Hh.
  apply wp_recv_chunk.
  { intros Hd. specialize (Hd0 Hd). split; [|done]. unfold held in Hd0. by destruct asc. }
  rewrite <- Hhe. set (out := if asc then _ else d) in *. clearbody out.
  apply wp_bind. unfold vsf_sysutil_write_loop. destruct (INT_MAX <? _) eqn:?; [by wp_step|].
  apply (wp_write_loop_interrupted fd dfd); [by apply up_apart|lia|lia|]. intros r p w3 Hw3 Hpre Hall.
  pose proof (uploading_gave _ _ _ Hw3 Hw1) as Hu. destruct Hw3 as [Hs3 Hr3 He3 _ _ _ _ _].
  rewrite Hs1, Hsent in Hs3. rewrite Hrec in Hr3. rewrite Hen in He3.
  destruct ((r <? 0) || negb (r =? zlen out)) eqn:Hr.
  { wp_step. split; [done|]. exists (so_far asc over got ++ p). rewrite Hr3.
    split_and!; [by rewrite Hs3, app_assoc| |cbn; lia|cbn; lia].
    etrans; [|apply (so_far_prefix asc (isempty d || over))]. rewrite Hst. by apply prefix_app. }
  apply orb_false_iff in Hr as [_ Hr]. b2p. specialize (Hall ltac:(lia)). subst p.
  specialize (IH w3 Hu Hcs). cbv zeta in IH. rewrite Hr3, He3 in IH.
  replace (zlen got + zlen d) with (zlen (got ++ d)) by (unfold zlen; rewrite length_app; lia).
  apply IH; [by rewrite Hs3, Hst, app_assoc|].
  assert (length got + length d <= length S)%nat as Hlen.
  { rewrite <- length_app, <- Hr3. apply prefix_length, (up_got _ Hu). }
  rewrite length_drop in *. rewrite length_app. destruct d as [|c d].
  - rewrite (Hd0 eq_refl) in Hfuel. rewrite Hhe. destruct asc; [cbn in *; lia|].
    by specialize (Hd0 eq_refl).
  - cbn [length] in *. destruct (held asc (isempty (c :: d) || over) _); lia.
Qed.

End UploadErrors.

(** C6: An upload that is called a success is one. The reads may fail at any
    point, the writes may fail or come up short, and any signals may arrive
    meanwhile: the handlers of SIGALRM, SIGURG and SIGTERM run, nested as they
    may be, and log and answer. [do_file_recv] ends within two rounds for each byte
    of the stream (or the process stops: SIGTERM, a lost client, a fatal error).
    When it returns, what is in the file
    is a first part of what belongs there for the bytes that were read, and these
    are a first part of the stream [S]. If the result is 0, it is all of it, the
    final CR of an ASCII transfer included, the bytes are counted exactly, and
    they are the whole stream up to the client's close, unless the session has
    noted that the data connection timed out or the client sent an ABOR; then
    this process shut the connection, the stream ends early, and
    [vsf_ftpdataio_dispose_transfer_fd] tells the caller that the transfer failed.
    The other results are the -1 and -2 that the client is told of. Assumed: a
    plain data connection ([data_use_ssl] is off) that was not read before and was
    not shut, a read that gives the end of the stream before its end only when
    this process has shut the connection, descriptors of the file and the
    connection that are not the control connection's, no log written to the
    file's descriptor, and a limit on uploads that is not negative. *)
Theorem upload_honest `{E : Env} `{T : Tun} (fuel : nat) (fd : Z) (is_ascii : bool)
    (have : Z) (S : bytes) (w : world) :
  let dfd := data_fd (sess w) in
  Flaky E dfd S → apart_fds fd dfd w → data_use_ssl (sess w) = false →
  received dfd (hist w) = [] → ended dfd (hist w) = false → shut dfd (hist w) = false →
  0 ≤ tu tun "max_upload_file_size" → (2 * length S < fuel)%nat →
  match do_file_recv fuel fd is_ascii have w with
  | (Ok r, w') =>
      let got := received dfd (hist w') in
      ∃ part, sent fd (hist w') = sent fd (hist w) ++ part ∧
        got `prefix_of` S ∧ part `prefix_of` stored_form is_ascii got ∧
        (retval r = 0 → part = stored_form is_ascii got ∧ transferred r = zlen got ∧
           (got = S ∨ data_timeout (sess w') = true ∨ abor_received (sess w') = true)) ∧
        (retval r = 0 ∨ retval r = -1 ∨ retval r = -2)
  | (Err s, _) => s ≠ Fuel
  end.
Proof.
  intros dfd HF HA Hssl Hrec Hen Hsh Hmax Hfuel.
  assert (0 < get_chunk_size ≤ VSFTP_DATA_BUFSIZE) as Hcs by (pose proof chunk_size_range; lia).
  assert (uploading dfd fd S w) as Hw.
  { split; [by split|done|rewrite Hrec; apply prefix_nil|congruence|congruence]. }
  pose proof (recv_loop_honest dfd fd S Hmax fuel is_ascii get_chunk_size have (sent fd (hist w)) w Hw
    Hcs) as H0. cbv zeta in H0. rewrite Hrec, Hen in H0.
  assert (so_far is_ascii false [] = []) as Hs0 by (by destruct is_ascii).
  assert (held is_ascii false [] = false) as Hh0 by (by destruct is_ascii).
  assert (2 * length (drop (length (A := byte) []) S) + 0 < fuel)%nat as Hf by (cbn [length]; rewrite drop_0; lia).
  rewrite Hs0, Hh0, app_nil_r in H0. specialize (H0 eq_refl Hf).
  change (zlen []) with 0 in H0. unfold do_file_recv. unfold wp in H0.
  destruct (recv_loop _ _ _ _ _ _ _ w) as [[r|s] w']; [|done].
  destruct H0 as [Hu (part & H1 & H2 & H3 & H4)]. exists part. split_and!; try done. by destruct Hu.
Qed.

(** The caller learns of a cut: [vsf_ftpdataio_dispose_transfer_fd] does not report
    success after one. *)
Lemma dispose_reports_cut `{E : Env} `{T : Tun} w w' b :
  cut_noted w → vsf_ftpdataio_dispose_transfer_fd w = (Ok b, w') → b = false.
Proof.
  intros Hcut Hr.
  assert (abor_received (sess w) || data_timeout (sess w) = true) as Hf
    by (destruct Hcut as [-> | ->]; by rewrite ?orb_true_r).
  assert (wp vsf_ftpdataio_dispose_transfer_fd (λ b _, b = false) (λ _ _, True) w) as H.
  { unfold vsf_ftpdataio_dispose_transfer_fd, vsf_sysutil_uninstall_io_handler, dispose_ssl, start_data_alarm.
    wp_auto; cbn in *; rewrite ?Hf; done. }
  unfold wp in H. by rewrite Hr in H.
Qed.

(** *** Downloads that fail *)

(** As [Serves], but COS may fail or give nothing, and nothing is said of writes. *)
Class FlakyServes (E : Env) (bucket path O : bytes) : Prop := flaky_serves h n off :
  0 < n → 0 ≤ off < zlen O →
  let a := env h (Cos (FileDownload bucket (cstr path) n off)) in
  0 ≤ a_int a → take (Z.to_nat (Z.min (a_int a) n)) (text_of a)
    = take (Z.to_nat (Z.min (a_int a) n)) (drop (Z.to_nat off) O).

(** The last call was a request to COS for a part of an object, and it gave no
    bytes. *)
Definition empty_block (h : history) : bool :=
  match h with
  | (Cos (FileDownload _ _ _ _), a) :: _ => a_int a =? 0
  | _ => false
  end.

Section DownloadErrors.
Context `{E : Env} `{T : Tun}.
Context (dfd : Z) (bucket path O : bytes) {HO : FlakyServes E bucket path O}.
Context (Hbucket : setting "cos_bucket" = Ok bucket) (Habs : is_relative path = false).
Context (Hsize : zlen O < 2 ^ 63).
Abbreviation sparing := (spared dfd dfd).

Definition on_download (w : world) : Prop := on_data dfd path w ∧ apart_fds dfd dfd w.

Lemma on_download_gave d w w' : gave dfd dfd d w w' → on_download w → on_download w'.
Proof.
  intros H [(H1 & H2 & H3) HA]. split; [|by eapply apart_fds_gave].
  pose proof (gave_steady _ _ _ _ _ H) as Hs. injection Hs as E1 E2 _ _ E3 _ _. split_and!; congruence.
Qed.

Lemma wp_download_flaky bs off (Q : Z * bytes → world → Prop) w :
  on_download w → 0 < bs < 2 ^ 32 → 0 ≤ off < zlen O →
  (∀ r d w', r < 0 → sparing w w' → Q (r, d) w') →
  (∀ w' m, sparing w w' → ((m = 0)%nat → empty_block (hist w') = true) →
     let d := take m (drop (Z.to_nat off) O) in Q (zlen d, d) w') →
  wp (cos_download_file path bs off (zlen O)) Q (λ s _, s ≠ Fuel) w.
Proof.
  intros [_ HA] Hbs Hoff Hneg HQ. unfold cos_download_file, file_path, get_cos_path_from_disk_path.
  rewrite Habs, Hbucket. cbv zeta. set (bl := if u64 _ <? bs then _ else _).
  assert (0 < bl) as Hbl.
  { subst bl. assert (u64 (zlen O - off) = zlen O - off) as -> by (unfold u64; rewrite Z.mod_small; lia).
    destruct (_ <? bs) eqn:?; b2p; [|lia]. rewrite u32_small; unfold UINT_MOD; lia. }
  clearbody bl. set (op := FileDownload bucket (cstr path) bl off).
  change (wp (download_loop 2 op bl 0) Q (λ s _, s ≠ Fuel) w).
  assert (∀ n r w1, sparing w w1 → ((n = 0)%nat → r < 0) →
    wp (download_loop n op bl r) Q (λ s _, s ≠ Fuel) w1) as H; [|by apply H].
  intros n; induction n as [|n IH]; intros r w1 Hw1 Hr; cbn [download_loop]; [wp_step; apply Hneg; auto|].
  wp_step. apply wp_ask. intros a Ha. pose proof (HO (hist w1) bl off Hbl Hoff) as Hs. cbv zeta in Hs.
  fold op in Hs. rewrite <- Ha in Hs. clear Ha.
  assert (sparing w (put_hist ((Cos op, a) :: hist w1) w1)) as Hw2
    by (apply (spared_ask dfd dfd w (Cos op)); done).
  destruct (0 <=? a_int a) eqn:Hp; b2p.
  - rewrite (Hs Hp). wp_step. apply HQ; [exact Hw2|]. intros Hm. cbn. apply Z.eqb_eq. lia.
  - wp_step.
    eapply wp_mono; [eapply wp_hoare; [|exact Hw2]; apply (spared_log_line dfd dfd w HA), spared_check, HA| |done].
    intros [] w3 Hw3. apply IH; [exact Hw3|done].
Qed.

(** Filling the buffer, or failing to. *)
Definition refilled (dlbuf : bytes) (off : Z) (w : world) (r : Z * bytes * Z) (w' : world) : Prop :=
  let '(len, d, o) := r in
  sparing w w' ∧ (len < 0 ∨
    len = zlen d ∧ pending O d o = pending O dlbuf off ∧ 0 ≤ o ≤ zlen O ∧
    (d = [] → pending O dlbuf off = [] ∨ empty_block (hist w') = true)).

Lemma wp_refill bs dlbuf off w :
  on_download w → 0 < bs < 2 ^ 32 → 0 ≤ off ≤ zlen O →
  wp (if isempty dlbuf then
        if zlen O <=? off then mret (0, [], off)
        else
          path ← gets ftp_arg_str;
          '(dlbuf_len, data) ← cos_download_file path bs off (zlen O);
          mret (dlbuf_len, data, off + dlbuf_len)
      else mret (zlen dlbuf, dlbuf, off)) (refilled dlbuf off w) (λ s _, s ≠ Fuel) w.
Proof.
  intros Hw Hbs Hoff. unfold isempty. case_bool_decide as Hd.
  2:{ wp_step. split; [done|]. right. repeat (split; [done|]). by intros ->. }
  subst dlbuf. destruct (zlen O <=? off) eqn:Ho; b2p.
  - wp_step. split; [done|right]. split; [done|]. split; [done|]. split; [lia|].
    intros _. left. unfold pending, zlen in *. cbn. apply drop_ge. lia.
  - do 2 wp_step. destruct Hw as [(Hd1 & Hd2 & Hpath) HA]. rewrite Hpath. wp_step.
    apply wp_download_flaky; [split; [by split_and!|done]|done|lia|..].
    + intros r d w' Hr Hw'. wp_step. split; [exact Hw'|by left].
    + intros w' m Hw' Hm. cbv zeta. wp_step. split; [exact Hw'|right]. split; [done|].
      rewrite pending_take by lia. assert (0 < length (drop (Z.to_nat off) O))%nat as Hl
        by (rewrite length_drop; unfold zlen in *; lia).
      unfold zlen in *. rewrite length_take. split_and!; [done|lia|rewrite length_drop; lia|].
      intros Hnil. right. apply Hm. apply (f_equal length) in Hnil. rewrite length_take in Hnil.
      cbn in Hnil. lia.
Qed.

(** What a result says of the bytes [out] that were still to be sent. *)
Definition sent_honestly (tr : Z) (out before : bytes) (r : vsf_transfer_ret) (w' : world) : Prop :=
  ∃ part, sent dfd (hist w') = before ++ part ∧ part `prefix_of` out ∧
    (retval r = 0 → transferred r = tr + zlen part ∧ (part = out ∨ empty_block (hist w') = true)) ∧
    (retval r = 0 ∨ retval r = -1 ∨ retval r = -2).

Lemma wp_write_data_flaky d (Q : Z → world → Prop) w :
  on_download w →
  (∀ r p w', gave dfd dfd p w w' → p `prefix_of` d → (r = zlen d → p = d) → Q r w') →
  wp (ftp_write_data d) Q (λ s _, s ≠ Fuel) w.
Proof.
  intros [(Hfd & Hssl & _) HA] HQ. unfold ftp_write_data. do 6 wp_step. rewrite Hssl, Hfd. cbn [andb].
  unfold vsf_sysutil_write_loop. destruct (INT_MAX <? _); [by wp_step|].
  apply (wp_write_loop_interrupted dfd dfd); [done|lia|lia|]. intros r p w' Hw' Hp Hr. by apply (HQ r p w').
Qed.

Definition to_send (asc prev_cr : bool) (s : bytes) : bytes := if asc then (enc prev_cr s).1 else s.

Lemma send_loop_honest fuel (asc : bool) cs bs dlbuf off prev tr w :
  on_download w → 0 < cs ≤ VSFTP_DATA_BUFSIZE → 0 < bs < 2 ^ 32 → 0 ≤ off ≤ zlen O →
  (length (pending O dlbuf off) < fuel)%nat →
  wp (send_loop fuel asc cs bs (zlen O) dlbuf off prev tr)
    (sent_honestly tr (to_send asc prev (pending O dlbuf off)) (sent dfd (hist w))) (λ s _, s ≠ Fuel) w.
Proof.
  revert dlbuf off prev tr w. induction fuel as [|fuel IH];
    intros dlbuf off prev tr w Hw Hcs Hbs Hoff Hf; cbn [send_loop]; [lia|].
  apply wp_bind. eapply wp_mono; [by apply wp_refill| |done].
  intros [[len d] o] w1 [Hsp Hd]. pose proof (on_download_gave _ _ _ Hsp Hw) as Hw1.
  pose proof (gave_sent _ _ _ _ _ Hsp) as Hs1. rewrite app_nil_r in Hs1. rewrite <- Hs1.
  destruct (len <? 0) eqn:Hlen; b2p.
  { wp_step. exists []. rewrite app_nil_r. split_and!; [done|apply prefix_nil|cbn; lia|cbn; lia]. }
  destruct Hd as [Hd|(-> & Hp & Ho & Hnil)]; [lia|]. rewrite <- Hp in *. destruct (zlen d =? 0) eqn:Hd0; b2p.
  { assert (d = []) as -> by (destruct d; [done|unfold zlen in Hd0; cbn in Hd0; lia]).
    wp_step. exists []. rewrite app_nil_r. split_and!; [done|apply prefix_nil| |by left].
    intros _. split; [cbn; unfold zlen; cbn; lia|]. destruct (Hnil eq_refl) as [->|?]; [left|by right].
    by destruct asc. }
  assert (d ≠ []) as Hdn by (by intros ->).
  set (chunk := take (Z.to_nat cs) d). set (rest := drop (Z.to_nat cs) d).
  assert (d = chunk ++ rest) as Hcr by (symmetry; apply take_drop).
  assert (chunk ≠ []) as Hc0.
  { subst chunk. destruct d; [done|]. destruct (Z.to_nat cs) eqn:?; [lia|done]. }
  assert (zlen chunk ≤ VSFTP_DATA_BUFSIZE) as Hcl by (unfold zlen, chunk; rewrite length_take; lia).
  apply wp_send_chunk; [done|]. clearbody chunk rest.
  set (out := if asc then (enc prev chunk).1 else chunk). set (prev' := if asc then _ else prev).
  assert (to_send asc prev (pending O d o) = out ++ to_send asc prev' (pending O rest o)) as ->.
  { unfold to_send, pending, out, prev'. rewrite Hcr, <- app_assoc. destruct asc; [|done]. by rewrite enc_app. }
  clearbody out prev'. apply wp_bind. apply wp_write_data_flaky; [done|]. intros r p w2 Hw2 Hpre Hall.
  pose proof (gave_sent _ _ _ _ _ Hw2) as Hs2.
  unfold vsf_sysutil_retval_is_error. destruct ((r <? 0) || negb (r =? zlen out)) eqn:Hr.
  { wp_step. exists p. split_and!; [done|by apply prefix_app_r|cbn; lia|cbn; lia]. }
  apply orb_false_iff in Hr as [Hr0 Hr]. b2p. specialize (Hall ltac:(lia)). subst p. rewrite (proj2 (Z.ltb_ge r 0)) by lia. cbv zeta.
  assert (length (pending O rest o) < fuel)%nat as Hf'.
  { unfold pending in *. rewrite Hcr, <- app_assoc, length_app in Hf. destruct chunk; [done|]. cbn in Hf. lia. }
  eapply wp_mono; [apply (IH rest o prev' _ w2); [by eapply on_download_gave|done..]|
                   intros res w3 (part & Hp3 & Hpp & H0 & Hret)|done].
  exists (out ++ part). split_and!; [by rewrite Hp3, Hs2, app_assoc|by apply prefix_app| |done].
  intros Hz. destruct (H0 Hz) as [-> Hc]. split; [unfold zlen in *; rewrite length_app; lia|].
  destruct Hc as [->|?]; [by left|by right].
Qed.

End DownloadErrors.

(** C8: A download that is called a success is one, unless COS answers a request
    with no bytes at all. COS may fail, the connection may fail or take only a part
    of a write, and any signals may arrive meanwhile, with their handlers logging
    and answering. [do_file_send_rwloop] ends within one round for each byte of the
    object (or the process stops). When it returns, what went out on the data
    connection is a first part of what the client is to get. If the result is 0, what went out is
    counted exactly, and it is all of it: the rest of the object,
    converted in ASCII mode; or the very last call was a request to COS for a
    part of the object that was answered with an empty block, which the code takes
    for the end of the file (ftpdataio.c:611) though bytes are still missing. The
    other results are the -1 and -2 that the client is told of. Assumed: a plain
    data connection ([data_use_ssl] is off) that is neither the control connection
    nor a log file's descriptor, an absolute path in the configured bucket, and
    that the bytes COS gives are the object's. *)
Theorem download_honest `{E : Env} `{T : Tun} (fuel : nat) (is_ascii : bool)
    (offset : Z) (bucket path O : bytes) (w : world) :
  let dfd := data_fd (sess w) in
  FlakyServes E bucket path O →
  setting "cos_bucket" = Ok bucket → is_relative path = false → zlen O < 2 ^ 63 →
  data_use_ssl (sess w) = false → ftp_arg_str (sess w) = path → apart_fds dfd dfd w →
  (∀ n, s_download_bufsize w = Some n → 0 < n < 2 ^ 32) → 0 ≤ offset ≤ zlen O →
  (length O < fuel)%nat →
  let out := sent_form is_ascii (drop (Z.to_nat offset) O) in
  match do_file_send_rwloop fuel is_ascii offset (zlen O) w with
  | (Ok r, w') =>
      ∃ part, sent dfd (hist w') = sent dfd (hist w) ++ part ∧ part `prefix_of` out ∧
        (retval r = 0 → transferred r = zlen part ∧ (part = out ∨ empty_block (hist w') = true)) ∧
        (retval r = 0 ∨ retval r = -1 ∨ retval r = -2)
  | (Err s, _) => s ≠ Fuel
  end.
Proof.
  intros dfd HO Hbucket Habs Hsize Hssl Hpath HA Hbuf Hoff Hfuel out.
  assert (wp (do_file_send_rwloop fuel is_ascii offset (zlen O))
    (sent_honestly dfd 0 out (sent dfd (hist w))) (λ s _, s ≠ Fuel) w) as H.
  { unfold do_file_send_rwloop. pose proof chunk_size_range. wp_step. eapply wp_mono.
    - by apply wp_download_bufsize.
    - intros n w1 (Hn & Hh & Hse). rewrite <- Hh.
      apply (send_loop_honest dfd bucket path O); [done..| |lia|done|done|].
      + split; [unfold on_data|destruct HA; split]; by rewrite ?Hse.
      + unfold pending. cbn [app]. rewrite length_drop. lia.
    - done. }
  unfold wp in H. destruct (do_file_send_rwloop _ _ _ _ w) as [[r|s] w']; exact H.
Qed.

(** ** Directory listings *)

Section Listing.
Context `{E : Env} `{T : Tun} {HS : NoSignals E}.

Lemma wp_write_str d (Q : Z → world → Prop) w :
  Progress E (data_fd (sess w)) → data_use_ssl (sess w) = false → d ≠ [] → zlen d ≤ INT_MAX →
  (∀ w', wrote (data_fd (sess w)) d w w' → Q 0 w') →
  wp (ftp_write_str d kVSFRWData) Q (λ _ _, False) w.
Proof.
  intros HP Hssl Hd Hl HQ. pose proof (zlen_pos _ Hd). unfold ftp_write_str, str_netfd_write. do 4 wp_step.
  rewrite Hssl. cbn [andb]. do 2 wp_step. rewrite (proj2 (Z.eqb_neq _ 0)) by lia.
  wp_step. unfold vsf_sysutil_write_loop. rewrite (proj2 (Z.ltb_ge INT_MAX _)) by lia.
  apply wp_write_loop_total; [done|lia|]. intros w' Hw'. rewrite Z.add_0_l. wp_step.
  unfold vsf_sysutil_retval_is_error. rewrite (proj2 (Z.ltb_ge _ 0)), Z.eqb_refl by lia. by apply HQ.
Qed.

(** A line of a listing: not empty, and not longer than a path may be. *)
Definition listing_line (l : bytes) : Prop := l ≠ [] ∧ zlen l ≤ 65536.

Lemma write_dir_list_total lines buf (Q : bool → world → Prop) w :
  Progress E (data_fd (sess w)) → data_use_ssl (sess w) = false →
  Forall listing_line lines → zlen buf ≤ VSFTP_DIR_BUFSIZE →
  (lines = [] → buf = []) →
  (match lines with l :: _ => buf = [] ∨ zlen buf + zlen l ≤ VSFTP_DIR_BUFSIZE | [] => True end) →
  (∀ w', wrote (data_fd (sess w)) (buf ++ concat lines) w w' → Q false w') →
  wp (write_dir_list_loop lines buf kVSFRWData) Q (λ _ _, False) w.
Proof.
  intros HP Hssl Hls. revert buf Q w HP Hssl. induction Hls as [|l ls [Hl1 Hl2] Hls IH];
    intros buf Q w HP Hssl Hb Hnil Hfit HQ; cbn [write_dir_list_loop concat].
  { wp_step. rewrite Hnil in HQ by done. apply HQ, kept_wrote. reflexivity. }
  assert (buf ++ l ≠ []) as Hne by (by destruct buf, l).
  assert (zlen (buf ++ l) ≤ INT_MAX) as Hlen.
  { unfold zlen, VSFTP_DIR_BUFSIZE, INT_MAX in *. rewrite length_app. lia. }
  destruct (match ls with [] => true | _ => _ end) eqn:Hflush.
  - wp_step. apply wp_write_str; [done..|]. intros w1 Hw1. rewrite Z.eqb_refl. cbn [negb].
    pose proof (wrote_steady _ _ _ _ Hw1) as Hst. injection Hst as E1 E2 _ _ _ _ _.
    apply IH; [by rewrite E1|congruence|done|done| |].
    { destruct ls; [done|by left]. }
    intros w2 Hw2. rewrite E1 in Hw2. apply HQ. cbn [concat]. rewrite app_assoc. by eapply wrote_trans.
  - destruct ls as [|l2 ls]; [done|]. b2p. apply IH; [done|done|unfold zlen in *; lia|done|by right|].
    intros w' Hw'. apply HQ. cbn [concat] in *. by rewrite <- app_assoc in Hw'.
Qed.

(** A listing arrives complete and in order: [write_dir_list] sends the
    lines of the list, one after the other, in blocks, and reports success. *)
Theorem listing_delivered (l : mystr_list) (w : world) :
  Progress E (data_fd (sess w)) → data_use_ssl (sess w) = false →
  Forall listing_line (str <$> p_nodes l) →
  ∃ w', write_dir_list l kVSFRWData w = (Ok false, w') ∧
    sent (data_fd (sess w)) (hist w') = sent (data_fd (sess w)) (hist w) ++ concat (str <$> p_nodes l).
Proof.
  intros HP Hssl Hl.
  assert (wp (write_dir_list l kVSFRWData) (λ b w', b = false ∧ sent (data_fd (sess w)) (hist w') =
    sent (data_fd (sess w)) (hist w) ++ concat (str <$> p_nodes l)) (λ _ _, False) w) as H.
  { apply write_dir_list_total; [done..|by case_match; [|left]|].
    intros w' Hw'. split; [done|]. by rewrite (wrote_sent _ _ _ _ Hw'), Z.eqb_refl. }
  unfold wp in H. destruct (write_dir_list l kVSFRWData w) as [[b|] w']; [|done].
  destruct H as [-> H]. eauto.
Qed.

End Listing.

(** ** A server and a client to transfer with *)

(** COS and the network give at most three bytes at a time. *)
Definition lab_env (O S : bytes) : Env := λ h c,
  let give s := answer_with (zlen (take 3 s)) (take 3 s) in
  match c with
  | Write _ d => answer_with (zlen d) []
  | Read _ n => give (take (Z.to_nat n) (drop (length (received 9 h)) S))
  | Cos (FileDownload _ _ n off) => give (take (Z.to_nat n) (drop (Z.to_nat off) O))
  | _ => answer_with 0 []
  end.

Lemma lab_no_signals O S : NoSignals (lab_env O S).
Proof. done. Qed.
Lemma lab_progress O S fd : Progress (lab_env O S) fd.
Proof. intros h d. cbn. split; [unfold zlen; lia|]. intros H%zlen_pos. lia. Qed.

Lemma lab_block (s : bytes) (n : nat) :
  (length (take 3 (take n s)) <= n `min` length s)%nat ∧
  (s ≠ [] → (0 < n)%nat → (1 <= length (take 3 (take n s)))%nat) ∧
  ∀ k, (k <= length (take 3 (take n s)))%nat → take k (take 3 (take n s)) = take k s.
Proof.
  rewrite take_take, length_take. split_and!; [lia| |].
  - intros Hs Hn. destruct s; [done|]. cbn [length]. lia.
  - intros k Hk. rewrite take_take. f_equal. lia.
Qed.

Lemma lab_streams O S : Streams (lab_env O S) 9 S.
Proof.
  intros h n Hn. unfold env, lab_env, zlen. cbv zeta. cbn [a_int answer_with text_of a_text default]. 
  set (s := drop _ S). destruct (lab_block s (Z.to_nat n)) as (H1 & H2 & H3).
  rewrite Nat2Z.id. split_and!; [lia|lia|..].
  - intros Hs. specialize (H2 Hs). lia.
  - apply H3. done.
Qed.

Lemma lab_serves bucket path O S : Serves (lab_env O S) bucket path O.
Proof.
  intros h n off Hn Hoff. unfold env, lab_env, zlen in *. cbv zeta.
  cbn [a_int answer_with text_of a_text default].
  set (s := drop _ O). destruct (lab_block s (Z.to_nat n)) as (H1 & H2 & H3).
  assert (s ≠ []) as Hs.
  { intros Hs. apply (f_equal length) in Hs. subst s. rewrite length_drop in Hs. cbn in Hs. lia. }
  specialize (H2 Hs). split; [lia|]. replace (Z.to_nat _) with (length (take 3 (take (Z.to_nat n) s))) by lia.
  by apply H3.
Qed.

(** A session in the middle of a transfer of the file "/f" on descriptor 9. *)
Definition lab_world : world :=
  fresh_world (set_data_fd 9 (set_ftp_arg_str (lit "/f")
    (fresh_session vsf_sysutil_sockaddr_alloc vsf_sysutil_sockaddr_alloc))) [].

Definition lab_text : bytes := lit "a" ++ [CR; LF] ++ lit "bc" ++ [LF] ++ lit "d" ++ [CR].

Definition lab_tun : tunables := Tunables ∅ ∅ {["cos_bucket"%string := Some (lit "files")]}.

Lemma download_delivers_witness :
  ∃ w', do_file_send_rwloop (E := lab_env lab_text []) (T := lab_tun)
      (P := vsf_sysutil_check_pending_actions (E := lab_env lab_text []) (T := lab_tun))
      9 true 1 (zlen lab_text) lab_world = (Ok (TransferRet 0 8), w') ∧
    sent 9 (hist w') = [CR; LF] ++ lit "bc" ++ [CR; LF] ++ lit "d" ++ [CR].
Proof.
  apply (download_delivers (E := lab_env lab_text []) (T := lab_tun)
    (HS := lab_no_signals lab_text []) 9 true 1 (lit "files") (lit "/f") lab_text lab_world).
  - apply lab_progress.
  - apply lab_serves.
  - reflexivity.
  - reflexivity.
  - reflexivity.
  - reflexivity.
  - reflexivity.
  - discriminate.
  - vmdec.
  - vmdec.
Defined.

Lemma upload_stores_witness :
  ∃ w', do_file_recv (E := lab_env [] lab_text) (T := Tunables ∅ ∅ ∅)
      (P := vsf_sysutil_check_pending_actions (E := lab_env [] lab_text) (T := Tunables ∅ ∅ ∅))
      17 7 true 0 lab_world = (Ok (TransferRet 0 8), w') ∧
    sent 7 (hist w') = lit "a" ++ [LF] ++ lit "bc" ++ [LF] ++ lit "d" ++ [CR].
Proof.
  apply (upload_stores (E := lab_env [] lab_text) (T := Tunables ∅ ∅ ∅)
    (HS := lab_no_signals [] lab_text) 17 7 true 0 lab_text lab_world).
  - apply lab_progress.
  - apply lab_streams.
  - reflexivity.
  - reflexivity.
  - vmdec.
  - vmdec.
Defined.

(** The data alarm goes off after three bytes; a connection that was shut down, or
    has ended, gives no more. *)
Definition shaky_env : Env := λ h c,
  match c with
  | Read 9 _ => if ended 9 h || shut 9 h then answer_with 0 [] else lab_env [] lab_text h c
  | Sys Pending =>
      if (3 <=? length (received 9 h))%nat then Answer 0 None vsf_sysutil_sockaddr_alloc true 0 0 [SigALRM] else answer_with 0 []
  | _ => lab_env [] lab_text h c
  end.

Lemma shaky_flaky : Flaky shaky_env 9 lab_text.
Proof.
  intros h n Hn. right. unfold env, shaky_env.
  destruct (ended 9 h) eqn:He, (shut 9 h) eqn:Hs; cbn [orb];
    [unfold zlen; cbn; split_and!; try done; lia..|].
  destruct (lab_streams [] lab_text h n Hn) as (H1 & H2 & H3).
  split; [exact H1|]. split; [by intros; apply H2|]. by split.
Qed.

(** An upload with the data alarm set. *)
Definition timed_world : world := put_alarm (Some DataAlarm) lab_world.

(** The data connection and the file are apart from the rest. *)
Lemma lab_apart fd : fd ≠ 0 → fd ≠ -1 → apart_fds fd 9 timed_world.
Proof. intros. by split. Qed.

Lemma upload_honest_witness :
  match do_file_recv (E := shaky_env) (T := Tunables ∅ ∅ ∅)
      (P := vsf_sysutil_check_pending_actions (E := shaky_env) (T := Tunables ∅ ∅ ∅)) 17 7 true 0 timed_world with
  | (Ok r, w') =>
      let got := received 9 (hist w') in
      ∃ part, sent 7 (hist w') = [] ++ part ∧ got `prefix_of` lab_text ∧ part `prefix_of` stored_form true got ∧
        (retval r = 0 → part = stored_form true got ∧ transferred r = zlen got ∧
           (got = lab_text ∨ data_timeout (sess w') = true ∨ abor_received (sess w') = true)) ∧
        (retval r = 0 ∨ retval r = -1 ∨ retval r = -2)
  | (Err s, _) => s ≠ Fuel
  end.
Proof.
  apply (upload_honest (E := shaky_env) (T := Tunables ∅ ∅ ∅) 17 7 true 0 lab_text timed_world).
  - apply shaky_flaky.
  - by apply lab_apart.
  - reflexivity.
  - reflexivity.
  - reflexivity.
  - reflexivity.
  - vmdec.
  - vmdec.
Defined.

(** The upload of the witness is cut after three bytes, and yet its result is 0. *)
Example upload_cut :
  match do_file_recv (E := shaky_env) (T := Tunables ∅ ∅ ∅)
      (P := vsf_sysutil_check_pending_actions (E := shaky_env) (T := Tunables ∅ ∅ ∅)) 17 7 true 0 timed_world with
  | (Ok r, w') => r = TransferRet 0 3 ∧ sent 7 (hist w') = lit "a" ++ [LF] ∧ data_timeout (sess w') = true
  | (Err _, _) => False
  end.
Proof. vm_compute. by repeat split. Qed.

(** COS refuses the first request and answers with nothing once six bytes have gone
    out, and the connection takes three bytes at a time. *)
Definition broken_env : Env := λ h c,
  match c with
  | Write 9 d => answer_with (Z.min 3 (zlen d)) []
  | Cos (FileDownload _ _ _ _) =>
      if (length h <=? 0)%nat then answer_with (-1) []
      else if (3 <=? length (sent 9 h))%nat then answer_with 0 []
      else lab_env lab_text [] h c
  | _ => lab_env lab_text [] h c
  end.

Lemma broken_flaky bucket path : FlakyServes broken_env bucket path lab_text.
Proof.
  intros h n off Hn Hoff. unfold env, broken_env. cbv zeta. destruct (_ <=? _)%nat; [done|].
  destruct (_ <=? _)%nat.
  - intros _. cbn [a_int answer_with]. by rewrite Z.min_l by lia.
  - intros _. apply (lab_serves bucket path lab_text [] h n off Hn Hoff).
Qed.

(** The session has a log file. *)
Definition logging_world : world := put_sess (set_vsftpd_log_fd 4 (sess lab_world)) lab_world.

Lemma download_honest_witness :
  match do_file_send_rwloop (E := broken_env) (T := lab_tun)
      (P := vsf_sysutil_check_pending_actions (E := broken_env) (T := lab_tun))
      9 true 1 (zlen lab_text) logging_world with
  | (Ok r, w') =>
      ∃ part, sent 9 (hist w') = [] ++ part ∧ part `prefix_of` sent_form true (drop 1 lab_text) ∧
        (retval r = 0 → transferred r = zlen part ∧
           (part = sent_form true (drop 1 lab_text) ∨ empty_block (hist w') = true)) ∧
        (retval r = 0 ∨ retval r = -1 ∨ retval r = -2)
  | (Err s, _) => s ≠ Fuel
  end.
Proof.
  apply (download_honest (E := broken_env) (T := lab_tun)
    9 true 1 (lit "files") (lit "/f") lab_text logging_world).
  - apply broken_flaky.
  - reflexivity.
  - reflexivity.
  - reflexivity.
  - reflexivity.
  - reflexivity.
  - by split.
  - discriminate.
  - vmdec.
  - vmdec.
Defined.

(** The download of the witness is cut short by an empty block, and yet its result is
    0: the client gets three bytes of eight. *)
Example download_cut :
  match do_file_send_rwloop (E := broken_env) (T := lab_tun)
      (P := vsf_sysutil_check_pending_actions (E := broken_env) (T := lab_tun))
      9 true 1 (zlen lab_text) logging_world with
  | (Ok r, w') => r = TransferRet 0 3 ∧ sent 9 (hist w') = [CR; LF] ++ lit "b" ∧ sent 4 (hist w') ≠ []
  | (Err _, _) => False
  end.
Proof. vm_compute. by repeat split. Qed.

(** A limit of one kilobyte, and an upload that is reported to have two
    kilobytes already. *)
Definition limit_tun : tunables := Tunables ∅ {["max_upload_file_size"%string := 1]} ∅.

Lemma upload_limit_ignored_witness :
  ∃ w', do_file_recv (E := lab_env [] lab_text) (T := limit_tun)
      (P := vsf_sysutil_check_pending_actions (E := lab_env [] lab_text) (T := limit_tun))
      17 7 false 2048 lab_world = (Ok (TransferRet 0 8), w') ∧ retval (TransferRet 0 8) ≠ TOO_LARGE.
Proof.
  eexists. split; [vm_compute; reflexivity|].
  refine (upload_limit_ignored (E := lab_env [] lab_text) (T := limit_tun) 17 7 false 2048
    lab_world _ (TransferRet 0 8) _ _); [vmdec|vm_compute; reflexivity].
Defined.

Lemma listing_delivered_witness :
  ∃ w', write_dir_list (E := lab_env [] [])
      (P := vsf_sysutil_check_pending_actions (E := lab_env [] []) (T := Tunables ∅ ∅ ∅))
      (MkList 32 2 [LNode (lit "b") []; LNode (lit "a") []]) kVSFRWData lab_world = (Ok false, w') ∧
    sent 9 (hist w') = lit "ba".
Proof.
  apply (listing_delivered (E := lab_env [] []) (T := Tunables ∅ ∅ ∅) (HS := lab_no_signals [] [])
    (MkList 32 2 [LNode (lit "b") []; LNode (lit "a") []]) lab_world).
  - apply lab_progress.
  - reflexivity.
  - repeat constructor; vm_compute; discriminate.
Defined.
