(* ===== verification/Ls.v ===== *)
(** * Directory listings

    ls.c: the lines of a LIST, NLST or STAT reply, from what COS reports. *)

From Stdlib Require Import Init.Byte Strings.Byte.
From Stdlib Require Import ZArith Lia String.
From stdpp Require Import base list numbers option gmap strings.
From S2P Require Import Prelude SysUtil Text StrList IpAddr Filter Tunables Session.
From S2P Require Import CmdIO Signals Logic Paths PrivOps Cos DataIO.

Section Ls.
Context `{E : Env} `{P : Pend} `{T : Tun} `{QS : Qsort} `{JS : Json} (fuel : nat).

(** Older than half a year, or in the future: the year instead of the time. *)
Definition time_get_date (mtime : Z) (use_localtime : bool) (curr_time : Z) : M bytes :=
  let fmt :=
    if (curr_time <? mtime) || (60 * 60 * 24 * 182 <? curr_time - mtime)
    then "%b %d  %Y"%string else "%b %d %H:%M"%string in
  a ← ask (Sys (Strftime fmt mtime use_localtime));
  if a_int a =? 0 then mdie "strftime" else mret (text_of a).

Definition build_dir_line (p_filename_str : bytes) (p_stat : file_info) (curr_time : Z)
    : M bytes :=
  date ← time_get_date (fi_mtime p_stat) (tb tun "use_localtime") curr_time;
  mret (lit (if fi_type p_stat =? TYPE_FILE then "-" else "d") ++ lit "--------- "
        ++ t_lpad (vsf_sysutil_ulong_to_str 1) 4 ++ [SP]
        ++ t_rpad (lit "ftp") 8 ++ [SP]
        ++ t_rpad (lit "ftp") 8 ++ [SP]
        ++ t_lpad (vsf_sysutil_filesize_t_to_str (file_size p_stat)) 8 ++ [SP]
        ++ date ++ [SP]
        ++ p_filename_str ++ crlf).

Definition has_option (p_option_str : bytes) (c : byte) : bool :=
  bool_decide (is_Some (t_locate_char p_option_str c)).

(** The base directory, ending in a slash when it is not the current one. *)
Definition normalised_base_dir (p_base_dir_str : bytes) : bytes :=
  if eqtext p_base_dir_str "." || isempty p_base_dir_str then []
  else if ends_with_slash p_base_dir_str then p_base_dir_str
  else p_base_dir_str ++ [SLASH].

(** A listing of one entry. *)
Definition single_line (is_verbose : bool) (full_filename : bytes) (info : file_info)
    (curr_time : Z) (p_list : mystr_list) : M mystr_list :=
  line ← (if is_verbose then build_dir_line full_filename info curr_time
          else mret (full_filename ++ crlf));
  lift (str_list_add p_list line (Some full_filename)).

(** "%030ld" *)
Definition sortkey_mtime (mtime : Z) : bytes :=
  let digits := print_base 10 (Z.abs mtime) in
  let width := if mtime <? 0 then 29%nat else 30%nat in
  (if mtime <? 0 then [HYPHEN] else [])
  ++ replicate (width - length digits) x30 ++ digits.

Fixpoint list_entries (infos : list file_info) (is_verbose t_option : bool) (base : bytes)
    (curr_time : Z) (p_list : mystr_list) : M mystr_list :=
  match infos with
  | [] => mret p_list
  | info :: infos' =>
      line ← (if is_verbose then build_dir_line (file_name info) info curr_time
              else mret (base ++ file_name info ++ crlf));
      let key := if t_option then sortkey_mtime (fi_mtime info) else file_name info in
      p_list ← lift (str_list_add p_list line (Some key));
      list_entries infos' is_verbose t_option base curr_time p_list
  end.

Definition vsf_ls_populate_dir_list (p_base_dir_str p_option_str p_filter_str : bytes)
    (is_verbose is_stat : bool) : M mystr_list :=
  let r_option := has_option p_option_str x72 in
  let t_option := has_option p_option_str x74 in
  let is_verbose := is_verbose || has_option p_option_str x6c in
  let r_option := if t_option then negb r_option else r_option in
  let base := normalised_base_dir p_base_dir_str in
  curr_time ← (if is_verbose then sys (Sys Clock) else mret 0);
  let full_filename := base ++ p_filter_str in
  if is_stat : bool then
    info ← cos_stat_file full_filename;
    info ← match info with Some i => mret (Some i) | None => cos_stat_dir full_filename end;
    match info with
    | Some i => single_line is_verbose full_filename i curr_time INIT_MYSTR_LIST
    | None => mret INIT_MYSTR_LIST
    end
  else
    info ← (if isempty p_filter_str then mret None else cos_stat_file full_filename);
    match info with
    | Some i => single_line is_verbose full_filename i curr_time INIT_MYSTR_LIST
    | None =>
        if negb (isempty p_filter_str) && t_all_normal_char p_filter_str
        then mret INIT_MYSTR_LIST
        else
          flist ← cos_get_list fuel base (if isempty p_filter_str then None else Some p_filter_str);
          p_list ← list_entries flist is_verbose t_option base curr_time INIT_MYSTR_LIST;
          mret (str_list_sort p_list r_option)
    end.

(** ** ftpdataio.c: sending a listing

    The recursion into subdirectories is disabled in the source: there is no
    list of them. *)
Definition vsf_ftpdataio_transfer_dir (is_control : bool) (p_base_dir_str p_option_str p_filter_str : bytes)
    (is_verbose : bool) : M Z :=
  let tgt := if is_control then kVSFRWControl else kVSFRWData in
  dir_list ← vsf_ls_populate_dir_list p_base_dir_str p_option_str p_filter_str is_verbose is_control;
  failed ← write_dir_list dir_list tgt;
  mret (if failed : bool then -1 else 0).

End Ls.
