(* ===== verification/PostLogin.v ===== *)
(** * Commands of a logged-in session

    postlogin.c: the command loop, its permission checks, and one function per
    command, with the AUTH-related handlers of ssl.c. *)

From Stdlib Require Import Init.Byte Strings.Byte.
From Stdlib Require Import ZArith Lia String.
From stdpp Require Import base list numbers option gmap strings.
From S2P Require Import Prelude SysUtil Text StrList IpAddr Tunables Session CmdIO.
From S2P Require Import Signals Logic Paths PrivOps Cos DataIO Ls.

Definition PIPE : byte := x7c.
Definition PERCENT : byte := x25.
Definition VSF_VERSION : string := "3.0.3".

Section PostLogin.
Context `{E : Env} `{P : Pend} `{T : Tun} `{QS : Qsort} `{JS : Json}.
(** Bound on the rounds of one transfer. *)
Context (fuel : nat).

Definition set_arg (f : bytes → bytes) : M unit :=
  arg ← gets ftp_arg_str; upd (set_ftp_arg_str (f arg)).

Definition resolve_arg : M unit :=
  arg ← gets ftp_arg_str; arg ← resolve_tilde arg; upd (set_ftp_arg_str arg).

(** ** Passive and active mode *)

(** The two functions call each other while both modes are active: the C stack
    is bounded, and so is [depth]. *)
Fixpoint port_active (depth : nat) : M bool :=
  match depth with
  | O => stop_with UB
  | S d =>
      p ← gets p_port_sockaddr;
      match p with
      | None => mret false
      | Some _ =>
          active ← pasv_active d;
          if active : bool then mbug "port and pasv both active" else mret true
      end
  end
with pasv_active (depth : nat) : M bool :=
  match depth with
  | O => stop_with UB
  | S d =>
      ret ← query_pasv_active;
      if ret : bool then
        active ← port_active d;
        if active : bool then mbug "pasv and port both active" else mret true
      else mret false
  end.

Definition stack_depth : nat := 64.

Definition port_cleanup : M unit := upd (set_p_port_sockaddr None).

Definition inet_ntoa (raw : bytes) : bytes := print_sep raw DOT.

Definition vsf_sysutil_inet_ntop (a : sockaddr) : M bytes :=
  match sa_family a with
  | AF_INET => mret (inet_ntoa (sin_addr a))
  | AF_INET6 => r ← ask (Sys (InetNtop a)); mret (text_of r)
  | AF_UNSPEC => mdie "can only support ipv4 and ipv6 currently"
  end.

(** The address a PASV reply announces. *)
Definition pasv_reply_addr (local : sockaddr) : M bytes :=
  s_p_sockaddr ←
    match ts tun "pasv_address" with
    | Some t =>
        r ← ask (Sys (InetAton t));
        if a_int r =? 0 then mdie "invalid pasv_address"
        else mret (MkAddr AF_INET (text_of r) (replicate 16 NUL) 0 0)
    | None => lift (vsf_sysutil_sockaddr_clone local)
    end;
  if negb (vsf_sysutil_sockaddr_is_ipv6 local) then vsf_sysutil_inet_ntop s_p_sockaddr
  else
    match vsf_sysutil_sockaddr_ipv6_v4 s_p_sockaddr with
    | Some v4 => mret (inet_ntoa v4)
    | None => mret (lit "0,0,0,0")
    end.

Definition handle_pasv (is_epsv : bool) : M unit :=
  local ← gets p_local_addr;
  let is_ipv6 := vsf_sysutil_sockaddr_is_ipv6 local in
  arg ← gets ftp_arg_str;
  let go : M unit :=
    pasv_cleanup;;
    port_cleanup;;
    the_port ← pasv_listen;
    if is_epsv then
      vsf_cmdio_write_str 229 (lit "Entering Extended Passive Mode (|||"
        ++ vsf_sysutil_ulong_to_str the_port ++ lit "|)")
    else
      addr ← pasv_reply_addr local;
      vsf_cmdio_write_str 227
        (t_replace_char (lit "Entering Passive Mode (" ++ addr) DOT COMMA
         ++ lit "," ++ vsf_sysutil_ulong_to_str (Z.shiftr the_port 8)
         ++ lit "," ++ vsf_sysutil_ulong_to_str (Z.land the_port 255)
         ++ lit ").") in
  if is_epsv && negb (isempty arg) then
    upd (set_ftp_arg_str (t_upper arg));;
    if eqtext (t_upper arg) "ALL" then
      upd (set_epsv_all true);;
      vsf_cmdio_write 200 "EPSV ALL ok."
    else
      let argval := t_atoi (t_upper arg) in
      if (argval <? 1) || (2 <? argval) || (negb is_ipv6 && (argval =? 2)) then
        vsf_cmdio_write 522 "Bad network protocol."
      else go
  else go.

(** Whether the address and port a client names may be used. *)
Definition port_allowed (remote addr : sockaddr) (the_port : Z) : bool :=
  tb tun "port_promiscuous" ||
  (vsf_sysutil_sockaddr_addr_equal remote addr &&
   negb (vsf_sysutil_is_port_reserved the_port)).

(** The end of PORT and EPRT. *)
Definition accept_port (addr : sockaddr) (the_port : Z) (good bad : string) : M unit :=
  upd (set_p_port_sockaddr (Some addr));;
  remote ← gets p_remote_addr;
  if negb (port_allowed remote addr the_port) then
    vsf_cmdio_write 500 bad;;
    port_cleanup
  else vsf_cmdio_write 200 good.

Definition handle_port : M unit :=
  pasv_cleanup;;
  port_cleanup;;
  arg ← gets ftp_arg_str;
  match vsf_sysutil_parse_uchar_string_sep arg COMMA 6 with
  | Some vals =>
      let v i := uchar (nth i vals NUL) in
      let the_port := u16 (Z.lor (Z.shiftl (v 4%nat) 8) (v 5%nat)) in
      local ← gets p_local_addr;
      addr ← lift (vsf_sysutil_sockaddr_clone local);
      addr ← lift (vsf_sysutil_sockaddr_set_ipv4addr addr vals);
      addr ← lift (vsf_sysutil_sockaddr_set_port addr the_port);
      accept_port addr the_port "PORT command successful. Consider using PASV."
        "Illegal PORT command."
  | None => vsf_cmdio_write 500 "Illegal PORT command."
  end.

(** The three fields of an EPRT argument [|proto|address|port|]; [None] is a
    jump to [bad_eprt], [Some None] a bad protocol. *)
Definition parse_eprt (arg : bytes) (is_ipv6 : bool) : option (option (Z * bytes * Z)) :=
  let '(part1, part2) := t_split_char arg PIPE in
  if negb (isempty part1) then None
  else
    let '(part2, part1) := t_split_char part2 PIPE in
    let proto := t_atoi part2 in
    if (proto <? 1) || (2 <? proto) || (negb is_ipv6 && (proto =? 2)) then Some None
    else
      let '(part1, part2) := t_split_char part1 PIPE in
      let p_raw_addr :=
        if proto =? 2 then vsf_sysutil_parse_ipv6 (t_split_char part1 PERCENT).1
        else vsf_sysutil_parse_ipv4 part1 in
      match p_raw_addr with
      | None => None
      | Some raw =>
          let '(part2, part1) := t_split_char part2 PIPE in
          if negb (isempty part1) || isempty part2 then None
          else
            let port := t_atoi part2 in
            if (port <? 0) || (65535 <? port) then None else Some (Some (proto, raw, port))
      end.

Definition handle_eprt : M unit :=
  local ← gets p_local_addr;
  port_cleanup;;
  pasv_cleanup;;
  arg ← gets ftp_arg_str;
  match parse_eprt arg (vsf_sysutil_sockaddr_is_ipv6 local) with
  | None => vsf_cmdio_write 500 "Bad EPRT command."
  | Some None => vsf_cmdio_write 500 "Bad EPRT protocol."
  | Some (Some (proto, raw, port)) =>
      addr ← lift (vsf_sysutil_sockaddr_clone local);
      addr ← lift (if proto =? 2 then vsf_sysutil_sockaddr_set_ipv6addr addr raw
                   else vsf_sysutil_sockaddr_set_ipv4addr addr raw);
      addr ← lift (vsf_sysutil_sockaddr_set_port addr (u16 port));
      accept_port addr (u16 port) "EPRT command successful. Consider using EPSV."
        "Illegal EPRT command."
  end.

(** ** Data transfers *)

Definition data_transfer_checks_ok : M bool :=
  pasv ← pasv_active stack_depth;
  ok ← (if pasv : bool then mret true else port_active stack_depth);
  if negb ok then vsf_cmdio_write 425 "Use PORT or PASV first.";; mret false
  else
    dssl ← gets data_use_ssl;
    anon ← gets is_anonymous;
    if tb tun "ssl_enable" && negb dssl &&
       ((tb tun "force_local_data_ssl" && negb anon) ||
        (tb tun "force_anon_data_ssl" && anon))
    then vsf_cmdio_write 522 "Data connections must be encrypted.";; mret false
    else mret true.

Definition get_remote_transfer_fd (p_status_msg : bytes) : M Z :=
  pasv ← pasv_active stack_depth;
  ok ← (if pasv : bool then mret true else port_active stack_depth);
  if negb ok then mbug "neither PORT nor PASV active in get_remote_transfer_fd"
  else
    upd (set_abor_received false);;
    pasv ← pasv_active stack_depth;
    remote_fd ← (if pasv : bool then vsf_ftpdataio_get_pasv_fd else vsf_ftpdataio_get_port_fd);
    if vsf_sysutil_retval_is_error remote_fd then mret remote_fd
    else
      vsf_cmdio_write_str 150 (cstr p_status_msg);;
      ok ← vsf_ftpdataio_post_mark_connect;
      if negb ok then vsf_ftpdataio_dispose_transfer_fd;; mret (-1)
      else mret remote_fd.

Definition check_abor : M unit :=
  abor ← gets abor_received;
  if abor : bool then
    upd (set_abor_received false);;
    vsf_cmdio_write 226 "ABOR successful."
  else mret tt.

(** Everything up to the transfer: the handlers below return early from it. *)
Definition mark_text (is_ascii : bool) (arg : bytes) (size : Z) : bytes :=
  lit "Opening " ++ lit (if is_ascii then "ASCII" else "BINARY")
  ++ lit " mode data connection for " ++ arg ++ lit " ("
  ++ vsf_sysutil_filesize_t_to_str size ++ lit " bytes).".

Definition start_logged (what : log_entry_type) : M unit :=
  vsf_log_start_entry what;;
  arg ← gets ftp_arg_str;
  upd (set_log_str arg);;
  log ← prepend_session_path_to_filename arg;
  upd (set_log_str log).

(** After the transfer of a download, on an FTP session. *)
Definition retr_report (ret : Z) : M unit :=
  timeout ← gets data_timeout;
  if ret =? -1 then vsf_cmdio_write 451 "Failure reading local file."
  else if ret =? -2 then when (negb timeout) (vsf_cmdio_write 426 "Failure writing network stream.")
  else vsf_cmdio_write 226 "Transfer complete.".

Definition cleanup_port_pasv : M unit := port_cleanup;; pasv_cleanup.

Definition handle_retr (is_http : bool) : M unit :=
  offset ← gets restart_pos;
  upd (set_restart_pos 0);;
  ok ← (if is_http then mret true else data_transfer_checks_ok);
  ascii ← gets is_ascii;
  if negb ok then mret tt
  else if ascii && negb (offset =? 0) then
    vsf_cmdio_write 550 "No support for resume of ASCII transfer."
  else
    resolve_arg;;
    start_logged kVSFLogEntryDownload;;
    arg ← gets ftp_arg_str;
    allowed ← vsf_access_session_check_file arg;
    if negb allowed then vsf_cmdio_write 550 "Permission denied."
    else
      info ← cos_stat_file arg;
      match info with
      | None => vsf_cmdio_write 550 "Failed to open file."
      | Some info =>
          ascii ← gets is_ascii;
          let is_ascii := tb tun "ascii_download_enable" && ascii in
          remote_fd ← (if is_http then mret VSFTP_COMMAND_FD
                       else get_remote_transfer_fd (mark_text is_ascii arg (file_size info)));
          if negb is_http && vsf_sysutil_retval_is_error remote_fd then cleanup_port_pasv
          else
            trans_ret ← vsf_ftpdataio_transfer_file fuel 0 false is_ascii offset (file_size info);
            disposed ← (if is_http then mret true else vsf_ftpdataio_dispose_transfer_fd);
            let ret :=
              if negb disposed && (retval trans_ret =? 0) then -2 else retval trans_ret in
            upd (set_transfer_size (transferred trans_ret));;
            when (ret =? 0) (vsf_log_do_log true);;
            if is_http then mret tt
            else
              retr_report ret;;
              check_abor;;
              cleanup_port_pasv
      end.

(** The options and the filter of a listing command. *)
Definition split_list_arg (arg : bytes) : bytes * bytes :=
  match arg with
  | c :: rest =>
      if bool_decide (c = HYPHEN) then t_split_char rest SP else ([], arg)
  | [] => ([], arg)
  end.

(** The directory and filter, once the filter was checked: [None] for a name
    that is refused. *)
Definition list_target (s_filter_str : bytes) (stat_cmd : bool) : M (option (bytes * bytes)) :=
  if isempty s_filter_str then mret (Some (dot, s_filter_str))
  else
    s_filter_str ← resolve_tilde s_filter_str;
    allowed ← vsf_access_session_check_file s_filter_str;
    if negb allowed then mret None
    else
      isdir ← (if stat_cmd then mret false
               else r ← cos_isdir s_filter_str; mret (r =? 0));
      if isdir : bool then mret (Some (s_filter_str, []))
      else
        match t_locate_char s_filter_str SLASH with
        | None => mret (Some (dot, s_filter_str))
        | Some _ =>
            let '(dir, filter) := t_split_char_reverse s_filter_str SLASH in
            mret (Some (if isempty dir then [SLASH] else dir, filter))
        end.

Definition handle_dir_common (full_details stat_cmd : bool) : M unit :=
  ok ← (if stat_cmd then mret true else data_transfer_checks_ok);
  if negb ok then mret tt
  else
    arg ← gets ftp_arg_str;
    let '(s_option_str, s_filter_str) := split_list_arg arg in
    tgt ← list_target s_filter_str stat_cmd;
    match tgt with
    | None => vsf_cmdio_write 550 "Permission denied."
    | Some (s_dir_name_str, s_filter_str) =>
        if stat_cmd then
          vsf_cmdio_write_hyphen 213 "Status follows:";;
          vsf_ftpdataio_transfer_dir fuel true s_dir_name_str (s_option_str ++ lit "a")
            s_filter_str full_details;;
          vsf_cmdio_write 213 "End of status";;
          check_abor
        else
          remote_fd ← get_remote_transfer_fd (lit "Here comes the directory listing.");
          if vsf_sysutil_retval_is_error remote_fd then cleanup_port_pasv
          else
            retval ← vsf_ftpdataio_transfer_dir fuel false s_dir_name_str s_option_str
                       s_filter_str full_details;
            disposed ← vsf_ftpdataio_dispose_transfer_fd;
            let retval := if negb disposed && (retval =? 0) then -1 else retval in
            timeout ← gets data_timeout;
            (if negb (retval =? 0) then
               when (negb timeout) (vsf_cmdio_write 426 "Failure writing network stream.")
             else vsf_cmdio_write 226 "Directory send OK.");;
            check_abor;;
            cleanup_port_pasv
    end.

Definition handle_list : M unit := handle_dir_common true false.
Definition handle_nlst : M unit := handle_dir_common false false.
Definition handle_stat_file : M unit := handle_dir_common true true.

(** ** Uploads *)

Definition str_stat_fails (path : bytes) : M bool :=
  r ← sys (Fs (Stat (cstr path))); mret (vsf_sysutil_retval_is_error r).

Fixpoint unique_loop (n : nat) (base : bytes) (suffix : Z) : M bytes :=
  match n with
  | O => stop_with Fuel
  | S n' =>
      let name := base ++ lit "." ++ vsf_sysutil_ulong_to_str suffix in
      free ← str_stat_fails name;
      if free : bool then mret name else unique_loop n' base (u32 (suffix + 1))
  end.

Definition get_unique_filename (p_base_str : bytes) : M bytes :=
  if isempty p_base_str then unique_loop fuel (lit "STOU") 1
  else
    free ← str_stat_fails p_base_str;
    if free : bool then mret p_base_str else unique_loop fuel p_base_str 1.

(** [port_pasv_cleanup_out] of [handle_upload_common]. *)
Definition upload_out (p_filename : bytes) (new_file_fd : Z) (pasv_cleaned success : bool)
    : M unit :=
  port_cleanup;;
  when (negb pasv_cleaned) pasv_cleanup;;
  when (tb tun "delete_failed_uploads" && negb success) (do_ (Fs (Unlink (cstr p_filename))));;
  vsf_sysutil_close new_file_fd.

(** What the client and COS hear of a finished upload: whether it succeeded. *)
Definition upload_report (ret : Z) (p_filename : bytes) : M bool :=
  timeout ← gets data_timeout;
  if ret =? -1 then vsf_cmdio_write 451 "Failure writing to local file.";; mret false
  else if ret =? -2 then
    when (negb timeout) (vsf_cmdio_write 426 "Failure reading network stream.");; mret false
  else if ret =? -3 then
    vsf_cmdio_write_str 451 (lit "The max allow file size is: "
      ++ vsf_sysutil_ulong_to_str (tu tun "max_upload_file_size" / 1024) ++ lit " MB");;
    do_ (Fs (Unlink (cstr p_filename)));;
    mret false
  else if ret =? 0 then
    port_cleanup;;
    vsf_log_line kVSFLogEntryDebug (p_filename ++ lit "  Receive success.");;
    arg ← gets ftp_arg_str;
    up ← cos_upload_file p_filename arg;
    if negb (up =? 0) then
      vsf_cmdio_write 451 "Failure transfer file to cos.";; mret false
    else
      vsf_log_do_log true;;
      vsf_cmdio_write 226 "Transfer complete.";;
      do_ (Fs (Unlink (cstr p_filename)));;
      mret true
  else mret false.

(** Lock, truncate and seek: the offset to start from, or [None] after the
    reply that ends the upload, with the value of [success]. *)
Definition upload_prepare (p_filename : bytes) (fd size offset : Z) (is_append do_truncate : bool)
    : M (option Z * bool) :=
  locked ← (if tb tun "lock_upload_files"
            then r ← lock_file_write fd false; mret (r =? 0) else mret true);
  if negb locked then
    vsf_cmdio_write 450 "File is locked, Try later.";;
    mret (None, true)
  else
    when do_truncate (must (Fs (Ftruncate fd)) "ftruncate";; must (Fs (Lseek fd 0)) "lseek");;
    if negb is_append && negb (offset =? 0) then
      if size <? offset then
        vsf_cmdio_write 451 "Offset is out of bounds. Try again";;
        cos_unlink p_filename;;
        mret (None, false)
      else
        must (Fs (Lseek fd offset)) "lseek";;
        mret (Some offset, false)
    else if is_append then
      must (Fs (LseekEnd fd)) "lseek";;
      mret (Some size, false)
    else mret (Some 0, false).

(** From the open file to the end of the transfer. *)
Definition upload_transfer (p_filename : bytes) (new_file_fd have_recv_len : Z) (is_unique : bool)
    : M unit :=
  msg ← (if is_unique then
           root ← lift get_user_root_dir;
           mret (t_replace_text p_filename root (lit "FILE: "))
         else mret (lit "Ok to send data."));
  remote_fd ← get_remote_transfer_fd msg;
  if vsf_sysutil_retval_is_error remote_fd then upload_out p_filename new_file_fd false false
  else
    pasv_cleanup;;
    ascii ← gets is_ascii;
    trans_ret ← vsf_ftpdataio_transfer_file fuel new_file_fd true
                  (tb tun "ascii_upload_enable" && ascii) have_recv_len 0;
    disposed ← vsf_ftpdataio_dispose_transfer_fd;
    let ret := if negb disposed && (retval trans_ret =? 0) then -2 else retval trans_ret in
    upd (set_transfer_size (transferred trans_ret));;
    success ← upload_report ret p_filename;
    check_abor;;
    upload_out p_filename new_file_fd true success.

Definition handle_upload_common (is_append is_unique : bool) : M unit :=
  offset ← gets restart_pos;
  upd (set_restart_pos 0);;
  ok ← data_transfer_checks_ok;
  if negb ok then mret tt
  else
    resolve_arg;;
    arg ← gets ftp_arg_str;
    s_local_filename ← prepend_session_path_to_filename arg;
    p_filename ← (if is_unique then get_unique_filename s_local_filename
                  else mret s_local_filename);
    start_logged kVSFLogEntryUpload;;
    allowed ← vsf_access_session_check_file p_filename;
    if negb allowed then vsf_cmdio_write 550 "Permission denied."
    else
      anon ← gets is_anonymous;
      let exclusive := is_unique || (anon && negb (tb tun "anon_other_write_enable")) in
      let do_truncate := negb exclusive && negb is_append && (offset =? 0) in
      new_file_fd ← sys (Fs (Create (cstr p_filename) exclusive));
      if vsf_sysutil_retval_is_error new_file_fd then
        vsf_cmdio_write 553 "Could not create file."
      else
        st ← vsf_sysutil_fstat new_file_fd;
        when (a_regfile st) (must (Sock (Sockopt new_file_fd "block")) "fcntl");;
        when (anon && tb tun "chown_uploads")
          (must (Fs (Fchmod new_file_fd (tu tun "chown_upload_mode"))) "fchmod";;
           chown_upload new_file_fd);;
        '(start, success) ← upload_prepare p_filename new_file_fd (a_size st) offset
                              is_append do_truncate;
        match start with
        | None => upload_out p_filename new_file_fd false success
        | Some have_recv_len => upload_transfer p_filename new_file_fd have_recv_len is_unique
        end.

Definition handle_stor : M unit := handle_upload_common false false.

(** ** Directories *)

Definition handle_pwd : M unit :=
  cwd ← str_session_getcwd;
  let cwd := if isempty cwd then [SLASH] else cwd in
  vsf_cmdio_write_str 257 ([QUOTE] ++ t_replace_text cwd [QUOTE] [QUOTE; QUOTE]
                           ++ [QUOTE] ++ lit " is the current directory").

Definition handle_cwd : M unit :=
  resolve_arg;;
  arg ← gets ftp_arg_str;
  allowed ← vsf_access_session_check_file arg;
  if negb allowed then vsf_cmdio_write 550 "Permission denied."
  else
    retval ← cos_isdir arg;
    retval ← (if retval =? 0 then
                disk_path ← prepend_session_path_to_filename arg;
                retval ← sys (Fs (Chdir (cstr disk_path)));
                if negb (retval =? 0) then
                  retval ← str_mkdirs (S (length disk_path)) disk_path 511;
                  if retval =? 0 then sys (Fs (Chdir (cstr disk_path))) else mret retval
                else mret retval
              else mret retval);
    if retval =? 0 then
      vsf_banner_dir_changed 250;;
      vsf_cmdio_write 250 "Directory successfully changed."
    else vsf_cmdio_write 550 "Failed to change directory.".

Definition handle_cdup : M unit := upd (set_ftp_arg_str dotdot);; handle_cwd.

Definition handle_mkd : M unit :=
  resolve_arg;;
  start_logged kVSFLogEntryMkdir;;
  arg ← gets ftp_arg_str;
  allowed ← vsf_access_session_check_file arg;
  if negb allowed then vsf_cmdio_write 550 "Permission denied."
  else
    retval ← cos_mkdir arg;
    (if (retval =? 0) || (retval =? -178) then
       s_mkd_path ← prepend_session_path_to_filename arg;
       do_ (Fs (Mkdir (cstr s_mkd_path) 511))
     else mret tt);;
    if negb (retval =? 0) then
      if retval =? -178 then vsf_cmdio_write 550 "Directory already exists"
      else vsf_cmdio_write 550 "Create directory operation failed."
    else
      vsf_log_do_log true;;
      vsf_cmdio_write_str 257 ([QUOTE] ++ t_replace_text arg [QUOTE] [QUOTE; QUOTE]
                               ++ [QUOTE] ++ lit " created").

Definition handle_rmd : M unit :=
  resolve_arg;;
  start_logged kVSFLogEntryRmdir;;
  arg ← gets ftp_arg_str;
  allowed ← vsf_access_session_check_file arg;
  if negb allowed then vsf_cmdio_write 550 "Permission denied."
  else
    retval ← cos_dir_isempty arg;
    if retval =? 1 then
      vsf_cmdio_write 550 "Remove directory operation failed (not empty)."
    else if negb (retval =? 0) then
      vsf_cmdio_write 550 "Remove directory operation failed."
    else
      retval ← cos_rmdir arg;
      if retval =? 1 then
        vsf_cmdio_write 550 "Remove directory operation failed (not exist)."
      else if negb (retval =? 0) then
        vsf_cmdio_write 550 "Remove directory operation failed."
      else
        s_mkd_path ← prepend_session_path_to_filename arg;
        do_ (Fs (Rmdir (cstr s_mkd_path)));;
        vsf_log_do_log true;;
        vsf_cmdio_write 250 "Remove directory operation successful.".

Definition handle_dele : M unit :=
  resolve_arg;;
  start_logged kVSFLogEntryDelete;;
  arg ← gets ftp_arg_str;
  allowed ← vsf_access_session_check_file arg;
  if negb allowed then vsf_cmdio_write 550 "Permission denied."
  else
    retval ← cos_unlink arg;
    if retval =? 1 then vsf_cmdio_write 550 "Delete operation failed (not exist)."
    else if negb (retval =? 0) then vsf_cmdio_write 550 "Delete operation failed."
    else
      vsf_log_do_log true;;
      vsf_cmdio_write 250 "Delete operation successful.".

Definition handle_size : M unit :=
  resolve_arg;;
  arg ← gets ftp_arg_str;
  allowed ← vsf_access_session_check_file arg;
  if negb allowed then vsf_cmdio_write 550 "Permission denied."
  else
    info ← cos_stat_file arg;
    match info with
    | None => vsf_cmdio_write 550 "Could not get file size."
    | Some i => vsf_cmdio_write_str 213 (vsf_sysutil_filesize_t_to_str (file_size i))
    end.

(** ** Small commands *)

Definition handle_type : M unit :=
  set_arg t_upper;;
  arg ← gets ftp_arg_str;
  if eqtext arg "I" || eqtext arg "L8" || eqtext arg "L 8" then
    upd (set_is_ascii false);;
    vsf_cmdio_write 200 "Switching to Binary mode."
  else if eqtext arg "A" || eqtext arg "A N" then
    upd (set_is_ascii true);;
    vsf_cmdio_write 200 "Switching to ASCII mode."
  else vsf_cmdio_write 500 "Unrecognised TYPE command.".

Definition handle_rest : M unit :=
  arg ← gets ftp_arg_str;
  let val := t_a_to_filesize_t arg in
  let val := if val <? 0 then 0 else val in
  upd (set_restart_pos val);;
  vsf_cmdio_write_str 350 (lit "Restart position accepted ("
    ++ vsf_sysutil_filesize_t_to_str val ++ lit ").").

Definition handle_help : M unit :=
  vsf_cmdio_write_hyphen 214 "The following commands are recognized.";;
  raw_line " ABOR ACCT ALLO APPE CDUP CWD  DELE EPRT EPSV FEAT HELP LIST MDTM MKD";;
  raw_line " MODE NLST NOOP OPTS PASS PASV PORT PWD  QUIT REIN REST RETR RMD  RNFR";;
  raw_line " RNTO SITE SIZE SMNT STAT STOR STOU STRU SYST TYPE USER XCUP XCWD XMKD";;
  raw_line " XPWD XRMD";;
  vsf_cmdio_write 214 "Help OK.".

Definition raw (t : bytes) : M unit := vsf_cmdio_write_raw t.

Definition handle_stat : M unit :=
  s ← gets id;
  vsf_cmdio_write_hyphen 211 "FTP server status:";;
  raw (lit "     Connected to ");; raw (cstr (remote_ip_str s));; raw crlf;;
  raw (lit "     Logged in as ");; raw (cstr (user_str s));; raw crlf;;
  raw (lit "     TYPE: ");;
  raw (lit (if is_ascii s then "ASCII" else "BINARY") ++ crlf);;
  (if bw_rate_max s =? 0 then raw_line "     No session bandwidth limit"
   else
     raw (lit "     Session bandwidth limit in byte/s is ");;
     raw (vsf_sysutil_ulong_to_str (bw_rate_max s));; raw crlf);;
  (if tu tun "idle_session_timeout" =? 0 then raw_line "     No session timeout"
   else
     raw (lit "     Session timeout in seconds is ");;
     raw (vsf_sysutil_ulong_to_str (tu tun "idle_session_timeout"));; raw crlf);;
  raw_line (if control_use_ssl s then "     Control connection is encrypted"
            else "     Control connection is plain text");;
  raw_line (if data_use_ssl s then "     Data connections will be encrypted"
            else "     Data connections will be plain text");;
  (if 0 <? num_clients s then
     raw (lit "     At session startup, client count was ");;
     raw (vsf_sysutil_ulong_to_str (num_clients s));; raw crlf
   else mret tt);;
  raw (lit "     vsFTPd " ++ lit VSF_VERSION ++ lit " - secure, fast, stable" ++ crlf);;
  vsf_cmdio_write 211 "End of status".

Definition handle_logged_in_user : M unit :=
  s ← gets id;
  if is_anonymous s then vsf_cmdio_write 530 "Can't change from guest user."
  else if t_equal (user_str s) (ftp_arg_str s) then
    vsf_cmdio_write 331 "Any password will do."
  else vsf_cmdio_write 530 "Can't change to another user.".

Definition handle_logged_in_pass : M unit := vsf_cmdio_write 230 "Already logged in.".

(** ssl.c *)

Definition handle_pbsz : M unit :=
  ssl ← gets control_use_ssl;
  if negb ssl then vsf_cmdio_write 503 "PBSZ needs a secure connection."
  else vsf_cmdio_write 200 "PBSZ set to 0.".

Definition handle_prot : M unit :=
  set_arg t_upper;;
  arg ← gets ftp_arg_str;
  ssl ← gets control_use_ssl;
  if negb ssl then vsf_cmdio_write 503 "PROT needs a secure connection."
  else if eqtext arg "C" then
    upd (set_data_use_ssl false);; vsf_cmdio_write 200 "PROT now Clear."
  else if eqtext arg "P" then
    upd (set_data_use_ssl true);; vsf_cmdio_write 200 "PROT now Private."
  else if eqtext arg "S" || eqtext arg "E" then vsf_cmdio_write 536 "PROT not supported."
  else vsf_cmdio_write 504 "PROT not recognized.".

(** ** The command loop *)

(** The walk through a comma-separated list of commands. *)
Fixpoint in_cmd_list (n : nat) (s_src_str cmd : bytes) : bool :=
  match n with
  | O => false
  | S n' =>
      let '(item, s_rhs_str) := t_split_char s_src_str COMMA in
      if isempty item then false
      else if t_equal item cmd then true
      else in_cmd_list n' s_rhs_str cmd
  end.

Definition cmd_listed (l cmd : bytes) : bool := in_cmd_list (S (length l)) l cmd.

Definition cmd_permitted (cmd : bytes) : bool :=
  match ts tun "cmds_allowed" with Some l => cmd_listed l cmd | None => true end &&
  match ts tun "cmds_denied" with Some l => negb (cmd_listed l cmd) | None => true end.

Definition has_perm (perms bit : Z) : bool := negb (Z.land perms bit =? 0).

(** The guard shared by the commands that write. *)
Definition may_write (s : vsf_session) (anon_tunable : string) : bool :=
  tb tun "write_enable" && (tb tun anon_tunable || negb (is_anonymous s)) &&
  has_perm (permissions s) Global_WRITE.

Definition may_read (s : vsf_session) : bool := has_perm (permissions s) Global_READ.

Definition is_one_of (cmd : bytes) (l : list string) : bool :=
  existsb (λ t, eqtext cmd t) l.

Definition known_commands : list string :=
  ["PASV"; "PORT"; "STOR"; "MKD"; "XMKD"; "RMD"; "XRMD"; "DELE"; "RNFR"; "RNTO"; "SITE";
   "APPE"; "EPSV"; "EPRT"; "RETR"; "LIST"; "NLST"; "STOU"; "ALLO"; "REIN"; "ACCT"; "SMNT";
   "FEAT"; "OPTS"; "STAT"; "PBSZ"; "PROT"]%string.

Definition not_implemented (cmd : string) : M unit :=
  vsf_cmdio_write 502 (cmd ++ " not implemented.").

Definition dispatch_rest (s : vsf_session) (cmd arg : bytes) : M unit :=
  let cmdis t := eqtext cmd t in
  if cmdis "STRU" then
    set_arg t_upper;;
    if eqtext (t_upper arg) "F" then vsf_cmdio_write 200 "Structure set to F."
    else vsf_cmdio_write 504 "Bad STRU command."
  else if cmdis "MODE" then
    set_arg t_upper;;
    if eqtext (t_upper arg) "S" then vsf_cmdio_write 200 "Mode set to S."
    else vsf_cmdio_write 504 "Bad MODE command."
  else if may_write s "anon_upload_enable" && cmdis "STOU" then not_implemented "STOU"
  else if cmdis "ALLO" then vsf_cmdio_write 202 "ALLO command ignored."
  else if cmdis "REIN" then not_implemented "REIN"
  else if cmdis "ACCT" then not_implemented "ACCT"
  else if cmdis "SMNT" then not_implemented "SMNT"
  else if cmdis "FEAT" then handle_feat
  else if cmdis "OPTS" then handle_opts
  else if cmdis "STAT" && isempty arg then handle_stat
  else if tb tun "dirlist_enable" && may_read s && cmdis "STAT" then handle_stat_file
  else if tb tun "ssl_enable" && cmdis "PBSZ" then handle_pbsz
  else if tb tun "ssl_enable" && cmdis "PROT" then handle_prot
  else if cmdis "USER" then handle_logged_in_user
  else if cmdis "PASS" then handle_logged_in_pass
  else if is_one_of cmd known_commands then vsf_cmdio_write 550 "Permission denied."
  else if isempty cmd && isempty arg then mret tt
  else if is_one_of cmd ["GET"; "POST"; "HEAD"; "OPTIONS"; "CONNECT"]%string then
    vsf_cmdio_write_exit 500 "HTTP protocol commands not allowed." 1
  else vsf_cmdio_write 500 "Unknown command.".

(** An ABOR that arrives without SIGURG, after its telnet characters. *)
Definition telnet_abor : bytes := [xff; xf4; xff; xf2] ++ lit "ABOR".

Definition dispatch_write (s : vsf_session) (cmd arg : bytes) : M unit :=
  let cmdis t := eqtext cmd t in
  if may_write s "anon_upload_enable" && cmdis "STOR" then handle_stor
  else if may_write s "anon_mkdir_write_enable" && (cmdis "MKD" || cmdis "XMKD") then handle_mkd
  else if may_write s "anon_other_write_enable" && (cmdis "RMD" || cmdis "XRMD") then handle_rmd
  else if may_write s "anon_other_write_enable" && cmdis "DELE" then handle_dele
  else if cmdis "REST" then handle_rest
  else if may_write s "anon_other_write_enable" && cmdis "RNFR" then not_implemented "RNFR"
  else if may_write s "anon_other_write_enable" && cmdis "RNTO" then not_implemented "RNTO"
  else if tb tun "dirlist_enable" && may_read s && cmdis "NLST" then handle_nlst
  else if may_read s && cmdis "SIZE" then handle_size
  else if negb (is_anonymous s) && cmdis "SITE" then not_implemented "SITE"
  else if cmdis "ABOR" || t_equal cmd telnet_abor then
    vsf_cmdio_write 225 "No transfer to ABOR."
  else if may_write s "anon_other_write_enable" && cmdis "APPE" then not_implemented "APPE"
  else if cmdis "MDTM" then not_implemented "MDTM"
  else if tb tun "port_enable" && cmdis "EPRT" then handle_eprt
  else dispatch_rest s cmd arg.

Definition dispatch (s : vsf_session) (cmd arg : bytes) : M unit :=
  let cmdis t := eqtext cmd t in
  if negb (cmd_permitted cmd) then vsf_cmdio_write 550 "Permission denied."
  else if cmdis "QUIT" then vsf_cmdio_write_exit 221 "Goodbye." 0
  else if cmdis "PWD" || cmdis "XPWD" then handle_pwd
  else if cmdis "CWD" || cmdis "XCWD" then handle_cwd
  else if cmdis "CDUP" || cmdis "XCUP" then handle_cdup
  else if tb tun "pasv_enable" && negb (epsv_all s) && (cmdis "PASV" || cmdis "P@SW") then
    handle_pasv false
  else if tb tun "pasv_enable" && cmdis "EPSV" then handle_pasv true
  else if tb tun "download_enable" && may_read s && cmdis "RETR" then handle_retr false
  else if cmdis "NOOP" then vsf_cmdio_write 200 "NOOP ok."
  else if cmdis "SYST" then vsf_cmdio_write 215 "UNIX Type: L8"
  else if cmdis "HELP" then handle_help
  else if tb tun "dirlist_enable" && may_read s && cmdis "LIST" then handle_list
  else if cmdis "TYPE" then handle_type
  else if tb tun "port_enable" && negb (epsv_all s) && cmdis "PORT" then handle_port
  else dispatch_write s cmd arg.

Definition proctitle_text (cmd arg : bytes) : bytes :=
  t_replace_unprintable (cmd ++ (if isempty arg then [] else [SP] ++ arg)) x3f.

(** The tests look at the session as it is when the command arrives. *)
Definition run_command (cmd arg : bytes) : M unit := s ← gets id; dispatch s cmd arg.

(** The top of the loop: a command and its argument, which [cos_conv_gbk_2_utf]
    may rewrite. *)
Definition next_command : M (bytes * bytes) :=
  when (tb tun "setproctitle_enable") (do_ (Sys (Proctitle (lit "IDLE"))));;
  '(cmd, arg) ← vsf_cmdio_get_cmd_and_arg true;
  upd (set_ftp_cmd_str cmd);;
  upd (set_ftp_arg_str arg);;
  cos_conv_gbk_2_utf;;
  arg ← gets ftp_arg_str;
  when (tb tun "setproctitle_enable") (do_ (Sys (Proctitle (proctitle_text cmd arg))));;
  mret (cmd, arg).

(** One round of the loop. *)
Definition post_login_command : M unit :=
  '(cmd, arg) ← next_command;
  run_command cmd arg;;
  pending ← vsf_log_entry_pending;
  when pending (vsf_log_do_log false);;
  timeout ← gets data_timeout;
  when timeout (vsf_cmdio_write_exit 421 "Data timeout. Reconnect. Sorry." 1).

(** [n] rounds; the session goes on after them. *)
Fixpoint post_login_loop (n : nat) : M unit :=
  match n with
  | O => mret tt
  | S n' => post_login_command;; post_login_loop n'
  end.

Fixpoint eat_headers (n : nat) : M unit :=
  match n with
  | O => stop_with Fuel
  | S n' =>
      '(cmd, arg) ← vsf_cmdio_get_cmd_and_arg true;
      upd (set_ftp_cmd_str cmd);;
      upd (set_ftp_arg_str arg);;
      if negb (isempty cmd) || negb (isempty arg) then eat_headers n' else mret tt
  end.

Definition handle_http : M unit :=
  if negb (tb tun "download_enable") then mbug "HTTP needs download - fix your config"
  else
    eat_headers fuel;;
    raw_line "HTTP/1.1 200 OK";;
    raw_line "Server: vsftpd";;
    raw_line "Connection: close";;
    raw_line "X-Frame-Options: SAMEORIGIN";;
    raw_line "X-Content-Type-Options: nosniff";;
    get_arg ← gets http_get_arg;
    let path := (t_split_char get_arg SP).1 in
    upd (set_ftp_arg_str path);;
    let '(stem, ext) := t_split_char path DOT in
    upd (set_http_get_arg stem);;
    upd (set_ftp_cmd_str (t_upper ext));;
    (if eqtext (t_upper ext) "HTML" || eqtext (t_upper ext) "HTM" then
       raw_line "Content-Type: text/html"
     else raw_line "Content-Type: dunno");;
    raw crlf;;
    upd (set_is_ascii false);;
    upd (set_restart_pos 0);;
    handle_retr true;;
    pending ← vsf_log_entry_pending;
    when pending (vsf_log_do_log false);;
    stop_with (Exit 0).

(** Up to the command loop, and [n] rounds of it. *)
Definition process_post_login (n : nat) : M unit :=
  cos_env_init;;
  home ← str_getcwd;
  upd (set_home_str home);;
  anon ← gets is_anonymous;
  (if anon : bool then
     do_ (Sys (Umask (tu tun "anon_umask")));;
     upd (set_bw_rate_max (tu tun "anon_max_rate"))
   else
     do_ (Sys (Umask (tu tun "local_umask")));;
     upd (set_bw_rate_max (tu tun "local_max_rate")));;
  http ← gets is_http;
  if http : bool then handle_http;; mbug "should not be reached"
  else
    ssl ← gets control_use_ssl;
    when (tb tun "async_abor_enable" && negb ssl)
      (modw (put_sigurg true);; must (Sock (Sockopt VSFTP_COMMAND_FD "sigurg")) "fcntl");;
    vsf_banner_dir_changed 230;;
    vsf_cmdio_write 230 "Login successful.";;
    post_login_loop n.

End PostLogin.
