(* ===== verification/Demo.v ===== *)
(** * A site to run the server on

    A configuration, a client and a kernel that answers every call, so that the
    handlers can be evaluated; the witnesses of the session-level theorems and
    the concrete findings run on it. *)

From Stdlib Require Import Init.Byte Strings.Byte.
From Stdlib Require Import ZArith Lia String.
From stdpp Require Import base list numbers option gmap strings sorting.
From S2P Require Import Prelude SysUtil Text StrList IpAddr Tunables Session CmdIO.
From S2P Require Import Signals Paths PrivOps Cos DataIO Ls PostLogin.

Definition line (t : string) : bytes := lit t ++ [CR; LF].

(** The stock configuration with a home directory, a bucket, and [b] for the
    named switch; transfers without a fork (one process). *)
Definition site_tun (switch : string) (b : Z) : tunables :=
  let d := tunables_load_defaults in
  Tunables (<[switch := b]> (<["one_process_model"%string := 1]> (t_bool d))) (t_uint d)
    (<["user_home_dir"%string := Some (lit "/data")]>
    (<["cos_appid"%string := Some (lit "100")]>
    (<["cos_bucket"%string := Some (lit "files")]> (t_str d)))).

Definition inet (a b c d : byte) (port : Z) : sockaddr :=
  MkAddr AF_INET [a; b; c; d] (replicate 16 NUL) port 0.

Definition site_client : sockaddr := inet x0a x00 x00 x07 40000.
Definition site_server : sockaddr := inet x0a x00 x00 x01 21.

(** JSON values, and a parser that knows the texts of a table. *)
Inductive site_value :=
  | VInt (z : Z) | VBool (b : bool) | VText (t : bytes)
  | VList (l : list site_value) | VObject (l : list (string * site_value)).

Fixpoint assoc {A} (key : string) (l : list (string * A)) : option A :=
  match l with
  | [] => None
  | (k, v) :: l' => if String.eqb k key then Some v else assoc key l'
  end.

Fixpoint text_value (t : bytes) (table : list (string * site_value)) : option site_value :=
  match table with
  | [] => None
  | (k, v) :: table' => if bool_decide (t = lit k) then Some v else text_value t table'
  end.

Definition table_json (table : list (string * site_value)) : Json := {|
  jvalue := site_value;
  json_parse t := text_value t table;
  json_members v := match v with VObject l => Some (λ key, assoc key l) | _ => None end;
  json_int v := match v with VInt z => if s32 z =? z then Some z else None | _ => None end;
  json_int64 v := match v with VInt z => Some z | _ => None end;
  json_bool v := match v with VBool b => Some b | _ => None end;
  json_string v := match v with VText t => Some t | _ => None end;
  json_array v := match v with VList l => Some l | _ => None end;
  json_is_object v := match v with VObject _ => true | _ => false end
|}.

(** COS does what it is asked; its folders are empty, and so are its objects. *)
Definition site_json : Json := table_json
  [("done", VObject [("code", VInt 0);
     ("data", VObject [("infos", VList []); ("listover", VBool true); ("context", VText [])])])]%string.

(** Every call succeeds. A data connection delivers [upload] once. *)
Definition site_env (upload : bytes) : Env := λ h c,
  let ok z := answer_with z (lit "/data/100/files") in
  match c with
  | Peek n => ok n
  | Read fd n =>
      if fd =? 0 then ok n
      else if existsb (λ e, match e.1 with Read 9 _ => true | _ => false end) h
      then ok 0 else answer_with (zlen upload) upload
  | Write _ d => ok (zlen d)
  | Cos _ => answer_with 0 (lit "done")
  | Fs (Create _ _) => ok 7
  | Sock (Socket _) => ok 8
  | Sock (Accept _ _) => Answer 9 None site_client true 0 0 []
  | _ => ok 0
  end.

(** A logged-in session with all permissions and the given input. *)
Definition site_session (anonymous : bool) : vsf_session :=
  set_is_anonymous anonymous (set_permissions 3 (fresh_session site_server site_client)).

Definition site_world (inp : bytes) : world := fresh_world (site_session false) inp.

(** The replies on the control connection, oldest first. *)
Definition replies (w : world) : list bytes :=
  rev (omap (λ e, match e.1 with Write 0 d => Some d | _ => None end) (hist w)).

(** The signal handling on this site. *)
Definition site_pend (upload : bytes) (T : tunables) : Pend :=
  vsf_sysutil_check_pending_actions (E := site_env upload) (T := T).

(** [n] rounds of the command loop on this site. *)
Definition site_run (T : tunables) (upload : bytes) (n : nat) (w : world) : res unit * world :=
  post_login_loop (E := site_env upload) (T := T)
    (P := site_pend upload T)
    (QS := merge_qsort) (JS := site_json) 16 n w.
