(* ===== verification/ListOrder.v ===== *)
(** * The order of a listing

    ls.c: what "ls" and "ls -t" promise of the lines that
    [vsf_ls_populate_dir_list] makes, for the whole way from the entries that COS
    reports through the zero-padded sort keys to the sorted list. *)

From Stdlib Require Import Init.Byte Strings.Byte.
From Stdlib Require Import ZArith Lia String.
From stdpp Require Import base list numbers option gmap strings sorting.
From S2P Require Import Prelude SysUtil Text StrList IpAddr Filter Tunables Session.
From S2P Require Import CmdIO Signals Logic Paths PrivOps Cos DataIO Ls PostLogin Demo.

(** ** Decimal keys of one length compare as numbers *)

Lemma dec_value_cons c s :
  dec_value (c :: s) = digit_val c * 10 ^ Z.of_nat (length s) + dec_value s.
Proof. unfold dec_value at 1. cbn [fold_left]. rewrite fold_dec_app. lia. Qed.

Lemma digit_val_uchar a b : uchar a - uchar b = digit_val a - digit_val b.
Proof. unfold digit_val. lia. Qed.

Lemma lex_le_digits s t :
  length s = length t → is_digits s = true → is_digits t = true →
  lex_le s t = (dec_value s <=? dec_value t).
Proof.
  revert t; induction s as [|a s IH]; intros [|b t]; try done. intros [= Hl] Hs Ht.
  cbn [is_digits forallb lex_le] in *. apply andb_true_iff in Hs as [Ha Hs], Ht as [Hb Ht].
  pose proof (dec_value_bound s Hs) as Hbs. pose proof (dec_value_bound t Ht) as Hbt.
  rewrite !dec_value_cons, IH, <- Hl by done. rewrite <- Hl in Hbt.
  pose proof (digit_val_range a Ha). pose proof (digit_val_range b Hb). pose proof (digit_val_uchar a b).
  set (p := 10 ^ Z.of_nat (length s)) in *.
  apply Bool.eq_iff_eq_true. rewrite orb_true_iff, andb_true_iff, !Z.leb_le, Z.ltb_lt, Z.eqb_eq.
  split; [intros [?|[??]]; nia|]. intros Hle.
  destruct (Z.lt_total (uchar a) (uchar b)) as [?|[?|?]]; [by left|right; split; [done|]; nia|exfalso; nia].
Qed.

Lemma digits_acc_length fuel z acc k :
  0 ≤ z < 10 ^ Z.of_nat (S k) → (length (digits_acc fuel 10 z acc) <= S k + length acc)%nat.
Proof.
  revert z acc k; induction fuel as [|fuel IH]; intros z acc k Hz; cbn [digits_acc]; [lia|].
  destruct (z / 10 =? 0) eqn:Hd; b2p; [cbn [length]; lia|].
  destruct k as [|k].
  - exfalso. apply Hd. apply Z.div_small. exact Hz.
  - specialize (IH (z / 10) (to_char (48 + z mod 10) :: acc) k). cbn [length] in IH.
    enough (0 ≤ z / 10 < 10 ^ Z.of_nat (S k)) by (specialize (IH ltac:(lia)); lia).
    split; [apply Z.div_pos; lia|]. apply Z.div_lt_upper_bound; [lia|].
    rewrite <- Z.pow_succ_r by lia. replace (Z.succ (Z.of_nat (S k))) with (Z.of_nat (S (S k))) by lia. lia.
Qed.

Lemma dec_value_zeros n s : dec_value (replicate n x30 ++ s) = dec_value s.
Proof.
  induction n as [|n IH]; cbn [replicate app]; [done|]. rewrite dec_value_cons, IH. change (digit_val x30) with 0. lia.
Qed.

(** A key has 30 digits, and their value is the time. *)
Lemma sortkey_value t :
  0 ≤ t < 10 ^ 30 →
  length (sortkey_mtime t) = 30%nat ∧ is_digits (sortkey_mtime t) = true ∧ dec_value (sortkey_mtime t) = t.
Proof.
  intros Ht. unfold sortkey_mtime. rewrite (proj2 (Z.ltb_ge t 0)), Z.abs_eq by lia. cbn [app].
  pose proof (digits_acc_length (S (Z.to_nat (Z.log2 t))) t [] 29 Ht) as Hl. fold (print_base 10 t) in Hl.
  cbn [length] in Hl. split_and!.
  - rewrite length_app, length_replicate. lia.
  - unfold is_digits. rewrite forallb_app. apply andb_true_iff. split; [|apply print_base_digits; lia].
    apply forallb_forall. intros b Hb%list_elem_of_In%elem_of_replicate. by destruct Hb as [-> _].
  - rewrite dec_value_zeros. apply print_base_dec_value; lia.
Qed.

Lemma sortkey_order a b :
  0 ≤ a < 10 ^ 30 → 0 ≤ b < 10 ^ 30 → lex_le (sortkey_mtime a) (sortkey_mtime b) = (a <=? b).
Proof.
  intros Ha%sortkey_value Hb%sortkey_value. destruct Ha as (La & Da & Va), Hb as (Lb & Db & Vb).
  rewrite lex_le_digits by congruence. by rewrite Va, Vb.
Qed.

(** ** The listing *)

(** The key an entry is ordered by. *)
Definition entry_key (t_option : bool) (i : file_info) : bytes :=
  if t_option then sortkey_mtime (fi_mtime i) else file_name i.

(** The line of an entry: its key, and the name at the end. *)
Definition line_of (t_option : bool) (n : mystr_list_node) (i : file_info) : Prop :=
  sort_key_str n = entry_key t_option i ∧ (file_name i ++ crlf) `suffix_of` str n.

(** "ls" lists by name, in byte order, "ls -r" the other way round; "ls -t" lists
    the newest first, "ls -tr" the oldest. *)
Definition listed_before (t_option r_option : bool) (a b : file_info) : Prop :=
  if t_option then (if r_option then fi_mtime a ≤ fi_mtime b else fi_mtime b ≤ fi_mtime a)
  else (if r_option then lex_le (file_name b) (file_name a) else lex_le (file_name a) (file_name b)) = true.

(** A time that the server may report: seconds since 1970. *)
Definition sane_entry (t_option : bool) (i : file_info) : Prop :=
  if t_option then 0 ≤ fi_mtime i < 2 ^ 63 else file_name i ≠ [].

Lemma str_list_add_nodes l s k l' :
  str_list_add l s (Some k) = Ok l' → p_nodes l' = p_nodes l ++ [LNode s k].
Proof.
  unfold str_list_add. intros H. destruct (if list_len l =? alloc_len l then _ else _) as [al|]; [|done].
  cbn [res_bind] in H. destruct (al <=? list_len l); [done|]. by injection H as <-.
Qed.

Lemma entry_key_node t n i : sane_entry t i → line_of t n i → node_key n = entry_key t i.
Proof.
  intros Hi [Hk _]. unfold node_key. rewrite Hk. unfold entry_key, sane_entry in *. destruct t.
  - destruct (sortkey_value (fi_mtime i)) as [-> _]; [|done].
    split; [lia|]. transitivity (2 ^ 63); [lia|reflexivity].
  - by destruct (file_name i).
Qed.

Lemma listed_before_key t r a b n m :
  sane_entry t a → sane_entry t b → line_of t n a → line_of t m b →
  (if xorb t r then lex_le (node_key m) (node_key n) else lex_le (node_key n) (node_key m)) = true →
  listed_before t r a b.
Proof.
  intros Ha Hb Hn Hm. rewrite (entry_key_node _ _ _ Ha Hn), (entry_key_node _ _ _ Hb Hm).
  unfold listed_before, entry_key, sane_entry in *. destruct t; cbn [xorb].
  - assert (2 ^ 63 < 10 ^ 30) by reflexivity. destruct r; cbn [negb]; rewrite sortkey_order by lia; intros Hle; by b2p.
  - by destruct r.
Qed.

(** The lines in the order of their nodes, and the entries in the same order. *)
Lemma sorted_entries t r nodes infos :
  Forall (sane_entry t) infos → Forall2 (line_of t) nodes infos →
  StronglySorted (cmp_le (if xorb t r then sort_compare_func_reverse else sort_compare_func)) nodes →
  StronglySorted (listed_before t r) infos.
Proof.
  intros Hs H2. revert Hs. induction H2 as [|n i nodes infos Hn H2 IH]; intros Hs Hso; [constructor|].
  apply Forall_cons in Hs as [Hi Hs]. apply StronglySorted_inv in Hso as [Hso Hall].
  constructor; [by apply IH|]. clear IH Hso. induction H2 as [|m j nodes infos Hm H2 IH2]; [constructor|].
  apply Forall_cons in Hs as [Hj Hs], Hall as [Hnm Hall]. constructor; [|by apply IH2].
  apply compare_le in Hnm. by eapply listed_before_key.
Qed.

Section Populate.
Context `{E : Env} `{P : Pend} `{T : Tun} `{QS : Qsort} `{JS : Json} (fuel : nat).

Lemma build_dir_line_name name i ct w line w' :
  build_dir_line name i ct w = (Ok line, w') → (name ++ crlf) `suffix_of` line.
Proof.
  unfold build_dir_line, mbind, M_bind. intros H. destruct (time_get_date _ _ _ w) as [[d|] w1]; [|done].
  injection H as <- _. repeat first [reflexivity | apply suffix_cons_r | apply suffix_app_r].
Qed.

Lemma list_entries_nodes infos v t base ct l w l' w' :
  list_entries infos v t base ct l w = (Ok l', w') →
  ∃ nodes, p_nodes l' = p_nodes l ++ nodes ∧ Forall2 (line_of t) nodes infos.
Proof.
  revert l w; induction infos as [|i infos IH]; intros l w; cbn [list_entries].
  { intros [= <- <-]. exists []. by rewrite app_nil_r. }
  unfold mbind at 1, M_bind at 1. intros H.
  destruct ((if v then build_dir_line (file_name i) i ct
            else mret (base ++ file_name i ++ crlf)) w) as [[line|] w1] eqn:Hline; [|done].
  unfold mbind, M_bind, lift in H. destruct (str_list_add l line _) as [l1|] eqn:Hadd; [|done].
  apply str_list_add_nodes in Hadd. apply IH in H as (nodes & Hn & H2).
  exists (LNode line (entry_key t i) :: nodes). split; [by rewrite Hn, Hadd, <- app_assoc|].
  constructor; [|done]. split; [done|]. destruct v; [by eapply build_dir_line_name|].
  injection Hline as <- _. by apply suffix_app_r.
Qed.

(** C11: a listing is in order. Whatever COS reports for the directory, the lines of
    a listing are those of its entries, each once and with the entry's name at the
    end of the line; with the option "t" the newest entry comes first, otherwise
    they are in byte order of their names, and "r" reverses either. The times are
    compared as text of 30 digits, which is right for every time from 1970 on. *)
Theorem listing_in_order (base opts : bytes) (v : bool) (w w' : world) (pl : mystr_list) :
  let t := has_option opts x74 in
  vsf_ls_populate_dir_list fuel base opts [] v false w = (Ok pl, w') →
  ∃ flist w1 w2, cos_get_list fuel (normalised_base_dir base) None w1 = (Ok flist, w2) ∧
    (Forall (sane_entry t) flist →
     ∃ infos, infos ≡ₚ flist ∧ Forall2 (line_of t) (p_nodes pl) infos ∧
       StronglySorted (listed_before t (has_option opts x72)) infos).
Proof.
  intros t H. unfold vsf_ls_populate_dir_list in H. fold t in H. set (r := has_option opts x72) in *.
  unfold mbind at 1, M_bind at 1 in H. destruct ((if v || has_option opts x6c then sys (Sys Clock) else mret 0) w) as [[ct|] w1]; [|done].
  cbv zeta in H. change (isempty []) with true in H. cbn [andb negb] in H. unfold mbind, M_bind in H. cbn [mret M_ret] in H.
  destruct (cos_get_list _ _ _ w1) as [[flist|] w2] eqn:Hget; [|done].
  destruct (list_entries _ _ _ _ _ _ w2) as [[l|] w3] eqn:Hle; [|done]. injection H as <- _.
  exists flist, w1, w2. split; [done|]. intros Hsane.
  apply list_entries_nodes in Hle as (nodes & Hn & H2). cbn [p_nodes INIT_MYSTR_LIST app] in Hn. cbn [p_nodes str_list_sort].
  rewrite Hn. replace (if t then negb r else r) with (xorb t r) by (by destruct t, r).
  set (cmp := if xorb t r then _ else _). pose proof (qsort_perm cmp nodes) as Hperm.
  destruct (compare_preorder (xorb t r)) as [Htot Htr]. pose proof (qsort_sorted cmp nodes Htot Htr) as Hso.
  destruct (Permutation.Permutation_Forall2 (symmetry Hperm) H2) as (infos & Hp & H2').
  exists infos. split; [by symmetry|]. split; [done|].
  eapply sorted_entries; [|exact H2'|exact Hso]. by rewrite <- Hp.
Qed.

End Populate.

(** A directory with three files, whose times have one, two and ten digits. *)
Definition dated (name : string) (mtime : Z) : site_value :=
  VObject [("name", VText (lit name)); ("sha", VText []); ("mtime", VInt mtime)]%string.
Definition dated_json : Json := table_json
  [("done", VObject [("code", VInt 0);
     ("data", VObject [("infos", VList [dated "b" 70; dated "a" 1000000000; dated "c" 8]);
        ("listover", VBool true); ("context", VText [])])])]%string.

Definition dated_list (opts : bytes) : M mystr_list :=
  vsf_ls_populate_dir_list (E := site_env []) (T := site_tun "anonymous_enable" 0)
    (P := site_pend [] (site_tun "anonymous_enable" 0)) (QS := merge_qsort) (JS := dated_json)
    5 (lit "/") opts [] false false.

Example dated_by_time :
  match dated_list (lit "t") (site_world []) with
  | (Ok pl, _) => str <$> p_nodes pl = line <$> ["/a"; "/b"; "/c"]%string
  | _ => False
  end.
Proof. by vm_compute. Qed.

Lemma listing_in_order_witness :
  match dated_list (lit "t") (site_world []) with
  | (Ok pl, _) =>
      ∃ flist w1 w2, cos_get_list (E := site_env []) (T := site_tun "anonymous_enable" 0)
          (P := site_pend [] (site_tun "anonymous_enable" 0)) (JS := dated_json) 5
          (normalised_base_dir (lit "/")) None w1 = (Ok flist, w2) ∧
        (Forall (sane_entry true) flist →
         ∃ infos, infos ≡ₚ flist ∧ Forall2 (line_of true) (p_nodes pl) infos ∧
           StronglySorted (listed_before true false) infos)
  | _ => False
  end.
Proof.
  destruct (dated_list (lit "t") (site_world [])) as [[pl|] w'] eqn:Hr; [|by vm_compute in Hr].
  exact (listing_in_order (E := site_env []) (T := site_tun "anonymous_enable" 0)
    (P := site_pend [] (site_tun "anonymous_enable" 0)) (QS := merge_qsort) (JS := dated_json)
    5 (lit "/") (lit "t") false (site_world []) w' pl Hr).
Defined.
