(* ===== verification/CosSpec.v ===== *)
(** * What the COS client does

    Theorems about cosswitch.cpp and encode.cpp on any server and converter that
    keep their contracts: arguments in UTF-8 stay as they are, a listing is
    complete, and the retries are bounded. *)

From Stdlib Require Import Init.Byte Strings.Byte.
From Stdlib Require Import ZArith Lia String.
From stdpp Require Import base list numbers option gmap strings.
From S2P Require Import Prelude SysUtil Text StrList IpAddr Filter Tunables Session CmdIO.
From S2P Require Import Signals Logic Traffic Paths PrivOps Cos DataIO Ls PostLogin Demo.

(** ** UTF-8 *)

(** Sequences of up to six bytes; DEL does not count as a character. *)
Inductive utf8_text : bytes → Prop :=
  | utf8_nil : utf8_text []
  | utf8_ascii c s : uchar c < 127 → utf8_text s → utf8_text (c :: s)
  | utf8_seq c trail s :
      192 ≤ uchar c ≤ 253 → length trail = utf8_count (uchar c) →
      Forall (λ d, is_trail (uchar d) = true) trail → utf8_text s →
      utf8_text (c :: trail ++ s).

Lemma count_trail_app trail s :
  Forall (λ d, is_trail (uchar d) = true) trail → count_trail (length trail) (trail ++ s) = length trail.
Proof. induction 1 as [|d trail Hd _ IH]; cbn [length count_trail app]; [done|]. by rewrite Hd, IH. Qed.

Lemma utf8_scan_text fuel s u k :
  utf8_text s → (length s <= fuel)%nat → 0 ≤ u → u + zlen s < UINT_MOD →
  ∃ n, utf8_scan fuel s u k = (u + n, k) ∧ 0 ≤ n ≤ zlen s.
Proof.
  unfold zlen. intros Hs. revert fuel u. induction Hs as [|c s Hc Hs IH|c trail s Hc Hl Ht Hs IH];
    intros fuel u Hf Hu Hb.
  - exists 0. destruct fuel; cbn [utf8_scan]; split; [f_equal; lia|done|f_equal; lia|done].
  - destruct fuel as [|fuel]; cbn [length] in *; [lia|]. cbn [utf8_scan].
    rewrite (proj2 (Z.ltb_lt _ _) Hc). destruct (IH fuel u) as (n & Hn & ?); [lia..|].
    exists n. split; [done|lia].
  - destruct fuel as [|fuel]; cbn [length] in *; [lia|]. rewrite length_app in *. cbn [utf8_scan].
    rewrite (proj2 (Z.ltb_ge _ _)), (proj2 (Z.ltb_ge _ 192)), (proj2 (Z.ltb_ge 253 _)) by lia.
    cbn [orb length]. rewrite length_app, <- Hl.
    rewrite (proj2 (Nat.ltb_ge _ _)) by lia. rewrite count_trail_app by done.
    rewrite Nat.ltb_irrefl, drop_app_length. rewrite u32_small by lia.
    destruct (IH fuel (u + Z.of_nat (length trail) + 1)) as (n & Hn & ?); [lia..|].
    exists (Z.of_nat (length trail) + 1 + n). split; [rewrite Hn; f_equal; lia|lia].
Qed.

Lemma IsUtf8_text s :
  utf8_text s → NUL ∉ s → s ≠ [] → zlen s < UINT_MOD → IsUtf8 s = true.
Proof.
  intros Hs Hn Hne Hl. unfold IsUtf8. rewrite cstr_no_nul by done. unfold isempty.
  rewrite bool_decide_eq_false_2 by done.
  destruct (utf8_scan_text (length s) s 0 0) as (n & -> & ?); [done|lia..|].
  cbn [fst snd]. apply Z.leb_le. rewrite u32_small; lia.
Qed.

Section Conversion.
Context `{E : Env}.

(** A failed round takes at least a byte, so the length bounds the rounds. *)
Lemma convert_loop_total n cd rc inbuf out outlen w :
  (length inbuf <= n)%nat → ∃ o w', convert_loop n cd rc inbuf out outlen w = (Ok o, w').
Proof.
  revert rc inbuf out outlen w. induction n as [|n IH]; intros rc inbuf out outlen w Hn;
    cbn [convert_loop]; destruct (_ && _) eqn:Hb; eauto.
  - apply andb_true_iff in Hb as [[_ Hb]%andb_true_iff _]. destruct inbuf; [done|cbn in Hn; lia].
  - unfold mbind, M_bind, iconv. cbn. apply IH. rewrite !length_drop. cbn. lia.
Qed.

Lemma CodeConvert_total from to inbuf outlen w :
  ∃ o w', CodeConvert from to inbuf outlen w = (Ok o, w').
Proof.
  unfold CodeConvert, iconv, sys, do_, mbind, M_bind. cbn. destruct (_ =? 0); [by eauto|].
  cbn. edestruct (convert_loop_total (length inbuf)) as (o & w' & ->); [|by eauto].
  rewrite length_drop. lia.
Qed.

(** Commands in UTF-8 are not converted. An argument that is UTF-8 text
    (of sequences of one to six bytes, without NUL and DEL) is taken for it:
    [cos_conv_gbk_2_utf] changes nothing and calls nothing. Of any other
    argument the conversion ends, whatever iconv answers: every failure skips
    at least a byte of the input. *)
Theorem utf8_arguments_kept `{P : Pend} `{T : Tun} (w : world) :
  (utf8_text (ftp_arg_str (sess w)) → NUL ∉ ftp_arg_str (sess w) →
   zlen (ftp_arg_str (sess w)) < UINT_MOD → cos_conv_gbk_2_utf w = (Ok 0, w)) ∧
  (∀ from to inbuf outlen, ∃ o w', CodeConvert from to inbuf outlen w = (Ok o, w')).
Proof.
  split; [|intros; apply CodeConvert_total]. intros Hu Hn Hl.
  unfold cos_conv_gbk_2_utf, mbind, M_bind, gets.
  destruct (isempty (ftp_arg_str (sess w))) eqn:He; [done|].
  rewrite IsUtf8_text; [done..| |done]. intros Hs. by rewrite Hs in He.
Qed.

End Conversion.

(** A name with a letter of two bytes. *)
Lemma utf8_arguments_kept_witness :
  let w := fresh_world (set_ftp_arg_str [x63; xc3; xa9] (site_session false)) [] in
  cos_conv_gbk_2_utf (E := site_env []) (P := site_pend [] (site_tun "anonymous_enable" 0)) (T := (site_tun "anonymous_enable" 0)) w = (Ok 0, w).
Proof.
  refine (proj1 (utf8_arguments_kept (E := site_env []) (P := site_pend [] (site_tun "anonymous_enable" 0)) (T := (site_tun "anonymous_enable" 0))
    (fresh_world (set_ftp_arg_str [x63; xc3; xa9] (site_session false)) [])) _ _ _).
  - apply utf8_ascii; [vmdec|]. apply (utf8_seq xc3 [xa9] []); [vmdec|done|by repeat constructor|constructor].
  - vmdec.
  - vmdec.
Defined.

(** ** Listings *)

Section Listing.
Context `{E : Env} `{T : Tun} `{JS : Json}.

(** The file that an entry describes. *)
Definition find_in (entry : jvalue) (key : string) : option jvalue :=
  match json_members entry with Some find => find key | None => None end.
Definition attr {A} (entry : jvalue) (key : string) (get : jvalue → option A) (d : A) : A :=
  default d (find_in entry key ≫= get).
Definition entry_file (entry : jvalue) : file_info :=
  FileInfo (match find_in entry "sha" with Some _ => TYPE_FILE | None => TYPE_DIR end)
    (cstr (attr entry "name" json_string [])) (u64 (attr entry "filelen" json_int64 0))
    (attr entry "ctime" json_int 0) (attr entry "mtime" json_int 0).

Definition matched (filter : option bytes) (info : file_info) : bool :=
  match filter with
  | None => true
  | Some f => match vsf_filename_passes_filter (file_name info) f 0 with Ok (b, _) => b | Err _ => false end
  end.

(** At most [list_max_count] entries, when it is set. *)
Definition cap (l : list file_info) : list file_info :=
  let max := tu tun "list_max_count" in if 0 <? max then take (Z.to_nat max) l else l.

(** The entries that pass the filter, in the order of the server. *)
Definition listed (filter : option bytes) (entries : list jvalue) : list file_info :=
  base.filter (λ i, matched filter i = true) (entry_file <$> entries).

Definition plain_filter (filter : option bytes) : Prop :=
  match filter with Some f => NUL ∉ f | None => True end.

Lemma find_members v k : is_Some (json_members v) → json_find v k = Ok (find_in v k).
Proof. intros [f Hf]. unfold json_find, find_in. by rewrite Hf. Qed.

Lemma member_or_members {A} v k (get : jvalue → option A) d :
  is_Some (json_members v) → member_or v k get d = Ok (attr v k get d).
Proof. intros H. unfold member_or, member. by rewrite find_members. Qed.

Lemma entry_members e :
  is_Some (json_members e) →
  entry_name e = Ok (file_name (entry_file e)) ∧
  entry_info e (file_name (entry_file e)) = Ok (entry_file e).
Proof.
  intros H. unfold entry_name, entry_info. rewrite !member_or_members, find_members by done. done.
Qed.

Lemma passes_matched filter e :
  plain_filter filter → passes filter (file_name e) = Ok (matched filter e).
Proof.
  unfold passes, matched. destruct filter as [f|]; [|done]. intros Hf.
  destruct (filter_loop_total (S (Z.to_nat (VSFTP_MATCHITERS_MAX - 0))) (file_name e) f 0 NUL true)
    as (b & it & Hr & _); [done|unfold VSFTP_MATCHITERS_MAX; lia..|].
  unfold vsf_filename_passes_filter. by rewrite Hr.
Qed.

Lemma cap_app_full a b : list_full (cap a) = true → cap (a ++ b) = cap a.
Proof.
  unfold list_full, cap. destruct (0 <? _) eqn:Hm; [|done]. cbn [andb]. b2p. intros H. b2p.
  rewrite length_take in H. apply take_app_le. lia.
Qed.
Lemma cap_not_full a : list_full (cap a) = false → cap a = a.
Proof.
  unfold list_full, cap. destruct (0 <? _) eqn:Hm; [|done]. cbn [andb]. b2p. intros H. b2p.
  rewrite length_take in H. apply take_ge. lia.
Qed.

Lemma list_infos_spec filter infos flist :
  plain_filter filter → Forall (λ e, is_Some (json_members e)) infos → list_full flist = false →
  let r := cap (flist ++ listed filter infos) in
  list_infos filter infos flist = Ok (list_full r, r).
Proof.
  intros Hf Hi. revert flist. induction Hi as [|e infos He Hi IH]; intros flist Hn; cbn [list_infos].
  - unfold listed. cbn. rewrite app_nil_r.
    assert (cap flist = flist) as ->; [|by rewrite Hn].
    unfold list_full, cap in *. destruct (0 <? _) eqn:Hm; [|done]. cbn [andb] in Hn. b2p.
    apply take_ge. lia.
  - destruct (entry_members e He) as [-> Hinfo]. cbn [res_bind].
    rewrite passes_matched by done. cbn [res_bind]. unfold listed. cbn [fmap list_fmap].
    rewrite filter_cons. destruct (matched filter (entry_file e)) eqn:Hm; cbn [negb].
    2: { rewrite decide_False by done. by apply IH. }
    rewrite decide_True by done. rewrite Hinfo. cbn [res_bind]. cbv zeta.
    set (X := base.filter _ (entry_file <$> infos)).
    change (entry_file e :: X) with ([entry_file e] ++ X). rewrite (app_assoc flist). destruct (list_full (flist ++ [entry_file e])) eqn:Hfull.
    + assert (cap (flist ++ [entry_file e]) = flist ++ [entry_file e]) as Hc.
      { unfold list_full, cap in *. destruct (0 <? _) eqn:Hmax; [|done]. cbn [andb] in *. b2p.
        apply take_ge. rewrite length_app in *. cbn in *. lia. }
      rewrite cap_app_full; rewrite Hc; [by rewrite Hfull|done].
    + by apply IH.
Qed.

(** *** A server that answers in pages *)

Definition page_failed (e : call * answer) : bool :=
  match e.1 with
  | Cos (FolderList _ _ _ _) =>
      match parse_page (text_of e.2) with Ok (Some _) => false | _ => true end
  | _ => false
  end.
Definition failures (h : history) : nat := length (base.filter (λ e, page_failed e = true) h).

(** Page [i] is what follows the context [next i]. The server may fail to
    answer with a page, but no more once it has. *)
Class Paged (bucket path : bytes) (pages : list (list jvalue)) (next : nat → bytes) : Prop := {
  paged_start : next 0%nat = [];
  paged h i page : pages !! i = Some page →
    let r := parse_page (text_of (env h (Cos (FolderList bucket path 1000 (next i))))) in
    r = Ok (Some (page, bool_decide (S i = length pages), next (S i))) ∨
    (r = Ok None ∧ failures h = 0%nat)
}.

(** The log is not written to a file. *)
Definition no_log_file (w : world) : Prop := xferlog_fd (sess w) = -1 ∧ vsftpd_log_fd (sess w) = -1.

Lemma wp_log_response what r (Q : unit → world → Prop) w :
  log_action (log_type_value what) ≠ None → no_log_file w →
  (∀ w', sess w' = sess w → failures (hist w') = failures (hist w) → Q tt w') →
  wp (log_response what r) Q (λ _ _, False) w.
Proof.
  intros Hwhat [Hx Hv] HQ. unfold log_response, vsf_log_line, vsf_log_common, vsf_log_do_log_vsftpd_format, log_rate.
  repeat (wp_step; rewrite ?Hx, ?Hv; cbn [negb andb Z.eqb Pos.eqb]); try done; by apply HQ.
Qed.

Context (bucket path : bytes) (pages : list (list jvalue)) (next : nat → bytes).
Context {HPg : Paged bucket path pages next}.
Context (HW : Forall (Forall (λ e, is_Some (json_members e))) pages).

Lemma listed_app filter a b : listed filter (a ++ b) = listed filter a ++ listed filter b.
Proof. unfold listed. by rewrite fmap_app, filter_app. Qed.

Lemma wp_lift_Ok {A B} (x : A) (k : A → M B) Q Ex w : wp (k x) Q Ex w → wp (lift (Ok x) ≫= k) Q Ex w.
Proof. done. Qed.

(** One more try is left, as long as the server has not failed. *)
Definition tries (t : Z) (w : world) : Prop := t = 2 ∨ (t = 1 ∧ failures (hist w) ≠ 0%nat).

Lemma list_loop_complete filter rest : ∀ fuel i t flist w,
  plain_filter filter → no_log_file w → tries t w → list_full flist = false →
  drop i pages = rest → rest ≠ [] → (length rest + Z.to_nat t <= S fuel)%nat →
  wp (list_loop fuel filter bucket path (next i) t flist)
    (λ l _, l = cap (flist ++ listed filter (concat rest))) (λ _ _, False) w.
Proof.
  induction rest as [|page rest IH]; [done|].
  intros fuel. induction fuel as [|fuel IHf]; intros i t flist w Hf Hlog Ht Hn Hr _ Hfuel.
  { exfalso. destruct Ht as [->|[-> _]]; cbn in Hfuel; lia. }
  cbn [list_loop]. rewrite (proj2 (Z.leb_gt t 0)) by (destruct Ht as [->|[-> _]]; lia).
  assert (pages !! i = Some page) as Hi by (apply (f_equal (.!! 0%nat)) in Hr; by rewrite lookup_drop, Nat.add_0_r in Hr).
  unfold request. wp_step. wp_step. apply wp_ask. intros a ->. wp_step.
  pose proof (paged (hist w) i page Hi) as Hp. cbv zeta in Hp.
  set (a := env _ _) in *. destruct Hp as [Hp|[Hp Hf0]]; rewrite Hp; apply wp_lift_Ok.
  - rewrite list_infos_spec by (done || by eapply Forall_lookup_1). apply wp_lift_Ok.
    cbn [concat]. rewrite listed_app, app_assoc. set (l := flist ++ listed filter page).
    destruct (list_full (cap l)) eqn:Hfull; cbn [orb].
    { change (cap l = cap (l ++ listed filter (concat rest))). by rewrite cap_app_full. }
    pose proof (cap_not_full _ Hfull) as Hc. rewrite Hc in *. apply (f_equal (drop 1)) in Hr as Hr'.
    rewrite drop_drop, Nat.add_1_r in Hr'. change (drop (S i) pages = rest) in Hr'.
    case_bool_decide as Hlast.
    { rewrite drop_ge in Hr' by lia. subst rest. change (l = cap (l ++ [])).
      by rewrite app_nil_r. }
    apply IH; [done|done| |done|done| |].
    + destruct Ht as [->|[-> Ht]]; [by left|right]. split; [done|]. cbn [hist put_hist].
      unfold failures. rewrite filter_cons. by case_decide; cbn; [|done].
    + intros ->. apply (f_equal length) in Hr'. rewrite length_drop in Hr'. cbn in Hr'.
      apply lookup_lt_Some in Hi. lia.
    + cbn [length] in Hfuel. lia.
  - destruct Ht as [->|[-> Ht]]; [|by rewrite Hf0 in Ht]. wp_step.
    apply wp_log_response; [done|done|]. intros w' Hs Hw'.
    apply IHf; [done| |right; split; [done|]|done..|cbn [length] in *; lia].
    + unfold no_log_file. by rewrite Hs.
    + rewrite Hw'. cbn [hist put_hist]. unfold failures. rewrite filter_cons_True; [done|].
      unfold page_failed. cbn [fst snd]. by rewrite Hp.
Qed.

(** C10: a listing is complete. On a server that gives a folder in pages, each
    with the context of the next, [cos_get_list] returns the entries of all the
    pages that pass the filter, in the order of the server and with their type,
    size and times, up to [list_max_count] when it is set - even when one
    response on the way is an error, in any of the pages. The session writes no log
    file ([no_log_file]), the path is in the configured bucket, and each entry of a
    page is a JSON object with members. *)
Theorem listing_complete (fuel : nat) (filter : option bytes) (p : bytes) (w w1 : world) :
  folder_path p w = (Ok path, w1) → setting "cos_bucket" = Ok bucket →
  plain_filter filter → no_log_file w1 → pages ≠ [] → (length pages < fuel)%nat →
  ∃ w', cos_get_list fuel p filter w = (Ok (cap (listed filter (concat pages))), w').
Proof.
  intros Hp Hb Hf Hlog Hne Hfuel. unfold cos_get_list, mbind, M_bind. rewrite Hp, Hb. cbn [lift].
  pose proof (list_loop_complete filter pages fuel 0 2 [] w1) as H. rewrite paged_start in H.
  unfold wp in H. destruct (list_loop _ _ _ _ _ _ _ _) as [[l|] w'].
  - exists w'. rewrite H; [done|done|done|by left| |done|done|lia].
    unfold list_full. destruct (0 <? _) eqn:?; [|done]. cbn [andb length]. b2p. apply Z.leb_gt. lia.
  - destruct H; [done|done|by left| |done|done|lia].
    unfold list_full. destruct (0 <? _) eqn:?; [|done]. cbn [andb length]. b2p. apply Z.leb_gt. lia.
Qed.

End Listing.

(** Two pages, of a file and a folder and of a file, at most two entries, and
    an error first. *)
Definition demo_entry (name : string) (sha : bool) (n : Z) : site_value :=
  VObject (("name", VText (lit name)) :: ("filelen", VInt n) ::
           if sha then [("sha", VText [])] else [])%string.
Definition demo_pages : list (list site_value) :=
  [[demo_entry "a.txt" true 3; demo_entry "d" false 0]; [demo_entry "b.txt" true 5]].
Definition demo_reply (infos : list site_value) (over : bool) (context : string) : site_value :=
  VObject [("code", VInt 0); ("data", VObject [("infos", VList infos); ("listover", VBool over);
    ("context", VText (lit context))])]%string.
Definition demo_json : Json := table_json
  [("p1", demo_reply (nth 0 demo_pages []) false "more");
   ("p2", demo_reply (nth 1 demo_pages []) true "end")]%string.
Definition demo_next (i : nat) : bytes :=
  match i with O => [] | 1%nat => lit "more" | _ => lit "end" end.
Definition demo_env : Env := λ h c,
  match c with
  | Cos (FolderList _ _ _ context) =>
      if (failures (JS := demo_json) h =? 0)%nat then answer_with 0 (lit "busy")
      else answer_with 0 (if isempty context then lit "p1" else lit "p2")
  | _ => answer_with 0 (lit "/data/100/files")
  end.

Lemma demo_paged b p : Paged (E := demo_env) (JS := demo_json) b p demo_pages demo_next.
Proof.
  split; [done|]. intros h i page Hi. unfold env, demo_env.
  destruct (failures h =? 0)%nat eqn:Hf; [right; by split; [|apply Nat.eqb_eq]|left].
  destruct i as [|[|[|i]]]; [| |done..]; cbn in Hi; simplify_eq; by vm_compute.
Qed.

Definition demo_tun : tunables := site_tun "anonymous_enable" 0.

Lemma listing_complete_witness :
  ∃ w', cos_get_list (E := demo_env)
      (P := vsf_sysutil_check_pending_actions (E := demo_env) (T := demo_tun))
      (T := demo_tun) (JS := demo_json) 3 [] (Some (lit "*.txt")) (site_world []) =
    (Ok [FileInfo TYPE_FILE (lit "a.txt") 3 0 0; FileInfo TYPE_FILE (lit "b.txt") 5 0 0], w').
Proof.
  destruct (listing_complete (E := demo_env) (T := demo_tun) (JS := demo_json)
    (lit "files") (lit "/") demo_pages demo_next (HPg := demo_paged _ _)
    ltac:(repeat constructor; by eexists) 3 (Some (lit "*.txt")) [] (site_world [])
    (folder_path (E := demo_env) (T := demo_tun) [] (site_world [])).2) as [w' H].
  - by vm_compute.
  - reflexivity.
  - vmdec.
  - by vm_compute.
  - done.
  - cbn. lia.
  - exists w'. etransitivity; [exact H|]. apply (f_equal (λ l, (Ok l, w'))). vm_compute. reflexivity.
Defined.
