(* ===== verification/Invariants.v ===== *)
(** * What the commands leave alone

    Generic preservation lemmas for the handlers of PostLogin.v: an invariant
    that does not mention the fields a handler assigns nor the calls it makes
    holds after it. SessionSafety.v instantiates them. *)

From Stdlib Require Import Init.Byte Strings.Byte.
From Stdlib Require Import ZArith Lia String.
From stdpp Require Import base list numbers option gmap strings.
From S2P Require Import Prelude SysUtil Text StrList IpAddr Tunables Session CmdIO.
From S2P Require Import Signals Logic Paths PrivOps Cos DataIO Ls PostLogin.

(** Calls that change files, directories or objects. *)
Definition mutates (c : call) : bool :=
  match c with
  | Cos (FolderCreate _ _) | Cos (FolderDelete _ _) | Cos (FileDelete _ _)
  | Cos (FileUpload _ _ _) => true
  | Fs (Create _ _) | Fs (Unlink _) | Fs (Rmdir _) | Fs (Fchmod _ _) | Fs (Fchown _ _)
  | Fs (Ftruncate _) | Fs (Mkdir _ _) | Fs (OpenAppend _ _) => true
  | _ => false
  end.

Definition connects (c : call) : bool :=
  match c with Sock (Connect _ _ _) => true | _ => false end.

(** Neither a change nor an outgoing connection. *)
Definition benign (c : call) : bool := negb (mutates c) && negb (connects c).

(** The fields that are not about who the client is, what it may do, which data
    mode is active, or what is going on: a log entry, a data connection. *)
Inductive steady_setter : (vsf_session → vsf_session) → Prop :=
  | f_quiet f : quiet_setter f → steady_setter f
  | f_restart v : steady_setter (set_restart_pos v)
  | f_ascii v : steady_setter (set_is_ascii v)
  | f_epsv v : steady_setter (set_epsv_all v)
  | f_data_ssl v : steady_setter (set_data_use_ssl v)
  | f_p_data_ssl v : steady_setter (set_p_data_ssl v)
  | f_home v : steady_setter (set_home_str v)
  | f_bw v : steady_setter (set_bw_rate_max v)
  | f_get_arg v : steady_setter (set_http_get_arg v).

(** The directory that the process has just failed to enter, if all that it has
    done since is to look for directories and to make them. *)
Fixpoint missing_dir (h : history) : option bytes :=
  match h with
  | (Fs (Access _), _) :: h' | (Fs (Mkdir _ _), _) :: h' => missing_dir h'
  | (Fs (Chdir d), a) :: _ => if a_int a =? 0 then None else Some d
  | _ => None
  end.

(** [p] is that directory or one above it. *)
Definition on_missing_path (h : history) (p : bytes) : Prop :=
  ∃ d, missing_dir h = Some d ∧ p `prefix_of` d.

Class Steady (I : world → Prop) : Prop := {
  steady_ask w c a : benign c = true → I w → I (put_hist ((c, a) :: hist w) w);
  steady_mirror w p m a :
    on_missing_path (hist w) p → I w → I (put_hist ((Fs (Mkdir p m), a) :: hist w) w);
  steady_upd w f : steady_setter f → I w → I (put_sess (f (sess w)) w);
  steady_in w v : I w → I (put_w_in v w);
  steady_alarm w v : I w → I (put_alarm v w);
  steady_alrm_running w v : I w → I (put_alrm_running v w);
  steady_urg_running w v : I w → I (put_urg_running v w);
  steady_io_running w v : I w → I (put_io_handler_running v w);
  steady_sigurg w v : I w → I (put_sigurg v w);
  steady_deny w v : I w → I (put_s_deny_str v w);
  steady_max_upload w v : I w → I (put_s_max_upload v w);
  steady_bufsize w v : I w → I (put_s_download_bufsize v w);
  steady_has_init w v : I w → I (put_has_init v w)
}.

(** Nor a log entry or a data connection. *)
Class Neutral (I : world → Prop) : Prop := {
  neutral_steady :: Steady I;
  neutral_log_type w v : I w → I (put_sess (set_log_type v (sess w)) w);
  neutral_data_fd w v : I w → I (put_sess (set_data_fd v (sess w)) w);
  neutral_io w v : I w → I (put_io_handler v w)
}.

#[export] Hint Constructors steady_setter : inv.
#[export] Hint Extern 1 (benign _ = true) => reflexivity : inv.

Lemma harmless_benign c : harmless c = true → benign c = true.
Proof. destruct c as [| | | | |op|op| |]; try done; by destruct op. Qed.

#[export] Instance steady_quiet I : Steady I → Quiet I.
Proof.
  intros N. split; intros.
  - apply steady_ask; [by apply harmless_benign|done].
  - by apply steady_in.
  - by apply steady_alarm.
  - by apply steady_alrm_running.
  - by apply steady_urg_running.
  - by apply steady_io_running.
  - apply steady_upd; [by constructor|done].
Qed.

#[export] Hint Extern 1 (Quiet _) => typeclasses eauto : inv.
#[export] Hint Extern 1 (Steady _) => typeclasses eauto : inv.
#[export] Hint Extern 1 (Neutral _) => typeclasses eauto : inv.

(** An invariant that does not mention any of it. *)
Ltac steady_simpl :=
  constructor; intros;
  lazymatch goal with
  | H : steady_setter _ |- _ => destruct H as [? H| | | | | | | |]; [destruct H|..]
  | _ => idtac
  end; try assumption.
Ltac neutral_simpl := constructor; [steady_simpl|..]; intros; try assumption.

Section Rules.
Context `{E : Env} (I : world → Prop).

Section Steady.
Context `{N : !Steady I}.
Lemma steady_inv_ask c : benign c = true → inv I (ask c).
Proof. intros H. apply inv_ask. intros. by apply steady_ask. Qed.
Lemma steady_inv_upd f : steady_setter f → inv I (upd f).
Proof. intros H. apply inv_upd. intros. by apply steady_upd. Qed.
Lemma steady_inv_sigurg v : inv I (modw (put_sigurg v)).
Proof. apply inv_modw. intros. by apply steady_sigurg. Qed.
Lemma steady_inv_deny v : inv I (modw (put_s_deny_str v)).
Proof. apply inv_modw. intros. by apply steady_deny. Qed.
Lemma steady_inv_max_upload v : inv I (modw (put_s_max_upload v)).
Proof. apply inv_modw. intros. by apply steady_max_upload. Qed.
Lemma steady_inv_bufsize v : inv I (modw (put_s_download_bufsize v)).
Proof. apply inv_modw. intros. by apply steady_bufsize. Qed.
Lemma steady_inv_has_init v : inv I (modw (put_has_init v)).
Proof. apply inv_modw. intros. by apply steady_has_init. Qed.
End Steady.

Context `{N : !Neutral I}.
Lemma neutral_inv_log_type v : inv I (upd (set_log_type v)).
Proof. apply inv_upd. intros. by apply neutral_log_type. Qed.
Lemma neutral_inv_data_fd v : inv I (upd (set_data_fd v)).
Proof. apply inv_upd. intros. by apply neutral_data_fd. Qed.
Lemma neutral_inv_io v : inv I (modw (put_io_handler v)).
Proof. apply inv_modw. intros. by apply neutral_io. Qed.

End Rules.
#[export] Hint Resolve steady_inv_ask steady_inv_upd steady_inv_sigurg steady_inv_deny
  steady_inv_max_upload steady_inv_bufsize steady_inv_has_init neutral_inv_log_type neutral_inv_data_fd
  neutral_inv_io : inv.

Lemma cstr_mono s t : s `prefix_of` t → cstr s `prefix_of` cstr t.
Proof.
  revert t. induction s as [|c s IH]; intros t [k ->]; cbn; [by apply prefix_nil|].
  case_match; [done|]. apply prefix_cons. apply IH. by exists k.
Qed.

Lemma split_char_reverse_prefix s c : (t_split_char_reverse s c).1 `prefix_of` s.
Proof.
  unfold t_split_char_reverse, t_split_text_reverse, split_at. destruct (t_rlocate _ _) as [n|]; [|done].
  cbn. exists (drop n s). by rewrite take_drop.
Qed.

Section Steady.
Context `{E : Env} `{T : Tun} `{QS : Qsort} `{JS : Json} (fuel : nat).
Context (I : world → Prop) `{N : !Steady I}.

Lemma steady_prepend p : inv I (prepend_session_path_to_filename p).
Proof. unfold prepend_session_path_to_filename. inv_auto. Qed.
#[local] Hint Resolve steady_prepend : inv.

Lemma steady_access p : inv I (vsf_access_session_check_file p).
Proof.
  unfold vsf_access_session_check_file, session_real_path, vsf_access_check_file. inv_auto.
Qed.

Lemma steady_resolve_tilde p : inv I (resolve_tilde p).
Proof. unfold resolve_tilde. inv_auto. Qed.
#[local] Hint Resolve steady_access steady_resolve_tilde : inv.

Lemma steady_resolve_arg : inv I resolve_arg.
Proof. unfold resolve_arg. inv_auto. Qed.

Lemma steady_set_arg f : inv I (set_arg f).
Proof. unfold set_arg. inv_auto. Qed.

Lemma steady_check_abor : inv I check_abor.
Proof. unfold check_abor. inv_auto. Qed.

Lemma steady_close fd : inv I (vsf_sysutil_close fd).
Proof. unfold vsf_sysutil_close. inv_auto. Qed.

Lemma steady_post_mark : inv I vsf_ftpdataio_post_mark_connect.
Proof. unfold vsf_ftpdataio_post_mark_connect. inv_auto. Qed.

Lemma steady_fstat fd : inv I (vsf_sysutil_fstat fd).
Proof. unfold vsf_sysutil_fstat. inv_auto. Qed.

(** str_mkdirs makes the directories above [s], and [s]: while one was just found missing
    at or below [s], on its path only. *)
Lemma steady_str_mkdirs n s mode d :
  cstr s `prefix_of` d →
  inv (λ w, I w ∧ missing_dir (hist w) = Some d) (str_mkdirs n s mode).
Proof.
  revert s. induction n as [|n IH]; intros s Hs; cbn [str_mkdirs]; [apply inv_stop|].
  destruct (isempty s); [apply inv_ret|]. cbv zeta.
  match goal with |- context [t_split_char_reverse ?b SLASH] => set (above := b) end.
  assert (cstr (t_split_char_reverse above SLASH).1 `prefix_of` d) as Hup.
  { etrans; [|exact Hs]. apply cstr_mono. etrans; [apply split_char_reverse_prefix|].
    unfold above. destruct (ends_with_slash s); [|done].
    exists (drop (length s - 1) s). by rewrite take_drop. }
  apply inv_bind; [unfold sys; inv_auto; apply inv_ask; intros w a [Hi Hm]; split;
                   [by apply steady_ask|exact Hm]|intros r].
  apply inv_bind; [destruct (r =? 0); [apply inv_ret|by apply IH]|intros ret].
  destruct (ret =? 0); [|apply inv_ret].
  unfold sys; inv_auto. apply inv_ask. intros w a [Hi Hm].
  split; [|exact Hm]. apply steady_mirror; [|done]. by exists d.
Qed.

(** Entering a directory, and making it when that fails. *)
Lemma steady_enter n s :
  inv I (retval ← sys (Fs (Chdir (cstr s)));
         if negb (retval =? 0) then
           retval ← str_mkdirs n s 511;
           if retval =? 0 then sys (Fs (Chdir (cstr s))) else mret retval
         else mret retval).
Proof.
  eapply hoare_bind with (R := λ r w, I w ∧ ((r =? 0) = false → missing_dir (hist w) = Some (cstr s))).
  { intros w Hw. unfold sys, mbind, M_bind, ask, mret, M_ret. cbn. split; [by apply steady_ask|].
    by intros ->. }
  intros r. destruct (r =? 0) eqn:Hr; cbn [negb]; [by apply hoare_ret; intros ? [? _]|].
  eapply hoare_bind with (R := λ _, I).
  - eapply hoare_conseq; [apply (steady_str_mkdirs n s 511 (cstr s)); done|..];
      cbn; intros; destruct_and?; auto.
  - intros a. change (inv I (if a =? 0 then sys (Fs (Chdir (cstr s))) else mret a)). inv_auto.
Qed.

#[local] Hint Resolve steady_resolve_arg steady_set_arg steady_check_abor
  steady_close steady_post_mark steady_fstat : inv.

(** Requests to COS that change nothing, and the others when they may. *)
Lemma steady_folder_path p : inv I (folder_path p).
Proof. unfold folder_path, get_cos_path_from_disk_path, str_session_getcwd. inv_auto. Qed.
Lemma steady_file_path p : inv I (file_path p).
Proof. unfold file_path, get_cos_path_from_disk_path, str_session_getcwd. inv_auto. Qed.
#[local] Hint Resolve steady_folder_path steady_file_path : inv.
Lemma steady_data_request op : inv I (ask (Cos op)) → inv I (data_request op).
Proof. intros H. unfold data_request, request, log_response. inv_auto. Qed.
Lemma steady_code_request op a what : inv I (ask (Cos op)) → inv I (code_request op a what).
Proof. intros H. unfold code_request, request, log_response. inv_auto. Qed.
#[local] Hint Resolve steady_data_request steady_code_request : inv.
Lemma steady_list_loop n f b p c t l : inv I (list_loop n f b p c t l).
Proof.
  revert c t l; induction n as [|n IH]; intros; cbn [list_loop];
    unfold request, log_response; inv_auto.
Qed.
#[local] Hint Resolve steady_list_loop : inv.
Lemma steady_get_list p f : inv I (cos_get_list fuel p f).
Proof. unfold cos_get_list. inv_auto. Qed.
Lemma steady_stat_info t p n d : inv I (stat_info t p n d).
Proof. unfold stat_info. inv_auto. Qed.
#[local] Hint Resolve steady_stat_info : inv.
Lemma steady_cos_stat p : inv I (cos_stat_file p).
Proof. unfold cos_stat_file. inv_auto. Qed.
Lemma steady_folder_stat p : inv I (folder_stat p).
Proof. unfold folder_stat. inv_auto. Qed.
#[local] Hint Resolve steady_folder_stat : inv.
Lemma steady_cos_stat_dir p : inv I (cos_stat_dir p).
Proof. unfold cos_stat_dir. inv_auto. Qed.
Lemma steady_isempty p : inv I (cos_dir_isempty p).
Proof. unfold cos_dir_isempty, request, log_response. inv_auto. Qed.
#[local] Hint Resolve steady_isempty : inv.
Lemma steady_isdir p : inv I (cos_isdir p).
Proof. unfold cos_isdir. inv_auto. Qed.
Lemma steady_mkdir p : (∀ b q, inv I (ask (Cos (FolderCreate b q)))) → inv I (cos_mkdir p).
Proof. intros H. unfold cos_mkdir. inv_auto. Qed.
Lemma steady_rmdir p : (∀ b q, inv I (ask (Cos (FolderDelete b q)))) → inv I (cos_rmdir p).
Proof. intros H. unfold cos_rmdir. inv_auto. Qed.
Lemma steady_unlink p : (∀ b q, inv I (ask (Cos (FileDelete b q)))) → inv I (cos_unlink p).
Proof. intros H. unfold cos_unlink. inv_auto. Qed.
Lemma steady_upload s p : (∀ b s q, inv I (ask (Cos (FileUpload b s q)))) → inv I (cos_upload_file s p).
Proof.
  intros H. assert (∀ n b s q, inv I (upload_loop n (FileUpload b s q))) as Hl.
  { induction n as [|n IH]; intros; cbn [upload_loop]; inv_auto. }
  unfold cos_upload_file. inv_auto.
Qed.
Lemma steady_download_loop n b p l o k r : inv I (download_loop n (FileDownload b p l o) k r).
Proof. revert r; induction n as [|n IH]; intros; cbn [download_loop]; inv_auto. Qed.
#[local] Hint Resolve steady_download_loop : inv.
Lemma steady_download p l o n : inv I (cos_download_file p l o n).
Proof. unfold cos_download_file. inv_auto. Qed.
Lemma steady_convert n cd rc i o l : inv I (convert_loop n cd rc i o l).
Proof. revert rc i o l; induction n as [|n IH]; intros; cbn [convert_loop]; unfold iconv; inv_auto. Qed.
#[local] Hint Resolve steady_convert : inv.
Lemma steady_conv : inv I cos_conv_gbk_2_utf.
Proof. unfold cos_conv_gbk_2_utf, CodeConvert, iconv. inv_auto. Qed.
Lemma steady_env_init : inv I cos_env_init.
Proof. unfold cos_env_init. inv_auto. Qed.
#[local] Hint Resolve steady_get_list steady_cos_stat steady_cos_stat_dir steady_isdir
  steady_download : inv.

Lemma steady_send_loop n asc cs bs fs buf off pc tr :
  inv I (send_loop n asc cs bs fs buf off pc tr).
Proof.
  revert buf off pc tr; induction n as [|n IH]; intros; cbn [send_loop]; inv_auto.
Qed.
#[local] Hint Resolve steady_send_loop : inv.

Lemma steady_recv_loop n fd asc cs hl pc tr : inv I (recv_loop n fd asc cs hl pc tr).
Proof.
  revert pc tr; induction n as [|n IH]; intros; cbn [recv_loop]; unfold max_upload; inv_auto.
Qed.
#[local] Hint Resolve steady_recv_loop : inv.

Lemma steady_transfer_file fd r a h s :
  inv I (vsf_ftpdataio_transfer_file fuel fd r a h s).
Proof.
  unfold vsf_ftpdataio_transfer_file, do_file_send_rwloop, do_file_recv, download_bufsize. inv_auto.
Qed.

Lemma steady_build_line f i t : inv I (build_dir_line f i t).
Proof. unfold build_dir_line, time_get_date. inv_auto. Qed.
#[local] Hint Resolve steady_build_line : inv.

Lemma steady_list_entries infos v t b ct l : inv I (list_entries infos v t b ct l).
Proof. revert l; induction infos as [|i infos IH]; intros; cbn [list_entries]; inv_auto. Qed.
#[local] Hint Resolve steady_list_entries : inv.

Lemma steady_populate b o f v s : inv I (vsf_ls_populate_dir_list fuel b o f v s).
Proof. unfold vsf_ls_populate_dir_list, single_line. inv_auto. Qed.
#[local] Hint Resolve steady_populate : inv.

Lemma steady_write_dir_list ls buf tgt : inv I (write_dir_list_loop ls buf tgt).
Proof. revert buf; induction ls as [|l ls IH]; intros; cbn [write_dir_list_loop]; inv_auto. Qed.
#[local] Hint Resolve steady_write_dir_list : inv.

Lemma steady_transfer_dir c b o f v : inv I (vsf_ftpdataio_transfer_dir fuel c b o f v).
Proof. unfold vsf_ftpdataio_transfer_dir, write_dir_list. inv_auto. Qed.

Lemma steady_list_target f s : inv I (list_target f s).
Proof. unfold list_target. inv_auto. Qed.

Lemma steady_pwd : inv I handle_pwd.
Proof. unfold handle_pwd, str_session_getcwd. inv_auto. Qed.
Lemma steady_cwd : inv I handle_cwd.
Proof. unfold handle_cwd. repeat first [apply steady_enter | inv_step idtac]. Qed.
#[local] Hint Resolve steady_cwd : inv.
Lemma steady_cdup : inv I handle_cdup.
Proof. unfold handle_cdup. inv_auto. Qed.
Lemma steady_size : inv I handle_size.
Proof. unfold handle_size. inv_auto. Qed.
Lemma steady_type : inv I handle_type.
Proof. unfold handle_type. inv_auto. Qed.
Lemma steady_rest : inv I handle_rest.
Proof. unfold handle_rest. inv_auto. Qed.
Lemma steady_help : inv I handle_help.
Proof. unfold handle_help, raw_line. inv_auto. Qed.
Lemma steady_stat : inv I handle_stat.
Proof. unfold handle_stat, raw_line, raw. inv_auto. Qed.
Lemma steady_user : inv I handle_logged_in_user.
Proof. unfold handle_logged_in_user. inv_auto. Qed.
Lemma steady_pass : inv I handle_logged_in_pass.
Proof. unfold handle_logged_in_pass. inv_auto. Qed.
Lemma steady_pbsz : inv I handle_pbsz.
Proof. unfold handle_pbsz. inv_auto. Qed.
Lemma steady_prot : inv I handle_prot.
Proof. unfold handle_prot. inv_auto. Qed.

End Steady.
#[export] Hint Resolve steady_prepend steady_access steady_resolve_tilde steady_resolve_arg
  steady_set_arg steady_check_abor steady_close steady_post_mark steady_fstat
  steady_transfer_file steady_cos_stat steady_isdir steady_isempty steady_mkdir steady_rmdir
  steady_unlink steady_upload steady_conv steady_env_init steady_transfer_dir steady_list_target steady_pwd
  steady_cwd steady_cdup steady_size steady_type steady_rest steady_help steady_stat steady_user
  steady_pass steady_pbsz steady_prot : inv.

Section Neutral.
Context `{E : Env} `{T : Tun} `{QS : Qsort} `{JS : Json} (I : world → Prop) `{N : !Neutral I}.

Lemma neutral_log_start what : inv I (vsf_log_start_entry what).
Proof. apply (quiet_log_start I). intros. by apply neutral_log_type. Qed.

Lemma neutral_log_do_log b : inv I (vsf_log_do_log b).
Proof. apply (quiet_log_do_log I). intros. by apply neutral_log_type. Qed.

#[local] Hint Resolve neutral_log_start neutral_log_do_log : inv.
Lemma neutral_start_logged what : inv I (start_logged what).
Proof. unfold start_logged. inv_auto. Qed.

Lemma neutral_dispose : inv I vsf_ftpdataio_dispose_transfer_fd.
Proof.
  unfold vsf_ftpdataio_dispose_transfer_fd, vsf_sysutil_uninstall_io_handler, dispose_ssl.
  inv_auto.
Qed.

Lemma neutral_init_data_sock fd : inv I (init_data_sock_params fd).
Proof. unfold init_data_sock_params, vsf_sysutil_install_io_handler. inv_auto. Qed.
End Neutral.

#[export] Hint Resolve neutral_log_start neutral_log_do_log neutral_start_logged neutral_dispose
  neutral_init_data_sock : inv.

(** ** Invariants that do not mention the data modes *)

(** ... except for the listening socket of the passive mode, ... *)
Class ListenFree (I : world → Prop) : Prop := {
  lf_neutral :: Neutral I;
  lf_listen w v : I w → I (put_sess (set_pasv_listen_fd v (sess w)) w)
}.

(** ... or at all. *)
Class ModeFree (I : world → Prop) : Prop := {
  mf_listen_free :: ListenFree I;
  mf_connect w c a : connects c = true → I w → I (put_hist ((c, a) :: hist w) w);
  mf_port w v : I w → I (put_sess (set_p_port_sockaddr v (sess w)) w);
  mf_remote w v : I w → I (put_sess (set_p_remote_addr v (sess w)) w)
}.

Definition swap (w : world) : world := put_parent (sess w) (put_sess (parent w) w).

Lemma on_parent_run {A} (m : M A) w : on_parent m w = ((m (swap w)).1, swap (m (swap w)).2).
Proof. unfold on_parent, swap. by destruct (m _). Qed.

Lemma swap_swap w : swap (swap w) = w.
Proof. by destruct w. Qed.

Section ListenFree.
Context `{E : Env} `{T : Tun} (I : world → Prop) `{LF : !ListenFree I}.

Lemma lf_inv_listen v : inv I (upd (set_pasv_listen_fd v)).
Proof. apply inv_upd. intros. by apply lf_listen. Qed.
#[local] Hint Resolve lf_inv_listen : inv.

Lemma lf_pasv_cleanup : inv I vsf_privop_pasv_cleanup.
Proof. unfold vsf_privop_pasv_cleanup. inv_auto. Qed.
Lemma lf_pasv_active : inv I vsf_privop_pasv_active.
Proof. unfold vsf_privop_pasv_active. inv_auto. Qed.

Lemma lf_pasv_retry n mi ma v6 : inv I (pasv_retry n mi ma v6).
Proof.
  induction n as [|n IH]; cbn [pasv_retry]; unfold pasv_try, vsf_sysutil_get_sock; inv_auto.
Qed.
#[local] Hint Resolve lf_pasv_retry : inv.

Lemma lf_pasv_listen : inv I vsf_privop_pasv_listen.
Proof. unfold vsf_privop_pasv_listen. inv_auto. Qed.
Lemma lf_accept : inv I vsf_privop_accept_pasv.
Proof. unfold vsf_privop_accept_pasv. inv_auto. Qed.
#[local] Hint Resolve lf_accept : inv.
Lemma lf_cmd_accept : inv I cmd_process_pasv_accept.
Proof. unfold cmd_process_pasv_accept. inv_auto. Qed.

Lemma lf_port_bind n s p : inv I (port_bind n s p).
Proof. induction n as [|n IH]; cbn [port_bind]; inv_auto. Qed.

End ListenFree.
#[export] Hint Resolve lf_inv_listen lf_pasv_cleanup lf_pasv_active lf_pasv_listen lf_accept
  lf_cmd_accept lf_port_bind : inv.
#[export] Hint Extern 1 (ListenFree _) => typeclasses eauto : inv.

Section ModeFree.
Context `{E : Env} `{T : Tun} (I : world → Prop) `{MF : !ModeFree I}.

Lemma mf_inv_connect c : connects c = true → inv I (ask c).
Proof. intros H. apply inv_ask. intros. by apply mf_connect. Qed.
Lemma mf_inv_port v : inv I (upd (set_p_port_sockaddr v)).
Proof. apply inv_upd. intros. by apply mf_port. Qed.
Lemma mf_inv_remote v : inv I (upd (set_p_remote_addr v)).
Proof. apply inv_upd. intros. by apply mf_remote. Qed.
#[local] Hint Resolve mf_inv_connect mf_inv_remote : inv.
#[local] Hint Extern 1 (connects _ = true) => reflexivity : inv.

Lemma mf_get_port_sock p b : inv I (vsf_privop_get_ftp_port_sock p b).
Proof. unfold vsf_privop_get_ftp_port_sock, vsf_sysutil_get_sock. inv_auto. Qed.
#[local] Hint Resolve mf_get_port_sock : inv.
Lemma mf_cmd_get_sock p : inv I (cmd_process_get_data_sock p).
Proof. unfold cmd_process_get_data_sock. inv_auto. Qed.

End ModeFree.
#[export] Hint Resolve mf_inv_port mf_get_port_sock mf_cmd_get_sock : inv.
#[export] Hint Extern 1 (ModeFree _) => typeclasses eauto : inv.

(** The same for the session's side, where the parent may do the work. *)
Section TwoProcesses.
Context `{E : Env} `{T : Tun} `{QS : Qsort} `{JS : Json} (I I' : world → Prop) `{LF : !ListenFree I}.
Context `{LF' : !ListenFree I'} (Hswap : ∀ w, I w ↔ I' (swap w)).

Lemma lf_on_parent {A} (m : M A) : inv I' m → inv I (on_parent m).
Proof. by apply inv_on_parent. Qed.
#[local] Hint Resolve lf_on_parent : inv.

Lemma two_pasv_cleanup : inv I pasv_cleanup.
Proof. unfold pasv_cleanup. inv_auto. Qed.
Lemma two_query : inv I query_pasv_active.
Proof. unfold query_pasv_active. inv_auto. Qed.
Lemma two_pasv_listen : inv I pasv_listen.
Proof. unfold pasv_listen. inv_auto. Qed.
Lemma two_get_pasv_fd : inv I get_pasv_fd.
Proof. unfold get_pasv_fd. inv_auto. Qed.
#[local] Hint Resolve two_pasv_cleanup two_pasv_listen : inv.

Context (Hclear : inv I port_cleanup).
#[local] Hint Resolve Hclear : inv.

Lemma two_handle_pasv b : inv I (handle_pasv b).
Proof. unfold handle_pasv, pasv_reply_addr, vsf_sysutil_inet_ntop. inv_auto. Qed.

End TwoProcesses.

Section TwoModeFree.
Context `{E : Env} `{T : Tun} `{QS : Qsort} `{JS : Json} (I I' : world → Prop) `{MF : !ModeFree I}.
Context `{MF' : !ModeFree I'} (Hswap : ∀ w, I w ↔ I' (swap w)).

Lemma mf_on_parent {A} (m : M A) : inv I' m → inv I (on_parent m).
Proof. by apply inv_on_parent. Qed.
#[local] Hint Resolve mf_on_parent : inv.

Lemma mf_pasv_cleanup : inv I pasv_cleanup.
Proof. by apply (two_pasv_cleanup I I'). Qed.
#[local] Hint Resolve mf_pasv_cleanup : inv.

Lemma two_port_cleanup : inv I port_cleanup.
Proof. unfold port_cleanup. inv_auto. Qed.
Lemma two_get_data_sock b : inv I (get_priv_data_sock b).
Proof. unfold get_priv_data_sock. inv_auto. Qed.
Lemma two_handle_port : inv I handle_port.
Proof. unfold handle_port, accept_port, port_cleanup. inv_auto. Qed.
Lemma two_handle_eprt : inv I handle_eprt.
Proof. unfold handle_eprt, accept_port, port_cleanup. inv_auto. Qed.

End TwoModeFree.
