(* ===== verification/Assertions.v ===== *)
(** * The assertions of a session

    The session code asserts, with [bug], that its log entry, its data
    descriptor, its I/O handler and its data modes are in the state that it
    expects. No sequence of commands breaks one of these assertions. *)

From Stdlib Require Import Init.Byte Strings.Byte.
From Stdlib Require Import ZArith Lia String.
From stdpp Require Import base list numbers option gmap strings.
From S2P Require Import Prelude SysUtil Text StrList IpAddr Filter Tunables Session CmdIO.
From S2P Require Import Signals Logic Paths PrivOps Cos DataIO Ls PostLogin.
From S2P Require Import Stops Invariants Demo.

Definition session_bugs : list string :=
  ["non null log_type in vsf_log_start_entry"; "bad entry_type in vsf_log_do_log";
   "double register of i/o handler"; "no i/o handler to unregister!";
   "data descriptor still present in init_data_sock_params";
   "no data descriptor in vsf_ftpdataio_dispose_transfer_fd";
   "port and pasv both active"; "pasv and port both active";
   "neither PORT nor PASV active in get_remote_transfer_fd"]%string.

(** A stop that is none of these assertions. *)
Definition session_fair (b : bytes) : Prop := b ∉ lit <$> session_bugs.

#[global] Instance session_fair_fair : Fair session_fair.
Proof.
  assert (Forall (λ s, lit s ∉ lit <$> session_bugs) common_bugs) as H by vmdec.
  intros s Hs. by eapply Forall_forall in H.
Qed.

(** ** Code that has no such assertion *)

Section Polite.
Context `{E : Env} `{T : Tun} `{QS : Qsort} `{JS : Json} (fuel : nat) (φ : bytes → Prop) `{F : !Fair φ}.

Lemma polite_pasv_cleanup : polite φ vsf_privop_pasv_cleanup.
Proof. unfold vsf_privop_pasv_cleanup. polite_auto. Qed.
Lemma polite_pasv_retry n mi ma v6 : polite φ (pasv_retry n mi ma v6).
Proof. induction n as [|n IH]; cbn [pasv_retry]; unfold pasv_try, vsf_sysutil_get_sock; polite_auto. Qed.
#[local] Hint Resolve polite_pasv_retry : polite.
Lemma polite_privop_listen : polite φ vsf_privop_pasv_listen.
Proof. unfold vsf_privop_pasv_listen. polite_auto. Qed.
Lemma polite_accept_pasv : polite φ vsf_privop_accept_pasv.
Proof. unfold vsf_privop_accept_pasv. polite_auto. Qed.
#[local] Hint Resolve polite_pasv_cleanup polite_privop_listen polite_accept_pasv : polite.
Lemma polite_cmd_accept : polite φ cmd_process_pasv_accept.
Proof. unfold cmd_process_pasv_accept. polite_auto. Qed.
Lemma polite_port_bind n s p : polite φ (port_bind n s p).
Proof. induction n as [|n IH]; cbn [port_bind]; polite_auto. Qed.
#[local] Hint Resolve polite_cmd_accept polite_port_bind : polite.
Lemma polite_port_sock p b : polite φ (vsf_privop_get_ftp_port_sock p b).
Proof. unfold vsf_privop_get_ftp_port_sock, vsf_sysutil_get_sock. polite_auto. Qed.
#[local] Hint Resolve polite_port_sock : polite.
Lemma polite_data_sock b : polite φ (get_priv_data_sock b).
Proof. unfold get_priv_data_sock, cmd_process_get_data_sock. polite_auto. Qed.
Lemma polite_cleanup : polite φ pasv_cleanup.
Proof. unfold pasv_cleanup. polite_auto. Qed.
Lemma polite_listen : polite φ pasv_listen.
Proof. unfold pasv_listen. polite_auto. Qed.
Lemma polite_pasv_fd : polite φ get_pasv_fd.
Proof. unfold get_pasv_fd. polite_auto. Qed.
Lemma polite_chown fd : polite φ (chown_upload fd).
Proof. unfold chown_upload, cmd_process_chown, vsf_privop_do_file_chown. polite_auto. Qed.
Lemma polite_port_cleanup : polite φ port_cleanup.
Proof. done. Qed.
#[local] Hint Resolve polite_cleanup polite_listen polite_port_cleanup : polite.

Lemma polite_accept_port a p g b : polite φ (accept_port a p g b).
Proof. unfold accept_port. polite_auto. Qed.
#[local] Hint Resolve polite_accept_port : polite.

Lemma polite_dispose_ssl : polite φ dispose_ssl.
Proof. unfold dispose_ssl. polite_auto. Qed.
Lemma polite_post_mark : polite φ vsf_ftpdataio_post_mark_connect.
Proof. unfold vsf_ftpdataio_post_mark_connect. polite_auto. Qed.
Lemma polite_setting name : polite_res φ (setting name).
Proof. unfold setting. polite_auto. Qed.
Lemma polite_find v k : polite_res φ (json_find v k).
Proof. unfold json_find. polite_auto. Qed.
#[local] Hint Resolve polite_setting polite_find : polite.
Lemma polite_member {A} v k (get : jvalue → option A) : polite_res φ (member v k get).
Proof. unfold member. polite_auto. Qed.
#[local] Hint Resolve polite_member : polite.
Lemma polite_member_or {A} v k (get : jvalue → option A) d : polite_res φ (member_or v k get d).
Proof. unfold member_or. polite_auto. Qed.
Lemma polite_parse_code r : polite_res φ (parse_code r).
Proof. unfold parse_code. polite_auto. Qed.
#[local] Hint Resolve polite_member_or polite_parse_code : polite.
Lemma polite_parse_data r : polite_res φ (parse_data r).
Proof. unfold parse_data. polite_auto. Qed.
#[local] Hint Resolve polite_parse_data : polite.
Lemma polite_parse_page r : polite_res φ (parse_page r).
Proof. unfold parse_page. polite_auto. Qed.
Lemma polite_parse_isempty r : polite_res φ (parse_isempty r).
Proof. unfold parse_isempty. polite_auto. Qed.
Lemma polite_passes f n : polite_res φ (passes f n).
Proof.
  unfold passes. destruct f as [f|]; [|done]. apply polite_res_bind; [|done].
  apply polite_passes_filter, _.
Qed.
#[local] Hint Resolve polite_parse_page polite_parse_isempty polite_passes : polite.
Lemma polite_list_infos f i l : polite_res φ (list_infos f i l).
Proof.
  revert l; induction i as [|e i IH]; intros; cbn [list_infos]; unfold entry_name, entry_info; polite_auto.
Qed.
#[local] Hint Resolve polite_list_infos : polite.
Lemma polite_folder_path p : polite φ (folder_path p).
Proof. unfold folder_path, get_cos_path_from_disk_path. polite_auto. Qed.
Lemma polite_file_path p : polite φ (file_path p).
Proof. unfold file_path, get_cos_path_from_disk_path. polite_auto. Qed.
#[local] Hint Resolve polite_folder_path polite_file_path : polite.
Lemma polite_data_request op : polite φ (data_request op).
Proof. unfold data_request, request, log_response. polite_auto. Qed.
Lemma polite_code_request op a what : what ≠ kVSFLogEntryNull → polite φ (code_request op a what).
Proof. intros H. unfold code_request, request, log_response. polite_auto. Qed.
#[local] Hint Resolve polite_data_request : polite.
#[local] Hint Extern 1 (polite _ (code_request _ _ _)) => by apply polite_code_request : polite.
Lemma polite_list_loop n f b p c t l : polite φ (list_loop n f b p c t l).
Proof.
  revert c t l; induction n as [|n IH]; intros; cbn [list_loop]; unfold request, log_response; polite_auto.
Qed.
#[local] Hint Resolve polite_list_loop : polite.
Lemma polite_get_list p f : polite φ (cos_get_list fuel p f).
Proof. unfold cos_get_list. polite_auto. Qed.
Lemma polite_stat_info t p n d : polite φ (stat_info t p n d).
Proof. unfold stat_info. polite_auto. Qed.
#[local] Hint Resolve polite_stat_info : polite.
Lemma polite_cos_stat p : polite φ (cos_stat_file p).
Proof. unfold cos_stat_file. polite_auto. Qed.
Lemma polite_folder_stat p : polite φ (folder_stat p).
Proof. unfold folder_stat. polite_auto. Qed.
#[local] Hint Resolve polite_folder_stat : polite.
Lemma polite_cos_stat_dir p : polite φ (cos_stat_dir p).
Proof. unfold cos_stat_dir. polite_auto. Qed.
Lemma polite_isempty p : polite φ (cos_dir_isempty p).
Proof. unfold cos_dir_isempty, request, log_response. polite_auto. Qed.
#[local] Hint Resolve polite_isempty : polite.
Lemma polite_isdir p : polite φ (cos_isdir p).
Proof. unfold cos_isdir. polite_auto. Qed.
Lemma polite_mkdir p : polite φ (cos_mkdir p).
Proof. unfold cos_mkdir. polite_auto. Qed.
Lemma polite_rmdir p : polite φ (cos_rmdir p).
Proof. unfold cos_rmdir. polite_auto. Qed.
Lemma polite_unlink p : polite φ (cos_unlink p).
Proof. unfold cos_unlink. polite_auto. Qed.
Lemma polite_upload s p : polite φ (cos_upload_file s p).
Proof. unfold cos_upload_file. cbn [upload_loop]. polite_auto. Qed.
Lemma polite_download p l o n : polite φ (cos_download_file p l o n).
Proof. unfold cos_download_file. cbn [download_loop]. polite_auto. Qed.
Lemma polite_convert n cd rc i o l : polite φ (convert_loop n cd rc i o l).
Proof. revert rc i o l; induction n as [|n IH]; intros; cbn [convert_loop]; unfold iconv; polite_auto. Qed.
#[local] Hint Resolve polite_convert : polite.
Lemma polite_conv : polite φ cos_conv_gbk_2_utf.
Proof. unfold cos_conv_gbk_2_utf, CodeConvert, iconv. polite_auto. Qed.
#[local] Hint Resolve polite_get_list polite_cos_stat polite_cos_stat_dir polite_isdir
  polite_unlink polite_download : polite.

Lemma polite_send_loop n asc cs bs fs buf off pc tr : polite φ (send_loop n asc cs bs fs buf off pc tr).
Proof. revert buf off pc tr; induction n as [|n IH]; intros; cbn [send_loop]; polite_auto. Qed.
Lemma polite_recv_loop n fd asc cs hl pc tr : polite φ (recv_loop n fd asc cs hl pc tr).
Proof. revert pc tr; induction n as [|n IH]; intros; cbn [recv_loop]; unfold max_upload; polite_auto. Qed.
#[local] Hint Resolve polite_send_loop polite_recv_loop : polite.
Lemma polite_transfer_file fd r a h s : polite φ (vsf_ftpdataio_transfer_file fuel fd r a h s).
Proof.
  unfold vsf_ftpdataio_transfer_file, do_file_send_rwloop, do_file_recv, download_bufsize. polite_auto.
Qed.
Lemma polite_build_line f i t : polite φ (build_dir_line f i t).
Proof. unfold build_dir_line, time_get_date. polite_auto. Qed.
#[local] Hint Resolve polite_build_line : polite.
Lemma polite_list_entries infos v t b ct l : polite φ (list_entries infos v t b ct l).
Proof. revert l; induction infos as [|i infos IH]; intros; cbn [list_entries]; polite_auto. Qed.
#[local] Hint Resolve polite_list_entries : polite.
Lemma polite_populate b o f v s : polite φ (vsf_ls_populate_dir_list fuel b o f v s).
Proof. unfold vsf_ls_populate_dir_list, single_line. polite_auto. Qed.
Lemma polite_write_dir_list ls buf tgt : polite φ (write_dir_list_loop ls buf tgt).
Proof. revert buf; induction ls as [|l ls IH]; intros; cbn [write_dir_list_loop]; polite_auto. Qed.
#[local] Hint Resolve polite_populate polite_write_dir_list : polite.
Lemma polite_transfer_dir c b o f v : polite φ (vsf_ftpdataio_transfer_dir fuel c b o f v).
Proof. unfold vsf_ftpdataio_transfer_dir, write_dir_list. polite_auto. Qed.
Lemma polite_resolve_arg : polite φ resolve_arg.
Proof. unfold resolve_arg. polite_auto. Qed.
#[local] Hint Resolve polite_resolve_arg : polite.
Lemma polite_list_target f s : polite φ (list_target f s).
Proof. unfold list_target. polite_auto. Qed.

Lemma polite_set_arg f : polite φ (set_arg f).
Proof. unfold set_arg. polite_auto. Qed.
#[local] Hint Resolve polite_set_arg : polite.
Lemma polite_check_abor : polite φ check_abor.
Proof. unfold check_abor. polite_auto. Qed.
Lemma polite_unique_loop n b x : polite φ (unique_loop n b x).
Proof. revert x; induction n as [|n IH]; intros; cbn [unique_loop]; unfold str_stat_fails; polite_auto. Qed.
#[local] Hint Resolve polite_unique_loop : polite.
Lemma polite_unique b : polite φ (get_unique_filename fuel b).
Proof. unfold get_unique_filename, str_stat_fails. polite_auto. Qed.
Lemma polite_prepare f fd sz off a t : polite φ (upload_prepare f fd sz off a t).
Proof. unfold upload_prepare. polite_auto. Qed.
Lemma polite_pwd : polite φ handle_pwd.
Proof. unfold handle_pwd. polite_auto. Qed.
Lemma polite_cwd : polite φ handle_cwd.
Proof. unfold handle_cwd. polite_auto. Qed.
#[local] Hint Resolve polite_cwd : polite.
Lemma polite_cdup : polite φ handle_cdup.
Proof. unfold handle_cdup. polite_auto. Qed.
Lemma polite_size : polite φ handle_size.
Proof. unfold handle_size. polite_auto. Qed.
Lemma polite_type : polite φ handle_type.
Proof. unfold handle_type. polite_auto. Qed.
Lemma polite_rest : polite φ handle_rest.
Proof. unfold handle_rest. polite_auto. Qed.
Lemma polite_help : polite φ handle_help.
Proof. unfold handle_help, raw_line. polite_auto. Qed.
Lemma polite_stat : polite φ handle_stat.
Proof. unfold handle_stat, raw_line, raw. polite_auto. Qed.
Lemma polite_user : polite φ handle_logged_in_user.
Proof. unfold handle_logged_in_user. polite_auto. Qed.
Lemma polite_pass : polite φ handle_logged_in_pass.
Proof. unfold handle_logged_in_pass. polite_auto. Qed.
Lemma polite_pbsz : polite φ handle_pbsz.
Proof. unfold handle_pbsz. polite_auto. Qed.
Lemma polite_prot : polite φ handle_prot.
Proof. unfold handle_prot. polite_auto. Qed.

End Polite.
#[export] Hint Resolve polite_cleanup polite_port_cleanup polite_pasv_fd polite_data_sock polite_chown
  polite_accept_port polite_dispose_ssl polite_post_mark
  polite_transfer_file polite_cos_stat polite_isdir polite_isempty polite_mkdir polite_rmdir
  polite_unlink polite_upload polite_conv polite_transfer_dir polite_resolve_arg polite_list_target
  polite_set_arg polite_check_abor polite_unique polite_prepare polite_pwd polite_cwd polite_cdup
  polite_size polite_type polite_rest polite_help polite_stat polite_user polite_pass polite_pbsz
  polite_prot : polite.

Create HintDb fair discriminated.

(** ** What a session is doing *)

Section Phase.
Context `{E : Env} `{T : Tun} `{QS : Qsort} `{JS : Json} (fuel : nat).

(** The passive socket belongs to the session or to its parent. *)
Definition listening (w : world) : bool :=
  negb (pasv_listen_fd (if one_process then sess w else parent w) =? -1).
Definition port_given (w : world) : bool :=
  match p_port_sockaddr (sess w) with Some _ => true | None => false end.

(** The data connection: [Opened], with its I/O handler, or on the way. *)
Inductive conn := Closed | Half | Opened.

(** [l]: a log entry is open. [d]: the data connection. [ml], [mp]: which data modes are active, as far as is known. *)
Record modes (l : bool) (d : conn) (ml mp : option bool) (w : world) : Prop := Modes {
  mo_log : if l then log_action (log_type (sess w)) ≠ None else log_type (sess w) = 0;
  mo_data : match d with
            | Closed => data_fd (sess w) = -1 ∧ io_handler w = false
            | Half => 0 ≤ data_fd (sess w) ∧ io_handler w = false
            | Opened => 0 ≤ data_fd (sess w) ∧ io_handler w = true
            end;
  mo_listening : match ml with Some b => listening w = b | None => True end;
  mo_port : match mp with Some b => port_given w = b | None => True end
}.

#[local] Instance modes_steady l d ml mp : Steady (modes l d ml mp).
Proof.
  steady_simpl; match goal with H : modes _ _ _ _ _ |- _ => destruct H as [? ? H1 H2] end;
    unfold listening, port_given in *; destruct one_process eqn:?; split;
    unfold listening, port_given in *; rewrite ?Heqb; assumption.
Qed.

(** Seen from the parent. *)
Definition parent_modes (l : bool) (d : conn) (ml mp : option bool) (w : world) : Prop :=
  modes l d ml mp (swap w).

#[local] Instance parent_modes_steady l d ml mp : Steady (parent_modes l d ml mp).
Proof.
  unfold parent_modes.
  steady_simpl; match goal with H : modes _ _ _ _ _ |- _ => destruct H as [? ? H1 H2] end;
    unfold listening, port_given in *; destruct one_process eqn:?; split;
    unfold listening, port_given in *; rewrite ?Heqb; assumption.
Qed.

(** No claim on what is active, but for one mode at most. *)
Definition phase (l : bool) (d : conn) (w : world) : Prop :=
  ∃ x y, x && y = false ∧ modes l d (Some x) (Some y) w.

Lemma modes_phase_port l d ml w : modes l d ml (Some false) w → phase l d w.
Proof. intros []. exists (listening w), false. split; [by rewrite andb_false_r|done]. Qed.
Lemma modes_phase_listening l d mp w : modes l d (Some false) mp w → phase l d w.
Proof. intros []. exists false, (port_given w). done. Qed.

(** Any call of the environment, and the remote address, leave it alone. *)
Lemma modes_ask l d ml mp c : inv (modes l d ml mp) (ask c).
Proof. apply inv_ask. by intros w a []. Qed.
Lemma parent_ask l d ml mp c : inv (parent_modes l d ml mp) (ask c).
Proof. apply inv_ask. by intros w a []. Qed.
Lemma modes_remote l d ml mp v : inv (modes l d ml mp) (upd (set_p_remote_addr v)).
Proof. apply inv_upd. intros w []. split; unfold listening, port_given in *; by destruct one_process. Qed.
Lemma parent_remote l d ml mp v : inv (parent_modes l d ml mp) (upd (set_p_remote_addr v)).
Proof. apply inv_upd. intros w []. split; unfold listening, port_given in *; by destruct one_process. Qed.
#[local] Hint Resolve modes_ask parent_ask modes_remote parent_remote : inv.

Lemma modes_on_parent {A} l d ml mp (m : M A) :
  inv (parent_modes l d ml mp) m → inv (modes l d ml mp) (on_parent m).
Proof. apply inv_on_parent. intros w. unfold parent_modes, swap. by destruct w. Qed.
#[local] Hint Resolve modes_on_parent : inv.

(** *** Runs that trip no assertion *)

Definition fair {A} (P : world → Prop) (m : M A) (Q : A → world → Prop) : Prop :=
  hoare P m Q (λ s _, may_stop session_fair s).

Lemma fair_bind {A B} P (m : M A) (k : A → M B) R Q :
  fair P m R → (∀ a, fair (R a) (k a) Q) → fair P (m ≫= k) Q.
Proof. apply hoare_bind. Qed.
Lemma fair_conseq {A} P P' (m : M A) (Q Q' : A → world → Prop) :
  fair P m Q → (∀ w, P' w → P w) → (∀ a w, Q a w → Q' a w) → fair P' m Q'.
Proof. intros H HP HQ. eapply hoare_conseq; eauto. Qed.
Lemma fair_pre {A} P P' (m : M A) (Q : A → world → Prop) :
  fair P m Q → (∀ w, P' w → P w) → fair P' m Q.
Proof. intros H HP. by eapply fair_conseq. Qed.
Lemma fair_ret {A} P (a : A) (Q : A → world → Prop) : (∀ w, P w → Q a w) → fair P (mret a) Q.
Proof. apply hoare_ret. Qed.
Lemma fair_upd P (Q : unit → world → Prop) f :
  (∀ w, P w → Q tt (put_sess (f (sess w)) w)) → fair P (upd f) Q.
Proof. intros H w Hw. by apply H. Qed.
Lemma fair_quiet {A} I (m : M A) : polite session_fair m → inv I m → fair I m (λ _, I).
Proof. apply polite_inv. Qed.
Lemma fair_last {A} I (m : M A) (Q : A → world → Prop) :
  polite session_fair m → inv I m → (∀ a w, I w → Q a w) → fair I m Q.
Proof. intros Hp Hi HQ. eapply fair_conseq; [by apply fair_quiet|done|done]. Qed.
Lemma fair_seq {A B} I (m : M A) (k : A → M B) Q :
  polite session_fair m → inv I m → (∀ a, fair I (k a) Q) → fair I (m ≫= k) Q.
Proof. intros Hp Hi Hk. eapply fair_bind; [by apply fair_quiet|done]. Qed.
Lemma fair_exists {A X} (P : X → world → Prop) (m : M A) Q :
  (∀ x, fair (P x) m Q) → fair (λ w, ∃ x, P x w) m Q.
Proof. intros H w [x Hx]. by apply (H x). Qed.
Lemma fair_pure {A} (φ : Prop) P (m : M A) Q : (φ → fair P m Q) → fair (λ w, φ ∧ P w) m Q.
Proof. intros H w [Hφ Hw]. by apply H. Qed.

(** Steps of code that keeps [modes], with the hints for its parts. *)
Ltac quiet_part := solve [polite_auto | eauto with polite].
Ltac fair_step :=
  match goal with
  | |- fair _ (mbind _ _) _ => apply fair_seq; [quiet_part|solve [inv_auto]|intros ?]
  | |- fair _ (mret _) _ => apply fair_ret; intros ? ?
  | |- fair _ (when ?b _) _ => destruct b; cbn [when]
  | |- fair _ (if ?b then _ else _) _ => destruct b eqn:?
  | |- fair _ (match ?x with _ => _ end) _ => destruct x eqn:?
  | |- fair _ (let _ := _ in _) _ => cbv zeta
  end.
Ltac fair_auto := repeat fair_step.
Ltac fair_end := apply fair_last; [quiet_part|solve [inv_auto]|intros ? ?].

(** *** The data modes *)

Lemma query_reads l d x mp w :
  modes l d (Some x) mp w → query_pasv_active w = (Ok x, w).
Proof.
  intros [_ _ Hx _]. unfold listening in Hx. unfold query_pasv_active. subst x.
  destruct one_process; [done|]. unfold on_parent, vsf_privop_pasv_active. cbn. by destruct w.
Qed.

Lemma pasv_active_reads n l d x y w :
  x && y = false → modes l d (Some x) (Some y) w → pasv_active (S (S n)) w = (Ok x, w).
Proof.
  intros Hxy Hm. cbn [pasv_active]. unfold mbind, M_bind. rewrite (query_reads _ _ _ _ _ Hm).
  destruct x; [|done]. cbn [port_active]. unfold mbind, M_bind. destruct Hm as [_ _ _ Hy].
  unfold port_given in Hy. cbn in *. subst y. by destruct (p_port_sockaddr (sess w)).
Qed.

Lemma port_active_reads n l d x y w :
  x && y = false → modes l d (Some x) (Some y) w → port_active (S (S n)) w = (Ok y, w).
Proof.
  intros Hxy Hm. cbn [port_active]. unfold mbind, M_bind. destruct (mo_port _ _ _ _ _ Hm). unfold port_given in *.
  cbn. destruct (p_port_sockaddr (sess w)) eqn:Hp; [|done].
  cbn [pasv_active]. unfold mbind, M_bind. rewrite (query_reads _ _ _ _ _ Hm). by destruct x.
Qed.

Lemma pasv_active_fair l d x y :
  x && y = false →
  fair (modes l d (Some x) (Some y)) (pasv_active stack_depth)
    (λ b w, b = x ∧ modes l d (Some x) (Some y) w).
Proof.
  intros Hxy w Hm. change stack_depth with (S (S 62)). by rewrite (pasv_active_reads _ _ _ _ _ _ Hxy Hm).
Qed.

Lemma port_active_fair l d x y :
  x && y = false →
  fair (modes l d (Some x) (Some y)) (port_active stack_depth)
    (λ b w, b = y ∧ modes l d (Some x) (Some y) w).
Proof.
  intros Hxy w Hm. change stack_depth with (S (S 62)). by rewrite (port_active_reads _ _ _ _ _ _ Hxy Hm).
Qed.

Lemma any_active_fair l d x y :
  x && y = false →
  fair (modes l d (Some x) (Some y)) (if x then mret true else port_active stack_depth)
    (λ b w, b = x || y ∧ modes l d (Some x) (Some y) w).
Proof. intros Hxy. destruct x; [by apply fair_ret|by apply port_active_fair]. Qed.

(** An operation of privops.c runs on the side that has the passive socket. *)
Definition side (l : bool) (d : conn) (mp : option bool) (w : world) : Prop :=
  if one_process then modes l d None mp w else parent_modes l d None mp w.

#[local] Instance side_steady l d mp : Steady (side l d mp).
Proof.
  unfold side. destruct one_process; [exact (modes_steady _ _ _ _)|exact (parent_modes_steady _ _ _ _)].
Qed.

Lemma side_listen l d mp v : inv (side l d mp) (upd (set_pasv_listen_fd v)).
Proof.
  apply inv_upd. intros w. unfold side, parent_modes. destruct one_process; intros []; by split.
Qed.
Lemma side_ask l d mp c : inv (side l d mp) (ask c).
Proof. unfold side. destruct one_process; [apply modes_ask|apply parent_ask]. Qed.
#[local] Hint Resolve side_listen side_ask : inv.

Lemma fair_priv {A} l d mp (m : M A) (R : A → bool → Prop) :
  fair (side l d mp) m
    (λ a w, R a (negb (pasv_listen_fd (sess w) =? -1)) ∧ side l d mp w) →
  fair (modes l d None mp) (if one_process then m else on_parent m)
    (λ a w, R a (listening w) ∧ modes l d None mp w).
Proof.
  intros H w Hw. unfold side, listening in *. destruct one_process; [by apply H|].
  specialize (H (swap w)). unfold parent_modes in H. rewrite swap_swap in H.
  specialize (H Hw). unfold on_parent. fold (swap w).
  destruct (m (swap w)) as [[a|s] w']; [|done]. destruct H as [HR H]. by destruct w'.
Qed.

Lemma modes_at l d b mp w : modes l d (Some b) mp w ↔ listening w = b ∧ modes l d None mp w.
Proof. split; [intros []|intros [? []]]; by repeat split. Qed.

(** Closing the passive socket, and forgetting the address of a PORT. *)
Lemma pasv_cleanup_fair l d ml mp :
  fair (modes l d ml mp) pasv_cleanup (λ _, modes l d (Some false) mp).
Proof.
  eapply fair_conseq with (P := modes l d None mp).
  - apply (fair_priv _ _ _ _ (λ _ b, b = false)). unfold vsf_privop_pasv_cleanup.
    apply hoare_gets. intros fd. destruct (fd =? -1) eqn:Hfd; cbn [negb].
    + apply fair_ret. intros w [<- Hw]. by rewrite Hfd.
    + apply (fair_pre (side l d mp)); [|by intros w []].
      apply fair_seq; [quiet_part|solve [inv_auto]|intros []].
      apply fair_upd. intros w Hw. split; [done|]. by apply (side_listen l d mp (-1) w).
  - by intros w [].
  - intros [] w Hw. by apply modes_at.
Qed.

Lemma port_cleanup_fair l d ml mp :
  fair (modes l d ml mp) port_cleanup (λ _, modes l d ml (Some false)).
Proof.
  intros w [? ? Hl ?]. split; try done. unfold listening in *. by destruct one_process.
Qed.

Lemma cleanup_fair l d ml mp :
  fair (modes l d ml mp) cleanup_port_pasv (λ _, phase l d).
Proof.
  eapply fair_bind; [apply port_cleanup_fair|intros []].
  eapply fair_conseq; [apply pasv_cleanup_fair|done|]. intros []. apply modes_phase_listening.
Qed.

(** The passive socket, once a PORT is forgotten. *)
Lemma modes_forget l d ml mp w : modes l d ml mp w → modes l d None mp w.
Proof. by intros []. Qed.
Lemma side_pasv_retry l d mp n mi ma v6 : inv (side l d mp) (pasv_retry n mi ma v6).
Proof.
  induction n as [|n IH]; cbn [pasv_retry]; unfold pasv_try, vsf_sysutil_get_sock; inv_auto.
Qed.
#[local] Hint Resolve side_pasv_retry : inv.

Lemma modes_priv {A} l d mp (m : M A) :
  inv (side l d mp) m → inv (modes l d None mp) (if one_process then m else on_parent m).
Proof.
  unfold side. intros H. destruct one_process; [exact H|]. by apply modes_on_parent.
Qed.

Lemma pasv_listen_inv l d mp : inv (modes l d None mp) pasv_listen.
Proof.
  assert (inv (modes l d None mp) (if one_process then vsf_privop_pasv_listen
    else on_parent vsf_privop_pasv_listen)) as H.
  { apply modes_priv. unfold vsf_privop_pasv_listen. inv_auto. }
  unfold pasv_listen. destruct one_process; [done|]. inv_auto.
Qed.
#[local] Hint Resolve pasv_listen_inv : inv.

(** A command that leaves the modes alone. *)
Lemma fair_phase {A} l d (m : M A) :
  polite session_fair m → (∀ x y, inv (modes l d (Some x) (Some y)) m) →
  fair (phase l d) m (λ _, phase l d).
Proof.
  intros Hp Hi w (x & y & Hxy & Hw). specialize (Hp w). specialize (Hi x y w Hw).
  destruct (m w) as [[a|s] w']; [|done]. by exists x, y.
Qed.

Lemma phase_intro {A} l d (m : M A) Q :
  (∀ x y, x && y = false → fair (modes l d (Some x) (Some y)) m Q) → fair (phase l d) m Q.
Proof.
  intros H. apply fair_exists. intros x. apply fair_exists. intros y. apply fair_pure. apply H.
Qed.
Lemma phase_of l d x y w : x && y = false → modes l d (Some x) (Some y) w → phase l d w.
Proof. intros Hxy Hw. by exists x, y. Qed.

Lemma listen_fair l d x y (k : Z → M unit) :
  (∀ z, polite session_fair (k z)) → (∀ z, inv (modes l d None (Some false)) (k z)) →
  fair (modes l d (Some x) (Some y)) (pasv_cleanup;; port_cleanup;; the_port ← pasv_listen; k the_port)
    (λ _, phase l d).
Proof.
  intros Hp Hi. eapply fair_bind; [apply pasv_cleanup_fair|intros []].
  eapply fair_bind; [apply port_cleanup_fair|intros []].
  apply (fair_pre (modes l d None (Some false))); [|intros w; apply modes_forget].
  apply fair_seq; [apply polite_listen, _|apply pasv_listen_inv|intros z].
  apply fair_last; [apply Hp|apply Hi|]. intros []. apply modes_phase_port.
Qed.

Lemma polite_reply_addr a : polite session_fair (pasv_reply_addr a).
Proof. unfold pasv_reply_addr, vsf_sysutil_inet_ntop. polite_auto. Qed.
Lemma modes_reply_addr l d ml mp a : inv (modes l d ml mp) (pasv_reply_addr a).
Proof. unfold pasv_reply_addr, vsf_sysutil_inet_ntop. inv_auto. Qed.
#[local] Hint Resolve polite_reply_addr : polite.
#[local] Hint Resolve modes_reply_addr : inv.

Lemma handle_pasv_fair l d b : fair (phase l d) (handle_pasv b) (λ _, phase l d).
Proof.
  apply phase_intro. intros x y Hxy. unfold handle_pasv. cbv zeta.
  fair_auto; try fair_end; eauto using phase_of.
  all: try (apply listen_fair; intros ?; [polite_auto|inv_auto]).
Qed.

Lemma modes_set_port l d ml v : inv (modes l d ml None) (upd (set_p_port_sockaddr v)).
Proof. apply inv_upd. intros w []. split; unfold listening in *; by destruct one_process. Qed.
#[local] Hint Resolve modes_set_port : inv.
Lemma modes_accept_port l d ml a p g b : inv (modes l d ml None) (accept_port a p g b).
Proof. unfold accept_port, port_cleanup. inv_auto. Qed.
#[local] Hint Resolve modes_accept_port : inv.

Lemma phase_no_port l d w : modes l d (Some false) None w → phase l d w.
Proof. apply modes_phase_listening. Qed.
Lemma modes_no_port l d ml mp w : modes l d ml mp w → modes l d ml None w.
Proof. by intros []. Qed.

Lemma handle_port_fair l d : fair (phase l d) handle_port (λ _, phase l d).
Proof.
  apply phase_intro. intros x y Hxy. unfold handle_port.
  eapply fair_bind; [apply pasv_cleanup_fair|intros []].
  eapply fair_bind; [apply port_cleanup_fair|intros []].
  apply (fair_pre (modes l d (Some false) None)); [|intros w; apply modes_no_port].
  fair_auto; fair_end; by apply phase_no_port.
Qed.

Lemma handle_eprt_fair l d : fair (phase l d) handle_eprt (λ _, phase l d).
Proof.
  apply phase_intro. intros x y Hxy. unfold handle_eprt.
  apply fair_seq; [quiet_part|solve [inv_auto]|intros local].
  eapply fair_bind; [apply port_cleanup_fair|intros []].
  eapply fair_bind; [apply pasv_cleanup_fair|intros []].
  apply (fair_pre (modes l d (Some false) None)); [|intros w; apply modes_no_port].
  fair_auto; fair_end; by apply phase_no_port.
Qed.

(** *** The data connection *)

Lemma data_checks_fair l d x y :
  x && y = false →
  fair (modes l d (Some x) (Some y)) data_transfer_checks_ok
    (λ b w, (b = true → x || y = true) ∧ modes l d (Some x) (Some y) w).
Proof.
  intros Hxy. unfold data_transfer_checks_ok.
  eapply fair_bind; [by apply pasv_active_fair|intros ?]. apply fair_pure. intros ->.
  eapply fair_bind; [by apply any_active_fair|intros ?]. apply fair_pure. intros ->.
  fair_auto; by rewrite ?negb_false_iff in *.
Qed.

Lemma modes_dispose_ssl l d ml mp : inv (modes l d ml mp) dispose_ssl.
Proof. unfold dispose_ssl. inv_auto. Qed.
#[local] Hint Resolve modes_dispose_ssl : inv.

Lemma dispose_fair l ml mp :
  fair (modes l Opened ml mp) vsf_ftpdataio_dispose_transfer_fd (λ _, modes l Closed ml mp).
Proof.
  unfold vsf_ftpdataio_dispose_transfer_fd. apply hoare_gets. intros fd.
  destruct (fd =? -1) eqn:Hfd.
  { intros w [Hw [? [? ?] ? ?]]. lia. }
  apply fair_bind with (R := λ _, modes l Half ml mp).
  { intros w [_ [? [? Hio] ? ?]]. unfold vsf_sysutil_uninstall_io_handler, mbind, M_bind. cbn.
    rewrite Hio. cbn. by split. } 
  intros []. fair_auto.
  eapply fair_bind with (R := λ _, modes l Closed ml mp).
  { apply fair_upd. intros w [? [] ? ?]. split; try done.
    unfold listening in *; by destruct one_process. }
  intros []. by fair_auto.
Qed.

Lemma init_data_sock_fair l ml mp fd :
  0 ≤ fd →
  fair (modes l Closed ml mp) (init_data_sock_params fd) (λ _, modes l Opened ml mp).
Proof.
  intros Hfd. unfold init_data_sock_params. apply hoare_gets. intros old.
  destruct (old =? -1) eqn:Hold; cbn [negb].
  2: { intros w [Hw [? [? ?] ? ?]]. lia. }
  apply (fair_pre (modes l Closed ml mp)); [|by intros w []].
  eapply fair_bind with (R := λ _, modes l Half ml mp).
  { apply fair_upd. intros w [? [] ? ?]. split; try done.
    unfold listening in *; by destruct one_process. }
  intros []. fair_auto.
  eapply fair_bind with (R := λ _, modes l Opened ml mp); [|intros []; by apply fair_last; auto with polite inv].
  intros w [? [? Hio] ? ?]. unfold vsf_sysutil_install_io_handler, mbind, M_bind. cbn.
  rewrite Hio. by split.
Qed.

(** What a run returns. *)
Definition yields {A} (φ : A → Prop) (m : M A) : Prop := ∀ w a w', m w = (Ok a, w') → φ a.

Lemma yields_ret {A} (φ : A → Prop) a : φ a → yields φ (mret a).
Proof. by intros H w ? ? [= <- _]. Qed.
Lemma yields_stop {A} (φ : A → Prop) s : yields φ (stop_with s).
Proof. done. Qed.
Lemma yields_bind {A B} (ψ : A → Prop) (φ : B → Prop) (m : M A) (k : A → M B) :
  yields ψ m → (∀ a, ψ a → yields φ (k a)) → yields φ (m ≫= k).
Proof.
  intros Hm Hk w b w'. unfold mbind, M_bind. destruct (m w) as [[a|s] w1] eqn:Hw; [|done].
  apply Hk. by apply (Hm w a w1).
Qed.
Lemma yields_any {A} (m : M A) : yields (λ _, True) m.
Proof. done. Qed.
Lemma yields_on_parent {A} (φ : A → Prop) (m : M A) : yields φ m → yields φ (on_parent m).
Proof.
  intros H w a w'. unfold on_parent. destruct (m _) as [r w1] eqn:Hm. intros [= -> _]. by eapply H.
Qed.

Lemma fair_value {A} I (φ : A → Prop) (m : M A) :
  polite session_fair m → inv I m → yields φ m → fair I m (λ a w, φ a ∧ I w).
Proof.
  intros Hp Hi Hr w Hw. specialize (Hp w). specialize (Hi w Hw). specialize (Hr w).
  destruct (m w) as [[a|s] w']; [|done]. split; [by eapply Hr|done].
Qed.

Ltac yields_step :=
  match goal with
  | |- yields _ (mret _) => apply yields_ret
  | |- yields _ (mdie _) => apply yields_stop
  | |- yields _ (stop_with _) => apply yields_stop
  | |- yields _ (mbind _ _) => apply (yields_bind _ _ _ _ (yields_any _)); intros ? _
  | |- yields _ (if ?b then _ else _) => destruct b eqn:?
  | |- yields _ (match ?x with _ => _ end) => destruct x eqn:?
  | |- yields _ (let _ := _ in _) => cbv zeta
  end.
Ltac yields_auto := repeat yields_step.

Definition accepted (fd : Z) : Prop := fd = -1 ∨ fd = -2 ∨ 0 ≤ fd.

Lemma yields_accept : yields accepted vsf_privop_accept_pasv.
Proof.
  unfold vsf_privop_accept_pasv, accepted. yields_auto; auto.
  all: unfold vsf_sysutil_retval_is_error in *; lia.
Qed.

Lemma yields_pasv_fd : yields accepted get_pasv_fd.
Proof.
  unfold get_pasv_fd. destruct one_process; [apply yields_accept|]. apply yields_on_parent.
  eapply yields_bind; [apply yields_accept|intros fd Hfd]. by yields_auto.
Qed.

Lemma yields_port_sock p b : yields (λ fd, fd = -1 ∨ 0 ≤ fd) (vsf_privop_get_ftp_port_sock p b).
Proof.
  unfold vsf_privop_get_ftp_port_sock. eapply yields_bind; [apply yields_any|intros ? _].
  eapply (yields_bind (λ s, 0 ≤ s)).
  { unfold vsf_sysutil_get_sock. yields_auto. lia. }
  intros s Hs. yields_auto; auto.
Qed.

Lemma yields_data_sock b : yields (λ fd, fd = -1 ∨ 0 ≤ fd) (get_priv_data_sock b).
Proof.
  unfold get_priv_data_sock. yields_auto; [apply yields_port_sock|].
  apply yields_on_parent. eapply yields_bind; [apply yields_port_sock|intros fd Hfd].
  yields_auto; auto.
Qed.

Section Both.
Context (I : world → Prop) `{N : !Steady I} (Hask : ∀ c, inv I (ask c)).
Context (Hremote : ∀ v, inv I (upd (set_p_remote_addr v))).
#[local] Hint Resolve Hask Hremote : inv.

Lemma both_accept : inv I vsf_privop_accept_pasv.
Proof. unfold vsf_privop_accept_pasv. inv_auto. Qed.
Lemma both_cmd_accept : inv I cmd_process_pasv_accept.
Proof. pose proof both_accept. unfold cmd_process_pasv_accept. inv_auto. Qed.
Lemma both_port_bind n s p : inv I (port_bind n s p).
Proof. induction n as [|n IH]; cbn [port_bind]; inv_auto. Qed.
#[local] Hint Resolve both_port_bind : inv.
Lemma both_port_sock p b : inv I (vsf_privop_get_ftp_port_sock p b).
Proof. unfold vsf_privop_get_ftp_port_sock, vsf_sysutil_get_sock. inv_auto. Qed.
Lemma both_cmd_sock p : inv I (cmd_process_get_data_sock p).
Proof. pose proof both_port_sock. unfold cmd_process_get_data_sock. inv_auto. Qed.
Lemma both_chown fd : inv I (vsf_privop_do_file_chown fd).
Proof. unfold vsf_privop_do_file_chown. inv_auto. Qed.
Lemma both_cmd_chown fd : inv I (cmd_process_chown fd).
Proof. pose proof both_chown. unfold cmd_process_chown. inv_auto. Qed.
End Both.
#[local] Hint Resolve both_accept both_cmd_accept both_port_sock both_cmd_sock both_chown
  both_cmd_chown : inv.

Lemma modes_pasv_fd l d ml mp : inv (modes l d ml mp) get_pasv_fd.
Proof. unfold get_pasv_fd. inv_auto. Qed.
Lemma modes_data_sock l d ml mp b : inv (modes l d ml mp) (get_priv_data_sock b).
Proof. unfold get_priv_data_sock. inv_auto. Qed.
Lemma modes_chown l d ml mp fd : inv (modes l d ml mp) (chown_upload fd).
Proof. unfold chown_upload. inv_auto. Qed.

(** The data connection is there unless the descriptor is an error. *)
Definition opened (fd : Z) : conn := if vsf_sysutil_retval_is_error fd then Closed else Opened.

Lemma opened_fair l ml mp fd :
  0 ≤ fd →
  fair (modes l Closed ml mp) (init_data_sock_params fd;; mret fd) (λ fd, modes l (opened fd) ml mp).
Proof.
  intros Hfd. eapply fair_bind; [by apply init_data_sock_fair|intros []]. apply fair_ret.
  unfold opened, vsf_sysutil_retval_is_error. by destruct (Z.ltb_spec fd 0); [lia|].
Qed.

Lemma get_pasv_fd_fair l ml mp :
  fair (modes l Closed ml mp) vsf_ftpdataio_get_pasv_fd (λ fd, modes l (opened fd) ml mp).
Proof.
  unfold vsf_ftpdataio_get_pasv_fd.
  eapply fair_bind; [apply fair_value; [quiet_part|apply modes_pasv_fd|apply yields_pasv_fd]|].
  intros fd. apply fair_pure. intros Hfd. unfold accepted in Hfd.
  destruct (Z.eqb_spec fd (-1)) as [->|]; [by fair_auto|].
  destruct (Z.eqb_spec fd (-2)) as [->|]; [by fair_auto|].
  apply opened_fair. lia.
Qed.

Lemma get_port_fd_fair l ml mp :
  fair (modes l Closed ml mp) vsf_ftpdataio_get_port_fd (λ fd, modes l (opened fd) ml mp).
Proof.
  unfold vsf_ftpdataio_get_port_fd.
  eapply fair_bind; [apply fair_value; [quiet_part|apply modes_data_sock|apply yields_data_sock]|].
  intros fd. apply fair_pure. intros Hfd. unfold vsf_sysutil_retval_is_error.
  destruct (Z.ltb_spec fd 0); [by fair_auto|]. by apply opened_fair.
Qed.

Lemma get_remote_fair l x y msg :
  x && y = false → x || y = true →
  fair (modes l Closed (Some x) (Some y)) (get_remote_transfer_fd msg)
    (λ fd, modes l (opened fd) (Some x) (Some y)).
Proof.
  intros Hxy Hor. unfold get_remote_transfer_fd.
  eapply fair_bind; [by apply pasv_active_fair|intros ?]. apply fair_pure. intros ->.
  eapply fair_bind; [by apply any_active_fair|intros ?]. apply fair_pure. intros ->.
  rewrite Hor. cbn [negb]. fair_step.
  eapply fair_bind; [by apply pasv_active_fair|intros ?]. apply fair_pure. intros ->.
  eapply fair_bind with (R := λ fd, modes l (opened fd) (Some x) (Some y)).
  { destruct x; [apply get_pasv_fd_fair|apply get_port_fd_fair]. }
  intros fd. unfold opened. destruct (vsf_sysutil_retval_is_error fd) eqn:He.
  { apply fair_ret. by rewrite He. }
  fair_step. apply fair_seq; [quiet_part|solve [inv_auto]|intros []]; cbn [negb].
  - apply fair_ret. by rewrite He.
  - eapply fair_bind; [apply dispose_fair|intros ?]. by apply fair_ret.
Qed.

(** *** The log *)

Lemma log_start_fair d ml mp what :
  what ≠ kVSFLogEntryNull →
  fair (modes false d ml mp) (vsf_log_start_entry what) (λ _, modes true d ml mp).
Proof.
  intros Hwhat. unfold vsf_log_start_entry. apply hoare_gets. intros lt.
  destruct (lt =? 0) eqn:Hlt; cbn [negb].
  2: { intros w [Hw [Hl ? ? ?]]. lia. }
  apply (fair_pre (modes false d ml mp)); [|by intros w []].
  eapply fair_bind with (R := λ _, modes true d ml mp).
  { apply fair_upd. intros w [Hl ? ? ?]. split; try done; [by destruct what|].
    unfold listening in *; by destruct one_process. }
  intros []. fair_auto; try fair_end; done.
Qed.

Lemma log_do_fair d ml mp b :
  fair (modes true d ml mp) (vsf_log_do_log b) (λ _, modes false d ml mp).
Proof.
  unfold vsf_log_do_log. apply hoare_gets. intros what w [Hwhat Hw].
  assert (fair (modes true d ml mp) (p_str ← gets log_str; vsf_log_common b what p_str;; upd (set_log_type 0))
    (λ _, modes false d ml mp)) as H; [|by apply H].
  destruct Hw as [Hl ? ? ?].
  fair_step. apply fair_seq; [by apply polite_log_common; [intros ?; auto with polite|rewrite <- Hwhat]
    |solve [inv_auto]|intros []].
  apply fair_upd. intros w' []. split; try done. unfold listening in *; by destruct one_process.
Qed.

Lemma start_logged_fair d ml mp what :
  what ≠ kVSFLogEntryNull →
  fair (modes false d ml mp) (start_logged what) (λ _, modes true d ml mp).
Proof.
  intros Hwhat. unfold start_logged.
  eapply fair_bind; [by apply log_start_fair|intros []]. fair_auto; try fair_end; done.
Qed.

(** *** The commands *)

(** After a command: no data connection. *)
Definition settled (w : world) : Prop := ∃ l, phase l Closed w.

Lemma phase_settled l w : phase l Closed w → settled w.
Proof. by exists l. Qed.
Lemma modes_settled l x y w : x && y = false → modes l Closed (Some x) (Some y) w → settled w.
Proof. intros Hxy Hw. exists l. by eapply phase_of. Qed.
Lemma fair_settled {A} l P (m : M A) : fair P m (λ _, phase l Closed) → fair P m (λ _, settled).
Proof. intros H. eapply fair_conseq; [exact H|done|]. intros ? w. apply phase_settled. Qed.

(** A quiet end of a command. *)
Ltac fair_close := try fair_end; eauto using modes_settled.

Lemma cleanup_settled l ml mp : fair (modes l Closed ml mp) cleanup_port_pasv (λ _, settled).
Proof. eapply fair_settled, cleanup_fair. Qed.

Lemma fair_logged {A} d ml mp (m : M A) Q :
  (∀ l, fair (modes l d ml mp) m Q) → fair (λ w, ∃ l, modes l d ml mp w) m Q.
Proof. intros H. apply fair_exists, H. Qed.

(** The end of a transfer, with the log entry closed or not. *)
Lemma log_when_fair d ml mp b :
  fair (modes true d ml mp) (when b (vsf_log_do_log true)) (λ _ w, ∃ l, modes l d ml mp w).
Proof.
  destruct b; cbn [when].
  - eapply fair_conseq; [apply log_do_fair|done|]. intros [] w Hw. by exists false.
  - apply fair_ret. intros w Hw. by exists true.
Qed.

Lemma polite_retr_report r : polite session_fair (retr_report r).
Proof. unfold retr_report. polite_auto. Qed.
Lemma modes_retr_report l d ml mp r : inv (modes l d ml mp) (retr_report r).
Proof. unfold retr_report. inv_auto. Qed.
#[local] Hint Resolve polite_retr_report : polite.
#[local] Hint Resolve modes_retr_report : inv.

Lemma handle_retr_fair : fair (phase false Closed) (handle_retr fuel false) (λ _, settled).
Proof.
  apply phase_intro. intros x y Hxy.
  unfold handle_retr. do 2 fair_step. eapply fair_bind; [by apply data_checks_fair|intros ok].
  apply fair_pure. intros Hok. fair_step. destruct ok; cbn [negb]; [|by fair_close].
  specialize (Hok eq_refl). fair_step; [by fair_close|]. fair_step.
  eapply fair_bind; [by apply start_logged_fair|intros []]. fair_auto; fair_close.
  eapply fair_bind; [by apply get_remote_fair|intros fd]. unfold opened.
  destruct (vsf_sysutil_retval_is_error fd); cbn [negb andb]; [apply cleanup_settled|].
  fair_step. eapply fair_bind; [apply dispose_fair|intros disposed]. cbv zeta.
  fair_step. eapply fair_bind; [apply log_when_fair|intros []]. apply fair_logged. intros l.
  apply fair_seq; [quiet_part|solve [inv_auto]|intros []].
  apply fair_seq; [quiet_part|solve [inv_auto]|intros []]. apply cleanup_settled.
Qed.

Lemma handle_dir_fair f s : fair (phase false Closed) (handle_dir_common fuel f s) (λ _, settled).
Proof.
  apply phase_intro. intros x y Hxy.
  unfold handle_dir_common. 
  eapply (fair_bind _ _ _ (λ b w, (b = true → s = true ∨ x || y = true) ∧ modes false Closed (Some x) (Some y) w)).
  { destruct s; [by apply fair_ret; auto|].
    eapply fair_conseq; [by apply data_checks_fair|done|]. intros b w [Hb Hw]. auto. }
  intros ok. apply fair_pure. intros Hok. destruct ok; cbn [negb]; [|by fair_close].
  fair_auto; fair_close.
  destruct (Hok eq_refl) as [|Hor]; [congruence|].
  eapply fair_bind; [by apply get_remote_fair|intros fd]. unfold opened.
  destruct (vsf_sysutil_retval_is_error fd); [apply cleanup_settled|].
  fair_step. eapply fair_bind; [apply dispose_fair|intros disposed]. cbv zeta.
  do 3 fair_step. apply cleanup_settled.
Qed.

(** *** Uploads *)

Lemma upload_out_fair l ml mp f fd c s :
  fair (modes l Closed ml mp) (upload_out f fd c s) (λ _, settled).
Proof.
  apply fair_settled with l. unfold upload_out.
  eapply fair_bind; [apply port_cleanup_fair|intros []].
  eapply fair_bind with (R := λ _, modes l Closed None (Some false)).
  { destruct c; cbn [negb when].
    - apply fair_ret. apply modes_forget.
    - eapply fair_conseq; [apply pasv_cleanup_fair|done|]. intros []. apply modes_forget. }
  intros []. fair_auto; fair_end; by apply modes_phase_port.
Qed.

Lemma modes_unique l d ml mp b : inv (modes l d ml mp) (get_unique_filename fuel b).
Proof.
  assert (∀ n b x, inv (modes l d ml mp) (unique_loop n b x)) as H.
  { induction n as [|n IH]; intros; cbn [unique_loop]; unfold str_stat_fails; inv_auto. }
  unfold get_unique_filename, str_stat_fails. inv_auto.
Qed.
Lemma modes_prepare l d ml mp f fd sz off a t :
  inv (modes l d ml mp) (upload_prepare f fd sz off a t).
Proof. unfold upload_prepare. inv_auto. Qed.
#[local] Hint Resolve modes_unique modes_prepare modes_chown : inv.

Lemma upload_report_fair ml mp r f :
  fair (modes true Closed ml mp) (upload_report r f) (λ _ w, ∃ l, modes l Closed ml None w).
Proof.
  unfold upload_report. fair_auto; try fair_end.
  all: try (intros; by eexists; eapply modes_no_port).
  eapply fair_bind; [apply port_cleanup_fair|intros []].
  apply (fair_pre (modes true Closed ml None)); [|intros w; apply modes_no_port].
  do 3 fair_step. fair_step; [fair_auto; by eexists|].
  eapply fair_bind; [apply log_do_fair|intros []]. fair_auto. by eexists.
Qed.

Lemma upload_transfer_fair x y f fd h u :
  x && y = false → x || y = true →
  fair (modes true Closed (Some x) (Some y)) (upload_transfer fuel f fd h u) (λ _, settled).
Proof.
  intros Hxy Hor. unfold upload_transfer. fair_step.
  eapply fair_bind; [by apply get_remote_fair|intros r]. unfold opened.
  destruct (vsf_sysutil_retval_is_error r); [apply upload_out_fair|].
  eapply fair_bind; [apply pasv_cleanup_fair|intros []]. do 2 fair_step.
  eapply fair_bind; [apply dispose_fair|intros disposed]. cbv zeta. fair_step.
  eapply fair_bind; [apply upload_report_fair|intros ok]. apply fair_logged. intros l.
  fair_step. apply upload_out_fair.
Qed.

Lemma handle_upload_fair a u : fair (phase false Closed) (handle_upload_common fuel a u) (λ _, settled).
Proof.
  apply phase_intro. intros x y Hxy. unfold handle_upload_common. do 2 fair_step.
  eapply fair_bind; [by apply data_checks_fair|intros ok]. apply fair_pure. intros Hok.
  destruct ok; cbn [negb]; [|by fair_close]. do 4 fair_step.
  eapply fair_bind; [by apply start_logged_fair|intros []]. fair_auto; fair_close.
  - apply upload_transfer_fair; auto.
  - apply upload_out_fair.
Qed.

(** *** The other commands *)

Ltac logged_command :=
  apply phase_intro; intros ? ? ?; fair_step;
  eapply fair_bind; [by apply start_logged_fair|intros []]; fair_auto; fair_close;
  eapply fair_bind; [apply log_do_fair|intros []]; fair_close.

Lemma handle_mkd_fair : fair (phase false Closed) handle_mkd (λ _, settled).
Proof. unfold handle_mkd. logged_command. Qed.
Lemma handle_rmd_fair : fair (phase false Closed) handle_rmd (λ _, settled).
Proof. unfold handle_rmd. logged_command. Qed.
Lemma handle_dele_fair : fair (phase false Closed) handle_dele (λ _, settled).
Proof. unfold handle_dele. logged_command. Qed.

Lemma fair_ignores (m : M unit) :
  polite session_fair m → (∀ x y, inv (modes false Closed (Some x) (Some y)) m) →
  fair (phase false Closed) m (λ _, settled).
Proof. intros Hp Hi. by eapply fair_settled, fair_phase. Qed.

#[local] Hint Resolve handle_mkd_fair handle_rmd_fair handle_dele_fair handle_dir_fair
  handle_upload_fair handle_retr_fair : fair.
Lemma pasv_settled b : fair (phase false Closed) (handle_pasv b) (λ _, settled).
Proof. eapply fair_settled, handle_pasv_fair. Qed.
Lemma port_settled : fair (phase false Closed) handle_port (λ _, settled).
Proof. eapply fair_settled, handle_port_fair. Qed.
Lemma eprt_settled : fair (phase false Closed) handle_eprt (λ _, settled).
Proof. eapply fair_settled, handle_eprt_fair. Qed.
#[local] Hint Resolve pasv_settled port_settled eprt_settled : fair.

Ltac dispatch_step :=
  match goal with
  | |- fair _ (if ?b then _ else _) _ => destruct b
  | |- fair _ _ _ => solve [eauto with fair | apply fair_ignores; [quiet_part|intros; inv_auto]]
  end.

Lemma dispatch_rest_fair s cmd arg :
  fair (phase false Closed) (dispatch_rest fuel s cmd arg) (λ _, settled).
Proof. unfold dispatch_rest, not_implemented, handle_stat_file. cbv zeta. repeat dispatch_step. Qed.
#[local] Hint Resolve dispatch_rest_fair : fair.
Lemma dispatch_write_fair s cmd arg :
  fair (phase false Closed) (dispatch_write fuel s cmd arg) (λ _, settled).
Proof. unfold dispatch_write, not_implemented, handle_nlst, handle_stor. cbv zeta. repeat dispatch_step. Qed.
#[local] Hint Resolve dispatch_write_fair : fair.
Lemma dispatch_fair s cmd arg :
  fair (phase false Closed) (dispatch fuel s cmd arg) (λ _, settled).
Proof. unfold dispatch, handle_list. cbv zeta. repeat dispatch_step. Qed.

Lemma pending_fair l d ml mp :
  fair (modes l d ml mp) vsf_log_entry_pending (λ b w, b = l ∧ modes l d ml mp w).
Proof.
  unfold vsf_log_entry_pending. apply hoare_gets. intros lt. apply fair_ret. intros w [<- Hw].
  split; [|done]. destruct Hw as [Hl ? ? ?]. destruct l; [|by rewrite Hl].
  by destruct (Z.eqb_spec (log_type (sess w)) 0) as [He|]; [rewrite He in Hl|].
Qed.

(** The whole of a round: the log entry is closed at its end. *)
Lemma round_fair : fair (phase false Closed) (post_login_command fuel) (λ _, phase false Closed).
Proof.
  apply phase_intro. intros x y Hxy. unfold post_login_command, next_command. cbv zeta. fair_auto.
  eapply fair_bind with (R := λ _, settled).
  { apply (fair_pre (phase false Closed)); [|intros w; by apply phase_of]. unfold run_command.
    intros w Hw. by apply dispatch_fair. }
  intros []. apply fair_exists. intros entry. apply phase_intro. clear dependent x y. intros x y Hxy.
  eapply fair_bind; [apply pending_fair|intros p]. apply fair_pure. intros ->.
  eapply fair_bind with (R := λ _, modes false Closed (Some x) (Some y)).
  { destruct entry; [apply log_do_fair|by apply fair_ret]. }
  intros []. fair_auto; try fair_end; by eapply phase_of.
Qed.

Lemma loop_fair n : fair (phase false Closed) (post_login_loop fuel n) (λ _, phase false Closed).
Proof.
  induction n as [|n IH]; cbn [post_login_loop]; [by apply fair_ret|].
  eapply fair_bind; [apply round_fair|by intros []].
Qed.

(** C4: no command sequence breaks an assertion of the session. From a session
    with no log entry and no data connection, and with one data mode at most,
    whatever the client, the kernel and COS answer, and whichever process keeps
    the passive socket: after any number of rounds of the command loop that is
    again so, and a run that stops does not stop at a [bug] of the log (an entry
    already started, an entry of no known type), of the I/O handler (registered
    twice, or not at all), of the data descriptor (already present, or absent)
    or of the data modes (both active, or neither when a transfer starts). *)
Theorem session_assertions_hold n w :
  phase false Closed w →
  match post_login_loop fuel n w with
  | (Ok _, w') => phase false Closed w'
  | (Err s, _) => ∀ t, t ∈ session_bugs → s ≠ Bug (lit t)
  end.
Proof.
  intros Hw. pose proof (loop_fair n w Hw) as H.
  destruct (post_login_loop fuel n w) as [[a|s] w']; [done|].
  intros t Ht ->. apply H. by apply list_elem_of_fmap_2.
Qed.

End Phase.

(** A PASV and a RETR on the site of Demo.v. *)
Lemma session_assertions_hold_witness :
  let w := site_world (line "PASV" ++ line "RETR a") in
  phase (T := site_tun "anonymous_enable" 0) false Closed w ∧
  match site_run (site_tun "anonymous_enable" 0) (lit "xyz") 2 w with
  | (Ok _, w') => phase (T := site_tun "anonymous_enable" 0) false Closed w'
  | (Err s, _) => ∀ t, t ∈ session_bugs → s ≠ Bug (lit t)
  end.
Proof.
  set (T := site_tun "anonymous_enable" 0).
  assert (phase (T := T) false Closed (site_world (line "PASV" ++ line "RETR a"))) as H.
  { exists false, false. by repeat split. }
  split; [exact H|].
  exact (session_assertions_hold (E := site_env (lit "xyz")) (T := T) (QS := merge_qsort) (JS := site_json) 16 2 _ H).
Defined.
