(* ===== verification/Privsock.v ===== *)
(** * privsock.c: the wire between the session and the privileged parent

    The message functions of privsock.c over a pair of connected UNIX sockets,
    the requests that twoprocess.c sends over it and the dispatcher of
    postprivparent.c that serves them. PrivOps.v models a request as a direct
    run of the handler on the parent's session; here the request is encoded,
    read, served and answered, and the two are shown to agree. *)

From Stdlib Require Import Init.Byte Strings.Byte.
From Stdlib Require Import ZArith Lia String.
From stdpp Require Import base list numbers option gmap strings.
From S2P Require Import Prelude SysUtil Text IpAddr Tunables Session CmdIO.
From S2P Require Import Signals Logic PrivOps Cos DataIO Invariants.

(** ** The socket pair *)

(** A byte of the stream, with the descriptor that was sent along with it. *)
Abbreviation item := (byte * option Z)%type.

(** The two directions; [c_open] is false once the other process is gone. *)
Record chan := Chan { c_open : bool; c_req : list item; c_rep : list item }.

Definition idle : chan := Chan true [] [].

(** Code of either process, over the world and the channel. *)
Definition PM (A : Type) : Type := world * chan → res A * (world * chan).

#[global] Instance PM_ret : MRet PM := λ A a s, (Ok a, s).
#[global] Instance PM_bind : MBind PM := λ A B k m s,
  match m s with
  | (Ok a, s') => k a s'
  | (Err e, s') => (Err e, s')
  end.

Definition here {A} (m : M A) : PM A := λ '(w, c), let '(r, w') := m w in (r, (w', c)).
Definition pstop {A} (s : stop) : PM A := λ st, (Err s, st).
Definition pdie {A} (msg : string) : PM A := pstop (Die (lit msg)).
Definition pbug {A} (msg : string) : PM A := pstop (Bug (lit msg)).

(** Run with the parent's session as the current one. *)
Definition as_parent {A} (m : PM A) : PM A := λ '(w, c),
  let '(r, (w', c')) := m (swap w, c) in (r, (swap w', c')).

(** Which end of the pair a function uses. *)
Inductive side := child_fd | parent_fd.

(** What the other process does while this one waits for data. *)
Class Peer := peer : PM unit.

(** Nobody else runs: a process that waits, waits for ever. *)
Definition no_peer : Peer := pstop Fuel.

Definition pending (fd : side) (c : chan) : list item :=
  match fd with child_fd => c_rep c | parent_fd => c_req c end.

Definition consume (fd : side) (n : nat) (c : chan) : chan :=
  match fd with
  | child_fd => Chan (c_open c) (c_req c) (drop n (c_rep c))
  | parent_fd => Chan (c_open c) (drop n (c_req c)) (c_rep c)
  end.

Definition deliver (fd : side) (l : list item) (c : chan) : chan :=
  match fd with
  | child_fd => Chan (c_open c) (c_req c ++ l) (c_rep c)
  | parent_fd => Chan (c_open c) (c_req c) (c_rep c ++ l)
  end.

Definition plain (b : byte) : item := (b, None).

(** write and sendmsg on the pair: all of it, or EPIPE. *)
Definition chan_write (fd : side) (l : list item) : PM Z := λ '(w, c),
  if c_open c then (Ok (Z.of_nat (length l)), (w, deliver fd l c)) else (Ok (-1), (w, c)).

Section Wire.
Context `{Pe : Peer}.

(** Read until [n] items have come or the other end is closed. *)
Definition chan_take (fd : side) (n : nat) : PM (list item) := λ '(w, c),
  (Ok (take n (pending fd c)), (w, consume fd n c)).

Definition chan_read (fd : side) (n : nat) : PM (list item) := λ '(w, c),
  if (n <=? length (pending fd c))%nat || negb (c_open c) then chan_take fd n (w, c)
  else match peer (w, c) with
       | (Ok _, (w', c')) =>
           if (n <=? length (pending fd c'))%nat || negb (c_open c') then chan_take fd n (w', c')
           else (Err Fuel, (w', c'))
       | (Err s, st) => (Err s, st)
       end.

(** ** privsock.c: messages *)

Definition priv_sock_send_cmd (fd : side) (cmd : Z) : PM unit :=
  retval ← chan_write fd [plain (to_char cmd)];
  if negb (retval =? 1) then pdie "priv_sock_send_cmd" else mret tt.

Definition priv_sock_send_result (fd : side) (r : Z) : PM unit :=
  retval ← chan_write fd [plain (to_char r)];
  if negb (retval =? 1) then pdie "priv_sock_send_result" else mret tt.

Definition get_char (fd : side) (msg : string) : PM Z :=
  l ← chan_read fd 1;
  match l with
  | [(b, _)] => mret (schar b)
  | _ => pdie msg
  end.

Definition priv_sock_get_result (fd : side) : PM Z := get_char fd "priv_sock_get_result".
Definition priv_sock_get_cmd (fd : side) : PM Z := get_char fd "priv_sock_get_cmd".

Definition priv_sock_send_int (fd : side) (the_int : Z) : PM unit :=
  retval ← chan_write fd (plain <$> le4 the_int);
  if negb (retval =? 4) then pdie "priv_sock_send_int" else mret tt.

Definition priv_sock_get_int (fd : side) : PM Z :=
  l ← chan_read fd 4;
  if negb (length l =? 4)%nat then pdie "priv_sock_get_int"
  else mret (s32 (un_le4 l.*1)).

(** netstr.c, on this descriptor. *)
Definition str_netfd_write (fd : side) (p_str : bytes) : PM Z :=
  if zlen p_str =? 0 then pbug "zero str_len in str_netfd_write"
  else
    retval ← chan_write fd (plain <$> p_str);
    mret (if (retval <? 0) || negb (u32 retval =? zlen p_str) then -1 else 0).

Definition str_netfd_read (fd : side) (len : Z) : PM (Z * bytes) :=
  l ← chan_read fd (Z.to_nat len);
  mret (if zlen l.*1 =? len then len else -1, l.*1).

(** The result of the write is not looked at. *)
Definition priv_sock_send_str (fd : side) (p_str : bytes) : PM unit :=
  priv_sock_send_int fd (s32 (zlen p_str));;
  if 0 <? zlen p_str then str_netfd_write fd p_str;; mret tt else mret tt.

Definition VSFTP_PRIVSOCK_MAXSTR : Z := VSFTP_DATA_BUFSIZE * 2.

Definition priv_sock_get_str (fd : side) : PM bytes :=
  n ← priv_sock_get_int fd;
  let len := u32 n in
  if VSFTP_PRIVSOCK_MAXSTR <? len then pdie "priv_sock_get_str: too big"
  else if 0 <? len then
    '(retval, s) ← str_netfd_read fd len;
    if negb (u32 retval =? len) then pdie "priv_sock_get_str: read error" else mret s
  else mret [].

Definition priv_sock_send_buf (fd : side) (p_buf : bytes) : PM unit :=
  priv_sock_send_int fd (s32 (zlen p_buf));;
  if 0 <? zlen p_buf then
    r ← chan_write fd (plain <$> p_buf);
    if negb (r =? zlen p_buf) then pdie "priv_sock_send_buf" else mret tt
  else mret tt.

(** The bytes written into a buffer of size [len]. *)
Definition priv_sock_recv_buf (fd : side) (len : Z) : PM bytes :=
  n ← priv_sock_get_int fd;
  let recv_len := u32 n in
  if len <? recv_len then pbug "recv_len bigger than buffer"
  else if 0 <? recv_len then
    l ← chan_read fd (Z.to_nat recv_len);
    if negb (zlen l.*1 =? recv_len) then pdie "priv_sock_recv_buf" else mret l.*1
  else mret [].

(** sysdeputil.c: a descriptor travels with one byte. *)
Definition vsf_sysutil_send_fd (fd : side) (send_fd : Z) : PM unit :=
  retval ← chan_write fd [(NUL, Some send_fd)];
  if negb (retval =? 1) then pdie "sendmsg" else mret tt.

Definition vsf_sysutil_recv_fd (fd : side) : PM Z :=
  l ← chan_read fd 1;
  match l with
  | [(_, None)] => pdie "no passed fd"
  | [(_, Some recv_fd)] => if recv_fd =? -1 then pdie "no passed fd" else mret recv_fd
  | _ => pdie "recvmsg"
  end.

Definition priv_sock_send_fd (fd : side) (send_fd : Z) : PM unit := vsf_sysutil_send_fd fd send_fd.
Definition priv_sock_recv_fd (fd : side) : PM Z := vsf_sysutil_recv_fd fd.

End Wire.

(** privsock.h *)
Definition PRIV_SOCK_LOGIN : Z := 1.
Definition PRIV_SOCK_CHOWN : Z := 2.
Definition PRIV_SOCK_GET_DATA_SOCK : Z := 3.
Definition PRIV_SOCK_GET_USER_CMD : Z := 4.
Definition PRIV_SOCK_WRITE_USER_RESP : Z := 5.
Definition PRIV_SOCK_DO_SSL_HANDSHAKE : Z := 6.
Definition PRIV_SOCK_DO_SSL_CLOSE : Z := 7.
Definition PRIV_SOCK_DO_SSL_READ : Z := 8.
Definition PRIV_SOCK_DO_SSL_WRITE : Z := 9.
Definition PRIV_SOCK_PASV_CLEANUP : Z := 10.
Definition PRIV_SOCK_PASV_ACTIVE : Z := 11.
Definition PRIV_SOCK_PASV_LISTEN : Z := 12.
Definition PRIV_SOCK_PASV_ACCEPT : Z := 13.
Definition PRIV_SOCK_RESULT_OK : Z := 1.
Definition PRIV_SOCK_RESULT_BAD : Z := 2.

(** ** postprivparent.c: the parent *)

Section Parent.
Context `{E : Env} `{Pd : Pend} `{T : Tun}.
#[local] Instance waits : Peer := no_peer.

Definition cmd_process_chown : PM unit :=
  the_fd ← priv_sock_recv_fd parent_fd;
  here (vsf_privop_do_file_chown the_fd);;
  here (vsf_sysutil_close the_fd);;
  priv_sock_send_result parent_fd PRIV_SOCK_RESULT_OK.

Definition cmd_process_get_data_sock : PM unit :=
  n ← priv_sock_get_int parent_fd;
  let port := u16 n in
  sock_fd ← here (vsf_privop_get_ftp_port_sock port false);
  if sock_fd =? -1 then priv_sock_send_result parent_fd PRIV_SOCK_RESULT_BAD
  else
    priv_sock_send_result parent_fd PRIV_SOCK_RESULT_OK;;
    priv_sock_send_fd parent_fd sock_fd;;
    here (vsf_sysutil_close sock_fd).

Definition cmd_process_pasv_cleanup : PM unit :=
  here vsf_privop_pasv_cleanup;;
  priv_sock_send_result parent_fd PRIV_SOCK_RESULT_OK.

Definition cmd_process_pasv_active : PM unit :=
  active ← here vsf_privop_pasv_active;
  priv_sock_send_int parent_fd (of_bool active).

Definition cmd_process_pasv_listen : PM unit :=
  port ← here vsf_privop_pasv_listen;
  priv_sock_send_int parent_fd (u16 port).

Definition cmd_process_pasv_accept : PM unit :=
  fd ← here vsf_privop_accept_pasv;
  if fd <? 0 then
    priv_sock_send_result parent_fd PRIV_SOCK_RESULT_BAD;;
    priv_sock_send_int parent_fd fd
  else
    priv_sock_send_result parent_fd PRIV_SOCK_RESULT_OK;;
    priv_sock_send_fd parent_fd fd;;
    here (vsf_sysutil_close fd).

Definition serve_cmd (cmd : Z) : PM unit :=
  if tb tun "chown_uploads" && (cmd =? PRIV_SOCK_CHOWN) then cmd_process_chown
  else if cmd =? PRIV_SOCK_GET_DATA_SOCK then cmd_process_get_data_sock
  else if cmd =? PRIV_SOCK_PASV_CLEANUP then cmd_process_pasv_cleanup
  else if cmd =? PRIV_SOCK_PASV_ACTIVE then cmd_process_pasv_active
  else if cmd =? PRIV_SOCK_PASV_LISTEN then cmd_process_pasv_listen
  else if cmd =? PRIV_SOCK_PASV_ACCEPT then cmd_process_pasv_accept
  else pdie "bad request in process_post_login_req".

Definition process_post_login_req : PM unit :=
  cmd ← priv_sock_get_cmd parent_fd;
  serve_cmd cmd.

End Parent.

(** ** twoprocess.c: the session's side *)

Section Child.
Context `{E : Env} `{Pd : Pend} `{T : Tun}.
#[local] Instance parent_serves : Peer := as_parent process_post_login_req.

Definition vsf_two_process_get_priv_data_sock : PM Z :=
  p ← here (gets p_port_sockaddr);
  port ← match p with
         | Some a => here (lift (vsf_sysutil_sockaddr_get_port a))
         | None => pstop UB
         end;
  priv_sock_send_cmd child_fd PRIV_SOCK_GET_DATA_SOCK;;
  priv_sock_send_int child_fd port;;
  res ← priv_sock_get_result child_fd;
  if res =? PRIV_SOCK_RESULT_BAD then mret (-1)
  else if negb (res =? PRIV_SOCK_RESULT_OK) then pdie "could not get privileged socket"
  else priv_sock_recv_fd child_fd.

Definition vsf_two_process_pasv_cleanup : PM unit :=
  priv_sock_send_cmd child_fd PRIV_SOCK_PASV_CLEANUP;;
  res ← priv_sock_get_result child_fd;
  if negb (res =? PRIV_SOCK_RESULT_OK) then pdie "could not clean up socket" else mret tt.

Definition vsf_two_process_pasv_active : PM Z :=
  priv_sock_send_cmd child_fd PRIV_SOCK_PASV_ACTIVE;;
  priv_sock_get_int child_fd.

Definition vsf_two_process_listen : PM Z :=
  priv_sock_send_cmd child_fd PRIV_SOCK_PASV_LISTEN;;
  r ← priv_sock_get_int child_fd;
  mret (u16 r).

Definition vsf_two_process_get_pasv_fd : PM Z :=
  priv_sock_send_cmd child_fd PRIV_SOCK_PASV_ACCEPT;;
  res ← priv_sock_get_result child_fd;
  if res =? PRIV_SOCK_RESULT_BAD then priv_sock_get_int child_fd
  else if negb (res =? PRIV_SOCK_RESULT_OK) then pdie "could not accept on listening socket"
  else priv_sock_recv_fd child_fd.

Definition vsf_two_process_chown_upload (fd : Z) : PM unit :=
  priv_sock_send_cmd child_fd PRIV_SOCK_CHOWN;;
  priv_sock_send_fd child_fd fd;;
  res ← priv_sock_get_result child_fd;
  if negb (res =? PRIV_SOCK_RESULT_OK)
  then pdie "unexpected failure in vsf_two_process_chown_upload" else mret tt.

End Child.

(** ** privsock.c: the descriptors

    The two ends of the pair in [struct vsf_session], and the descriptors that
    the process closes. *)

Record priv_fds := PrivFds { fd_parent : Z; fd_child : Z; fds_closed : list Z }.

Definition no_priv_fds : priv_fds := PrivFds (-1) (-1) [].

(** [pair] is what [vsf_sysutil_unix_stream_socketpair] returned. *)
Definition priv_sock_init (pair : Z * Z) (s : priv_fds) : res priv_fds :=
  if negb (fd_parent s =? -1) then bug "parent_fd active"
  else if negb (fd_child s =? -1) then bug "child_fd active"
  else Ok (PrivFds pair.1 pair.2 (fds_closed s)).

Definition priv_sock_close (s : priv_fds) : priv_fds :=
  let s := if negb (fd_parent s =? -1)
           then PrivFds (-1) (fd_child s) (fd_parent s :: fds_closed s) else s in
  if negb (fd_child s =? -1) then PrivFds (fd_parent s) (-1) (fd_child s :: fds_closed s) else s.

Definition priv_sock_set_parent_context (s : priv_fds) : res priv_fds :=
  if fd_child s =? -1 then bug "child_fd not active"
  else Ok (PrivFds (fd_parent s) (-1) (fd_child s :: fds_closed s)).

Definition priv_sock_set_child_context (s : priv_fds) : res priv_fds :=
  if fd_parent s =? -1 then bug "parent_fd not active"
  else Ok (PrivFds (-1) (fd_child s) (fd_parent s :: fds_closed s)).
