(* ===== verification/PrivsockRefine.v ===== *)
(** * The wire is transparent

    Every sequence of messages of privsock.c arrives as it was sent, and the
    requests of a session over the wire do what the direct runs of PrivOps.v
    do. *)

From Stdlib Require Import Init.Byte Strings.Byte.
From Stdlib Require Import ZArith Lia String.
From stdpp Require Import base list numbers option gmap strings.
From S2P Require Import Prelude SysUtil Text IpAddr Tunables Session CmdIO.
From S2P Require Import Signals Logic PrivOps Cos DataIO Invariants Demo Privsock.

(** ** Running a process *)

Section Run.
Context {A B : Type}.

Lemma pm_bind_ok (m : PM A) (k : A → PM B) s a s' :
  m s = (Ok a, s') → (m ≫= k) s = k a s'.
Proof. intros H. unfold mbind, PM_bind. by rewrite H. Qed.

Lemma pm_bind_err (m : PM A) (k : A → PM B) s e s' :
  m s = (Err e, s') → (m ≫= k) s = (Err e, s').
Proof. intros H. unfold mbind, PM_bind. by rewrite H. Qed.
End Run.

Lemma m_bind_ok {A B} (m : M A) (k : A → M B) w a w' : m w = (Ok a, w') → (m ≫= k) w = k a w'.
Proof. intros H. unfold mbind, M_bind. by rewrite H. Qed.
Lemma m_bind_err {A B} (m : M A) (k : A → M B) w e w' :
  m w = (Err e, w') → (m ≫= k) w = (Err e, w').
Proof. intros H. unfold mbind, M_bind. by rewrite H. Qed.

Lemma here_run {A} (m : M A) w c r w' : m w = (r, w') → here m (w, c) = (r, (w', c)).
Proof. intros H. unfold here. by rewrite H. Qed.

(** ** Messages *)

Inductive kind := KCmd | KResult | KInt | KStr | KBuf (cap : Z) | KFd.

Inductive msg :=
  | MCmd (cmd : Z)
  | MResult (r : Z)
  | MInt (z : Z)
  | MStr (s : bytes)
  | MBuf (cap : Z) (s : bytes)
  | MFd (fd : Z).

Definition kind_of (m : msg) : kind :=
  match m with
  | MCmd _ => KCmd | MResult _ => KResult | MInt _ => KInt
  | MStr _ => KStr | MBuf cap _ => KBuf cap | MFd _ => KFd
  end.

(** What the sender may send: a [char], an [int], a string below the limit, a
    buffer that the receiver has room for, a descriptor. *)
Definition msg_ok (m : msg) : bool :=
  match m with
  | MCmd z | MResult z => (-128 <=? z) && (z <? 128)
  | MInt z => (INT_MIN <=? z) && (z <=? INT_MAX)
  | MStr s => zlen s <=? VSFTP_PRIVSOCK_MAXSTR
  | MBuf cap s => (zlen s <=? cap) && (cap <=? INT_MAX)
  | MFd fd => negb (fd =? -1)
  end.

Definition encode (m : msg) : list item :=
  match m with
  | MCmd z | MResult z => [plain (to_char z)]
  | MInt z => plain <$> le4 z
  | MStr s | MBuf _ s => (plain <$> le4 (zlen s)) ++ (plain <$> s)
  | MFd fd => [(NUL, Some fd)]
  end.

Definition send (fd : side) (m : msg) : PM unit :=
  match m with
  | MCmd z => priv_sock_send_cmd fd z
  | MResult z => priv_sock_send_result fd z
  | MInt z => priv_sock_send_int fd z
  | MStr s => priv_sock_send_str fd s
  | MBuf _ s => priv_sock_send_buf fd s
  | MFd f => priv_sock_send_fd fd f
  end.

Definition recv `{Peer} (fd : side) (k : kind) : PM msg :=
  match k with
  | KCmd => z ← priv_sock_get_cmd fd; mret (MCmd z)
  | KResult => z ← priv_sock_get_result fd; mret (MResult z)
  | KInt => z ← priv_sock_get_int fd; mret (MInt z)
  | KStr => s ← priv_sock_get_str fd; mret (MStr s)
  | KBuf cap => s ← priv_sock_recv_buf fd cap; mret (MBuf cap s)
  | KFd => f ← priv_sock_recv_fd fd; mret (MFd f)
  end.

Lemma schar_to_char z : -128 ≤ z < 128 → schar (to_char z) = z.
Proof.
  intros Hz. unfold schar. rewrite uchar_to_char. destruct (Z.leb_spec 0 z).
  - rewrite Z.mod_small by lia. by ztest.
  - rewrite <- (Z.mod_unique z 256 (-1) (z + 256)) by lia. ztest. lia.
Qed.

Lemma s32_u32 z : s32 (u32 z) = s32 z.
Proof. unfold s32, u32, UINT_MOD. by rewrite Z.mod_mod by lia. Qed.

Lemma u16_s32 z : u16 (s32 z) = u16 z.
Proof.
  unfold u16, s32, UINT_MOD. change 4294967296 with (65536 * 65536) at 1 2 3.
  rewrite Z.rem_mul_r by lia. set (q := (z / 65536) mod 65536).
  assert ((z mod 65536 + 65536 * q) mod 65536 = z mod 65536) as Hq
    by (by rewrite Z.mul_comm, Z.mod_add, Z.mod_mod by lia).
  destruct (_ <? _); [done|].
  replace (z mod 65536 + 65536 * q - 4294967296) with (z mod 65536 + (q - 65536) * 65536) by lia.
  by rewrite Z.mod_add, Z.mod_mod by lia.
Qed.

(** Sending on an open channel appends the encoding. *)
Lemma chan_write_open fd l w c :
  c_open c = true → chan_write fd l (w, c) = (Ok (Z.of_nat (length l)), (w, deliver fd l c)).
Proof. intros H. unfold chan_write. by rewrite H. Qed.

Lemma deliver_open fd l c : c_open (deliver fd l c) = c_open c.
Proof. by destruct fd. Qed.
Lemma deliver_app fd l k c : deliver fd k (deliver fd l c) = deliver fd (l ++ k) c.
Proof. destruct fd; cbn; by rewrite app_assoc. Qed.

Lemma send_int_open fd z w c :
  c_open c = true → priv_sock_send_int fd z (w, c) = (Ok tt, (w, deliver fd (plain <$> le4 z) c)).
Proof. intros H. unfold priv_sock_send_int. by erewrite pm_bind_ok by by apply chan_write_open. Qed.

Lemma length_pos_zlen (s : bytes) : (0 <? zlen s) = negb (zlen s =? 0).
Proof. unfold zlen. destruct s; done. Qed.

Lemma zlen_nil_iff (s : bytes) : zlen s = 0 → s = [].
Proof. destruct s; [done|]. unfold zlen. cbn. lia. Qed.

Lemma send_open fd m w c :
  c_open c = true → msg_ok m = true →
  send fd m (w, c) = (Ok tt, (w, deliver fd (encode m) c)).
Proof.
  intros Ho Hm. destruct m as [z|z|z|s|cap s|f]; cbn [send encode msg_ok] in *.
  - unfold priv_sock_send_cmd. by erewrite pm_bind_ok by by apply chan_write_open.
  - unfold priv_sock_send_result. by erewrite pm_bind_ok by by apply chan_write_open.
  - by apply send_int_open.
  - unfold VSFTP_PRIVSOCK_MAXSTR, VSFTP_DATA_BUFSIZE in Hm. b2p. unfold priv_sock_send_str.
    rewrite s32_small by (unfold INT_MIN, INT_MAX, zlen in *; lia).
    erewrite pm_bind_ok by by apply send_int_open. rewrite length_pos_zlen.
    destruct (zlen s =? 0) eqn:Ez; cbn [negb].
    + b2p. apply zlen_nil_iff in Ez as ->. by cbn; rewrite ?app_nil_r.
    + unfold str_netfd_write. rewrite Ez. erewrite pm_bind_ok; [done|].
      erewrite pm_bind_ok by (apply chan_write_open; by rewrite deliver_open).
      by rewrite deliver_app.
  - b2p. unfold priv_sock_send_buf. rewrite s32_small by (unfold INT_MIN, INT_MAX, zlen in *; lia).
    erewrite pm_bind_ok by by apply send_int_open. rewrite length_pos_zlen.
    destruct (zlen s =? 0) eqn:Ez; cbn [negb].
    + b2p. apply zlen_nil_iff in Ez as ->. by cbn; rewrite ?app_nil_r.
    + erewrite pm_bind_ok by (apply chan_write_open; by rewrite deliver_open).
      rewrite length_fmap. unfold zlen. rewrite Z.eqb_refl. cbn [negb]. by rewrite deliver_app.
  - unfold priv_sock_send_fd, vsf_sysutil_send_fd. by erewrite pm_bind_ok by by apply chan_write_open.
Qed.

(** Receiving what is there takes it off the channel. *)
Section Receive.
Context `{Pe : Peer}.

Lemma chan_read_there fd n l rest w c :
  pending fd c = l ++ rest → n = length l →
  chan_read fd n (w, c) = (Ok l, (w, consume fd n c)).
Proof.
  intros Hp ->. unfold chan_read, chan_take. rewrite Hp, length_app.
  destruct (Nat.leb_spec (length l) (length l + length rest)); [|lia]. cbn [orb].
  by rewrite take_app_length.
Qed.

Lemma pending_consume fd l rest c :
  pending fd c = l ++ rest → pending fd (consume fd (length l) c) = rest.
Proof. destruct fd; cbn; intros ->; apply drop_app_length. Qed.

Lemma consume_add fd n m c : consume fd m (consume fd n c) = consume fd (n + m) c.
Proof. destruct fd; cbn; by rewrite drop_drop. Qed.

Lemma plain_fst (s : bytes) : (plain <$> s).*1 = s.
Proof. rewrite <- list_fmap_compose. apply list_fmap_id. Qed.

Lemma get_int_there fd z rest w c :
  pending fd c = (plain <$> le4 z) ++ rest →
  priv_sock_get_int fd (w, c) = (Ok (s32 z), (w, consume fd 4 c)).
Proof.
  intros Hp. unfold priv_sock_get_int.
  erewrite pm_bind_ok by by apply (chan_read_there _ _ _ _ _ _ Hp).
  rewrite plain_fst, un_le4_mod, s32_u32. done.
Qed.

Lemma get_char_there fd msg b rest w c :
  pending fd c = plain b :: rest →
  get_char fd msg (w, c) = (Ok (schar b), (w, consume fd 1 c)).
Proof.
  intros Hp. unfold get_char. by erewrite pm_bind_ok by by apply (chan_read_there _ _ [plain b] _ _ _ Hp).
Qed.

Lemma recv_fd_there fd f rest w c :
  f ≠ -1 → pending fd c = (NUL, Some f) :: rest →
  priv_sock_recv_fd fd (w, c) = (Ok f, (w, consume fd 1 c)).
Proof.
  intros Hf Hp. unfold priv_sock_recv_fd, vsf_sysutil_recv_fd.
  erewrite pm_bind_ok by by apply (chan_read_there _ _ [(NUL, Some f)] _ _ _ Hp). cbn beta iota. by ztest.
Qed.

Lemma len_u32_s32 (s : bytes) : zlen s ≤ INT_MAX → u32 (s32 (zlen s)) = zlen s.
Proof.
  intros Hs. rewrite s32_small, u32_small; unfold INT_MIN, INT_MAX, UINT_MOD, zlen in *; lia.
Qed.

(** The length is read; then the characters follow. *)
Lemma after_length fd s rest c :
  pending fd c = ((plain <$> le4 (zlen s)) ++ (plain <$> s)) ++ rest →
  pending fd (consume fd 4 c) = (plain <$> s) ++ rest.
Proof. rewrite <- app_assoc. intros Hp. by apply (pending_consume fd) in Hp. Qed.

Lemma get_str_there fd s rest w c :
  zlen s ≤ VSFTP_PRIVSOCK_MAXSTR → pending fd c = encode (MStr s) ++ rest →
  priv_sock_get_str fd (w, c) = (Ok s, (w, consume fd (length (encode (MStr s))) c)).
Proof.
  unfold VSFTP_PRIVSOCK_MAXSTR, VSFTP_DATA_BUFSIZE. cbn [encode]. intros Hs Hp.
  pose proof (after_length _ _ _ _ Hp) as Hp'. rewrite <- app_assoc in Hp.
  unfold priv_sock_get_str, VSFTP_PRIVSOCK_MAXSTR, VSFTP_DATA_BUFSIZE.
  erewrite pm_bind_ok by by eapply get_int_there. rewrite len_u32_s32 by (unfold INT_MAX; lia).
  ztest. rewrite length_pos_zlen. destruct (zlen s =? 0) eqn:Ez; cbn [negb].
  - b2p. apply zlen_nil_iff in Ez as ->. done.
  - unfold str_netfd_read. erewrite pm_bind_ok.
    2:{ erewrite pm_bind_ok; [done|]. apply (chan_read_there _ _ (plain <$> s) rest); [exact Hp'|].
        rewrite length_fmap. unfold zlen. lia. }
    cbn beta iota. rewrite plain_fst, Z.eqb_refl, u32_small, Z.eqb_refl
      by (unfold UINT_MOD, zlen in *; lia). cbn [negb].
    rewrite consume_add, length_app, !length_fmap. unfold zlen. by rewrite Nat2Z.id.
Qed.

Lemma recv_buf_there fd cap s rest w c :
  zlen s ≤ cap → cap ≤ INT_MAX → pending fd c = encode (MBuf cap s) ++ rest →
  priv_sock_recv_buf fd cap (w, c) = (Ok s, (w, consume fd (length (encode (MBuf cap s))) c)).
Proof.
  cbn [encode]. intros Hs Hcap Hp.
  pose proof (after_length _ _ _ _ Hp) as Hp'. rewrite <- app_assoc in Hp.
  unfold priv_sock_recv_buf. erewrite pm_bind_ok by by eapply get_int_there.
  rewrite len_u32_s32 by lia. ztest. rewrite length_pos_zlen.
  destruct (zlen s =? 0) eqn:Ez; cbn [negb].
  - b2p. apply zlen_nil_iff in Ez as ->. done.
  - erewrite pm_bind_ok by (apply (chan_read_there _ _ (plain <$> s) rest);
      [exact Hp'|rewrite length_fmap; unfold zlen; lia]).
    rewrite plain_fst, Z.eqb_refl. cbn [negb].
    rewrite consume_add, length_app, !length_fmap. unfold zlen. by rewrite Nat2Z.id.
Qed.

Lemma recv_there fd m rest w c :
  msg_ok m = true → pending fd c = encode m ++ rest →
  recv fd (kind_of m) (w, c) = (Ok m, (w, consume fd (length (encode m)) c)).
Proof.
  intros Hm Hp. destruct m as [z|z|z|s|cap s|f]; cbn [recv kind_of msg_ok] in *; b2p.
  - cbn [encode] in *. unfold priv_sock_get_cmd. erewrite pm_bind_ok by by eapply get_char_there.
    by rewrite schar_to_char by lia.
  - cbn [encode] in *. unfold priv_sock_get_result. erewrite pm_bind_ok by by eapply get_char_there.
    by rewrite schar_to_char by lia.
  - erewrite pm_bind_ok by by eapply get_int_there. rewrite s32_small by lia. done.
  - by erewrite pm_bind_ok by by eapply get_str_there.
  - by erewrite pm_bind_ok by by eapply recv_buf_there.
  - cbn [encode] in *. erewrite pm_bind_ok by by eapply recv_fd_there. done.
Qed.

End Receive.

(** *** Sequences *)

Fixpoint send_all (fd : side) (l : list msg) : PM unit :=
  match l with
  | [] => mret tt
  | m :: l => send fd m;; send_all fd l
  end.

Fixpoint recv_all `{Peer} (fd : side) (l : list kind) : PM (list msg) :=
  match l with
  | [] => mret []
  | k :: l => m ← recv fd k; ms ← recv_all fd l; mret (m :: ms)
  end.

Definition other (fd : side) : side := match fd with child_fd => parent_fd | parent_fd => child_fd end.

Lemma pending_deliver fd l c : pending (other fd) (deliver fd l c) = pending (other fd) c ++ l.
Proof. by destruct fd. Qed.

Lemma send_all_open fd l w c :
  c_open c = true → forallb msg_ok l = true →
  send_all fd l (w, c) = (Ok tt, (w, deliver fd (concat (encode <$> l)) c)).
Proof.
  revert c. induction l as [|m l IH]; intros c Ho Hl; cbn [send_all forallb] in *.
  - destruct fd, c; cbn; by rewrite app_nil_r.
  - b2p. erewrite pm_bind_ok by by apply send_open. rewrite IH by (done || by rewrite deliver_open).
    by rewrite deliver_app.
Qed.

Lemma recv_all_there `{Peer} fd l rest w c :
  forallb msg_ok l = true → pending fd c = concat (encode <$> l) ++ rest →
  recv_all fd (kind_of <$> l) (w, c) =
    (Ok l, (w, consume fd (length (concat (encode <$> l))) c)).
Proof.
  revert c. induction l as [|m l IH]; intros c Hl Hp; cbn [recv_all forallb fmap list_fmap concat] in *.
  - destruct fd, c; done.
  - b2p. rewrite <- app_assoc in Hp. erewrite pm_bind_ok by by eapply recv_there.
    erewrite pm_bind_ok by (apply IH; [done|by eapply pending_consume]).
    by rewrite consume_add, length_app.
Qed.

(** C32: Messages arrive as they were sent. Whatever sequence of commands,
    results, integers, strings, buffers and descriptors one process sends over
    the socket pair, with values of their C types, strings of at most
    VSFTP_PRIVSOCK_MAXSTR bytes and buffers that fit, the other process, reading
    messages of the same kinds, gets exactly these values, consumes exactly
    their bytes and leaves what follows; no function dies. *)
Theorem messages_roundtrip (fd : side) (l : list msg) (w : world) (c : chan) (P : Peer) :
  forallb msg_ok l = true → c_open c = true → pending (other fd) c = [] →
  ∃ c', send_all fd l (w, c) = (Ok tt, (w, c')) ∧
        recv_all (other fd) (kind_of <$> l) (w, c') = (Ok l, (w, c)).
Proof.
  intros Hl Ho Hp. eexists. split; [by apply send_all_open|].
  erewrite (recv_all_there _ _ []); [|done|by rewrite pending_deliver, Hp, app_nil_r].
  destruct fd, c as [o q r]; cbn in *; subst; by rewrite drop_all.
Qed.

Lemma messages_roundtrip_witness :
  let l := [MCmd PRIV_SOCK_LOGIN; MStr (lit "ftp"); MStr []; MInt (-1); MInt 70000; MFd 7;
            MBuf 16 (lit "abc"); MResult PRIV_SOCK_RESULT_BAD] in
  ∃ c', send_all child_fd l (site_world [], idle) = (Ok tt, (site_world [], c')) ∧
        recv_all (H := no_peer) parent_fd (kind_of <$> l) (site_world [], c') =
          (Ok l, (site_world [], idle)).
Proof.
  intros l. exact (messages_roundtrip child_fd l (site_world []) idle no_peer eq_refl eq_refl eq_refl).
Defined.

(** ** Requests *)

(** The code over the wire, from an idle channel, has the result and the effect
    of the direct run, and leaves the channel idle unless a process stops. *)
Definition agrees {A} (m : PM A) (d : M A) : Prop :=
  ∀ w, ∃ c, m (w, idle) = ((d w).1, ((d w).2, c)) ∧ (∀ a, (d w).1 = Ok a → c = idle).

Section Requests.
Context `{E : Env} `{Pd : Pend} `{T : Tun}.

Abbreviation serving := (@parent_serves E Pd T).

(** A reply that has not come is waited for: the parent serves one request. *)
Lemma chan_read_waits (Pe : Peer) n w c w' c' :
  (n ≠ 0)%nat → c_open c = true → c_rep c = [] → Pe (w, c) = (Ok tt, (w', c')) →
  (n ≤ length (c_rep c'))%nat → chan_read child_fd n (w, c) = chan_read child_fd n (w', c').
Proof.
  intros Hn Ho Hr Hs Hl. unfold chan_read at 1. cbn [pending]. rewrite Hr, Ho.
  destruct (Nat.leb_spec n (length (@nil item))) as [Hz|_]; [cbn in Hz; lia|]. cbn [orb negb].
  unfold peer. rewrite Hs. unfold chan_read. cbn [pending].
  destruct (Nat.leb_spec n (length (c_rep c'))); [done|lia].
Qed.

Lemma chan_read_fails (Pe : Peer) n w c s st :
  (n ≠ 0)%nat → c_open c = true → c_rep c = [] → Pe (w, c) = (Err s, st) →
  chan_read child_fd n (w, c) = (Err s, st).
Proof.
  intros Hn Ho Hr Hs. unfold chan_read. cbn [pending]. rewrite Hr, Ho.
  destruct (Nat.leb_spec n (length (@nil item))) as [Hz|_]; [cbn in Hz; lia|]. cbn [orb negb].
  unfold peer. by rewrite Hs.
Qed.

(** Code that first reads [n] items on the session's side. *)
Definition reads_first {A} (Pe : Peer) (n : nat) (m : PM A) : Prop :=
  ∃ (k : list item → PM A), ∀ s, m s = (chan_read child_fd n ≫= k) s.

Lemma reads_first_bind {A B} (Pe : Peer) n (m : PM A) (k : A → PM B) :
  reads_first Pe n m → reads_first Pe n (m ≫= k).
Proof.
  intros [k' Hk]. exists (λ l, k' l ≫= k). intros s. unfold mbind, PM_bind in *. rewrite Hk.
  by destruct (chan_read child_fd n s) as [[l|e] s'].
Qed.
Lemma reads_first_result (Pe : Peer) : reads_first Pe 1 (priv_sock_get_result child_fd).
Proof. by eexists. Qed.
Lemma reads_first_int (Pe : Peer) : reads_first Pe 4 (priv_sock_get_int child_fd).
Proof. by eexists. Qed.

(** A session that waits goes on with what the parent has answered, or ends
    with it. *)
Lemma rpc_ok {A} n (m : PM A) w q w' c' :
  reads_first serving n m → (n ≠ 0)%nat →
  process_post_login_req (swap w, Chan true q []) = (Ok tt, (w', c')) →
  (n ≤ length (c_rep c'))%nat → m (w, Chan true q []) = m (swap w', c').
Proof.
  intros [k Hk] Hn Hp Hl. rewrite !Hk. unfold mbind, PM_bind.
  rewrite (chan_read_waits serving n w _ (swap w') c'); try done.
  unfold parent_serves, as_parent. by rewrite Hp.
Qed.

Lemma rpc_err {A} n (m : PM A) w q s w' c' :
  reads_first serving n m → (n ≠ 0)%nat →
  process_post_login_req (swap w, Chan true q []) = (Err s, (w', c')) →
  m (w, Chan true q []) = (Err s, (swap w', c')).
Proof.
  intros [k Hk] Hn Hp. rewrite !Hk. unfold mbind, PM_bind.
  erewrite (chan_read_fails serving n w _ s (swap w', c')); try done.
  unfold parent_serves, as_parent. by rewrite Hp.
Qed.

Lemma dispatch cmd q w :
  -128 ≤ cmd < 128 →
  process_post_login_req (w, Chan true (plain (to_char cmd) :: q) []) =
  serve_cmd cmd (w, Chan true q []).
Proof.
  intros Hc. unfold process_post_login_req.
  erewrite pm_bind_ok by (by eapply get_char_there). by rewrite schar_to_char.
Qed.

(** The session sends a command. *)
Lemma send_cmd_idle {A} cmd (k : unit → PM A) w :
  (priv_sock_send_cmd child_fd cmd ≫= k) (w, idle) = k tt (w, Chan true [plain (to_char cmd)] []).
Proof. done. Qed.

Lemma serve_plain cmd : cmd ≠ PRIV_SOCK_CHOWN →
  serve_cmd cmd =
  (if cmd =? PRIV_SOCK_GET_DATA_SOCK then cmd_process_get_data_sock
   else if cmd =? PRIV_SOCK_PASV_CLEANUP then cmd_process_pasv_cleanup
   else if cmd =? PRIV_SOCK_PASV_ACTIVE then cmd_process_pasv_active
   else if cmd =? PRIV_SOCK_PASV_LISTEN then cmd_process_pasv_listen
   else if cmd =? PRIV_SOCK_PASV_ACCEPT then cmd_process_pasv_accept
   else pdie "bad request in process_post_login_req").
Proof.
  intros Hc. unfold serve_cmd. rewrite (proj2 (Z.eqb_neq _ _) Hc). by rewrite andb_false_r.
Qed.

Hypothesis two_processes : tb tun "one_process_model" = false.

#[local] Ltac reads :=
  repeat match goal with |- reads_first _ _ (mbind _ _) => apply reads_first_bind end;
  apply reads_first_result || apply reads_first_int.
(** The parent's answer to a request that is in the channel. *)
#[local] Ltac served :=
  rewrite dispatch by done; rewrite serve_plain by done;
  cbn [Z.eqb Pos.eqb PRIV_SOCK_GET_DATA_SOCK PRIV_SOCK_PASV_CLEANUP PRIV_SOCK_PASV_ACTIVE
       PRIV_SOCK_PASV_LISTEN PRIV_SOCK_PASV_ACCEPT];
  unfold cmd_process_get_data_sock, cmd_process_pasv_cleanup, cmd_process_pasv_active,
    cmd_process_pasv_listen, cmd_process_pasv_accept.
#[local] Ltac stops n :=
  eexists; split; [|done]; eapply (rpc_err n); [reads|done|];
  served; erewrite pm_bind_err by (by apply here_run); reflexivity.

Lemma cleanup_agrees : agrees vsf_two_process_pasv_cleanup pasv_cleanup.
Proof using two_processes.
  intros w. unfold pasv_cleanup, one_process. rewrite two_processes, on_parent_run.
  unfold vsf_two_process_pasv_cleanup. rewrite send_cmd_idle.
  destruct (vsf_privop_pasv_cleanup (swap w)) as [[[]|s] w1] eqn:Hh; cbn [fst snd].
  - exists idle. split; [|done]. eapply eq_trans; [eapply (rpc_ok 1); [reads|done| |]|].
    + served. by erewrite pm_bind_ok by by apply here_run.
    + cbn. lia.
    + done.
  - stops 1%nat.
Qed.

Lemma active_agrees :
  agrees (b ← vsf_two_process_pasv_active; mret (negb (b =? 0))) query_pasv_active.
Proof using two_processes.
  intros w. unfold query_pasv_active, one_process. rewrite two_processes, on_parent_run.
  destruct (vsf_privop_pasv_active (swap w)) as [[b|s] w1] eqn:Hh; cbn [fst snd].
  2:{ discriminate. }
  exists idle. split; [|done]. unfold vsf_two_process_pasv_active.
  eapply eq_trans; [eapply pm_bind_ok; rewrite send_cmd_idle;
    eapply eq_trans; [eapply (rpc_ok 4); [reads|done| |]|]|].
  - served. erewrite pm_bind_ok by by apply here_run. by apply send_int_open.
  - cbn. lia.
  - eapply get_int_there. cbn [c_rep pending deliver app]. by rewrite app_nil_r.
  - by destruct b.
Qed.

Lemma listen_agrees : agrees vsf_two_process_listen pasv_listen.
Proof using two_processes.
  intros w. unfold pasv_listen, one_process. rewrite two_processes.
  unfold mbind at 1 2, M_bind. rewrite on_parent_run. unfold vsf_two_process_listen.
  rewrite send_cmd_idle.
  destruct (vsf_privop_pasv_listen (swap w)) as [[p|s] w1] eqn:Hh; cbn [fst snd mret M_ret].
  2:{ stops 4%nat. }
  exists idle. split; [|done].
  eapply eq_trans; [eapply (rpc_ok 4); [reads|done| |]|].
  - served. erewrite pm_bind_ok by by apply here_run. by apply send_int_open.
  - cbn. lia.
  - erewrite pm_bind_ok by (eapply get_int_there; cbn [c_rep pending deliver app]; by rewrite app_nil_r).
    rewrite u16_s32. unfold u16. by rewrite Z.mod_mod by lia.
Qed.

Lemma accept_result w z w' :
  vsf_privop_accept_pasv w = (Ok z, w') → INT_MIN ≤ z ≤ INT_MAX ∨ 0 ≤ z.
Proof.
  unfold vsf_privop_accept_pasv, INT_MIN, INT_MAX. intros (fd & w1 & _ & H)%bind_Ok.
  destruct (fd =? -1); [discriminate|]. apply bind_Ok in H as (a & w2 & _ & H).
  apply bind_Ok in H as ([] & w3 & _ & H). unfold vsf_sysutil_retval_is_error in H.
  destruct (a_int a <? 0) eqn:Ea; [injection H as <- _; lia|].
  apply bind_Ok in H as (remote & w4 & _ & H). destruct (_ && _).
  - apply bind_Ok in H as ([] & w5 & _ & H). injection H as <- _. lia.
  - injection H as <- _. b2p. lia.
Qed.

(** The reply of one result byte, and what follows it. *)
Lemma result_there {A} (Pe : Peer) (k : Z → PM A) b rest w :
  (priv_sock_get_result child_fd ≫= k) (w, Chan true [] (plain b :: rest)) =
  k (schar b) (w, Chan true [] rest).
Proof. unfold priv_sock_get_result. by erewrite pm_bind_ok by (by eapply get_char_there). Qed.

(** The parent hands a descriptor over and closes its own copy; the session
    takes it. *)
Definition fd_reply (z : Z) : list item := [plain (to_char PRIV_SOCK_RESULT_OK); (NUL, Some z)].

Lemma hand_over z w :
  z ≠ -1 →
  (priv_sock_send_result parent_fd PRIV_SOCK_RESULT_OK;;
   priv_sock_send_fd parent_fd z;; here (vsf_sysutil_close z)) (w, Chan true [] []) =
  ((vsf_sysutil_close z w).1, ((vsf_sysutil_close z w).2, Chan true [] (fd_reply z))).
Proof.
  intros Hz. erewrite pm_bind_ok by (by apply (send_open parent_fd (MResult PRIV_SOCK_RESULT_OK))).
  erewrite pm_bind_ok by (apply (send_open parent_fd (MFd z)); [done|cbn [msg_ok]; by ztest]).
  apply here_run. by destruct (vsf_sysutil_close z w).
Qed.

Lemma take_over (Pe : Peer) (bad : PM Z) (msg : string) z w :
  z ≠ -1 →
  (r ← priv_sock_get_result child_fd;
   if r =? PRIV_SOCK_RESULT_BAD then bad
   else if negb (r =? PRIV_SOCK_RESULT_OK) then pdie msg
   else priv_sock_recv_fd child_fd) (w, Chan true [] (fd_reply z)) = (Ok z, (w, idle)).
Proof.
  intros Hz. unfold fd_reply. rewrite result_there, schar_to_char by done.
  cbn [Z.eqb Pos.eqb PRIV_SOCK_RESULT_BAD PRIV_SOCK_RESULT_OK negb].
  by rewrite (recv_fd_there child_fd z []) by done.
Qed.

(** A request whose answer is a descriptor. *)
Lemma fd_request_agrees (bad : PM Z) (msg : string) q z w w1 :
  z ≠ -1 →
  process_post_login_req (swap w, Chan true q []) =
    ((vsf_sysutil_close z w1).1, ((vsf_sysutil_close z w1).2, Chan true [] (fd_reply z))) →
  let r := (vsf_sysutil_close z ≫= λ _, mret z) w1 in
  ∃ c, (r ← priv_sock_get_result (Pe := serving) child_fd;
        if r =? PRIV_SOCK_RESULT_BAD then bad
        else if negb (r =? PRIV_SOCK_RESULT_OK) then pdie msg
        else priv_sock_recv_fd (Pe := serving) child_fd) (w, Chan true q [])
       = (r.1, (swap r.2, c)) ∧ (∀ a, r.1 = Ok a → c = idle).
Proof.
  intros Hz Hp. destruct (vsf_sysutil_close z w1) as [[[]|s] w2] eqn:Hc; cbn [fst snd] in Hp.
  - rewrite (m_bind_ok _ _ _ _ _ Hc). exists idle. split; [|done].
    eapply eq_trans; [eapply (rpc_ok 1); [reads|done|exact Hp|cbn; lia]|by apply take_over].
  - rewrite (m_bind_err _ _ _ _ _ Hc). eexists. split; [by eapply (rpc_err 1); [reads|done|]|].
    intros ? [=].
Qed.

Lemma accept_agrees : agrees vsf_two_process_get_pasv_fd get_pasv_fd.
Proof using two_processes.
  intros w. unfold get_pasv_fd, one_process. rewrite two_processes, on_parent_run.
  unfold vsf_two_process_get_pasv_fd. rewrite send_cmd_idle. unfold PrivOps.cmd_process_pasv_accept.
  destruct (vsf_privop_accept_pasv (swap w)) as [[z|s] w1] eqn:Hh.
  2:{ rewrite (m_bind_err _ _ _ _ _ Hh). stops 1%nat. }
  rewrite (m_bind_ok _ _ _ _ _ Hh). pose proof (accept_result _ _ _ Hh) as Hz.
  destruct (z <? 0) eqn:Ez.
  - exists idle. split; [|done]. b2p. eapply eq_trans; [eapply (rpc_ok 1); [reads|done| |]|].
    + served. erewrite pm_bind_ok by by apply here_run. rewrite (proj2 (Z.ltb_lt _ _) Ez).
      erewrite pm_bind_ok by (by apply (send_open parent_fd (MResult PRIV_SOCK_RESULT_BAD))).
      by apply send_int_open.
    + cbn. lia.
    + cbn [deliver encode c_rep c_req c_open app]. rewrite result_there.
      rewrite schar_to_char by done. cbn [Z.eqb Pos.eqb PRIV_SOCK_RESULT_BAD].
      erewrite get_int_there by (cbn [c_rep pending]; by rewrite app_nil_r).
      by rewrite s32_small by lia.
  - b2p. apply fd_request_agrees; [lia|]. served. erewrite pm_bind_ok by by apply here_run.
    rewrite (proj2 (Z.ltb_ge _ _) Ez). apply hand_over. lia.
Qed.

Lemma get_sock_result v6 w z w' : vsf_sysutil_get_sock v6 w = (Ok z, w') → 0 ≤ z.
Proof.
  unfold vsf_sysutil_get_sock. intros (fd & w1 & _ & H)%bind_Ok.
  destruct (fd <? 0) eqn:Ef; [discriminate|]. injection H as <- _. by b2p.
Qed.

Lemma port_sock_result p b w z w' :
  vsf_privop_get_ftp_port_sock p b w = (Ok z, w') → z = -1 ∨ 0 ≤ z.
Proof.
  unfold vsf_privop_get_ftp_port_sock. intros (a & w1 & _ & H)%bind_Ok.
  apply bind_Ok in H as (s & w2 & Hs%get_sock_result & H).
  apply bind_Ok in H as (lfd & w3 & _ & H).
  destruct (negb _); [discriminate|]. destruct (vsf_sysutil_is_port_reserved p); [discriminate|].
  do 5 apply bind_Ok in H as (? & ? & _ & H). destruct (vsf_sysutil_retval_is_error _).
  - apply bind_Ok in H as ([] & w5 & _ & H). injection H as <- _. by left.
  - injection H as <- _. by right.
Qed.


Lemma data_sock_agrees : agrees vsf_two_process_get_priv_data_sock (get_priv_data_sock false).
Proof using.
  intros w. unfold vsf_two_process_get_priv_data_sock, get_priv_data_sock.
  erewrite pm_bind_ok by by apply here_run.
  erewrite m_bind_ok by done. cbn beta. destruct (p_port_sockaddr (sess w)) as [a|].
  2:{ by exists idle. }
  destruct (vsf_sysutil_sockaddr_get_port a) as [p|s] eqn:Hp.
  2:{ exists idle. erewrite pm_bind_err by by apply here_run. by erewrite m_bind_err. }
  erewrite pm_bind_ok by by apply here_run. erewrite m_bind_ok by done. cbn beta.
  rewrite on_parent_run, send_cmd_idle. erewrite pm_bind_ok by by apply send_int_open.
  cbn [deliver c_req c_rep c_open app]. unfold PrivOps.cmd_process_get_data_sock.
  assert (∀ k : Z → PM unit, (priv_sock_get_int (Pe := waits) parent_fd ≫= k)
            (swap w, Chan true (plain <$> le4 p) []) = k (s32 p) (swap w, Chan true [] [])) as Hint.
  { intros k. erewrite pm_bind_ok by (eapply (get_int_there _ _ []); by rewrite app_nil_r). done. }
  destruct (vsf_privop_get_ftp_port_sock (u16 p) false (swap w)) as [[z|s] w1] eqn:Hh.
  2:{ rewrite (m_bind_err _ _ _ _ _ Hh). eexists. split; [|intros ? [=]].
      eapply (rpc_err 1); [reads|done|]. served. rewrite Hint, u16_s32.
      by erewrite pm_bind_err by by apply here_run. }
  rewrite (m_bind_ok _ _ _ _ _ Hh). pose proof (port_sock_result _ _ _ _ _ Hh) as Hz.
  destruct (z =? -1) eqn:Ez.
  - exists idle. split; [|done]. eapply eq_trans; [eapply (rpc_ok 1); [reads|done| |]|].
    + served. rewrite Hint, u16_s32. erewrite pm_bind_ok by by apply here_run. rewrite Ez.
      by apply (send_open parent_fd (MResult PRIV_SOCK_RESULT_BAD)).
    + cbn. lia.
    + cbn [deliver encode c_rep c_req c_open app]. rewrite result_there.
      by rewrite schar_to_char by done.
  - apply fd_request_agrees; [by b2p|]. served. rewrite Hint, u16_s32.
    erewrite pm_bind_ok by by apply here_run. rewrite Ez. apply hand_over. by b2p.
Qed.

Lemma chown_agrees fd : fd ≠ -1 → agrees (vsf_two_process_chown_upload fd) (chown_upload fd).
Proof using two_processes.
  intros Hfd w. unfold chown_upload, one_process. rewrite two_processes.
  unfold vsf_two_process_chown_upload. rewrite send_cmd_idle.
  erewrite pm_bind_ok by (apply (send_open child_fd (MFd fd)); [done|cbn [msg_ok]; by ztest]).
  cbn [deliver encode c_rep c_req c_open app].
  destruct (tb tun "chown_uploads") eqn:Ht.
  2:{ eexists. split; [|intros ? [=]]. eapply eq_trans; [eapply (rpc_err 1); [reads|done|]|].
      - rewrite dispatch by done. unfold serve_cmd. by rewrite Ht.
      - by rewrite swap_swap. }
  rewrite on_parent_run. unfold PrivOps.cmd_process_chown.
  assert (∀ k : Z → PM unit, (priv_sock_recv_fd (Pe := waits) parent_fd ≫= k)
            (swap w, Chan true [(NUL, Some fd)] []) = k fd (swap w, Chan true [] [])) as Hrecv.
  { intros k. by erewrite pm_bind_ok by by apply (recv_fd_there _ _ []). }
  destruct (vsf_privop_do_file_chown fd (swap w)) as [[[]|s] w1] eqn:Hh.
  2:{ rewrite (m_bind_err _ _ _ _ _ Hh). eexists. split; [|intros ? [=]].
      eapply (rpc_err 1); [reads|done|]. rewrite dispatch by done. unfold serve_cmd. rewrite Ht.
      cbn [andb Z.eqb Pos.eqb PRIV_SOCK_CHOWN]. unfold cmd_process_chown. rewrite Hrecv.
      by erewrite pm_bind_err by by apply here_run. }
  rewrite (m_bind_ok _ _ _ _ _ Hh).
  destruct (vsf_sysutil_close fd w1) as [[[]|s] w2] eqn:Hc.
  - exists idle. split; [|done]. eapply eq_trans; [eapply (rpc_ok 1); [reads|done| |]|].
    + rewrite dispatch by done. unfold serve_cmd. rewrite Ht.
      cbn [andb Z.eqb Pos.eqb PRIV_SOCK_CHOWN]. unfold cmd_process_chown. rewrite Hrecv.
      erewrite pm_bind_ok by by apply here_run. erewrite pm_bind_ok by by apply here_run. done.
    + cbn. lia.
    + done.
  - eexists. split; [|intros ? [=]]. eapply (rpc_err 1); [reads|done|].
    rewrite dispatch by done. unfold serve_cmd. rewrite Ht.
    cbn [andb Z.eqb Pos.eqb PRIV_SOCK_CHOWN]. unfold cmd_process_chown. rewrite Hrecv.
    erewrite pm_bind_ok by by apply here_run. by erewrite pm_bind_err by by apply here_run.
Qed.

(** C31: The two process model does what the one process model's calls do, on
    the parent's session. With the privileged parent serving requests at the
    other end of the socket pair, each request of a session - clean up, query,
    listen and accept on the passive socket, get the active data socket, chown
    an upload - sends, waits and receives so that result, effect and order of
    all calls are those of the direct run of the handler, for any kernel; no
    byte or descriptor is left over in the channel for the next request. *)
Theorem requests_refine :
  agrees vsf_two_process_pasv_cleanup pasv_cleanup ∧
  agrees (b ← vsf_two_process_pasv_active; mret (negb (b =? 0))) query_pasv_active ∧
  agrees vsf_two_process_listen pasv_listen ∧
  agrees vsf_two_process_get_pasv_fd get_pasv_fd ∧
  agrees vsf_two_process_get_priv_data_sock (get_priv_data_sock false) ∧
  ∀ fd, fd ≠ -1 → agrees (vsf_two_process_chown_upload fd) (chown_upload fd).
Proof using two_processes.
  eauto 7 using cleanup_agrees, active_agrees, listen_agrees, accept_agrees, data_sock_agrees, chown_agrees.
Qed.

End Requests.

(** On the example site, a passive connection is opened and accepted. *)
Lemma requests_refine_witness :
  let T : Tun := site_tun "one_process_model" 0 in
  let E : Env := site_env [] in
  let P : Pend := site_pend [] T in
  ∃ c, vsf_two_process_listen (site_world [], idle) =
         ((pasv_listen (site_world [])).1, ((pasv_listen (site_world [])).2, c)) ∧
       (pasv_listen (site_world [])).1 = Ok 5001 ∧ c = idle.
Proof.
  intros T E P.
  assert (tb T "one_process_model" = false) as Hone by (vm_compute; reflexivity).
  destruct (proj1 (proj2 (proj2 (@requests_refine E P T Hone))) (site_world [])) as (c & H1 & H2).
  assert ((pasv_listen (site_world [])).1 = Ok 5001) as H3 by (vm_compute; reflexivity).
  exists c. exact (conj H1 (conj H3 (H2 5001 H3))).
Defined.
