(* ===== verification/Ssl.v ===== *)
(** * ssl.c and sslslave.c: encrypted connections

    The functions of ssl.c around the OpenSSL calls, and the process that keeps
    the SSL state of a logged-in session and serves its requests. OpenSSL is a
    part of the environment: a call of one of its functions is
    [SslCall], answered by [Env]; [a_int] is its result. *)

From Stdlib Require Import Init.Byte Strings.Byte.
From Stdlib Require Import ZArith Lia String.
From stdpp Require Import base list numbers option gmap strings.
From S2P Require Import Prelude SysUtil Text IpAddr Tunables Session CmdIO.
From S2P Require Import Signals Logic PrivOps Cos DataIO Privsock.

Definition SSL_ERROR_WANT_READ : Z := 2.
Definition SSL_ERROR_WANT_WRITE : Z := 3.
Definition SSL_SENT_SHUTDOWN : Z := 1.
Definition SSL_RECEIVED_SHUTDOWN : Z := 2.
Definition SSL_VERIFY_PEER : Z := 1.
Definition SSL_VERIFY_FAIL_IF_NO_PEER_CERT : Z := 2.

(** The two SSL objects of a session. *)
Inductive conn := Control | Data.
#[global] Instance conn_eq_dec : EqDecision conn.
Proof. solve_decision. Defined.

Definition conn_name (c : conn) : string := match c with Control => "control " | Data => "data " end.

Section Ssl.
Context `{E : Env} `{P : Pend} `{T : Tun}.

Definition ssl_call (c : conn) (func : string) (payload : bytes) : M answer :=
  ask (Ssl (SslCall (conn_name c ++ func) payload)).
Definition ssl_int (c : conn) (func : string) : M Z := a ← ssl_call c func []; mret (a_int a).

(** The callback on reads and writes of the descriptor below the SSL object;
    [io] is false for its other operations. *)
Definition bio_callback (io : bool) (ret fd : Z) : M unit :=
  check_pending (CtxIO (if io then s32 ret else 0) (if io then fd else 0)).

Definition conn_fd (c : conn) : M Z :=
  match c with Control => mret VSFTP_COMMAND_FD | Data => gets data_fd end.

(** A function that reads or writes the descriptor, once [setup_bio_callbacks]
    has installed the callback; [a_size] is the result of that operation. *)
Definition ssl_io (c : conn) (func : string) (payload : bytes) : M answer :=
  a ← ssl_call c func payload;
  fd ← conn_fd c;
  bio_callback true (a_size a) fd;;
  mret a.

Definition debug (p_str : bytes) : M unit := vsf_log_line kVSFLogEntryDebug p_str.

Definition get_ssl_error : M bytes :=
  a ← ask (Ssl (SslCall "ERR_error_string" [])); mret (text_of a).

(** ** Reading and writing *)

(** [do ... while (retval < 0 && (err == WANT_READ || err == WANT_WRITE))] *)
Fixpoint ssl_retry (fuel : nat) (c : conn) (func : string) (payload : bytes) : M answer :=
  match fuel with
  | O => stop_with Fuel
  | S n =>
      a ← ssl_io c func payload;
      err ← ssl_int c "SSL_get_error";
      if (a_int a <? 0) && ((err =? SSL_ERROR_WANT_READ) || (err =? SSL_ERROR_WANT_WRITE))
      then ssl_retry n c func payload
      else mret a
  end.

Definition ssl_read_common (fuel : nat) (c : conn) (func : string) (len : Z) : M (Z * bytes) :=
  a ← ssl_retry fuel c func [];
  let retval := a_int a in
  let got := (retval, take (Z.to_nat (Z.min retval len)) (text_of a)) in
  if retval =? 0 then
    sh ← ssl_int c "SSL_get_shutdown";
    if negb (sh =? SSL_RECEIVED_SHUTDOWN) then
      debug ((if bool_decide (c = Control) then lit "Control" else lit "DATA")
             ++ lit " connection terminated without SSL shutdown."
             ++ (if bool_decide (c = Control) then []
                 else lit " Buggy client! Integrity of upload cannot be asserted."));;
      if tb tun "strict_ssl_read_eof" then mret (-1, []) else mret got
    else mret got
  else mret got.

Definition ssl_read (fuel : nat) (c : conn) (len : Z) : M (Z * bytes) :=
  ssl_read_common fuel c "SSL_read" len.
Definition ssl_peek (fuel : nat) (c : conn) (len : Z) : M (Z * bytes) :=
  ssl_read_common fuel c "SSL_peek" len.

Definition ssl_write (fuel : nat) (c : conn) (p_buf : bytes) : M Z :=
  a ← ssl_retry fuel c "SSL_write" p_buf; mret (a_int a).

(** One call, without a retry. *)
Definition ssl_write_str (c : conn) (p_str : bytes) : M Z :=
  a ← ssl_io c "SSL_write" p_str;
  mret (if negb (u32 (a_int a) =? zlen p_str) then -1 else 0).

(** Into a string of length [len]. *)
Definition ssl_read_into_str (fuel : nat) (c : conn) (len : Z) : M (Z * bytes) :=
  '(ret, s) ← ssl_read fuel c len;
  mret (ret, if 0 <=? ret then s else []).

(** ** Closing *)

Definition maybe_log_shutdown_state : M unit :=
  when (tb tun "debug_ssl")
    (ret ← ssl_int Data "SSL_get_shutdown";
     debug (lit "SSL shutdown state is: " ++
            (if ret =? 0 then lit "NONE"
             else if ret =? SSL_SENT_SHUTDOWN then lit "SSL_SENT_SHUTDOWN"
             else if ret =? SSL_RECEIVED_SHUTDOWN then lit "SSL_RECEIVED_SHUTDOWN"
             else vsf_sysutil_ulong_to_str (u64 ret)))).

Definition maybe_log_ssl_error_state (ret : Z) : M unit :=
  when (tb tun "debug_ssl")
    (err ← get_ssl_error;
     errno ← sys (Sys Errno);
     debug (lit "SSL ret: " ++ vsf_sysutil_ulong_to_str (u64 ret) ++ lit ", SSL error: " ++ err
            ++ lit ", errno: " ++ vsf_sysutil_ulong_to_str (u64 errno))).

Definition ssl_data_close : M Z :=
  p_ssl ← gets p_data_ssl;
  if negb p_ssl then mret 1
  else
    maybe_log_shutdown_state;;
    fd ← ssl_int Data "SSL_get_fd";
    must (Sock (Sockopt fd "nodelay")) "setsockopt: nodelay";;
    a ← ssl_io Data "SSL_shutdown" [];
    let ret := a_int a in
    maybe_log_shutdown_state;;
    success ←
      (if ret =? 0 then
         a ← ssl_io Data "SSL_shutdown" [];
         let ret := a_int a in
         maybe_log_shutdown_state;;
         if negb (ret =? 1) then
           maybe_log_shutdown_state;;
           maybe_log_ssl_error_state ret;;
           mret (if tb tun "strict_ssl_write_shutdown" then 0 else 1)
         else mret 1
       else if ret <? 0 then
         maybe_log_ssl_error_state ret;;
         mret (if tb tun "strict_ssl_write_shutdown" then 0 else 1)
       else mret 1);
    ssl_int Data "SSL_free";;
    upd (set_p_data_ssl false);;
    mret success.

(** ** Opening *)

(** The digest of the peer's certificate, if there is one. *)
Definition ssl_cert_digest (c : conn) : M (option bytes) :=
  p_cert ← ssl_int c "SSL_get_peer_certificate";
  if p_cert =? 0 then mret None
  else
    a ← ssl_call c "X509_digest" [];
    if a_int a =? 0 then mdie "X509_digest failed"
    else
      let p_str := take 64 (text_of a) in
      ssl_int c "X509_free";;
      when (tb tun "debug_ssl")
        (debug (lit "Cert digest:" ++ concat ((λ b, SP :: vsf_sysutil_ulong_to_str (uchar b)) <$> p_str)));;
      mret (Some p_str).

Definition debug_when (p_str : bytes) : M unit := when (tb tun "debug_ssl") (debug p_str).

(** [true]: the handshake on [fd] is done and [c] is the SSL object. *)
Definition get_ssl (c : conn) (fd : Z) : M bool :=
  p_ssl ← ssl_int c "SSL_new";
  if p_ssl =? 0 then debug_when (lit "SSL_new failed");; mret false
  else
    r ← ssl_int c "SSL_set_fd";
    if r =? 0 then debug_when (lit "SSL_set_fd failed");; ssl_int c "SSL_free";; mret false
    else
      r ← ssl_int c "SSL_accept";
      if negb (r =? 1) then
        p_err ← get_ssl_error;
        debug_when (lit "SSL_accept failed: " ++ p_err);;
        stop_with (Die (cstr p_err))
      else
        when (tb tun "debug_ssl")
          (version ← ssl_call c "SSL_get_cipher_version" [];
           cipher ← ssl_call c "SSL_CIPHER_get_name" [];
           cert ← ssl_int c "SSL_get_peer_certificate";
           reused ← ssl_int c "SSL_session_reused";
           when (negb (cert =? 0)) (ssl_int c "X509_free";; mret tt);;
           debug (lit "SSL version: " ++ text_of version ++ lit ", SSL cipher: " ++ text_of cipher
                  ++ (if negb (reused =? 0) then lit ", reused" else lit ", not reused")
                  ++ (if negb (cert =? 0) then lit ", CERT PRESENTED" else lit ", no cert")));;
        mret true.

(** The control connection: the digest of the client's certificate, [None] when
    there is no SSL. *)
Definition ssl_session_init : M (option bytes) :=
  ok ← get_ssl Control VSFTP_COMMAND_FD;
  if negb ok then mret None
  else d ← ssl_cert_digest Control; mret (Some (default [] d)).

(** A data connection, given the digest of the control connection's
    certificate. *)
Definition ssl_accept (control_cert_digest : bytes) (fd : Z) : M Z :=
  p ← gets p_data_ssl;
  if p : bool then mdie "p_data_ssl should be NULL."
  else
    ok ← get_ssl Data fd;
    if negb ok then mret 0
    else
      upd (set_p_data_ssl true);;
      reused ← ssl_int Data "SSL_session_reused";
      if tb tun "require_ssl_reuse" && (reused =? 0) then
        debug (lit "No SSL session reuse on data channel.");;
        ssl_data_close;; mret 0
      else if 0 <? zlen control_cert_digest then
        d ← ssl_cert_digest Data;
        match d with
        | None =>
            debug (lit "Missing cert on data channel.");;
            ssl_data_close;; mret 0
        | Some data_cert_digest =>
            if negb (t_strcmp control_cert_digest data_cert_digest =? 0) then
              debug (lit "DIFFERENT cert on data channel.");;
              ssl_data_close;; mret 0
            else
              debug_when (lit "Matching cert on data channel.");;
              mret 1
        end
      else mret 1.

Definition ssl_verify_callback (verify_ok : Z) : Z := if tb tun "validate_cert" then verify_ok else 1.

Definition ssl_add_entropy : M unit :=
  a ← ask (Ssl (SslCall "RAND_load_file" (lit "/dev/urandom")));
  if negb (a_int a =? 16)
  then debug (lit "Couldn't add extra OpenSSL entropy: " ++ vsf_sysutil_ulong_to_str (u64 (a_int a)))
  else mret tt.

(** [ssl_init]: the calls in their order; [None] once [ssl_inited] is set. *)
Definition verify_option : Z :=
  Z.lor (if tb tun "ssl_request_cert" then SSL_VERIFY_PEER else 0)
        (if tb tun "require_cert" then SSL_VERIFY_FAIL_IF_NO_PEER_CERT else 0).

Definition ctx_call (func : string) (payload : bytes) : M Z :=
  sys (Ssl (SslCall func payload)).

(** The protocols that the configuration leaves out. *)
Definition ssl_options : list string :=
  (if tb tun "sslv2" then [] else ["SSL_OP_NO_SSLv2"%string])
  ++ (if tb tun "sslv3" then [] else ["SSL_OP_NO_SSLv3"%string])
  ++ (if tb tun "tlsv1" then [] else ["SSL_OP_NO_TLSv1"%string]).

Definition load_cert (cert key : option bytes) (kind : string) : M unit :=
  match cert with
  | None => mret tt
  | Some c =>
      let p_key := default c key in
      r ← ctx_call "SSL_CTX_use_certificate_chain_file" c;
      if negb (r =? 1) then mdie ("SSL: cannot load " ++ kind ++ " certificate")
      else
        r ← ctx_call "SSL_CTX_use_PrivateKey_file" p_key;
        if negb (r =? 1) then mdie ("SSL: cannot load " ++ kind ++ " private key") else mret tt
  end.

Definition ssl_init (ssl_inited : bool) : M unit :=
  if ssl_inited then mret tt
  else
    ctx_call "SSL_library_init" [];;
    p_ctx ← ctx_call "SSL_CTX_new" [];
    if p_ctx =? 0 then mdie "SSL: could not allocate SSL context"
    else
      ctx_call "SSL_CTX_set_options" (concat (lit <$> ssl_options));;
      load_cert (ts tun "rsa_cert_file") (ts tun "rsa_private_key_file") "RSA";;
      load_cert (ts tun "dsa_cert_file") (ts tun "dsa_private_key_file") "DSA";;
      r ← match ts tun "ssl_ciphers" with
          | Some c => ctx_call "SSL_CTX_set_cipher_list" c
          | None => mret 1
          end;
      if negb (r =? 1) then mdie "SSL: could not set cipher list"
      else
        r ← ctx_call "RAND_status" [];
        if negb (r =? 1) then mdie "SSL: RNG is not seeded"
        else
          key ← ctx_call "EC_KEY_new_by_curve_name" [];
          if key =? 0 then mdie "SSL: failed to get curve p256"
          else
            ctx_call "SSL_CTX_set_tmp_ecdh" [];;
            ctx_call "EC_KEY_free" [];;
            (if negb (verify_option =? 0) then
               ctx_call "SSL_CTX_set_verify" [to_char verify_option];;
               match ts tun "ca_certs_file" with
               | None => mret tt
               | Some f =>
                   r ← ctx_call "SSL_CTX_load_verify_locations" f;
                   if r =? 0 then mdie "SSL: could not load verify file"
                   else
                     p_names ← ctx_call "SSL_load_client_CA_file" f;
                     if p_names =? 0 then mdie "SSL: could not load client certs file"
                     else ctx_call "SSL_CTX_set_client_CA_list" [];; mret tt
               end
             else mret tt);;
            ctx_call "SSL_CTX_set_session_id_context" (lit "vsftpd");;
            when (tb tun "require_ssl_reuse") (ctx_call "SSL_CTX_set_timeout" [];; mret tt).

End Ssl.

(** ** sslslave.c: the process that holds the SSL state

    One round of the loop of [ssl_slave], on the slave's own session. The other
    end of the channel is the session's. *)

Section Slave.
Context `{E : Env} `{P : Pend} `{T : Tun}.
Variables (fuel : nat) (control_cert_digest : bytes).
#[local] Instance slave_waits : Peer := no_peer.

Definition slave_get_user_cmd : PM unit :=
  '(ret, s) ← here ftp_getline;
  here (upd (set_ftp_cmd_str s));;
  priv_sock_send_int parent_fd ret;;
  if 0 <=? ret then priv_sock_send_str parent_fd s else mret tt.

Definition slave_write_user_resp : PM unit :=
  s ← priv_sock_get_str parent_fd;
  here (upd (set_ftp_cmd_str s));;
  ret ← here (ftp_write_str s kVSFRWControl);
  priv_sock_send_int parent_fd ret.

Definition slave_handshake : PM unit :=
  st ← here (gets (λ s, (data_fd s, p_data_ssl s)));
  if negb (st.1 =? -1) || st.2 then pbug "state not clean"
  else
    fd ← priv_sock_recv_fd parent_fd;
    here (upd (set_data_fd fd));;
    ret ← here (ssl_accept control_cert_digest fd);
    (if negb (ret =? 1) then
       here (vsf_sysutil_close fd);;
       here (upd (set_data_fd (-1)))
     else mret tt);;
    priv_sock_send_result parent_fd (if ret =? 1 then PRIV_SOCK_RESULT_OK else PRIV_SOCK_RESULT_BAD).

Definition slave_read : PM unit :=
  size ← priv_sock_get_int parent_fd;
  if (size <=? 0) || (VSFTP_DATA_BUFSIZE <? size) then pbug "bad size"
  else
    st ← here (gets (λ s, (data_fd s, p_data_ssl s)));
    if (st.1 =? -1) || negb st.2 then pbug "invalid state"
    else
      '(ret, data_str) ← here (ssl_read_into_str fuel Data size);
      priv_sock_send_int parent_fd ret;;
      priv_sock_send_str parent_fd data_str.

Definition slave_write : PM unit :=
  st ← here (gets (λ s, (data_fd s, p_data_ssl s)));
  if (st.1 =? -1) || negb st.2 then pbug "invalid state"
  else
    data_str ← priv_sock_get_str parent_fd;
    ret ← here (ssl_write fuel Data data_str);
    priv_sock_send_int parent_fd ret.

Definition slave_close : PM unit :=
  st ← here (gets (λ s, (data_fd s, p_data_ssl s)));
  if (st.1 =? -1) && negb st.2 then priv_sock_send_result parent_fd PRIV_SOCK_RESULT_OK
  else if (st.1 =? -1) || negb st.2 then pbug "invalid state"
  else
    ret ← here ssl_data_close;
    here (vsf_sysutil_close st.1);;
    here (upd (set_data_fd (-1)));;
    priv_sock_send_result parent_fd (if ret =? 1 then PRIV_SOCK_RESULT_OK else PRIV_SOCK_RESULT_BAD).

Definition slave_serve (cmd : Z) : PM unit :=
  if cmd =? PRIV_SOCK_GET_USER_CMD then slave_get_user_cmd
  else if cmd =? PRIV_SOCK_WRITE_USER_RESP then slave_write_user_resp
  else if cmd =? PRIV_SOCK_DO_SSL_HANDSHAKE then slave_handshake
  else if cmd =? PRIV_SOCK_DO_SSL_READ then slave_read
  else if cmd =? PRIV_SOCK_DO_SSL_WRITE then slave_write
  else if cmd =? PRIV_SOCK_DO_SSL_CLOSE then slave_close
  else pdie "bad request in process_ssl_slave_req".

Definition ssl_slave_req : PM unit :=
  cmd ← priv_sock_get_cmd parent_fd;
  slave_serve cmd.

Fixpoint ssl_slave_loop (n : nat) : PM unit :=
  match n with
  | O => mret tt
  | S n => ssl_slave_req;; ssl_slave_loop n
  end.

(** [n] requests; the channel to the privileged parent is of no more use. *)
Definition ssl_slave (fds : priv_fds) (n : nat) : PM unit :=
  here (do_ (Sys (Alarm 0)));;
  here (lift (priv_sock_set_parent_context fds));;
  here (when (tb tun "setproctitle_enable") (do_ (Sys (Proctitle (lit "SSL handler")))));;
  ssl_slave_loop n.

End Slave.

(** ** ssl.c: the channel between a session and its slave *)

Record ssl_fds := SslFds { ssl_consumer_fd : Z; ssl_slave_fd : Z; ssl_fds_closed : list Z }.

Definition no_ssl_fds : ssl_fds := SslFds (-1) (-1) [].

(** [pair] is what [vsf_sysutil_unix_stream_socketpair] returned. *)
Definition ssl_comm_channel_init (pair : Z * Z) (s : ssl_fds) : res ssl_fds :=
  if negb (ssl_consumer_fd s =? -1) then bug "ssl_consumer_fd active"
  else if negb (ssl_slave_fd s =? -1) then bug "ssl_slave_fd active"
  else Ok (SslFds pair.1 pair.2 (ssl_fds_closed s)).

Definition ssl_comm_channel_set_consumer_context (s : ssl_fds) : res ssl_fds :=
  if ssl_slave_fd s =? -1 then bug "ssl_slave_fd already closed"
  else Ok (SslFds (ssl_consumer_fd s) (-1) (ssl_slave_fd s :: ssl_fds_closed s)).

Definition ssl_comm_channel_set_producer_context (s : ssl_fds) : res ssl_fds :=
  if ssl_consumer_fd s =? -1 then bug "ssl_consumer_fd already closed"
  else Ok (SslFds (-1) (ssl_slave_fd s) (ssl_consumer_fd s :: ssl_fds_closed s)).
