(* ===== verification/SslSafety.v ===== *)
(** * Encrypted data connections belong to the client

    A data connection is accepted only if it fits the control connection, and
    the slave process keeps its SSL object and its descriptor together, so that
    no legal sequence of requests trips one of its assertions. *)

From Stdlib Require Import Init.Byte Strings.Byte.
From Stdlib Require Import ZArith Lia String.
From stdpp Require Import base list numbers option gmap strings.
From S2P Require Import Prelude SysUtil Text StrRefine StrList IpAddr Tunables Session CmdIO.
From S2P Require Import Signals Logic PrivOps Cos DataIO Invariants Demo Stops Privsock PrivsockRefine Ssl.

(** ** Code of ssl.c under a quiet invariant *)

Section QuietSsl.
Context `{E : Env} `{T : Tun} (I : world → Prop) `{Q : !Quiet I}.

Lemma quiet_bio io ret fd : inv I (bio_callback io ret fd).
Proof. apply quiet_check_pending; exact _. Qed.
#[local] Hint Resolve quiet_bio : inv.
Lemma quiet_ssl_call c f p : inv I (ssl_call c f p).
Proof. unfold ssl_call. inv_auto. Qed.
#[local] Hint Resolve quiet_ssl_call : inv.
Lemma quiet_ssl_int c f : inv I (ssl_int c f).
Proof. unfold ssl_int. inv_auto. Qed.
#[local] Hint Resolve quiet_ssl_int : inv.
Lemma quiet_conn_fd c : inv I (conn_fd c).
Proof. unfold conn_fd. inv_auto. Qed.
#[local] Hint Resolve quiet_conn_fd : inv.
Lemma quiet_ssl_io c f p : inv I (ssl_io c f p).
Proof. unfold ssl_io. inv_auto. Qed.
#[local] Hint Resolve quiet_ssl_io : inv.
Lemma quiet_debug s : inv I (debug s).
Proof. apply quiet_log_line; [exact _|intros ctx; apply quiet_check_pending; exact _]. Qed.
#[local] Hint Resolve quiet_debug : inv.
Lemma quiet_debug_when s : inv I (debug_when s).
Proof. unfold debug_when. inv_auto. Qed.
#[local] Hint Resolve quiet_debug_when : inv.
Lemma quiet_ssl_retry n c f p : inv I (ssl_retry n c f p).
Proof. induction n as [|n IH]; cbn [ssl_retry]; inv_auto. Qed.
#[local] Hint Resolve quiet_ssl_retry : inv.
Lemma quiet_read_into n c len : inv I (ssl_read_into_str n c len).
Proof. unfold ssl_read_into_str, ssl_read, ssl_read_common. inv_auto. Qed.
Lemma quiet_ssl_write n c s : inv I (ssl_write n c s).
Proof. unfold ssl_write. inv_auto. Qed.
Lemma quiet_shutdown_state : inv I maybe_log_shutdown_state.
Proof. unfold maybe_log_shutdown_state. inv_auto. Qed.
Lemma quiet_error_state r : inv I (maybe_log_ssl_error_state r).
Proof. unfold maybe_log_ssl_error_state, get_ssl_error. inv_auto. Qed.
#[local] Hint Resolve quiet_shutdown_state quiet_error_state : inv.
Lemma quiet_cert_digest c : inv I (ssl_cert_digest c).
Proof. unfold ssl_cert_digest. inv_auto. Qed.
Lemma quiet_get_ssl c fd : inv I (get_ssl c fd).
Proof. unfold get_ssl, get_ssl_error. inv_auto. Qed.

End QuietSsl.
#[export] Hint Resolve quiet_ssl_int quiet_ssl_io quiet_debug quiet_debug_when quiet_read_into
  quiet_ssl_write quiet_shutdown_state quiet_error_state quiet_cert_digest quiet_get_ssl : inv.

(** ** What is known of a run *)

(** The SSL object and the descriptor of the data connection, and a fact about
    the calls since [h0] that later calls cannot undo. *)
Definition grows (φ : history → Prop) : Prop := ∀ e h, φ h → φ (e :: h).

Record tracked (h0 : history) (b : bool) (d : Z) (φ : history → Prop) (w : world) : Prop := Tracked {
  tr_ssl : p_data_ssl (sess w) = b;
  tr_fd : data_fd (sess w) = d;
  tr_hist : ∃ new, hist w = new ++ h0 ∧ φ new
}.

#[global] Instance tracked_quiet h0 b d φ : grows φ → Quiet (tracked h0 b d φ).
Proof.
  intros Hg. constructor; intros w.
  - intros c a _ [H1 H2 (new & H3 & H4)]. split; [done..|].
    exists ((c, a) :: new). split; [cbn; by rewrite H3|by apply Hg].
  - by intros v [].
  - by intros v [].
  - by intros v [].
  - by intros v [].
  - by intros v [].
  - intros f Hf []. by destruct Hf; split.
Qed.

Lemma wp_inv {A} (I : world → Prop) (m : M A) (Q : A → world → Prop) (Ex : stop → world → Prop) w :
  inv I m → I w → (∀ a w', I w' → Q a w') → (∀ s w', Ex s w') → wp m Q Ex w.
Proof. intros Hm Hw HQ HE. eapply wp_mono; [exact (Hm w Hw)|auto..]. Qed.

Definition answered (f : string) (ok : answer → Prop) (h : history) : Prop :=
  ∃ a p, (Ssl (SslCall f p), a) ∈ h ∧ ok a.

Lemma answered_grows f ok : grows (answered f ok).
Proof. intros e h (a & p & Hin & Ha). exists a, p. split; [by right|done]. Qed.

Lemma grows_true : grows (λ _, True).
Proof. done. Qed.
Lemma grows_and φ ψ : grows φ → grows ψ → grows (λ h, φ h ∧ ψ h).
Proof. intros H1 H2 e h [??]. split; auto. Qed.
Lemma grows_impl (b : Prop) φ : grows φ → grows (λ h, b → φ h).
Proof. intros H e h Hb ?. auto. Qed.
Create HintDb grows discriminated.
#[export] Hint Resolve answered_grows grows_true grows_and grows_impl : grows.
#[export] Hint Extern 2 (Quiet (tracked _ _ _ _)) => (apply tracked_quiet; auto with grows) : typeclass_instances.

Section Accept.
Context `{E : Env} `{T : Tun}.

Abbreviation nothing := (λ _ : history, True).

Lemma tracked_weaken h0 b d φ w : tracked h0 b d φ w → tracked h0 b d nothing w.
Proof. intros [H1 H2 (new & H3 & _)]. split; [done..|]. by exists new. Qed.

(** One step of code that keeps [tracked]. *)
#[local] Ltac keep H :=
  wp_step; eapply (wp_inv (tracked _ _ _ _)); [|exact H|clear H; intros ? ? H; cbv beta|done];
  [by inv_auto|].

Lemma data_close_spec h0 d w :
  tracked h0 true d nothing w →
  wp ssl_data_close (λ _, tracked h0 false d nothing) (λ _ _, True) w.
Proof.
  intros H. unfold ssl_data_close. do 2 wp_step. rewrite (tr_ssl _ _ _ _ _ H). cbn [negb].
  do 7 keep H. wp_step. wp_step. wp_step. by destruct H; split.
Qed.

(** What a data connection must show. *)
Definition bound_to (control_cert_digest : bytes) (h : history) : Prop :=
  (tb tun "require_ssl_reuse" = true →
     answered "data SSL_session_reused" (λ a, a_int a ≠ 0) h) ∧
  (0 < zlen control_cert_digest →
     answered "data X509_digest" (λ a, take 64 (text_of a) = control_cert_digest) h).

(** The digest that [ssl_cert_digest] gives is OpenSSL's. *)
Lemma cert_digest_spec h0 b d φ w :
  grows φ → tracked h0 b d φ w →
  wp (ssl_cert_digest Data) (λ r w',
      match r with
      | None => tracked h0 b d φ w'
      | Some s => tracked h0 b d (λ h, φ h ∧ answered "data X509_digest" (λ a, take 64 (text_of a) = s) h) w'
      end) (λ _ _, True) w.
Proof.
  intros Hg H. unfold ssl_cert_digest. keep H. wp_step; [by wp_step|]. wp_step.
  unfold ssl_call at 1. apply wp_ask. intros x Hx.
  wp_step; [by wp_step|]. cbv zeta.
  match goal with |- wp _ _ _ ?w1 =>
    assert (tracked h0 b d (λ h, φ h ∧ answered "data X509_digest"
              (λ y, take 64 (text_of y) = take 64 (text_of x)) h) w1) as H' end.
  { destruct H as [H1 H2 (new & H3 & H4)]. split; [done..|].
    eexists (_ :: new). split; [cbn [hist put_hist]; by rewrite H3|]. split; [by apply Hg|].
    exists x, []. split; [left|done]. }
  keep H'. keep H'. by wp_step.
Qed.

Lemma accept_spec digest fd h0 d w :
  tracked h0 false d nothing w →
  wp (ssl_accept digest fd) (λ z w',
      (z = 1 ∧ tracked h0 true d (bound_to digest) w') ∨ (z = 0 ∧ tracked h0 false d nothing w'))
    (λ _ _, True) w.
Proof.
  intros H. unfold ssl_accept. do 2 wp_step. rewrite (tr_ssl _ _ _ _ _ H). keep H.
  wp_step; [wp_step; by right|]. wp_step. wp_step.
  match goal with |- wp _ _ _ ?w1 => assert (tracked h0 true d nothing w1) as H'
    by (by destruct H; split) end. clear H.
  wp_step. unfold ssl_int, ssl_call. wp_step. apply wp_ask. intros x Hx. wp_step. clear Hx.
  set (w1 := put_hist _ _).
  assert (tracked h0 true d (λ h, answered "data SSL_session_reused" (λ y, y = x) h) w1) as H1.
  { destruct H' as [H1 H2 (new & H3 & _)]. split; [done..|]. eexists (_ :: new).
    split; [cbn [hist put_hist w1]; by rewrite H3|]. exists x, []. split; [left|done]. }
  clearbody w1. clear H'.
  assert (∀ w2 s, tracked h0 true d nothing w2 →
    wp (debug s;; ssl_data_close;; mret 0) (λ z w',
      (z = 1 ∧ tracked h0 true d (bound_to digest) w') ∨ (z = 0 ∧ tracked h0 false d nothing w'))
      (λ _ _, True) w2) as Hfail.
  { intros w2 s H. keep H. wp_step. eapply wp_mono; [by apply data_close_spec| |done].
    intros z w3 H3. cbv beta. wp_step. by right. }
  wp_step; [by eapply Hfail, tracked_weaken|].
  set (φ := λ h : history, tb tun "require_ssl_reuse" = true →
              answered "data SSL_session_reused" (λ a, a_int a ≠ 0) h).
  assert (grows φ) as Hg by (apply grows_impl, answered_grows).
  assert (tracked h0 true d φ w1) as H2.
  { destruct H1 as [? ? (new & ? & y & p & Hin & ->)]. split; [done..|]. exists new. split; [done|].
    intros Hr. exists x, p. split; [done|]. rewrite Hr in Heqb0. cbn [andb] in Heqb0. by b2p. }
  wp_step.
  - wp_step. eapply wp_mono; [by apply cert_digest_spec| |done]. intros r w2 H3. cbv beta.
    destruct r as [s|]; [|by eapply Hfail, tracked_weaken].
    wp_step; [by eapply Hfail, tracked_weaken|]. keep H3. wp_step. left. split; [done|].
    destruct H3 as [? ? (new & ? & H4 & H5)]. split; [done..|]. exists new. split; [done|].
    rewrite t_strcmp_eq in Heqb2. unfold t_equal in Heqb2. b2p. subst. by split.
  - wp_step. left. split; [done|]. destruct H2 as [? ? (new & ? & H4)]. split; [done..|].
    exists new. split; [done|]. b2p. split; [done|lia].
Qed.

(** C27: An encrypted data connection is accepted only if it fits the control
    connection. Whatever OpenSSL and the kernel answer, ssl_accept returns 1
    only if, with require_ssl_reuse, OpenSSL said in this very call that the
    data connection resumes an SSL session and, when the client showed a
    certificate on the control connection, that the certificate of the data
    connection has the same digest; in every other case in which it returns, it
    returns 0 and no SSL object is left behind. (A failed SSL_accept ends the
    process.) *)
Theorem data_connection_bound (digest : bytes) (fd z : Z) (w w' : world) :
  p_data_ssl (sess w) = false →
  ssl_accept digest fd w = (Ok z, w') →
  (z = 1 ∧ p_data_ssl (sess w') = true ∧ ∃ new, hist w' = new ++ hist w ∧ bound_to digest new) ∨
  (z = 0 ∧ p_data_ssl (sess w') = false).
Proof.
  intros Hp Hr. assert (tracked (hist w) false (data_fd (sess w)) nothing w) as H
    by (split; [done..|]; by exists []).
  eapply wp_Ok in Hr; [|by apply accept_spec].
  destruct Hr as [[-> [H1 _ H3]]|[-> [H1 _ _]]]; [left|right]; done.
Qed.

End Accept.

(** OpenSSL says yes to everything; every certificate has the same digest. *)
Definition ssl_site : Env := λ h c,
  match c with
  | Ssl _ => answer_with 1 (lit "digest")
  | _ => site_env [] h c
  end.

Lemma data_connection_bound_witness :
  let T : Tun := site_tun "require_ssl_reuse" 1 in
  let E : Env := ssl_site in
  let r := ssl_accept (lit "digest") 9 (site_world []) in
  r.1 = Ok 1 ∧ ∃ new, hist r.2 = new ++ hist (site_world []) ∧ bound_to (lit "digest") new.
Proof.
  intros T E r. assert (r.1 = Ok 1) as Hr by (vm_compute; reflexivity). split; [exact Hr|].
  assert (ssl_accept (lit "digest") 9 (site_world []) = (Ok 1, r.2)) as Hrun
    by (rewrite <- Hr; apply surjective_pairing).
  destruct (@data_connection_bound E T (lit "digest") 9 1 (site_world []) r.2 eq_refl Hrun)
    as [(_ & _ & H)|[H _]]; [exact H|discriminate H].
Defined.

(** ** The slave *)

Definition slave_bugs : list string := ["state not clean"; "invalid state"; "bad size"]%string.

(** A stop that is none of the slave's assertions. *)
Definition slave_fair (b : bytes) : Prop := b ∉ lit <$> slave_bugs.

#[global] Instance slave_fair_fair : Fair slave_fair.
Proof.
  assert (Forall (λ s, lit s ∉ lit <$> slave_bugs) common_bugs) as H by vmdec.
  intros s Hs. by eapply Forall_forall in H.
Qed.

Section Polite.
Context `{E : Env} `{T : Tun} (φ : bytes → Prop) `{F : !Fair φ}.

Lemma polite_ssl_call c f p : polite φ (ssl_call c f p).
Proof. unfold ssl_call. polite_auto. Qed.
#[local] Hint Resolve polite_ssl_call : polite.
Lemma polite_ssl_int c f : polite φ (ssl_int c f).
Proof. unfold ssl_int. polite_auto. Qed.
#[local] Hint Resolve polite_ssl_int : polite.
Lemma polite_ssl_io c f p : polite φ (ssl_io c f p).
Proof. unfold ssl_io, conn_fd, bio_callback. polite_auto. Qed.
#[local] Hint Resolve polite_ssl_io : polite.
Lemma polite_debug s : polite φ (debug s).
Proof. apply polite_log_line; [intros ?; by apply polite_check_pending|done]. Qed.
#[local] Hint Resolve polite_debug : polite.
Lemma polite_ssl_retry n c f p : polite φ (ssl_retry n c f p).
Proof. induction n as [|n IH]; cbn [ssl_retry]; polite_auto. Qed.
#[local] Hint Resolve polite_ssl_retry : polite.
Lemma polite_read_into n c len : polite φ (ssl_read_into_str n c len).
Proof. unfold ssl_read_into_str, ssl_read, ssl_read_common. polite_auto. Qed.
Lemma polite_ssl_write n c s : polite φ (ssl_write n c s).
Proof. unfold ssl_write. polite_auto. Qed.
Lemma polite_data_close : polite φ ssl_data_close.
Proof.
  unfold ssl_data_close, maybe_log_shutdown_state, maybe_log_ssl_error_state, get_ssl_error.
  polite_auto.
Qed.
#[local] Hint Resolve polite_data_close : polite.
Lemma polite_cert_digest c : polite φ (ssl_cert_digest c).
Proof. unfold ssl_cert_digest. polite_auto. Qed.
Lemma polite_get_ssl c fd : polite φ (get_ssl c fd).
Proof. unfold get_ssl, get_ssl_error, debug_when. polite_auto. Qed.
#[local] Hint Resolve polite_cert_digest polite_get_ssl : polite.
Lemma polite_accept d fd : polite φ (ssl_accept d fd).
Proof. unfold ssl_accept, debug_when. polite_auto. Qed.
End Polite.

(** ** The slave: requests and the states they are legal in *)

Inductive slave_request :=
  | GetUserCmd
  | WriteUserResp (s : bytes)
  | Handshake (fd : Z)
  | SslRead (size : Z)
  | SslWrite (s : bytes)
  | SslClose.

Definition wire (q : slave_request) : list item :=
  match q with
  | GetUserCmd => encode (MCmd PRIV_SOCK_GET_USER_CMD)
  | WriteUserResp s => encode (MCmd PRIV_SOCK_WRITE_USER_RESP) ++ encode (MStr s)
  | Handshake fd => encode (MCmd PRIV_SOCK_DO_SSL_HANDSHAKE) ++ encode (MFd fd)
  | SslRead size => encode (MCmd PRIV_SOCK_DO_SSL_READ) ++ encode (MInt size)
  | SslWrite s => encode (MCmd PRIV_SOCK_DO_SSL_WRITE) ++ encode (MStr s)
  | SslClose => encode (MCmd PRIV_SOCK_DO_SSL_CLOSE)
  end.

(** [opened]: the slave has an encrypted data connection. *)
Definition legal (opened : bool) (q : slave_request) : bool :=
  match q with
  | GetUserCmd | SslClose => true
  | WriteUserResp s => msg_ok (MStr s)
  | Handshake fd => negb opened && msg_ok (MFd fd)
  | SslRead size => opened && (0 <? size) && (size <=? VSFTP_DATA_BUFSIZE)
  | SslWrite s => opened && msg_ok (MStr s)
  end.

(** The type of the state that a request leads to, which the reply tells. *)
Definition leads (opened : bool) (q : slave_request) (reply : list item) (opened' : bool) : Prop :=
  match q with
  | Handshake _ =>
      reply = encode (MResult (if opened' then PRIV_SOCK_RESULT_OK else PRIV_SOCK_RESULT_BAD))
  | SslClose => opened' = false
  | _ => opened' = opened
  end.

(** The SSL object and the descriptor come and go together. *)
Definition typestate (opened : bool) (w : world) : Prop :=
  p_data_ssl (sess w) = opened ∧ (data_fd (sess w) =? -1) = negb opened.

Section Slave.
Context `{E : Env} `{T : Tun}.
Variables (fuel : nat) (digest : bytes).
Abbreviation nothing := (λ _ : history, True).

(** The run of a process ends well or stops with no assertion of the slave. *)
Definition pwp {A} (m : PM A) (Q : A → world → chan → Prop) (w : world) (c : chan) : Prop :=
  match m (w, c) with
  | (Ok a, (w', c')) => Q a w' c'
  | (Err s, _) => may_stop slave_fair s
  end.

Lemma pwp_bind {A B} (m : PM A) (k : A → PM B) Q w c :
  pwp m (λ a w' c', pwp (k a) Q w' c') w c → pwp (m ≫= k) Q w c.
Proof. unfold pwp, mbind, PM_bind. by destruct (m (w, c)) as [[a|s] [w' c']]. Qed.

Lemma pwp_run {A} (m : PM A) Q w c a w' c' :
  m (w, c) = (Ok a, (w', c')) → Q a w' c' → pwp m Q w c.
Proof. intros H HQ. unfold pwp. by rewrite H. Qed.

Lemma pwp_here {A} (m : M A) (Q : A → world → chan → Prop) w c :
  polite slave_fair m → wp m (λ a w', Q a w' c) (λ _ _, True) w → pwp (here m) Q w c.
Proof. intros Hp. specialize (Hp w). unfold wp, pwp, here. by destruct (m w) as [[a|s] w']. Qed.

Lemma pwp_send_int z (Q : unit → world → chan → Prop) w c :
  c_open c = true → Q tt w (deliver parent_fd (encode (MInt z)) c) →
  pwp (priv_sock_send_int parent_fd z) Q w c.
Proof. intros Ho. eapply pwp_run. by apply send_int_open. Qed.

Lemma pwp_send_result (b : bool) (Q : unit → world → chan → Prop) w c :
  let r := if b then PRIV_SOCK_RESULT_OK else PRIV_SOCK_RESULT_BAD in
  c_open c = true → Q tt w (deliver parent_fd (encode (MResult r)) c) →
  pwp (priv_sock_send_result parent_fd r) Q w c.
Proof.
  intros r Ho. eapply pwp_run. apply (send_open parent_fd (MResult r)); [done|by destruct b].
Qed.

(** A string of any length. *)
Lemma pwp_send_str s (Q : unit → world → chan → Prop) w c :
  c_open c = true → (∀ l, Q tt w (deliver parent_fd l c)) →
  pwp (priv_sock_send_str parent_fd s) Q w c.
Proof.
  intros Ho HQ. unfold priv_sock_send_str. apply pwp_bind. eapply pwp_run; [by apply send_int_open|].
  rewrite length_pos_zlen. destruct (zlen s =? 0) eqn:Ez; cbn [negb]; [apply HQ|].
  eapply pwp_run; [|apply HQ]. unfold str_netfd_write. rewrite Ez. erewrite pm_bind_ok; [done|].
  erewrite pm_bind_ok by (apply chan_write_open; by rewrite deliver_open). by rewrite deliver_app.
Qed.

(** What a request leaves: the rest of the requests and one more reply. *)
Definition served (opened : bool) (q : slave_request) (rest : list item) (c : chan)
    (_ : unit) (w' : world) (c' : chan) : Prop :=
  ∃ reply opened', typestate opened' w' ∧ leads opened q reply opened' ∧
    c' = Chan true rest (c_rep c ++ reply).

Lemma tracked_typestate h0 b d φ w : tracked h0 b d φ w → (d =? -1) = negb b → typestate b w.
Proof. by intros [<- <- _]. Qed.

Lemma typestate_tracked b w : typestate b w → tracked (hist w) b (data_fd (sess w)) nothing w.
Proof. intros [H _]. split; [done..|]. by exists []. Qed.

Lemma served_with opened q h0 b d φ w c n reply :
  tracked h0 b d φ w → (d =? -1) = negb b → leads opened q reply b → c_open c = true →
  served opened q (drop n (c_req c)) c tt w (deliver parent_fd reply (consume parent_fd n c)).
Proof.
  intros H Hd Hl Ho. exists reply, b. split; [by eapply tracked_typestate|]. split; [done|].
  destruct c. cbn in *. by subst.
Qed.

#[local] Hint Resolve polite_accept polite_read_into polite_ssl_write polite_data_close : polite.
Lemma tracked_close h0 b d fd : inv (tracked h0 b d nothing) (vsf_sysutil_close fd).
Proof.
  unfold vsf_sysutil_close. inv_auto. apply inv_ask. intros w a [H1 H2 (new & H3 & _)].
  split; [done..|]. exists ((Close fd, a) :: new). cbn. by rewrite H3.
Qed.
#[local] Hint Resolve quiet_ftp_getline tracked_close : inv.

(** Code of the slave that leaves the data connection alone. *)
Lemma pwp_quiet {A} (m : M A) h0 b d (Q : A → world → chan → Prop) w c :
  polite slave_fair m → inv (tracked h0 b d nothing) m → tracked h0 b d nothing w →
  (∀ a w', tracked h0 b d nothing w' → Q a w' c) → pwp (here m) Q w c.
Proof. intros Hp Hi Hw HQ. apply pwp_here; [done|]. by eapply wp_inv. Qed.

#[local] Ltac quiet_run H :=
  apply pwp_bind; eapply pwp_quiet; [by polite_auto|by inv_auto|exact H|clear H; intros ? ? H; cbv beta].

Lemma get_user_cmd_served opened w c :
  typestate opened w → c_open c = true →
  pwp slave_get_user_cmd (served opened GetUserCmd (c_req c) c) w c.
Proof.
  intros Hs Ho. pose proof (typestate_tracked _ _ Hs) as H. destruct Hs as [_ Hs].
  unfold slave_get_user_cmd. quiet_run H. destruct a as [ret s]. quiet_run H.
  apply pwp_bind, pwp_send_int; [done|]. destruct (0 <=? ret).
  - apply pwp_send_str; [by rewrite deliver_open|]. intros l. rewrite deliver_app.
    by eapply (served_with _ _ _ _ _ _ _ c 0).
  - by eapply pwp_run, (served_with _ _ _ _ _ _ _ c 0).
Qed.

Lemma write_user_resp_served opened s rest w c :
  msg_ok (MStr s) = true → typestate opened w → c_open c = true → c_req c = encode (MStr s) ++ rest →
  pwp slave_write_user_resp (served opened (WriteUserResp s) rest c) w c.
Proof.
  intros Hm Hs Ho Hr. pose proof (typestate_tracked _ _ Hs) as H. destruct Hs as [_ Hs].
  cbn [msg_ok] in Hm. b2p. unfold slave_write_user_resp. apply pwp_bind.
  eapply pwp_run; [by eapply get_str_there|]. cbv beta. do 2 quiet_run H.
  apply pwp_send_int; [done|]. replace rest with (drop (length (encode (MStr s))) (c_req c))
    by (by rewrite Hr, drop_app_length). by eapply served_with.
Qed.

(** The data connection that a request wants. *)
Lemma pwp_state (k : Z * bool → PM unit) Q w c :
  pwp (k (data_fd (sess w), p_data_ssl (sess w))) Q w c →
  pwp (st ← here (gets (λ s, (data_fd s, p_data_ssl s))); k st) Q w c.
Proof. intros H. by apply pwp_bind. Qed.

Lemma read_served size rest w c :
  legal true (SslRead size) = true → typestate true w → c_open c = true →
  c_req c = encode (MInt size) ++ rest →
  pwp (slave_read fuel) (served true (SslRead size) rest c) w c.
Proof.
  intros Hl Hs Ho Hr. pose proof (typestate_tracked _ _ Hs) as H. destruct Hs as [Hp Hs].
  assert (VSFTP_DATA_BUFSIZE < INT_MAX) as Hb by done. cbn [legal andb] in Hl. b2p.
  unfold slave_read. apply pwp_bind. eapply pwp_run; [by eapply get_int_there|]. cbv beta.
  rewrite s32_small by (unfold INT_MIN; lia). ztest. cbn [orb]. apply pwp_state. cbn [fst snd].
  rewrite Hp, Hs. cbn [negb orb]. quiet_run H. destruct a as [ret s].
  apply pwp_bind, pwp_send_int; [done|]. apply pwp_send_str; [by rewrite deliver_open|]. intros l.
  rewrite deliver_app. replace rest with (drop 4 (c_req c)) by (by rewrite Hr). by eapply served_with.
Qed.

Lemma write_served s rest w c :
  msg_ok (MStr s) = true → typestate true w → c_open c = true → c_req c = encode (MStr s) ++ rest →
  pwp (slave_write fuel) (served true (SslWrite s) rest c) w c.
Proof.
  intros Hm Hs Ho Hr. pose proof (typestate_tracked _ _ Hs) as H. destruct Hs as [Hp Hs].
  cbn [msg_ok] in Hm. b2p. unfold slave_write. apply pwp_state. cbn [fst snd].
  rewrite Hp, Hs. cbn [negb orb]. apply pwp_bind. eapply pwp_run; [by eapply get_str_there|]. cbv beta.
  quiet_run H. apply pwp_send_int; [done|].
  replace rest with (drop (length (encode (MStr s))) (c_req c)) by (by rewrite Hr, drop_app_length).
  by eapply served_with.
Qed.

(** The descriptor is forgotten after it is closed. *)
Lemma tracked_forget h0 b d φ w :
  tracked h0 b d φ w → tracked h0 b (-1) φ (put_sess (set_data_fd (-1) (sess w)) w).
Proof. by intros [? ? ?]; split. Qed.

Lemma close_served opened w c :
  typestate opened w → c_open c = true →
  pwp slave_close (served opened SslClose (c_req c) c) w c.
Proof.
  intros Hs Ho. pose proof (typestate_tracked _ _ Hs) as H. destruct Hs as [Hp Hs].
  unfold slave_close. apply pwp_state. cbn [fst snd]. rewrite Hp, Hs. destruct opened; cbn [negb andb orb].
  - apply pwp_bind, pwp_here; [auto with polite|].
    eapply wp_mono; [by apply data_close_spec| |done]. intros ret w1 H1. cbv beta. clear H.
    quiet_run H1. apply pwp_bind. eapply pwp_run; [done|]. cbv beta.
    apply tracked_forget in H1. apply pwp_send_result; [done|]. by eapply (served_with _ _ _ _ _ _ _ c 0).
  - apply (pwp_send_result true); [done|]. by eapply (served_with _ _ _ _ _ _ _ c 0).
Qed.

Lemma handshake_served fd rest w c :
  msg_ok (MFd fd) = true → typestate false w → c_open c = true →
  c_req c = encode (MFd fd) ++ rest →
  pwp (slave_handshake digest) (served false (Handshake fd) rest c) w c.
Proof.
  intros Hm Hs Ho Hr. pose proof (typestate_tracked _ _ Hs) as H. destruct Hs as [Hp Hs].
  cbn [msg_ok] in Hm. b2p. unfold slave_handshake. apply pwp_state. cbn [fst snd].
  rewrite Hp, Hs. cbn [negb orb]. apply pwp_bind. eapply pwp_run; [by apply (recv_fd_there parent_fd fd rest)|]. cbv beta.
  apply pwp_bind. eapply pwp_run; [done|]. cbv beta.
  match goal with |- pwp _ _ ?w1 _ => assert (tracked (hist w) false fd nothing w1) as H1
    by (by destruct H; split) end. clear H.
  replace rest with (drop 1 (c_req c)) by (by rewrite Hr).
  apply pwp_bind, pwp_here; [auto with polite|].
  eapply wp_mono; [by apply accept_spec| |done]. intros z w2 [[-> H2]|[-> H2]]; cbv beta; cbn [Z.eqb Pos.eqb negb].
  - apply pwp_bind. eapply pwp_run; [done|]. apply (pwp_send_result true); [done|].
    eapply served_with; [exact H2|by ztest|done|done].
  - apply pwp_bind, pwp_bind. eapply pwp_quiet; [by polite_auto|by inv_auto|exact H2|].
    intros [] w3 H3. cbv beta. eapply pwp_run; [done|]. cbv beta.
    apply tracked_forget in H3. apply (pwp_send_result false); [done|]. by eapply served_with.
Qed.

(** The dispatcher: the code of the request is read, the handler finds its
    arguments. *)
Lemma dispatched opened q m args rest w c :
  wire q = encode (MCmd m) ++ args → msg_ok (MCmd m) = true → c_open c = true →
  c_req c = wire q ++ rest →
  (∀ c1, c_open c1 = true → c_req c1 = args ++ rest →
     pwp (slave_serve fuel digest m) (served opened q rest c1) w c1) →
  pwp (ssl_slave_req fuel digest) (served opened q rest c) w c.
Proof.
  intros Hw Hm Ho Hr H. rewrite Hw in Hr. cbn [msg_ok] in Hm. b2p.
  unfold ssl_slave_req, priv_sock_get_cmd, get_char. apply pwp_bind, pwp_bind.
  rewrite <- app_assoc in Hr.
  eapply pwp_run; [by apply (chan_read_there parent_fd 1 [plain (to_char m)] (args ++ rest))|].
  cbv beta iota. eapply pwp_run; [done|]. rewrite schar_to_char by lia.
  apply (H (consume parent_fd 1 c)); [done|]. cbn. by rewrite Hr.
Qed.

(** C28: The typestate of the SSL slave. The slave has either no data connection
    (no SSL object, data_fd -1) or an open one (both), and a request is legal in
    one state only: a handshake without a data connection, reads and writes with
    one. Whatever OpenSSL, the kernel and the client do, a legal request is
    consumed from the socket and either answered, with the slave in the state
    that the reply announces (open exactly if the handshake is answered with
    PRIV_SOCK_RESULT_OK, none after a close, unchanged otherwise), or the
    process ends (or waits for ever on a connection) without tripping its
    assertions "state not clean", "invalid state" and "bad size". *)
Theorem slave_typestate (opened : bool) (q : slave_request) (rest : list item) (w : world) (c : chan) :
  typestate opened w → c_open c = true → legal opened q = true → c_req c = wire q ++ rest →
  pwp (ssl_slave_req fuel digest) (served opened q rest c) w c.
Proof.
  intros Hs Ho Hl Hr. destruct q; cbn [legal] in Hl.
  - eapply dispatched; [by rewrite app_nil_r|done..|]. intros c1 H1 H2. rewrite <- (H2 : _ = rest). by apply get_user_cmd_served.
  - eapply dispatched; [done..|]. intros c1 H1 H2. by apply write_user_resp_served.
  - eapply dispatched; [done..|]. intros c1 H1 H2. destruct opened; [done|]. by apply handshake_served.
  - eapply dispatched; [done..|]. intros c1 H1 H2. destruct opened; [|done]. by apply read_served.
  - eapply dispatched; [done..|]. intros c1 H1 H2. destruct opened; [|done]. by apply write_served.
  - eapply dispatched; [by rewrite app_nil_r|done..|]. intros c1 H1 H2. rewrite <- (H2 : _ = rest). by apply close_served.
Qed.

End Slave.

(** A handshake on this site, and a write after it. *)
Lemma slave_typestate_witness :
  let T : Tun := site_tun "require_ssl_reuse" 1 in
  let E : Env := ssl_site in
  let w := site_world [] in
  let c := Chan true (wire (Handshake 9) ++ wire (SslWrite (lit "data"))) [] in
  typestate false w ∧
  pwp (ssl_slave_req 3 (lit "digest")) (served false (Handshake 9) (wire (SslWrite (lit "data"))) c) w c ∧
  match ssl_slave_req 3 (lit "digest") (w, c) with
  | (Ok _, (w', c')) =>
      typestate true w' ∧ c_rep c' = encode (MResult PRIV_SOCK_RESULT_OK) ∧
      pwp (ssl_slave_req 3 (lit "digest")) (served true (SslWrite (lit "data")) [] c') w' c'
  | _ => False
  end.
Proof.
  intros T E w c.
  assert (typestate false w) as Hs by (split; reflexivity).
  split; [exact Hs|]. split.
  { apply (slave_typestate 3 (lit "digest") false (Handshake 9)); [exact Hs|reflexivity..]. }
  destruct (ssl_slave_req 3 (lit "digest") (w, c)) as [[u|s] [w' c']] eqn:Hr;
    vm_compute in Hr; [injection Hr as <- <- <-|discriminate Hr].
  split; [split; reflexivity|]. split; [reflexivity|].
  apply (slave_typestate 3 (lit "digest") true (SslWrite (lit "data"))); [split; reflexivity|reflexivity..].
Defined.
