(* ===== verification/SessionSafety.v ===== *)
(** * Safety of a logged-in session

    Theorems about every run of the command loop of postlogin.c, for every
    behaviour of the client, the kernel and COS: which addresses it connects
    to, which calls it can make without write permission, and that its
    assertions on the data connection and the log hold. *)

From Stdlib Require Import Init.Byte Strings.Byte.
From Stdlib Require Import ZArith Lia String.
From stdpp Require Import base list numbers option gmap strings.
From S2P Require Import Prelude SysUtil Text StrList IpAddr Tunables Session CmdIO.
From S2P Require Import Signals Logic Paths PrivOps Cos DataIO Ls PostLogin Invariants.
From S2P Require Import Demo.

(** ** The commands, for an invariant that the data modes respect *)

Section Commands.
Context `{E : Env} `{T : Tun} `{QS : Qsort} `{JS : Json} (fuel : nat).
Context (I J : world → Prop) `{N : !Neutral I} (HIJ : ∀ w, I w → J w).
Context (H_pasv_cleanup : safe I J pasv_cleanup).
Context (H_port_cleanup : safe I J port_cleanup).
Context (H_query : safe I J query_pasv_active).
Context (H_pasv_fd : safe I J get_pasv_fd).
Context (H_data_sock : ∀ b, safe I J (get_priv_data_sock b)).
#[local] Hint Resolve H_pasv_cleanup H_port_cleanup H_query H_pasv_fd H_data_sock : inv.

Lemma active_safe d : safe I J (port_active d) ∧ safe I J (pasv_active d).
Proof.
  induction d as [|d [IH1 IH2]]; cbn [port_active pasv_active]; split; safe_auto HIJ.
Qed.

Lemma port_active_safe d : safe I J (port_active d).
Proof. apply active_safe. Qed.
Lemma pasv_active_safe d : safe I J (pasv_active d).
Proof. apply active_safe. Qed.
#[local] Hint Resolve port_active_safe pasv_active_safe : inv.

Lemma data_checks_safe : safe I J data_transfer_checks_ok.
Proof. unfold data_transfer_checks_ok. safe_auto HIJ. Qed.

Lemma get_remote_safe msg : safe I J (get_remote_transfer_fd msg).
Proof.
  unfold get_remote_transfer_fd, vsf_ftpdataio_get_pasv_fd, vsf_ftpdataio_get_port_fd.
  safe_auto HIJ.
Qed.
#[local] Hint Resolve data_checks_safe get_remote_safe : inv.

Lemma retr_safe http : safe I J (handle_retr fuel http).
Proof. unfold handle_retr, retr_report, cleanup_port_pasv. safe_auto HIJ. Qed.

Lemma dir_common_safe d s : safe I J (handle_dir_common fuel d s).
Proof. unfold handle_dir_common, cleanup_port_pasv. safe_auto HIJ. Qed.
#[local] Hint Resolve retr_safe dir_common_safe : inv.

(** The commands that write, for an invariant that allows it. *)
Section Writing.
Context (H_mutate : ∀ c, mutates c = true → inv I (ask c)).
Context (H_chown : ∀ fd, safe I J (chown_upload fd)).
#[local] Hint Extern 1 (mutates _ = true) => reflexivity : inv.
#[local] Hint Resolve H_mutate H_chown : inv.

Lemma upload_out_safe f fd p s : safe I J (upload_out f fd p s).
Proof. unfold upload_out. safe_auto HIJ. Qed.

Lemma upload_report_safe r f : safe I J (upload_report r f).
Proof. unfold upload_report. safe_auto HIJ. Qed.

Lemma upload_prepare_inv f fd s o a t : inv I (upload_prepare f fd s o a t).
Proof. unfold upload_prepare. inv_auto. Qed.

Lemma unique_inv n b k : inv I (unique_loop n b k).
Proof. revert k; induction n as [|n IH]; intros; cbn [unique_loop]; unfold str_stat_fails; inv_auto. Qed.
#[local] Hint Resolve upload_out_safe upload_report_safe upload_prepare_inv unique_inv : inv.

Lemma stor_safe a u : safe I J (handle_upload_common fuel a u).
Proof.
  unfold handle_upload_common, upload_transfer, get_unique_filename, str_stat_fails. safe_auto HIJ.
Qed.

Lemma mkd_safe : safe I J handle_mkd.
Proof. unfold handle_mkd. safe_auto HIJ. Qed.
Lemma rmd_safe : safe I J handle_rmd.
Proof. unfold handle_rmd. safe_auto HIJ. Qed.
Lemma dele_safe : safe I J handle_dele.
Proof. unfold handle_dele. safe_auto HIJ. Qed.

End Writing.

(** The commands whose guard the command loop checks, and the data modes, are
    assumed to respect [I]; then one round of the loop does. *)
Section Dispatch.
Context (H_stor : ∀ w, I w → may_write (sess w) "anon_upload_enable" = true →
                  safe I J (handle_stor fuel)).
Context (H_mkd : ∀ w, I w → may_write (sess w) "anon_mkdir_write_enable" = true →
                 safe I J handle_mkd).
Context (H_other : ∀ w, I w → may_write (sess w) "anon_other_write_enable" = true →
                   safe I J handle_rmd ∧ safe I J handle_dele).
Context (H_pasv : ∀ b, safe I J (handle_pasv b)).
Context (H_port : safe I J handle_port).
Context (H_eprt : safe I J handle_eprt).
#[local] Hint Resolve H_pasv H_port H_eprt : inv.

Ltac guarded :=
  match goal with
  | H : (may_write _ _ && _)%bool = true |- _ =>
      apply andb_true_iff in H as [H _]; first [eapply H_stor | eapply H_mkd | eapply H_other]; eassumption
  end.

Ltac walk :=
  repeat match goal with
  | |- safe _ _ (if ?b then _ else _) => destruct b eqn:?
  | |- safe _ _ (let _ := _ in _) => cbv zeta
  | |- safe _ _ (not_implemented _) => apply (inv_safe _ _ HIJ); apply quiet_cmdio_write; eauto with inv
  end; try guarded; safe_auto HIJ.

Lemma dispatch_rest_safe s cmd arg : safe I J (dispatch_rest fuel s cmd arg).
Proof. unfold dispatch_rest, handle_stat_file. walk. Qed.
#[local] Hint Resolve dispatch_rest_safe : inv.

Lemma dispatch_write_safe w cmd arg : I w → safe I J (dispatch_write fuel (sess w) cmd arg).
Proof. intros Hw. unfold dispatch_write, handle_nlst. walk. Qed.

Lemma dispatch_safe w cmd arg : I w → safe I J (dispatch fuel (sess w) cmd arg).
Proof.
  intros Hw. pose proof (dispatch_write_safe w cmd arg Hw).
  unfold dispatch, handle_list. walk.
Qed.

Lemma run_command_safe cmd arg : safe I J (run_command fuel cmd arg).
Proof. apply safe_gets. intros w Hw. by apply dispatch_safe. Qed.
#[local] Hint Resolve run_command_safe : inv.

Lemma post_login_command_safe : safe I J (post_login_command fuel).
Proof. unfold post_login_command, next_command, vsf_log_entry_pending. safe_auto HIJ. Qed.
#[local] Hint Resolve post_login_command_safe : inv.

Lemma post_login_loop_safe n : safe I J (post_login_loop fuel n).
Proof. induction n as [|n IH]; cbn [post_login_loop]; safe_auto HIJ. Qed.
#[local] Hint Resolve post_login_loop_safe : inv.

Lemma eat_headers_inv n : inv I (eat_headers n).
Proof. induction n as [|n IH]; cbn [eat_headers]; inv_auto. Qed.
#[local] Hint Resolve eat_headers_inv : inv.

Lemma handle_http_safe : safe I J (handle_http fuel).
Proof. unfold handle_http, vsf_log_entry_pending, raw_line, raw. safe_auto HIJ. Qed.
#[local] Hint Resolve handle_http_safe : inv.

Lemma process_post_login_safe n : safe I J (process_post_login fuel n).
Proof. unfold process_post_login. safe_auto HIJ. Qed.

End Dispatch.
End Commands.

(** ** No writes without permission *)

(** The calls made since the history was [h0]. *)
Definition since (h0 : history) (ok : call → bool) (h : history) : Prop :=
  ∃ new, h = new ++ h0 ∧ Forall (λ ca, ok ca.1 = true) new.

Lemma since_refl h0 ok : since h0 ok h0.
Proof. exists []. split; [done|constructor]. Qed.

Lemma since_cons h0 ok h c a : ok c = true → since h0 ok h → since h0 ok ((c, a) :: h).
Proof. intros Hc (new & -> & Hn). exists ((c, a) :: new). split; [done|]. by constructor. Qed.
#[export] Hint Resolve since_refl since_cons : inv.

Definition reads_only (c : call) : bool := negb (mutates c).

(** Since [h0] nothing was changed, but for directories on the path of one that
    could not be entered. *)
Inductive unchanged_since (h0 : history) : history → Prop :=
  | unchanged_refl : unchanged_since h0 h0
  | unchanged_read h c a : reads_only c = true → unchanged_since h0 h → unchanged_since h0 ((c, a) :: h)
  | unchanged_mirror h p m a :
      on_missing_path h p → unchanged_since h0 h → unchanged_since h0 ((Fs (Mkdir p m), a) :: h).
#[export] Hint Constructors unchanged_since : inv.

(** Who the client is and what was called, seen from the session [sel]. *)
Definition read_only_session (sel : world → vsf_session) (anon : bool) (perms : Z) (h0 : history)
    (w : world) : Prop :=
  is_anonymous (sel w) = anon ∧ permissions (sel w) = perms ∧ unchanged_since h0 (hist w).

Lemma benign_reads_only c : benign c = true → reads_only c = true.
Proof. unfold benign. by intros [? _]%andb_true_iff. Qed.

Lemma connect_reads_only c : connects c = true → reads_only c = true.
Proof. by destruct c as [| | | | | |[]| |]. Qed.
#[export] Hint Resolve benign_reads_only connect_reads_only : inv.

Lemma read_only_mode_free sel anon perms h0 :
  sel = sess ∨ sel = parent → ModeFree (read_only_session sel anon perms h0).
Proof.
  intros Hsel. unfold read_only_session. split; [split|..].
  { destruct Hsel as [-> | ->]; neutral_simpl; destruct_and!; split_and!; cbn; eauto with inv. }
  all: intros w; intros; destruct_and!; destruct Hsel as [-> | ->]; split_and!; cbn; eauto with inv.
Qed.

(** The conditions under which the loop accepts a command that writes. *)
Definition write_tunables : list string :=
  ["anon_upload_enable"; "anon_mkdir_write_enable"; "anon_other_write_enable"]%string.

(** C1: Without write permission neither COS nor a file is changed. In a session
    that may not write (write_enable is off, the login did not grant
    [Global_WRITE], or the session is anonymous and the anonymous write settings
    are off), whatever commands the client sends and whatever the kernel and COS
    answer, in any number of rounds of the command loop and also when the run
    stops: no COS object is created, removed or uploaded; on the server's disk no
    file is opened for writing, created, truncated or removed, no directory is
    removed, and no mode or owner is changed. The one change such a session can
    make is the one that CWD and CDUP make for a directory that exists in COS: a
    local directory is made only when the process has just failed to enter a
    directory, and it is that directory or one above it ([on_missing_path]); MKD
    makes none. What is written to descriptors that are open already, the
    connections and the log files, is not restricted. *)
Theorem no_write_without_permission `{E : Env} `{T : Tun} `{QS : Qsort} `{JS : Json} (fuel n : nat)
    (w : world) :
  Forall (λ v, may_write (sess w) v = false) write_tunables →
  unchanged_since (hist w) (hist (post_login_loop fuel n w).2).
Proof.
  intros Hw. set (I sel := read_only_session sel (is_anonymous (sess w)) (permissions (sess w)) (hist w)).
  assert (ModeFree (I sess)) as MF by (apply read_only_mode_free; auto).
  assert (ModeFree (I parent)) as MF' by (apply read_only_mode_free; auto).
  assert (∀ w', I sess w' ↔ I parent (swap w')) as Hs by done.
  assert (∀ w' v, I sess w' → v ∈ write_tunables → may_write (sess w') v = false) as Hno.
  { intros w' v (Ha & Hp & _) Hv. rewrite Forall_forall in Hw. rewrite <- (Hw v Hv).
    unfold may_write. by rewrite Ha, Hp. }
  assert (∀ w', I sess w' → unchanged_since (hist w) (hist w')) as HIJ by (by intros w' (_ & _ & ?)).
  assert (safe (I sess) (λ w', unchanged_since (hist w) (hist w')) (post_login_loop fuel n)) as H.
  { apply (post_login_loop_safe fuel _ _ HIJ); intros; try apply (inv_safe _ _ HIJ);
      [ by apply (two_pasv_cleanup _ (I parent)) | exact (two_port_cleanup (I sess))
      | by apply (two_query _ (I parent)) | by apply (two_get_pasv_fd _ (I parent))
      | by apply (two_get_data_sock _ (I parent)) | .. ];
      try (match goal with H : may_write (sess ?x) _ = true |- _ =>
             rewrite (Hno x) in H; [done|done|unfold write_tunables; set_solver] end);
      [ apply (two_handle_pasv _ (I parent)); [done|exact (two_port_cleanup (I sess))] | by apply (two_handle_port _ (I parent))
      | by apply (two_handle_eprt _ (I parent)) ]. }
  assert (I sess w) as Hi by (split_and!; auto with inv).
  specialize (H w Hi). destruct (post_login_loop fuel n w) as [[]]; cbn in *; [by apply HIJ|done].
Qed.

Lemma no_write_without_permission_witness :
  unchanged_since [] (hist (site_run (site_tun "write_enable" 0) (lit "hi") 3
    (site_world (line "PASV" ++ line "STOR x" ++ line "DELE y"))).2).
Proof.
  apply (no_write_without_permission (E := site_env (lit "hi")) (T := site_tun "write_enable" 0)
    (QS := merge_qsort) (JS := site_json) 16 3 (site_world (line "PASV" ++ line "STOR x" ++ line "DELE y"))).
  repeat constructor.
Defined.

(** ** Outgoing connections *)

(** The same host: all of an address but its port. *)
Definition same_host (a b : sockaddr) : Prop :=
  sa_family a = sa_family b ∧ sin_addr a = sin_addr b ∧ sin6_addr a = sin6_addr b.

Lemma memcmp_refl s : vsf_sysutil_memcmp s s = 0.
Proof. induction s as [|c s IH]; cbn; [done|]. by rewrite Z.eqb_refl. Qed.

Lemma same_host_addr_equal R a b :
  same_host a b → vsf_sysutil_sockaddr_addr_equal R a = vsf_sysutil_sockaddr_addr_equal R b.
Proof.
  destruct a, b. intros (Hf & H4 & H6). cbn in *. subst.
  unfold vsf_sysutil_sockaddr_addr_equal, vsf_sysutil_sockaddr_ipv6_v4. cbn. done.
Qed.

Lemma same_host_addr_equal_l a b R :
  same_host a b → vsf_sysutil_sockaddr_addr_equal a R = vsf_sysutil_sockaddr_addr_equal b R.
Proof.
  destruct a, b. intros (Hf & H4 & H6). cbn in *. subst.
  unfold vsf_sysutil_sockaddr_addr_equal, vsf_sysutil_sockaddr_ipv6_v4. cbn. done.
Qed.

Lemma addr_equal_refl a : sa_family a ≠ AF_UNSPEC → vsf_sysutil_sockaddr_addr_equal a a = true.
Proof.
  destruct a as [[] s4 s6 p sc]; intros Hf; try done; unfold vsf_sysutil_sockaddr_addr_equal; cbn;
    by rewrite memcmp_refl.
Qed.

Lemma set_port_same_host a p a' :
  vsf_sysutil_sockaddr_set_port a p = Ok a' →
  same_host a' a ∧ sa_port a' = u16 p ∧ sa_family a ≠ AF_UNSPEC.
Proof.
  unfold vsf_sysutil_sockaddr_set_port, same_host. destruct (sa_family a) eqn:E; [done|..];
    intros [= <-]; cbn; by rewrite ?E.
Qed.

Section Connections.
Context `{E : Env} `{T : Tun} `{QS : Qsort} `{JS : Json} (fuel : nat) (R : sockaddr) (h0 : history).

(** The client's host, on an unreserved port; any host if the configuration
    says so. *)
Definition connect_ok (a : sockaddr) : bool :=
  (tb tun "port_promiscuous" || vsf_sysutil_sockaddr_addr_equal R a) &&
  negb (vsf_sysutil_is_port_reserved (sa_port a)).

Definition connects_well (c : call) : bool :=
  match c with Sock (Connect _ a _) => connect_ok a | _ => true end.

(** What a PORT or EPRT command may leave behind. *)
Definition port_kept (o : option sockaddr) : Prop :=
  ∀ a, o = Some a → tb tun "port_promiscuous" || vsf_sysutil_sockaddr_addr_equal R a = true.

Record client_only (w : world) : Prop := {
  co_port : port_kept (p_port_sockaddr (sess w));
  co_port' : port_kept (p_port_sockaddr (parent w));
  co_remote : same_host (p_remote_addr (sess w)) R;
  co_remote' : same_host (p_remote_addr (parent w)) R;
  co_hist : since h0 connects_well (hist w)
}.

Lemma benign_connects_well c : benign c = true → connects_well c = true.
Proof. unfold benign. intros [_ H]%andb_true_iff. by destruct c as [| | | | | |[]| |]. Qed.
Lemma mutates_connects_well c : mutates c = true → connects_well c = true.
Proof. by destruct c as [| | | | | |[]| |]. Qed.
#[local] Hint Resolve benign_connects_well mutates_connects_well : inv.

#[local] Instance client_only_listen_free : ListenFree client_only.
Proof.
  split.
  - neutral_simpl; match goal with H : client_only _ |- _ => destruct H end;
      constructor; cbn; eauto with inv.
  - intros w v []. by constructor.
Qed.

Lemma client_only_swap w : client_only w ↔ client_only (swap w).
Proof. split; intros []; by constructor. Qed.

Let HIJ : ∀ w, client_only w → since h0 connects_well (hist w) := co_hist.

Lemma client_port_cleanup : inv client_only port_cleanup.
Proof. apply inv_upd. intros w []. by constructor. Qed.
#[local] Hint Resolve client_port_cleanup : inv.

Lemma client_mutate c : mutates c = true → inv client_only (ask c).
Proof. intros Hc. apply inv_ask. intros w a []. constructor; cbn; eauto with inv. Qed.

(** The connection itself. *)
Lemma client_connect s a t : connect_ok a = true → inv client_only (sys (Sock (Connect s a t))).
Proof.
  intros Ha. unfold sys. inv_auto. apply inv_ask. intros w r []. constructor; cbn; eauto with inv.
Qed.

(** After the reserved-port test the connection goes to an address that the
    continuation of the code determines. *)
Lemma port_sock_safe (I : world → Prop) `{!ListenFree I} p b :
  (∀ w, I w → since h0 connects_well (hist w)) →
  (vsf_sysutil_is_port_reserved p = false →
   hoare I (if b : bool then
              q ← gets p_port_sockaddr;
              match q with Some a => mret a | None => stop_with UB end
            else
              remote ← gets p_remote_addr;
              a ← lift (vsf_sysutil_sockaddr_set_port remote p);
              upd (set_p_remote_addr a);;
              mret a)
     (λ a w, I w ∧ connect_ok a = true) (λ _ w, since h0 connects_well (hist w))) →
  (∀ s a t, connect_ok a = true → inv I (sys (Sock (Connect s a t)))) →
  safe I (λ w, since h0 connects_well (hist w)) (vsf_privop_get_ftp_port_sock p b).
Proof.
  intros HI Hto Hcon. unfold vsf_privop_get_ftp_port_sock.
  apply safe_bind; [safe_auto HI|intros local].
  apply safe_bind; [unfold vsf_sysutil_get_sock; safe_auto HI|intros s].
  apply safe_bind; [safe_auto HI|intros lfd].
  destruct (negb _); [safe_auto HI|].
  destruct (vsf_sysutil_is_port_reserved p) eqn:Hr; [safe_auto HI|]. cbv zeta.
  apply safe_bind; [safe_auto HI|intros _]. apply safe_bind; [safe_auto HI|intros _].
  eapply hoare_bind; [by apply Hto|]. intros a w [Hw Ha].
  assert (safe I (λ w, since h0 connects_well (hist w))
            (retval ← sys (Sock (Connect s a (tu tun "connect_timeout")));
             check_pending CtxUnknown;;
             if vsf_sysutil_retval_is_error retval then vsf_sysutil_close s;; mret (-1)
             else mret s)) as H; [|exact (H w Hw)].
  apply safe_bind; [apply (inv_safe _ _ HI); auto|intros r]. safe_auto HI.
Qed.

(** One process: the address of the PORT command. *)
Definition with_port (a : sockaddr) (w : world) : Prop :=
  client_only w ∧ p_port_sockaddr (sess w) = Some a.

#[local] Instance with_port_listen_free a : ListenFree (with_port a).
Proof.
  split.
  - neutral_simpl; match goal with H : with_port _ _ |- _ => destruct H as [[] ?] end;
      split; try done; constructor; cbn; eauto with inv.
  - intros w v [[] ?]. by split; [constructor|].
Qed.

Lemma client_one_sock a p :
  sa_port a = p → safe (with_port a) (λ w, since h0 connects_well (hist w))
                    (vsf_privop_get_ftp_port_sock p true).
Proof.
  intros Hp. apply (port_sock_safe (with_port a)); [by intros w [[] _]| |].
  - intros Hr w [Hw Ha]. unfold mbind, M_bind, gets. cbn. rewrite Ha. cbn. split; [done|].
    unfold connect_ok. rewrite Hp, Hr, andb_true_r. by apply (co_port _ Hw).
  - intros s b t Hb. unfold sys. inv_auto. apply inv_ask. intros w r [[] ?].
    split; [constructor; cbn; eauto with inv|done].
Qed.

(** Two processes: the client's own address. *)
Lemma client_two_sock p :
  u16 p = p → safe client_only (λ w, since h0 connects_well (hist w))
                (vsf_privop_get_ftp_port_sock p false).
Proof.
  intros Hp. apply (port_sock_safe client_only); [exact HIJ| |intros; by apply client_connect].
  intros Hr w Hw. unfold mbind, M_bind, gets, lift. cbn.
  destruct (vsf_sysutil_sockaddr_set_port _ p) as [a|] eqn:Ea; [cbn|by apply HIJ].
  apply set_port_same_host in Ea as (Hh & Hpo & Hf).
  destruct Hw as [? ? Hrem ? ?]. assert (same_host a R) as HaR.
  { unfold same_host in *. destruct Hh as (-> & -> & ->). exact Hrem. }
  split; [by constructor|]. unfold connect_ok. rewrite Hpo, Hp, Hr, andb_true_r.
  rewrite (same_host_addr_equal R a R HaR), addr_equal_refl, orb_true_r; [done|].
  by destruct Hrem as [<- _].
Qed.

Lemma u16_u16 z : u16 (u16 z) = u16 z.
Proof. unfold u16. by rewrite Z.mod_mod. Qed.

Lemma client_on_parent {A} (m : M A) :
  safe client_only (λ w, since h0 connects_well (hist w)) m →
  safe client_only (λ w, since h0 connects_well (hist w)) (on_parent m).
Proof.
  intros Hm w Hw%client_only_swap. specialize (Hm _ Hw). unfold on_parent. fold (swap w).
  destruct (m (swap w)) as [[a|s] w']; [by apply client_only_swap in Hm|done].
Qed.

Lemma client_data_sock b :
  safe client_only (λ w, since h0 connects_well (hist w)) (get_priv_data_sock b).
Proof.
  unfold get_priv_data_sock. apply hoare_gets. intros [a|].
  2:{ intros w [_ Hw]. by apply HIJ. }
  intros w [Hq Hw]. unfold mbind, M_bind, lift.
  destruct (vsf_sysutil_sockaddr_get_port a) as [port|] eqn:Ep; [|by apply HIJ].
  assert (sa_port a = port) as Hp.
  { unfold vsf_sysutil_sockaddr_get_port in Ep. destruct (sa_family a); [discriminate|by injection Ep..]. }
  destruct b.
  - pose proof (client_one_sock a port Hp w (conj Hw Hq)) as H.
    destruct (vsf_privop_get_ftp_port_sock port true w) as [[]]; [by destruct H|done].
  - refine (client_on_parent (cmd_process_get_data_sock port) _ w Hw).
    unfold cmd_process_get_data_sock. apply safe_bind; [apply client_two_sock, u16_u16|intros fd].
    safe_auto HIJ.
Qed.

(** PORT and EPRT leave an address of the client's host, or none. *)
Lemma client_accept_port a p good bad :
  safe client_only (λ w, since h0 connects_well (hist w)) (accept_port a p good bad).
Proof.
  unfold accept_port. intros w Hw. unfold mbind at 1, M_bind, upd, modw.
  set (w1 := put_sess _ w). set (I1 w := same_host (p_remote_addr (sess w)) R ∧
    client_only (put_sess (set_p_port_sockaddr None (sess w)) w) ∧
    p_port_sockaddr (sess w) = Some a).
  assert (I1 w1) as H1 by (destruct Hw; split_and!; try done; by constructor).
  clearbody w1. clear Hw w. revert w1 H1.
  assert (ListenFree I1) as LF1.
  { split.
    - neutral_simpl; destruct_and?; match goal with H : I1 _ |- _ => destruct H as (? & [] & ?) end;
        split_and!; try done; constructor; cbn in *; eauto with inv.
    - intros w v (? & [] & ?). split_and!; try done. }
  assert (∀ w, I1 w → since h0 connects_well (hist w)) as HJ by (by intros w (_ & [] & _)).
  assert (∀ code t, hoare I1 (vsf_cmdio_write code t) (λ _, I1) (λ _ w, since h0 connects_well (hist w)))
    as Hwr by (intros; apply (inv_safe _ _ HJ), quiet_cmdio_write; eauto with inv).
  change (hoare I1 (remote ← gets p_remote_addr;
    if negb (port_allowed remote a p) then vsf_cmdio_write 500 bad;; port_cleanup
    else vsf_cmdio_write 200 good) (λ _, client_only) (λ _ w, since h0 connects_well (hist w))).
  apply hoare_gets. intros remote. destruct (port_allowed remote a p) eqn:Ha; cbn [negb].
  - intros w [Hr Hw]. assert (port_kept (Some a)) as Hk.
    { intros b [= <-]. unfold port_allowed in Ha. destruct (tb tun "port_promiscuous"); [done|].
      cbn in *. apply andb_true_iff in Ha as [Ha _]. rewrite <- Ha.
      symmetry. apply same_host_addr_equal_l. destruct Hw as [Hw _]. congruence. }
    pose proof (Hwr 200 good w Hw) as H.
    destruct (vsf_cmdio_write 200 good w) as [[]]; [|done].
    destruct H as (? & [] & Hp). constructor; try done. by rewrite Hp.
  - intros w [_ Hw]. pose proof (Hwr 500 bad w Hw) as H. unfold mbind, M_bind.
    destruct (vsf_cmdio_write 500 bad w) as [[] w']; [|done]. exact (proj1 (proj2 H)).
Qed.
#[local] Hint Resolve client_accept_port client_data_sock : inv.

Lemma client_pasv_cleanup : inv client_only pasv_cleanup.
Proof. apply (two_pasv_cleanup _ client_only), client_only_swap. Qed.
#[local] Hint Resolve client_pasv_cleanup : inv.

Lemma client_handle_port : safe client_only (λ w, since h0 connects_well (hist w)) handle_port.
Proof. unfold handle_port. safe_auto HIJ. Qed.
Lemma client_handle_eprt : safe client_only (λ w, since h0 connects_well (hist w)) handle_eprt.
Proof. unfold handle_eprt. safe_auto HIJ. Qed.

Lemma client_chown fd : safe client_only (λ w, since h0 connects_well (hist w)) (chown_upload fd).
Proof.
  assert (∀ fd, inv client_only (vsf_privop_do_file_chown fd)) as H.
  { intros d. unfold vsf_privop_do_file_chown. inv_auto using (by apply client_mutate). }
  unfold chown_upload. apply (inv_safe _ _ HIJ).
  destruct one_process; [apply H|]. destruct (tb _ _); [|apply inv_stop].
  apply (inv_on_parent _ client_only); [apply client_only_swap|].
  unfold cmd_process_chown. inv_auto.
Qed.

Lemma client_query : safe client_only (λ w, since h0 connects_well (hist w)) query_pasv_active.
Proof. apply (inv_safe _ _ HIJ), (two_query _ client_only), client_only_swap. Qed.
Lemma client_pasv_fd : safe client_only (λ w, since h0 connects_well (hist w)) get_pasv_fd.
Proof. apply (inv_safe _ _ HIJ), (two_get_pasv_fd _ client_only), client_only_swap. Qed.

Lemma client_loop_safe n :
  safe client_only (λ w, since h0 connects_well (hist w)) (post_login_loop fuel n).
Proof.
  assert (safe client_only (λ w, since h0 connects_well (hist w)) pasv_cleanup) as Hc
    by (apply (inv_safe _ _ HIJ), client_pasv_cleanup).
  assert (safe client_only (λ w, since h0 connects_well (hist w)) port_cleanup) as Hp
    by (apply (inv_safe _ _ HIJ), client_port_cleanup).
  pose proof client_query. pose proof client_pasv_fd. pose proof client_data_sock.
  pose proof client_mutate. pose proof client_chown.
  apply (post_login_loop_safe fuel _ _ HIJ); try done; intros.
  - by apply (stor_safe fuel _ _ HIJ).
  - by apply (mkd_safe _ _ HIJ).
  - split; [by apply (rmd_safe _ _ HIJ)|by apply (dele_safe _ _ HIJ)].
  - apply (inv_safe _ _ HIJ), (two_handle_pasv _ client_only);
      [apply client_only_swap|apply client_port_cleanup].
  - apply client_handle_port.
  - apply client_handle_eprt.
Qed.

End Connections.

(** C2: The server opens data connections only to the client. In any number of
    rounds of the command loop, for any commands, kernel and COS, in the one
    and the two process model, every [connect] goes to the host of the control
    connection and to a port that is not reserved (no FTP bounce); with
    port_promiscuous set the host is free, the port still not. The session
    starts with no PORT address and the privileged parent knows the same client. *)
Theorem connects_only_to_client `{E : Env} `{T : Tun} `{QS : Qsort} `{JS : Json} (fuel n : nat) (w : world) :
  p_port_sockaddr (sess w) = None → p_port_sockaddr (parent w) = None →
  same_host (p_remote_addr (parent w)) (p_remote_addr (sess w)) →
  since (hist w) (connects_well (p_remote_addr (sess w))) (hist (post_login_loop fuel n w).2).
Proof.
  intros H1 H2 H3.
  assert (client_only (p_remote_addr (sess w)) (hist w) w) as Hw.
  { constructor; [by rewrite H1|by rewrite H2|done|done|apply since_refl]. }
  pose proof (client_loop_safe fuel _ _ n w Hw) as H.
  destruct (post_login_loop fuel n w) as [[] w']; [apply H|done].
Qed.

Lemma connects_only_to_client_witness :
  since [] (connects_well (T := site_tun "write_enable" 1) site_client)
    (hist (site_run (site_tun "write_enable" 1) (lit "hi") 2
      (site_world (line "PORT 10,0,0,7,10,1" ++ line "STOR x"))).2).
Proof.
  apply (connects_only_to_client (E := site_env (lit "hi")) (T := site_tun "write_enable" 1)
    (QS := merge_qsort) (JS := site_json) 16 2 (site_world (line "PORT 10,0,0,7,10,1" ++ line "STOR x")));
    by vm_compute.
Defined.

(** ** Where an upload goes *)

(** The files a run created, newest first. *)
Definition created (h : history) : list bytes :=
  omap (λ e, match e.1 with Fs (Create p _) => Some p | _ => None end) h.

(** An upload can leave the users' root: with the root /data/100/files and
    write permission, "STOR ../../x" is answered with 226 after creating
    /data/100/files/../../x, which is /data/x. [handle_upload_common] prepends
    the root before the access check, and the check prepends it once more: it
    examines /data/100/files/data/100/files/../../x. *)
Example stor_leaves_root :
  let w' := (site_run (site_tun "write_enable" 1) (lit "hi") 2
               (site_world (line "PASV" ++ line "STOR ../../x"))).2 in
  created (hist w') = [lit "/data/100/files/../../x"] ∧
  last (replies w') = Some (line "226 Transfer complete.") ∧
  ¬ resolve demo_root `suffix_of` resolve (lit "/data/100/files/../../x").
Proof. split_and!; [by vm_compute|by vm_compute|]. apply (bool_decide_unpack _). by vm_compute. Qed.
