(* ===== verification/Answers.v ===== *)
(** * Every command is answered

    No path through the command handlers is silent: a command that is not blank
    gets a final reply, or its data connection timed out and the session ends
    with a 421. *)

From Stdlib Require Import Init.Byte Strings.Byte.
From Stdlib Require Import ZArith Lia String.
From stdpp Require Import base list numbers option gmap strings.
From S2P Require Import Prelude SysUtil Text StrList IpAddr Tunables Session CmdIO.
From S2P Require Import Signals Logic Paths PrivOps Cos DataIO Ls PostLogin.
From S2P Require Import Demo Invariants Assertions SessionSafety.

(** A call that gives the client a final reply: not a preliminary one (150), nor
    a line that others follow (with a hyphen). *)
Definition final_reply (c : call) : Prop :=
  ∃ status text, 200 ≤ status ∧
    let d := response status SP text in
    c = Write VSFTP_COMMAND_FD d ∨ c = Ssl (SlaveCmd "WRITE_USER_RESP" d) ∨
    c = Ssl (SslCall "ssl_write_str" d).

Section Answered.
Context (h0 : history).

(** Since [h0] a final reply was given, or the data connection timed out. *)
Definition replied (sel : world → vsf_session) (w : world) (new : history) : Prop :=
  Exists (λ ca, final_reply ca.1) new ∨ data_timeout (sel w) = true.

(** ... if [b]. *)
Definition answered (sel : world → vsf_session) (b : bool) (w : world) : Prop :=
  ∃ new, hist w = new ++ h0 ∧ (b = true → replied sel w new).

Lemma answered_ask sel b c a w :
  sel = sess ∨ sel = parent → answered sel b w → answered sel b (put_hist ((c, a) :: hist w) w).
Proof.
  intros Hs (new & Hn & Hr). exists ((c, a) :: new). cbn. rewrite Hn. split; [done|].
  intros Hb. destruct (Hr Hb) as [H|H]; [left; by constructor 2|right].
  by destruct Hs as [-> | ->].
Qed.

Lemma answered_mode_free sel b : sel = sess ∨ sel = parent → ModeFree (answered sel b).
Proof.
  intros Hs. split; [split|..].
  - destruct Hs as [-> | ->]; neutral_simpl; try (apply answered_ask; by auto);
      match goal with H : answered _ _ _ |- _ => destruct H as (new & Hn & Hr) end;
      exists new; (split; [done|]; intros Hb; destruct (Hr Hb); [by left|by right]).
  - intros w v (new & Hn & Hr). exists new. split; [done|]. intros Hb.
    destruct (Hr Hb); [by left|right; by destruct Hs as [-> | ->]].
  - intros w c a _. by apply answered_ask.
  - intros w v (new & Hn & Hr). exists new. split; [done|]. intros Hb.
    destruct (Hr Hb); [by left|right; by destruct Hs as [-> | ->]].
  - intros w v (new & Hn & Hr). exists new. split; [done|]. intros Hb.
    destruct (Hr Hb); [by left|right; by destruct Hs as [-> | ->]].
Qed.

End Answered.

#[export] Instance answered_sess h0 b : ModeFree (answered h0 sess b).
Proof. apply answered_mode_free. by left. Qed.
#[export] Instance answered_parent h0 b : ModeFree (answered h0 parent b).
Proof. apply answered_mode_free. by right. Qed.

(** ** What the code keeps *)

Section Keeps.
Context `{E : Env} `{T : Tun} `{QS : Qsort} `{JS : Json} (fuel : nat) (h0 : history).
Abbreviation kept_by b := (inv (answered h0 sess b)).

Lemma answered_swap b w : answered h0 sess b w ↔ answered h0 parent b (swap w).
Proof. done. Qed.

Lemma keep_ask b c : kept_by b (ask c).
Proof. apply inv_ask. intros. by apply answered_ask; [left|]. Qed.
Lemma keep_parent_ask b c : inv (answered h0 parent b) (ask c).
Proof. apply inv_ask. intros. by apply answered_ask; [right|]. Qed.
#[local] Hint Resolve keep_ask keep_parent_ask : inv.
Lemma keep_pasv_cleanup b : kept_by b pasv_cleanup.
Proof. by apply (two_pasv_cleanup _ (answered h0 parent b)). Qed.
Lemma keep_port_cleanup b : kept_by b port_cleanup.
Proof. exact (two_port_cleanup (answered h0 sess b)). Qed.
Lemma keep_query b : kept_by b query_pasv_active.
Proof. by apply (two_query _ (answered h0 parent b)). Qed.
Lemma keep_pasv_listen b : kept_by b pasv_listen.
Proof. by apply (two_pasv_listen _ (answered h0 parent b)). Qed.
Lemma keep_pasv_fd b : kept_by b get_pasv_fd.
Proof. by apply (two_get_pasv_fd _ (answered h0 parent b)). Qed.
Lemma keep_data_sock b o : kept_by b (get_priv_data_sock o).
Proof. by apply (two_get_data_sock _ (answered h0 parent b)). Qed.
Lemma keep_chown b fd : kept_by b (chown_upload fd).
Proof.
  assert (inv (answered h0 parent b) (cmd_process_chown fd)).
  { unfold cmd_process_chown, vsf_privop_do_file_chown. inv_auto. }
  unfold chown_upload, vsf_privop_do_file_chown.
  inv_auto using (by apply (inv_on_parent _ _ _ (answered_swap b))).
Qed.
#[local] Hint Resolve keep_pasv_cleanup keep_port_cleanup keep_query keep_pasv_listen keep_pasv_fd
  keep_data_sock keep_chown : inv.
Lemma keep_active b d : kept_by b (port_active d) ∧ kept_by b (pasv_active d).
Proof. induction d as [|d [IH1 IH2]]; cbn [port_active pasv_active]; split; inv_auto. Qed.
Lemma keep_port_active b d : kept_by b (port_active d).
Proof. apply keep_active. Qed.
Lemma keep_pasv_active b d : kept_by b (pasv_active d).
Proof. apply keep_active. Qed.
#[local] Hint Resolve keep_port_active keep_pasv_active : inv.
Lemma keep_unique b p : kept_by b (get_unique_filename fuel p).
Proof.
  assert (∀ n p x, kept_by b (unique_loop n p x)) as H.
  { induction n as [|n IH]; intros; cbn [unique_loop]; unfold str_stat_fails; inv_auto. }
  unfold get_unique_filename, str_stat_fails. inv_auto.
Qed.
Lemma keep_upload_out b f fd c s : kept_by b (upload_out f fd c s).
Proof. unfold upload_out. inv_auto. Qed.
Lemma keep_cleanup b : kept_by b cleanup_port_pasv.
Proof. unfold cleanup_port_pasv. inv_auto. Qed.
Lemma keep_reply_addr b a : kept_by b (pasv_reply_addr a).
Proof. unfold pasv_reply_addr, vsf_sysutil_inet_ntop. inv_auto. Qed.
End Keeps.
#[export] Hint Resolve keep_ask keep_pasv_cleanup keep_port_cleanup keep_query keep_pasv_listen
  keep_pasv_fd keep_data_sock keep_chown keep_port_active keep_pasv_active keep_unique
  keep_upload_out keep_cleanup keep_reply_addr : inv.

(** ** Code that answers *)

Section Says.
Context `{E : Env} `{T : Tun} `{QS : Qsort} `{JS : Json} (fuel : nat) (h0 : history).

(** If the run returns, [b] of the value says that there is an answer. *)
Definition says_if {A} (P : bool) (m : M A) (b : A → bool) : Prop :=
  hoare (answered h0 sess P) m (λ a, answered h0 sess (b a)) (λ _ _, True).
Abbreviation says m := (says_if false m (λ _, true)).

Lemma answered_weaken w b b' : answered h0 sess b w → (b' = true → b = true) → answered h0 sess b' w.
Proof. intros (new & Hn & H) Hb. exists new. auto. Qed.

Lemma says_keeps {A} b (m : M A) : inv (answered h0 sess b) m → says_if b m (λ _, b).
Proof. intros H. eapply hoare_conseq; [exact H|done..]. Qed.
Lemma answer_bind {A B} P (m : M A) (k : A → M B) b c :
  says_if P m b → (∀ a, says_if (b a) (k a) c) → says_if P (m ≫= k) c.
Proof. apply hoare_bind. Qed.
Lemma answer_ret {A} P (a : A) b : (b a = true → P = true) → says_if P (mret a) b.
Proof. intros H. apply hoare_ret. intros w Hw. by apply (answered_weaken _ _ _ Hw). Qed.
Lemma says_stop {A} P s b : says_if (A := A) P (stop_with s) b.
Proof. done. Qed.
Lemma says_right {A B} b (m : M A) (k : A → M B) c :
  inv (answered h0 sess b) m → (∀ a, says_if b (k a) c) → says_if b (m ≫= k) c.
Proof. intros Hm Hk. eapply answer_bind; [by apply says_keeps|done]. Qed.
(** Once there is an answer there is one. *)
Lemma says_done {A} P (m : M A) (b : A → bool) :
  inv (answered h0 sess true) m → P = true → says_if P m b.
Proof.
  intros Hm ->. eapply hoare_conseq; [exact Hm|done| |done].
  intros a w Hw. by apply (answered_weaken _ _ _ Hw).
Qed.
Lemma says_always {A} P (m : M A) b : says m → says_if P m b.
Proof.
  intros H. eapply hoare_conseq; [exact H| | |done].
  - intros w Hw. by apply (answered_weaken _ _ _ Hw).
  - intros a w Hw. by apply (answered_weaken _ _ _ Hw).
Qed.

(** *** Replies *)

Lemma response_not_empty st sep t : response st sep t ≠ [].
Proof. unfold response. intros H. by apply app_eq_nil in H as [_ [=]]. Qed.

Lemma says_ask {A} c (k : answer → M A) b :
  final_reply c → (∀ a, inv (answered h0 sess true) (k a)) → says_if false (ask c ≫= k) b.
Proof.
  intros Hc Hk. eapply answer_bind with (b := λ _, true); [|intros a; by apply says_done].
  intros w (new & Hn & _). cbn. exists ((c, env (hist w) c) :: new). cbn. rewrite Hn.
  split; [done|]. intros _. left. by constructor.
Qed.

Lemma says_write_loop st t :
  200 ≤ st → says (vsf_sysutil_write_loop VSFTP_COMMAND_FD (response st SP t)).
Proof.
  intros Hst. unfold vsf_sysutil_write_loop. destruct (_ <? _); [apply says_stop|].
  cbn [write_loop]. eapply answer_bind with (b := λ _, true).
  2: { intros r. apply says_done; [|done].
       inv_auto using (apply quiet_write_loop_fuel; auto with inv). }
  unfold vsf_sysutil_write, sys. eapply answer_bind; [|intros r; apply says_done; [inv_auto|done]].
  apply says_ask; [|intros; inv_auto]. exists st, t. auto.
Qed.

Lemma says_reply st t : 200 ≤ st → says (ftp_write_str_common st SP t).
Proof.
  intros Hst. unfold ftp_write_str_common. apply says_right; [inv_auto|intros _].
  eapply answer_bind with (b := λ _, true); [|intros r; apply says_done; [inv_auto|done]].
  unfold ftp_write_str. apply says_right; [inv_auto|intros slave].
  apply says_right; [inv_auto|intros ssl]. destruct (ssl && slave); [|destruct ssl].
  - unfold sys. apply says_ask; [|intros; inv_auto]. exists st, t. auto.
  - unfold sys. apply says_ask; [|intros; inv_auto]. exists st, t. auto.
  - unfold str_netfd_write. destruct (_ =? 0); [apply says_stop|].
    eapply answer_bind; [by apply says_write_loop|intros r; apply says_done; [inv_auto|done]].
Qed.

Lemma says_cmdio_write st t : 200 ≤ st → says (vsf_cmdio_write st t).
Proof. apply says_reply. Qed.
Lemma says_cmdio_write_str st t : 200 ≤ st → says (vsf_cmdio_write_str st t).
Proof. apply says_reply. Qed.
Lemma says_exit {A} P st t v (b : A → bool) : says_if P (vsf_cmdio_write_exit st t v) b.
Proof.
  intros w _. unfold vsf_cmdio_write_exit, must, do_, sys, mbind, M_bind. cbn.
  repeat case_match; simplify_eq; done.
Qed.
Lemma says_mbug {A} P t (b : A → bool) : says_if P (mbug t) b.
Proof. done. Qed.
Lemma says_mdie {A} P t (b : A → bool) : says_if P (mdie t) b.
Proof. done. Qed.

(** A reply about a transfer is left out only when it timed out. *)
Lemma says_timeout {A} (m : bool → M A) :
  says_if false (m false) (λ _, true) → inv (answered h0 sess true) (m true) →
  says_if false (timeout ← gets data_timeout; m timeout) (λ _, true).
Proof.
  intros Hf Ht. apply hoare_gets. intros [].
  - eapply hoare_conseq; [exact Ht| |done..]. intros w [Hw (new & Hn & _)].
    exists new. split; [done|]. intros _. by right.
  - eapply hoare_conseq; [exact Hf| |done..]. by intros w [].
Qed.

End Says.
Create HintDb says discriminated.
#[export] Hint Constants Opaque : says.
#[export] Hint Resolve says_exit says_mbug says_mdie says_stop : says.
#[export] Hint Extern 1 (says_if _ _ (vsf_cmdio_write _ _) _) =>
  (apply says_always, says_cmdio_write; lia) : says.
#[export] Hint Extern 1 (says_if _ _ (vsf_cmdio_write_str _ _) _) =>
  (apply says_always, says_cmdio_write_str; lia) : says.

(** Walk through a handler. *)
Ltac says_auto := repeat says_step
with says_step :=
  match goal with
  | |- says_if _ _ (mret _) _ => apply answer_ret; done
  | |- says_if _ true _ _ => apply says_done; [solve [inv_auto]|done]
  | |- says_if _ false (mbind _ (gets data_timeout)) _ => apply says_timeout;
      [cbn [negb when]|cbv beta; solve [inv_auto]]
  | |- says_if _ _ (mbind _ (if _ then _ else _)) _ =>
      first [ eapply answer_bind with (b := λ _, true); [solve [says_auto]|intros ?]
            | apply says_right; [solve [inv_auto]|intros ?] ]
  | |- says_if _ _ (mbind _ _) _ =>
      first [ eapply answer_bind with (b := λ _, true); [solve [eauto with says]|intros ?]
            | eapply answer_bind; [solve [eauto with says]|intros ?]
            | apply says_right; [solve [inv_auto]|intros ?] ]
  | |- says_if _ _ (if true && _ then _ else _) _ => cbn [andb]
  | |- says_if _ _ (when _ _) _ => unfold when
  | |- says_if _ _ (if ?b then _ else _) _ => destruct b eqn:?; try discriminate
  | |- says_if _ _ (match ?x with _ => _ end) _ => destruct x eqn:?
  | |- says_if _ _ (let _ := _ in _) _ => cbv zeta
  | |- says_if _ _ _ _ => solve [eauto with says]
  end.

Section Commands.
Context `{E : Env} `{T : Tun} `{QS : Qsort} `{JS : Json} (fuel : nat) (h0 : history).
Abbreviation says m := (says_if h0 false m (λ _, true)).

Lemma pwd_says : says handle_pwd.
Proof. unfold handle_pwd, str_session_getcwd. says_auto. Qed.
Lemma cwd_says : says handle_cwd.
Proof.
  unfold handle_cwd.
  repeat first [ says_step
               | apply says_right; [repeat first [apply (steady_enter _) | inv_step idtac]|intros ?] ].
Qed.
#[local] Hint Resolve cwd_says : says.
Lemma cdup_says : says handle_cdup.
Proof. unfold handle_cdup. says_auto. Qed.
Lemma size_says : says handle_size.
Proof. unfold handle_size. says_auto. Qed.
Lemma type_says : says handle_type.
Proof. unfold handle_type. says_auto. Qed.
Lemma rest_says : says handle_rest.
Proof. unfold handle_rest. says_auto. Qed.
Lemma help_says : says handle_help.
Proof. unfold handle_help, raw_line. says_auto. Qed.
Lemma stat_says : says handle_stat.
Proof. unfold handle_stat, raw_line, raw. says_auto. Qed.
Lemma user_says : says handle_logged_in_user.
Proof. unfold handle_logged_in_user. says_auto. Qed.
Lemma pass_says : says handle_logged_in_pass.
Proof. unfold handle_logged_in_pass. says_auto. Qed.
Lemma pbsz_says : says handle_pbsz.
Proof. unfold handle_pbsz. says_auto. Qed.
Lemma prot_says : says handle_prot.
Proof. unfold handle_prot. says_auto. Qed.
Lemma feat_says : says handle_feat.
Proof. unfold handle_feat, raw_line. says_auto. Qed.
Lemma opts_says : says handle_opts.
Proof. unfold handle_opts. says_auto. Qed.
Lemma mkd_says : says handle_mkd.
Proof. unfold handle_mkd. says_auto. Qed.
Lemma rmd_says : says handle_rmd.
Proof. unfold handle_rmd. says_auto. Qed.
Lemma dele_says : says handle_dele.
Proof. unfold handle_dele. says_auto. Qed.
Lemma pasv_says b : says (handle_pasv b).
Proof. unfold handle_pasv. says_auto. Qed.
Lemma accept_port_says a p g b : says (accept_port a p g b).
Proof. unfold accept_port. says_auto. Qed.
#[local] Hint Resolve accept_port_says : says.
Lemma port_says : says handle_port.
Proof. unfold handle_port. says_auto. Qed.
Lemma eprt_says : says handle_eprt.
Proof. unfold handle_eprt. says_auto. Qed.

(** *** Transfers *)

Lemma checks_says : says_if h0 false data_transfer_checks_ok negb.
Proof. unfold data_transfer_checks_ok. says_auto. Qed.

Lemma post_mark_says : says_if h0 false vsf_ftpdataio_post_mark_connect negb.
Proof.
  unfold vsf_ftpdataio_post_mark_connect.
  do 2 (apply says_right; [inv_auto|intros ?]). says_step; [says_auto|].
  apply says_right; [inv_auto|intros []]; cbn [negb]; [says_auto|].
  eapply answer_bind with (b := λ _, true); [says_auto|intros ?; says_auto].
Qed.

Lemma init_says fd P :
  0 ≤ fd → says_if h0 P (init_data_sock_params fd;; mret fd) vsf_sysutil_retval_is_error.
Proof.
  intros Hfd. apply says_right; [destruct P; inv_auto|intros ?]. apply answer_ret.
  unfold vsf_sysutil_retval_is_error. intros H. b2p. lia.
Qed.

(** What is known of the value of the first part. *)
Lemma says_value {A B} (φ : A → Prop) (m : M A) (k : A → M B) b :
  yields φ m → inv (answered h0 sess false) m → (∀ a, φ a → says_if h0 false (k a) b) →
  says_if h0 false (m ≫= k) b.
Proof.
  intros Hy Hm Hk w Hw. specialize (Hm w Hw). specialize (Hy w). unfold mbind, M_bind.
  destruct (m w) as [[a|s] w']; [|done]. apply Hk; [by eapply Hy|done].
Qed.

Lemma pasv_fd_says : says_if h0 false vsf_ftpdataio_get_pasv_fd vsf_sysutil_retval_is_error.
Proof.
  unfold vsf_ftpdataio_get_pasv_fd. eapply says_value; [apply yields_pasv_fd|inv_auto|].
  intros fd Hfd. unfold accepted in Hfd. says_step; [says_auto|]. says_step; [says_auto|].
  apply init_says. b2p. lia.
Qed.

Lemma port_fd_says : says_if h0 false vsf_ftpdataio_get_port_fd vsf_sysutil_retval_is_error.
Proof.
  unfold vsf_ftpdataio_get_port_fd. eapply says_value; [apply yields_data_sock|inv_auto|].
  intros fd Hfd. says_step; [says_auto|]. apply init_says.
  unfold vsf_sysutil_retval_is_error in *. b2p. lia.
Qed.
#[local] Hint Resolve checks_says post_mark_says pasv_fd_says port_fd_says : says.

Lemma remote_fd_says msg : says_if h0 false (get_remote_transfer_fd msg) vsf_sysutil_retval_is_error.
Proof.
  unfold get_remote_transfer_fd. do 2 says_step. says_step; [says_auto|].
  do 2 says_step. eapply answer_bind; [destruct a2; eauto with says|intros fd].
  destruct (vsf_sysutil_retval_is_error fd) eqn:He; [by apply answer_ret|].
  apply says_right; [inv_auto|intros ?]. eapply answer_bind; [apply post_mark_says|intros []]; cbn [negb].
  - by apply answer_ret; rewrite He.
  - says_auto.
Qed.
#[local] Hint Resolve remote_fd_says : says.

Lemma retr_report_says r : says (retr_report r).
Proof. unfold retr_report. says_auto. Qed.
#[local] Hint Resolve retr_report_says : says.

Lemma retr_says : says (handle_retr fuel false).
Proof.
  unfold handle_retr. do 2 says_step. eapply answer_bind; [apply checks_says|intros ok].
  destruct ok; cbn [negb]; [|says_auto; inv_auto].
  says_auto.
Qed.

Lemma dir_says d s : says (handle_dir_common fuel d s).
Proof.
  unfold handle_dir_common. destruct s.
  { eapply (says_value (λ ok, ok = true)); [by apply yields_ret|inv_auto|intros ? ->]. says_auto. }
  eapply answer_bind; [apply checks_says|intros ok]. destruct ok; cbn [negb]; [|says_auto; inv_auto].
  says_auto.
Qed.
#[local] Hint Resolve retr_says dir_says : says.

(** *** Uploads *)

Definition known_result (r : Z) : Prop := r = 0 ∨ r = -1 ∨ r = -2 ∨ r = -3.

Lemma yields_recv n fd asc cs hl pc tr :
  yields (λ r, known_result (retval r)) (recv_loop n fd asc cs hl pc tr).
Proof.
  unfold known_result. revert pc tr. induction n as [|n IH]; intros pc tr; cbn [recv_loop]; [done|].
  apply (yields_bind _ _ _ _ (yields_any _)). intros [r data] _.
  destruct (vsf_sysutil_retval_is_error r); [apply yields_ret; cbn; auto|].
  destruct (_ && _); [apply yields_ret; cbn; auto|]. cbv zeta.
  apply (yields_bind _ _ _ _ (yields_any _)). intros m _.
  destruct (size_exceeded _ _); [apply yields_ret; cbn; auto|].
  apply (yields_bind _ _ _ _ (yields_any _)). intros [out pc'] _.
  apply (yields_bind _ _ _ _ (yields_any _)). intros r' _.
  destruct (_ || _); [apply yields_ret; cbn; auto|apply IH].
Qed.

Lemma upload_report_says r f : known_result r → says_if h0 false (upload_report r f) (λ _, true).
Proof.
  intros Hr. unfold upload_report. says_auto. exfalso. b2p. destruct Hr as [|[|[|]]]; lia.
Qed.

Lemma prepare_says f fd sz off a t :
  says_if h0 false (upload_prepare f fd sz off a t) (λ r, match r.1 with None => true | Some _ => false end).
Proof. unfold upload_prepare. says_auto. Qed.
#[local] Hint Resolve prepare_says : says.

Lemma upload_transfer_says f fd h u : says (upload_transfer fuel f fd h u).
Proof.
  unfold upload_transfer. do 2 says_step. says_step; [says_auto|].
  says_step. apply says_right; [inv_auto|intros ascii].
  eapply says_value; [apply yields_recv|inv_auto|].
  intros tr Htr. says_step. cbv zeta. apply says_right; [inv_auto|intros ?].
  eapply answer_bind with (b := λ _, true); [|intros ?; says_auto].
  apply upload_report_says. unfold known_result in *. case_match; [lia|done].
Qed.
#[local] Hint Resolve upload_transfer_says : says.

Lemma upload_says a u : says (handle_upload_common fuel a u).
Proof.
  unfold handle_upload_common. do 2 says_step. eapply answer_bind; [apply checks_says|intros ok].
  destruct ok; cbn [negb]; [|says_auto; inv_auto].
  says_auto; cbn [fst]; says_auto.
Qed.
#[local] Hint Resolve upload_says : says.

(** *** The dispatch *)

Lemma not_implemented_says c : says (not_implemented c).
Proof. unfold not_implemented. says_auto. Qed.
#[local] Hint Resolve not_implemented_says pwd_says cdup_says size_says type_says rest_says help_says
  stat_says user_says pass_says pbsz_says prot_says feat_says opts_says mkd_says rmd_says dele_says
  pasv_says port_says eprt_says : says.

Lemma says_case {A} (c : bool) P (m m' : M A) b :
  says_if h0 P m b → says_if h0 P m' b → says_if h0 P (if c then m else m') b.
Proof. by destruct c. Qed.

Lemma bad_structure_says (ok : bool) n m : says
  (set_arg t_upper;; if ok then vsf_cmdio_write 200 n else vsf_cmdio_write 504 m).
Proof. unfold set_arg. destruct ok; says_auto. Qed.
#[local] Hint Resolve bad_structure_says : says.

Lemma dispatch_rest_says s cmd arg :
  isempty cmd && isempty arg = false → says (dispatch_rest fuel s cmd arg).
Proof.
  intros Hb. unfold dispatch_rest, handle_stat_file. cbv zeta. rewrite Hb.
  repeat (apply says_case; [by eauto with says|]). eauto with says.
Qed.

Lemma dispatch_answers s cmd arg :
  isempty cmd && isempty arg = false → says (dispatch fuel s cmd arg).
Proof.
  intros Hb. pose proof (dispatch_rest_says s cmd arg Hb) as Hr.
  unfold dispatch, dispatch_write, handle_list, handle_nlst, handle_stor. cbv zeta.
  repeat first [exact Hr|apply says_case; [by eauto with says|]].
Qed.

End Commands.

Section Claim.
Context `{E : Env} `{T : Tun} `{QS : Qsort} `{JS : Json} (fuel : nat).

Lemma exit_stops {A} st t v w (a : A) w' : vsf_cmdio_write_exit st t v w ≠ (Ok a, w').
Proof.
  unfold vsf_cmdio_write_exit. intros H. do 4 apply bind_Ok in H as (? & ? & ? & H). discriminate.
Qed.

(** A blank line passes every test of the dispatch. *)
Lemma dispatch_blank s : dispatch fuel s [] [] =
  if cmd_permitted [] then mret tt else vsf_cmdio_write 550 "Permission denied.".
Proof.
  unfold dispatch, dispatch_write, dispatch_rest. cbv zeta.
  destruct (cmd_permitted []); [cbn [negb]|done].
  repeat match goal with |- context [eqtext [] ?t] => change (eqtext [] t) with false end.
  rewrite ?andb_false_r. reflexivity.
Qed.

Lemma run_command_says h0 b cmd arg :
  b = negb (isempty cmd && isempty arg) →
  hoare (answered h0 sess false) (run_command fuel cmd arg) (λ _, answered h0 sess b) (λ _ _, True).
Proof.
  intros -> w Hw.
  change (run_command fuel cmd arg w) with (dispatch fuel (sess w) cmd arg w).
  destruct (isempty cmd && isempty arg) eqn:Hb; [|by apply dispatch_answers].
  apply andb_prop in Hb as [Hc Ha]. destruct cmd, arg; try discriminate.
  assert (inv (answered h0 sess false) (dispatch fuel (sess w) [] [])) as H.
  { rewrite dispatch_blank. inv_auto. }
  specialize (H w Hw). by destruct (dispatch _ _ _ _ w) as [[]].
Qed.

(** A round goes on only if no data connection timed out. *)
Lemma round_end_says h0 b :
  hoare (answered h0 sess b)
    (pending ← vsf_log_entry_pending; when pending (vsf_log_do_log false);;
     timeout ← gets data_timeout;
     when timeout (vsf_cmdio_write_exit 421 "Data timeout. Reconnect. Sorry." 1))
    (λ _ w, data_timeout (sess w) = false ∧ answered h0 sess b w) (λ _ _, True).
Proof.
  unfold vsf_log_entry_pending.
  apply hoare_bind with (R := λ _, answered h0 sess b); [apply says_keeps; inv_auto|intros pending].
  apply hoare_bind with (R := λ _, answered h0 sess b); [apply says_keeps; inv_auto|intros []].
  apply hoare_gets. intros []; cbn [when]; [|by apply hoare_ret; intros w []].
  intros w _. destruct (vsf_cmdio_write_exit _ _ _ w) as [[[]|] w'] eqn:H; [|done].
  by apply exit_stops in H.
Qed.

(** C9: A command is never left without an answer. A round of the command loop
    that goes on to the next one has read a command and, unless its line was
    blank, has given a final reply since, whether written to the control
    connection, sent over TLS or handed to the TLS slave: no path through a
    handler is silent. *)
Theorem every_command_answered w w' :
  post_login_command fuel w = (Ok tt, w') →
  ∃ cmd arg w1 new, next_command w = (Ok (cmd, arg), w1) ∧ hist w' = new ++ hist w1 ∧
    (isempty cmd && isempty arg = false → Exists (λ ca, final_reply ca.1) new).
Proof.
  unfold post_login_command. intros ([cmd arg] & w1 & Hn & H)%bind_Ok. exists cmd, arg, w1.
  pose proof (hoare_bind _ _ _ _ _ _ (run_command_says (hist w1) _ cmd arg eq_refl)
    (λ _, round_end_says (hist w1) _) w1) as Hs. cbv beta in Hs.
  rewrite H in Hs. destruct Hs as (Ht & new & Hw & Hr); [by exists []|].
  exists new. do 2 (split; [done|]). intros Hb. unfold replied in Hr. rewrite Hb, Ht in Hr.
  by destruct (Hr eq_refl).
Qed.

End Claim.

Lemma every_command_answered_witness :
  ∃ cmd arg w1 new,
    next_command (E := site_env []) (P := site_pend [] (site_tun "write_enable" 0))
      (T := site_tun "write_enable" 0) (site_world (line "NOOP")) =
      (Ok (cmd, arg), w1) ∧
    hist (post_login_command
      (E := site_env []) (P := site_pend [] (site_tun "write_enable" 0)) (T := site_tun "write_enable" 0)
      (QS := merge_qsort) (JS := site_json) 3 (site_world (line "NOOP"))).2 = new ++ hist w1 ∧
    (isempty cmd && isempty arg = false → Exists (λ ca, final_reply ca.1) new).
Proof.
  apply (every_command_answered (E := site_env []) (T := site_tun "write_enable" 0)
    (QS := merge_qsort) (JS := site_json) 3 (site_world (line "NOOP"))).
  vm_compute. reflexivity.
Defined.
