(* ===== verification/DataChannel.v ===== *)
(** * The passive data connection

    privops.c chooses the port of a passive connection and accepts the client
    on it; oneprocess.c and twoprocess.c run that code in the session process
    or in the privileged parent. *)

From Stdlib Require Import Init.Byte Strings.Byte.
From Stdlib Require Import ZArith Lia String.
From stdpp Require Import base list numbers option gmap strings.
From S2P Require Import Prelude SysUtil Text StrList IpAddr Tunables Session CmdIO.
From S2P Require Import Signals Logic Paths PrivOps Cos DataIO Ls PostLogin Invariants.
From S2P Require Import Demo SessionSafety.

(** ** The port *)

Lemma u16_small z : 0 ≤ z < 65536 → u16 z = z.
Proof. apply Z.mod_small. Qed.

Lemma u16_range z : 0 ≤ u16 z < 65536.
Proof. apply Z.mod_pos_bound. lia. Qed.

Section Listen.
Context `{E : Env} `{T : Tun}.

(** Whatever the settings, the range is not empty and has no reserved port. *)
Lemma port_range_ok :
  1024 ≤ (pasv_port_range).1 ∧ (pasv_port_range).1 ≤ (pasv_port_range).2 ≤ 65535.
Proof.
  unfold pasv_port_range. cbn [fst snd].
  destruct ((1024 <? _) && _) eqn:H1; [|destruct ((1024 <=? _) && _) eqn:H2]; b2p; [|..].
  - rewrite (u16_small (tu tun "pasv_min_port")) by lia.
    destruct ((tu tun "pasv_min_port" <=? _) && _) eqn:H2; b2p; rewrite ?u16_small; lia.
  - rewrite u16_small; lia.
  - lia.
Qed.

Lemma random_port_range a b : 0 ≤ random_port a b < 65536.
Proof. apply u16_range. Qed.

Lemma scale_port_range mi ma p :
  1024 ≤ mi → mi ≤ ma ≤ 65535 → 0 ≤ p < 65536 → mi ≤ scale_port mi ma p ≤ ma.
Proof.
  intros Hmi Hma Hp. unfold scale_port.
  assert (0 ≤ p * (ma - mi + 1) / 65536 ≤ ma - mi) as H.
  { split; [apply Z.div_pos; nia|]. apply Z.lt_succ_r, Z.div_lt_upper_bound; nia. }
  rewrite u16_small; lia.
Qed.

(** The session has a socket that is bound to its own address and to the
    port, and listens there. *)
Definition listening (L : sockaddr) (port : Z) (w : world) : Prop :=
  ∃ fd a r1 r2 h,
    pasv_listen_fd (sess w) = fd ∧ 0 ≤ fd ∧
    hist w = (Sock (Listen fd 1), r2) :: (Sock (Bind fd a), r1) :: h ∧
    vsf_sysutil_sockaddr_addr_equal L a = true ∧ sa_port a = port ∧
    0 ≤ a_int r1 ∧ 0 ≤ a_int r2.

Lemma clone_set_port L a p a' :
  vsf_sysutil_sockaddr_clone L = Ok a → vsf_sysutil_sockaddr_set_port a p = Ok a' →
  vsf_sysutil_sockaddr_addr_equal L a' = true ∧ sa_port a' = u16 p.
Proof.
  unfold vsf_sysutil_sockaddr_clone, vsf_sysutil_sockaddr_set_port,
    vsf_sysutil_sockaddr_addr_equal.
  destruct (sa_family L); intros [= <-]; cbn; intros [= <-]; cbn; by rewrite memcmp_refl.
Qed.

(** One attempt either listens on a port of the range or closes its socket. *)
Lemma pasv_try_spec L mi ma v6 :
  1024 ≤ mi → mi ≤ ma ≤ 65535 →
  hoare (λ w, p_local_addr (sess w) = L) (pasv_try mi ma v6)
    (λ r w, p_local_addr (sess w) = L ∧
       match r with
       | Some p => mi ≤ p ≤ ma ∧ listening L p w
       | None => pasv_listen_fd (sess w) = -1
       end) (λ _ _, True).
Proof.
  intros Hmi Hma. apply hoare_wp. intros w HL.
  unfold pasv_try, vsf_sysutil_get_sock, vsf_sysutil_close. wp_auto; try done; cbn [sess put_sess put_hist] in *.
  subst L. destruct (clone_set_port _ _ _ _ H3 H4) as [Heq Hport].
  pose proof (scale_port_range mi ma _ Hmi Hma (random_port_range (a_int a) (a_int a0))) as Hp.
  split_and!; [reflexivity|lia|lia|]. unfold vsf_sysutil_retval_is_error in *. b2p.
  do 5 eexists; split_and!; [reflexivity|cbn;lia|reflexivity|exact Heq|..|lia|lia].
  rewrite Hport. apply u16_small. lia.
Qed.

Lemma pasv_retry_spec L n mi ma v6 :
  1024 ≤ mi → mi ≤ ma ≤ 65535 →
  hoare (λ w, p_local_addr (sess w) = L) (pasv_retry n mi ma v6)
    (λ p w, mi ≤ p ≤ ma ∧ listening L p w) (λ _ _, True).
Proof.
  intros Hmi Hma. induction n as [|n IH]; cbn [pasv_retry]; [done|].
  eapply hoare_bind; [by apply pasv_try_spec|intros [p|]]; cbn.
  - by intros w [_ ?].
  - intros w [Hw _]. by apply IH.
Qed.


End Listen.


(** ** The client on it *)

Section Accept.
Context `{E : Env} `{T : Tun}.

(** How an attempt to accept ends: no connection, a peer that was turned away
    and its connection closed, or a connection of the client. *)
Definition accept_outcome (R : sockaddr) (fd : Z) (h : history) : Prop :=
  fd = -1 ∨
  ∃ lfd t a, (Sock (Accept lfd t), a) ∈ h ∧ 0 ≤ a_int a ∧
    ((fd = -2 ∧ tb tun "pasv_promiscuous" = false ∧
      vsf_sysutil_sockaddr_addr_equal R (a_addr a) = false ∧
      ∃ r, (Close (a_int a), r) ∈ h) ∨
     (fd = a_int a ∧
      (tb tun "pasv_promiscuous" = true ∨
       vsf_sysutil_sockaddr_addr_equal R (a_addr a) = true))).

(** The handlers keep the address and the record of the call. *)
Definition accepted_from (R : sockaddr) (c : call) (a : answer) (w : world) : Prop :=
  p_remote_addr (sess w) = R ∧ (c, a) ∈ hist w.

#[local] Instance accepted_from_quiet R c a : Quiet (accepted_from R c a).
Proof. quiet_simpl. destruct_and?. split; [apply H0|]. right. apply H0. Qed.

Lemma accept_pasv_outcome R :
  hoare (λ w, p_remote_addr (sess w) = R) vsf_privop_accept_pasv
    (λ fd w, accept_outcome R fd (hist w)) (λ _ _, True).
Proof.
  apply hoare_wp. intros w HR. unfold vsf_privop_accept_pasv, vsf_sysutil_close.
  wp_step. wp_step. wp_step; [done|]. wp_step. wp_step. wp_step.
  eapply wp_mono; [eapply wp_hoare; [apply (quiet_check_pending (accepted_from R
    (Sock (Accept (pasv_listen_fd (sess w)) (tu tun "accept_timeout"))) a))|]|..]; [|intros []|done].
  { split; [done|left]. }
  intros w' [HR' Hin]. unfold vsf_sysutil_retval_is_error.
  wp_auto; try done; b2p; cbn [hist put_hist].
  - by left.
  - right. do 3 eexists. split_and!; [right; exact Hin|lia|]. left.
    rewrite HR' in *. split_and!; try done. eexists. left.
  - right. do 3 eexists. split_and!; [exact Hin|lia|]. right. split; [done|].
    rewrite HR' in *. destruct (tb tun "pasv_promiscuous"); [by left|right].
    by destruct (vsf_sysutil_sockaddr_addr_equal R (a_addr a)).
Qed.

(** The session whose process accepts. *)
Definition acceptor (w : world) : vsf_session := if one_process then sess w else parent w.

(** C13: A passive data connection comes from the client. In the one and the
    two process model, [get_pasv_fd] gives the descriptor of an accepted
    connection only if its peer has the address of the control connection or
    pasv_promiscuous is set; another peer is turned away with -2 and its
    connection closed, and a failed accept gives -1. *)
Theorem pasv_fd_from_client (w w' : world) (fd : Z) :
  get_pasv_fd w = (Ok fd, w') → accept_outcome (p_remote_addr (acceptor w)) fd (hist w').
Proof.
  unfold acceptor, get_pasv_fd. destruct one_process; intros Hr.
  - pose proof (accept_pasv_outcome (p_remote_addr (sess w)) w eq_refl) as H. by rewrite Hr in H.
  - unfold on_parent in Hr. fold (swap w) in Hr.
    assert (wp cmd_process_pasv_accept
      (λ fd w', accept_outcome (p_remote_addr (parent w)) fd (hist w')) (λ _ _, True) (swap w)) as H.
    { unfold cmd_process_pasv_accept, vsf_sysutil_close. apply wp_bind.
      eapply wp_mono; [by apply (wp_hoare _ _ _ _ _ (accept_pasv_outcome (p_remote_addr (parent w))))|..];
        [|done]. intros fd1 w1 Ho. wp_auto; try done. cbn [hist put_hist].
      destruct Ho as [->|(l & t & b & Hin & Hb & Hc)]; [by left|right]. do 3 eexists.
      split_and!; [by right|done|]. destruct Hc as [(? & ? & ? & r & ?)|?]; [left|by right].
      split_and!; try done. exists r. by right. }
    destruct (cmd_process_pasv_accept (swap w)) as [r w1] eqn:Hc. injection Hr as -> <-.
    by apply (wp_Ok _ _ _ _ _ _ H Hc).
Qed.

End Accept.

Lemma pasv_fd_from_client_witness :
  ∃ w', get_pasv_fd (E := site_env []) (T := site_tun "write_enable" 1)
          (P := site_pend [] (site_tun "write_enable" 1))
          (put_sess (set_pasv_listen_fd 8 (site_session false)) (site_world [])) = (Ok 9, w') ∧
        accept_outcome (T := site_tun "write_enable" 1) site_client 9 (hist w').
Proof.
  eexists. split; [vm_compute; reflexivity|].
  apply (pasv_fd_from_client (E := site_env []) (T := site_tun "write_enable" 1)
    (put_sess (set_pasv_listen_fd 8 (site_session false)) (site_world [])) _ 9).
  vm_compute. reflexivity.
Defined.
