(* ===== verification/PreLogin.v ===== *)
(** * Before the login

    prelogin.c: the connection limits, the greeting and the USER/PASS loop, and
    the login itself: oneprocess.c in the same process, twoprocess.c with the
    privileged parent that forks the logged-in session. *)

From Stdlib Require Import Init.Byte Strings.Byte.
From Stdlib Require Import ZArith Lia String.
From stdpp Require Import base list numbers option gmap strings.
From S2P Require Import Prelude SysUtil Text StrList IpAddr Tunables ParseConf.
From S2P Require Import Session CmdIO Signals Logic Paths PrivOps Cos DataIO Ls.
From S2P Require Import PostLogin.

Definition ENOENT : Z := 2.

Section PreLogin.
Context `{E : Env} `{QS : Qsort} `{JS : Json}.
(** The configuration files on disk; rounds of the command loop and of one
    transfer. *)
Context (fs : conf_files) (rounds fuel : nat).

Section Config.
Context `{T : Tun}.

Definition check_limits : M unit :=
  s ← gets id;
  (if (0 <? tu tun "max_clients") && (tu tun "max_clients" <? num_clients s) then
     vsf_log_line kVSFLogEntryConnection (lit "Connection refused: too many sessions.");;
     vsf_cmdio_write_exit 421 "There are too many connected users, please try later." 1
   else mret tt);;
  (if (0 <? tu tun "max_per_ip") && (tu tun "max_per_ip" <? num_this_ip s) then
     vsf_log_line kVSFLogEntryConnection
       (lit "Connection refused: too many sessions for this address.");;
     vsf_cmdio_write_exit 421 "There are too many connections from your internet address." 1
   else mret tt);;
  (if negb (tcp_wrapper_ok s) then
     vsf_log_line kVSFLogEntryConnection (lit "Connection refused: tcp_wrappers denial.");;
     vsf_cmdio_write_exit 421 "Service not available." 1
   else mret tt);;
  vsf_log_line kVSFLogEntryConnection [].

Definition emit_greeting : M unit :=
  banner ← gets banner_str;
  if negb (isempty banner) then
    vsf_banner_write banner 220;;
    upd (set_banner_str []);;
    vsf_cmdio_write 220 ""
  else
    match ts tun "ftpd_banner" with
    | None => vsf_cmdio_write_str 220 (lit "(vsFTPd " ++ lit VSF_VERSION ++ lit ")")
    | Some b => vsf_cmdio_write_str 220 b
    end.

Definition check_login_delay : M unit :=
  when (negb (tu tun "delay_failed_login" =? 0))
    (vsf_sysutil_sleep (tu tun "delay_failed_login" * 1000000)).

Definition check_login_fails : M unit :=
  n ← gets login_fails;
  upd (set_login_fails (u32 (n + 1)));;
  if tu tun "max_login_fails" <=? u32 (n + 1) then
    do_ (Sock (Shutdown VSFTP_COMMAND_FD true));;
    stop_with (Exit 1)
  else mret tt.

(** ssl.c *)
Definition ssl_control_handshake : M unit :=
  r ← ask (Ssl (SslCall "ssl_session_init" []));
  if a_int r =? 0 then
    vsf_cmdio_write_str 421 (lit "Negotiation failed: " ++ text_of r);;
    stop_with (Exit 1)
  else upd (set_control_use_ssl true).

Definition handle_auth : M unit :=
  set_arg t_upper;;
  arg ← gets ftp_arg_str;
  if eqtext arg "TLS" || eqtext arg "TLS-C" || eqtext arg "SSL" || eqtext arg "TLS-P" then
    vsf_cmdio_write 234 "Proceed with negotiation.";;
    ssl_control_handshake;;
    when (eqtext arg "SSL" || eqtext arg "TLS-P") (upd (set_data_use_ssl true))
  else vsf_cmdio_write 504 "Unknown AUTH type.".

(** ** oneprocess.c *)

(** [true]: the session logged in, and ran its rounds. *)
Definition vsf_one_process_login (p_pass_str : bytes) : M bool :=
  r ← vsf_privop_do_login p_pass_str;
  match r with
  | kVSFLoginFail => mret false
  | kVSFLoginAnon =>
      upd (set_is_anonymous true);;
      process_post_login fuel rounds;;
      mret true
  | _ => mbug "bad state in vsf_one_process_login"
  end.

(** ** twoprocess.c: the privileged parent *)

Definition handle_per_user_config (p_user_str : bytes) : M tunables :=
  match ts tun "user_config_dir" with
  | None => mret tun
  | Some dir =>
      match t_locate_char p_user_str SLASH with
      | Some _ => mret tun
      | None =>
          let filename := dir ++ [SLASH] ++ p_user_str in
          retval ← sys (Fs (Stat (cstr filename)));
          if negb (vsf_sysutil_retval_is_error retval) then
            '(_, t) ← lift (vsf_parseconf_load_file fs None tun (Some (cstr filename)) true);
            mret t
          else
            err ← sys (Sys Errno);
            if negb (err =? ENOENT) then mdie "error opening per-user config file"
            else mret tun
      end
  end.

Definition calculate_chdir_dir (p_orig_user_str p_user_root : bytes) : bytes :=
  match ts tun "user_sub_token" with
  | Some tok => t_replace_text p_user_root tok (cstr p_orig_user_str)
  | None => p_user_root
  end.

(** secutil.c: the credentials are not changed any more, only the directory. Its
    string is dereferenced, so it must not be NULL. *)
Definition vsf_secutil_change_credentials (p_dir_str : option bytes) : M unit :=
  p_dir_str ← lift (match p_dir_str with Some d => Ok d | None => Err UB end);
  access ← sys (Fs (Access (cstr p_dir_str)));
  (if negb (access =? 0) then
     r ← str_mkdirs (S (length p_dir_str)) p_dir_str 493;
     if negb (r =? 0) then lift (die2 "vsftpd: create work dir error" (cstr p_dir_str))
     else mret tt
   else mret tt);;
  retval ← sys (Fs (Chdir (cstr p_dir_str)));
  if negb (retval =? 0) then lift (die2 "cannot change directory:" (cstr p_dir_str))
  else mret tt.

(** The parent's part of a login: the result and the configuration of the new
    session, or [None] for PRIV_SOCK_RESULT_BAD. *)
Definition process_login_req (user pass : bytes) (cssl dssl : bool) : M (option tunables) :=
  upd (set_user_str user);;
  upd (set_control_use_ssl (tb tun "ssl_enable" && cssl));;
  upd (set_data_use_ssl (tb tun "ssl_enable" && dssl));;
  r ← vsf_privop_do_login pass;
  let common_do_login (anon : bool) : M (option tunables) :=
    ssl ← gets control_use_ssl;
    when ssl (upd (set_ssl_slave_active true));;
    p_user_str ← gets user_str;
    t ← handle_per_user_config p_user_str;
    upd (set_is_anonymous anon);;
    mret (Some t) in
  match r with
  | kVSFLoginFail => mret None
  | kVSFLoginAnon =>
      upd (set_user_str (default [] (ts tun "ftp_username")));;
      common_do_login true
  | kVSFLoginReal =>
      (if tb tun "chroot_list_enable" then
         let f := default [] (ts tun "chroot_list_file") in
         retval ← match ts tun "chroot_list_file" with
                  | Some f => sys (Fs (Fileread f 100000))
                  | None => mret (-1)
                  end;
         if retval <? 0 then lift (die2 "could not read chroot() list file:" f) else mret tt
       else mret tt);;
      common_do_login false
  | kVSFLoginNull => mbug "weird state in process_login_request"
  end.

(** The process forked for the session: it starts from the parent's session
    and signal state. *)
Definition fork_session : M unit :=
  modw (λ w, put_sess (parent w) (put_alarm None (put_sigurg false w))).

End Config.

(** The new process, with the configuration the parent loaded. *)
Definition session_child (T : Tun) : M unit :=
  orig_user ← gets user_str;
  anon ← gets is_anonymous;
  (if tb tun "guest_enable" && negb anon then
     upd (set_is_guest true);;
     upd (set_is_anonymous (negb (tb tun "virtual_use_local_privs")))
   else mret tt);;
  root ← lift get_user_root_dir;
  vsf_secutil_change_credentials (Some (calculate_chdir_dir orig_user root));;
  process_post_login fuel rounds.

Section Loop.
Context `{T : Tun}.

Definition vsf_two_process_login (p_pass_str : bytes) : M bool :=
  s ← gets id;
  t ← on_parent (process_login_req (user_str s) p_pass_str (control_use_ssl s) (data_use_ssl s));
  match t with
  | None => mret false
  | Some t =>
      fork_session;;
      session_child t;;
      mret true
  end.

(** ** prelogin.c *)

Definition handle_pass_command : M bool :=
  user ← gets user_str;
  if isempty user then
    vsf_cmdio_write 503 "Login with USER first.";;
    mret false
  else
    pass ← gets ftp_arg_str;
    ok ← (if tb tun "one_process_model" then vsf_one_process_login pass
          else vsf_two_process_login pass);
    if ok : bool then mret true
    else
      vsf_cmdio_write 530 "Login incorrect.";;
      check_login_fails;;
      upd (set_user_str []);;
      mret false.

Definition reject_user (text : string) : M bool :=
  vsf_cmdio_write 530 text;;
  upd (set_user_str []);;
  mret false.

Definition handle_user_command : M bool :=
  arg ← gets ftp_arg_str;
  upd (set_user_str arg);;
  upd (set_ftp_arg_str (t_upper arg));;
  let is_anon := is_anon_name arg in
  cssl ← gets control_use_ssl;
  userlist ← gets userlist_str;
  if negb (tb tun "local_enable") && negb is_anon then
    reject_user "This FTP server is anonymous only."
  else if is_anon && cssl && negb (tb tun "allow_anon_ssl") &&
          negb (tb tun "force_anon_logins_ssl") then
    reject_user "Anonymous sessions may not use encryption."
  else if tb tun "ssl_enable" && negb is_anon && negb cssl &&
          tb tun "force_local_logins_ssl" then
    vsf_cmdio_write_exit 530 "Non-anonymous sessions must use encryption." 1
  else if tb tun "ssl_enable" && is_anon && negb cssl && tb tun "force_anon_logins_ssl" then
    vsf_cmdio_write_exit 530 "Anonymous sessions must use encryption." 1
  else if tb tun "userlist_enable" &&
          Bool.eqb (t_contains_line userlist arg) (tb tun "userlist_deny") then
    check_login_delay;;
    vsf_cmdio_write 530 "Permission denied.";;
    check_login_fails;;
    upd (set_user_str []);;
    mret false
  else if is_anon && tb tun "no_anon_password" then
    upd (set_ftp_arg_str (lit "<no password>"));;
    handle_pass_command
  else
    vsf_cmdio_write 331 "Please specify the password.";;
    mret false.

Definition handle_get : M bool :=
  upd (set_is_http true);;
  arg ← gets ftp_arg_str;
  upd (set_http_get_arg arg);;
  upd (set_user_str (lit "FTP"));;
  upd (set_ftp_arg_str (lit "<http>"));;
  handle_pass_command.

Definition no_login (m : M unit) : M bool := m;; mret false.

(** One command before the login; [true] once the session is over. *)
Definition pre_login_command : M bool :=
  '(cmd, arg) ← vsf_cmdio_get_cmd_and_arg true;
  upd (set_ftp_cmd_str cmd);;
  upd (set_ftp_arg_str arg);;
  cssl ← gets control_use_ssl;
  let cmdis t := eqtext cmd t in
  if tb tun "ftp_enable" then
    if cmdis "USER" then handle_user_command
    else if cmdis "PASS" then handle_pass_command
    else if cmdis "QUIT" then vsf_cmdio_write_exit 221 "Goodbye." 0
    else if cmdis "FEAT" then no_login handle_feat
    else if cmdis "OPTS" then no_login handle_opts
    else if tb tun "ssl_enable" && cmdis "AUTH" && negb cssl then no_login handle_auth
    else if tb tun "ssl_enable" && cmdis "PBSZ" then no_login handle_pbsz
    else if tb tun "ssl_enable" && cmdis "PROT" then no_login handle_prot
    else if isempty cmd && isempty arg then mret false
    else no_login (vsf_cmdio_write 530 "Please login with USER and PASS.")
  else if tb tun "http_enable" then
    (if cmdis "GET" then handle_get
     else no_login (vsf_cmdio_write 530 "Bad HTTP verb."));;
    stop_with (Exit 0)
  else mret false.

Fixpoint parse_username_password_xxx (n : nat) : M bool :=
  match n with
  | O => mret false
  | S n' =>
      over ← pre_login_command;
      if over : bool then mret true else parse_username_password_xxx n'
  end.

Definition init_connection (n : nat) : M bool :=
  when (tb tun "setproctitle_enable") (do_ (Sys (Proctitle (lit "not logged in"))));;
  vsf_cmdio_set_alarm;;
  check_limits;;
  when (tb tun "ssl_enable" && tb tun "implicit_ssl") ssl_control_handshake;;
  when (tb tun "ftp_enable") emit_greeting;;
  parse_username_password_xxx n.

End Loop.

End PreLogin.
