(* ===== verification/LoginSafety.v ===== *)
(** * Who gets in

    prelogin.c and privops.c: what a PASS command with bad credentials does,
    and the limits on connections. *)

From Stdlib Require Import Init.Byte Strings.Byte.
From Stdlib Require Import ZArith Lia String.
From stdpp Require Import base list numbers option gmap strings.
From S2P Require Import Prelude SysUtil Text StrList IpAddr Tunables ParseConf.
From S2P Require Import Session CmdIO Signals Logic Paths PrivOps Cos DataIO Ls.
From S2P Require Import PostLogin Invariants Demo SessionSafety PreLogin.

Section Credentials.
Context `{E : Env} `{T : Tun} `{QS : Qsort} `{JS : Json} (fs : conf_files) (rounds fuel : nat).

(** The configuration lets this user in with this password: an anonymous name
    where those are allowed, or an entry of login_users. *)
Definition admits (user pass : bytes) : bool :=
  login_input_ok user pass &&
  (if tb tun "anonymous_enable" && is_anon_name user then true
   else tb tun "local_enable" &&
        bool_decide (is_Some (cos_handle_login (ts tun "login_users") user pass))).

(** Only the control connection, the log and the clock were used since [h0],
    and [sel] has counted [n] failures. *)
Definition outside (sel : world → vsf_session) (n : Z) (h0 : history) (w : world) : Prop :=
  login_fails (sel w) = n ∧ since h0 harmless (hist w).

#[local] Instance outside_quiet sel n h0 : sel = sess ∨ sel = parent → Quiet (outside sel n h0).
Proof.
  intros [-> | ->]; quiet_simpl; unfold outside in *; destruct_and!; split; cbn; eauto with inv.
Qed.

Lemma outside_log_type sel n h0 w v :
  sel = sess ∨ sel = parent → outside sel n h0 w → outside sel n h0 (put_sess (set_log_type v (sess w)) w).
Proof. intros [-> | ->] [? ?]; split; done. Qed.

(** With bad credentials, [handle_login] fails or ends the process, and
    assigns nothing. *)
Lemma handle_login_refuses u p (I : world → Prop) :
  admits u p = false → hoare I (handle_login u p) (λ r w, r = kVSFLoginFail ∧ I w) (λ _, I).
Proof.
  unfold admits, handle_login, handle_local_login. intros Ha w Hw.
  destruct (login_input_ok u p); [|done]. cbn [negb andb] in *.
  destruct (tb tun "anonymous_enable" && is_anon_name u); [done|].
  destruct (tb tun "local_enable"); [|done]. cbn [negb andb] in *.
  apply bool_decide_eq_false in Ha. apply eq_None_not_Some in Ha. by rewrite Ha.
Qed.

Lemma do_login_refuses sel n h0 u p :
  sel = sess ∨ sel = parent → admits u p = false →
  hoare (λ w, user_str (sess w) = u ∧ outside sel n h0 w) (vsf_privop_do_login p)
    (λ r w, r = kVSFLoginFail ∧ outside sel n h0 w) (λ _, outside sel n h0).
Proof.
  intros Hsel Ha. pose proof (outside_quiet sel n h0 Hsel) as HQ. unfold vsf_privop_do_login.
  apply hoare_gets. intros u'. apply hoare_wp. intros w (<- & <- & Hw). apply wp_bind.
  eapply wp_mono; [eapply wp_hoare; [by apply (handle_login_refuses _ _ (outside sel n h0))|done]| |done].
  intros r w1 [-> Hw1].
  eapply wp_hoare; [|exact Hw1]. eapply hoare_bind.
  { apply (quiet_log_start (outside sel n h0)). intros. by apply outside_log_type. }
  intros []. apply (hoare_bind _ _ _ (λ _, outside sel n h0)); [|intros []; by apply hoare_ret].
  apply inv_bind; [|intros []].
  - apply (quiet_log_do_log (outside sel n h0)). intros. by apply outside_log_type.
  - inv_auto.
Qed.

Lemma one_process_refuses n h0 u p :
  admits u p = false →
  hoare (λ w, user_str (sess w) = u ∧ outside sess n h0 w) (vsf_one_process_login rounds fuel p)
    (λ ok w, ok = false ∧ outside sess n h0 w) (λ _, outside sess n h0).
Proof.
  intros Ha. unfold vsf_one_process_login.
  eapply hoare_bind; [apply do_login_refuses; [by left|exact Ha]|]. by intros r w [-> ?].
Qed.

(** The parent refuses, and the session's own counter is not touched. *)
Lemma process_login_req_refuses n h0 u p c d :
  admits u p = false →
  hoare (outside parent n h0) (process_login_req fs u p c d)
    (λ t w, t = None ∧ outside parent n h0 w) (λ _, outside parent n h0).
Proof.
  intros Ha. apply hoare_wp. intros w Hw. unfold process_login_req. do 6 wp_step. wp_step.
  eapply wp_mono; [eapply wp_hoare; [apply (do_login_refuses parent n h0 u); [by right|exact Ha]|]|..].
  - split; [done|]. exact Hw.
  - by intros r w' [-> ?].
  - done.
Qed.

Lemma two_process_refuses n h0 u p :
  admits u p = false →
  hoare (λ w, user_str (sess w) = u ∧ outside sess n h0 w) (vsf_two_process_login fs rounds fuel p)
    (λ ok w, ok = false ∧ outside sess n h0 w) (λ _, outside sess n h0).
Proof.
  intros Ha. apply hoare_wp. intros w [Hu Hw]. unfold vsf_two_process_login. do 3 wp_step.
  unfold wp, on_parent. fold (swap w). cbn [id].
  pose proof (process_login_req_refuses n h0 u p (control_use_ssl (sess w)) (data_use_ssl (sess w)) Ha (swap w) Hw) as H.
  rewrite Hu. destruct (process_login_req _ _ _ _ _ (swap w)) as [[t|s] w']; [|exact H].
  by destruct H as [-> H].
Qed.

(** C3: Bad credentials do not get in. For a PASS command with a user name and
    a password that the configuration does not admit, in the one and the two
    process model and for any kernel: no COS object and no file is touched, no
    connection is opened; if the session goes on, the client has to name a user
    again and one more failure is counted, still fewer than max_login_fails, so
    that the attempt that reaches the limit ends the session. *)
Theorem bad_credentials_stay_out (w : world) :
  user_str (sess w) ≠ [] → admits (user_str (sess w)) (ftp_arg_str (sess w)) = false →
  let '(r, w') := handle_pass_command fs rounds fuel w in
  since (hist w) harmless (hist w') ∧
  match r with
  | Ok over => over = false ∧ user_str (sess w') = [] ∧
      login_fails (sess w') = u32 (login_fails (sess w) + 1) ∧
      login_fails (sess w') < tu tun "max_login_fails"
  | Err _ => True
  end.
Proof.
  intros Hu Ha. set (n := login_fails (sess w)). set (h0 := hist w).
  assert (outside sess n h0 w) as Hw by (split; [done|apply since_refl]).
  pose proof (outside_quiet sess n h0 (or_introl eq_refl)) as HQ.
  enough (wp (handle_pass_command fs rounds fuel) (λ over w', since h0 harmless (hist w') ∧
    over = false ∧ user_str (sess w') = [] ∧ login_fails (sess w') = u32 (n + 1) ∧
    login_fails (sess w') < tu tun "max_login_fails") (λ _ w', since h0 harmless (hist w')) w) as H.
  { unfold wp in H. by destruct (handle_pass_command fs rounds fuel w) as [[]]. }
  unfold handle_pass_command. do 2 wp_step. unfold isempty. rewrite bool_decide_false by done.
  do 2 wp_step. wp_step.
  eapply (wp_mono (λ ok w', ok = false ∧ outside sess n h0 w') (λ _, outside sess n h0));
    [|intros ok w1 [-> Hw1]|by intros s w' [_ ?]].
  { destruct (tb tun "one_process_model"); (eapply wp_hoare;
      [eapply one_process_refuses || eapply two_process_refuses; exact Ha|by split]). }
  wp_step. eapply wp_mono; [eapply wp_hoare; [apply (quiet_cmdio_write (outside sess n h0))|exact Hw1]|..].
  { intros. by apply quiet_check_pending. }
  2:{ by intros s w' [_ ?]. }
  intros [] w2 [Hn Hs]. unfold check_login_fails. wp_auto; rewrite ?Hn in *; b2p.
  - apply since_cons; [done|exact Hs].
  - by split_and!.
Qed.

End Credentials.

(** ** Limits *)

Section Limits.
Context `{E : Env} `{T : Tun} `{QS : Qsort} `{JS : Json} (fs : conf_files) (rounds fuel : nat).

(** The limits that a connection has to respect. *)
Definition within_limits (s : vsf_session) : Prop :=
  (tu tun "max_clients" ≤ 0 ∨ num_clients s ≤ tu tun "max_clients") ∧
  (tu tun "max_per_ip" ≤ 0 ∨ num_this_ip s ≤ tu tun "max_per_ip") ∧
  tcp_wrapper_ok s = true.

Definition only_harmless (h0 : history) (w : world) : Prop := since h0 harmless (hist w).

#[local] Instance only_harmless_quiet h0 : Quiet (only_harmless h0).
Proof. quiet_simpl. unfold only_harmless in *. cbn. eauto with inv. Qed.

Lemma harmless_seq {A} h0 (m : M unit) (k : M A) Q :
  inv (only_harmless h0) m → hoare (only_harmless h0) k Q (λ _, only_harmless h0) →
  hoare (only_harmless h0) (m;; k) Q (λ _, only_harmless h0).
Proof. intros Hm Hk. apply (hoare_bind _ _ _ (λ _, only_harmless h0)); [exact Hm|by intros []]. Qed.

(** One of the three tests: passed, or the session ends. *)
Lemma limit_test h0 (b : bool) log code t v :
  hoare (only_harmless h0)
    (if b then vsf_log_line kVSFLogEntryConnection log;; vsf_cmdio_write_exit code t v else mret tt)
    (λ _ w, b = false ∧ only_harmless h0 w) (λ _, only_harmless h0).
Proof.
  destruct b; [|by apply hoare_ret]. unfold vsf_cmdio_write_exit.
  do 5 (apply harmless_seq; [inv_auto|]). intros w Hw. exact Hw.
Qed.

Lemma check_limits_spec s h0 :
  hoare (λ w, sess w = s ∧ only_harmless h0 w) check_limits
    (λ _ _, within_limits s) (λ _, only_harmless h0).
Proof.
  apply hoare_wp. intros w [<- Hw]. unfold check_limits. do 2 wp_step. cbn [id].
  do 3 (apply wp_bind; eapply wp_mono; [eapply wp_hoare; [apply (limit_test h0)|exact Hw]| |done];
    clear Hw; intros [] ? [? Hw]).
  eapply wp_mono; [eapply wp_hoare; [apply (quiet_log_line (only_harmless h0))|exact Hw]| |done];
    [intros ctx; apply quiet_check_pending; exact _|].
  intros [] w2 _. unfold within_limits. destruct (tcp_wrapper_ok (sess w)); [|done].
  b2p. split_and!; [|..|done]; lia.
Qed.

(** The connection limits are enforced. A connection that exceeds
    max_clients or max_per_ip, or that tcp_wrappers denies, never gets past
    [init_connection]: the process ends before it greets the client or accepts
    a command, for any kernel, and has used nothing but the control connection
    and the log. *)
Theorem limits_enforced (n : nat) (w : world) :
  ¬ within_limits (sess w) →
  ∃ s w', init_connection fs rounds fuel n w = (Err s, w') ∧ since (hist w) harmless (hist w').
Proof.
  intros Hno.
  assert (wp (init_connection fs rounds fuel n) (λ _ _, False) (λ _, only_harmless (hist w)) w) as H.
  { unfold init_connection, vsf_cmdio_set_alarm. wp_step.
    eapply (wp_mono (λ _ w1, sess w1 = sess w ∧ only_harmless (hist w) w1) (λ _ _, False));
      [wp_auto; (split; [done|]); unfold only_harmless in *; cbn; eauto with inv| |done].
    intros [] w1 [Hs Hw1]. wp_step.
    eapply (wp_mono (λ _ w2, sess w2 = sess w ∧ only_harmless (hist w) w2) (λ _ _, False));
      [wp_auto; (split; [done|]); unfold only_harmless in *; cbn; eauto with inv| |done].
    intros [] w2 Hw2. wp_step.
    eapply wp_mono; [eapply wp_hoare; [apply (check_limits_spec (sess w) (hist w))|exact Hw2]| |done].
    by intros. }
  unfold wp in H. destruct (init_connection fs rounds fuel n w) as [[|s] w']; [done|]. eauto.
Qed.

End Limits.

(** A password that is not that of the only user. *)
Definition login_tun : tunables :=
  let t := site_tun "anonymous_enable" 0 in
  Tunables (<["local_enable"%string := 1]> (t_bool t)) (t_uint t)
    (<["login_users"%string := Some (lit "joe:secret:rw")]> (t_str t)).

Definition login_world (user pass : string) : world :=
  fresh_world (set_user_str (lit user) (set_ftp_arg_str (lit pass)
    (fresh_session site_server site_client))) [].

Lemma bad_credentials_stay_out_witness :
  let '(r, w') := handle_pass_command (E := site_env []) (T := login_tun) (QS := merge_qsort) (JS := site_json)
    (ConfFiles (λ _, None) (λ _, false)) 1 16 (login_world "joe" "guess") in
  since [] harmless (hist w') ∧
  match r with
  | Ok over => over = false ∧ user_str (sess w') = [] ∧
      login_fails (sess w') = u32 1 ∧ login_fails (sess w') < tu login_tun "max_login_fails"
  | Err _ => True
  end.
Proof.
  apply (bad_credentials_stay_out (E := site_env []) (T := login_tun) (QS := merge_qsort) (JS := site_json)
    (ConfFiles (λ _, None) (λ _, false)) 1 16 (login_world "joe" "guess")); by vm_compute.
Defined.

(** The third session where two are allowed. *)
Definition limit_tun2 : tunables :=
  let t := site_tun "write_enable" 1 in
  Tunables (t_bool t) (<["max_clients"%string := 2]> (t_uint t)) (t_str t).

Lemma limits_enforced_witness :
  ∃ s w', init_connection (E := site_env []) (T := limit_tun2) (QS := merge_qsort) (JS := site_json)
    (ConfFiles (λ _, None) (λ _, false)) 1 16 1
    (fresh_world (set_num_clients 3 (fresh_session site_server site_client)) (line "USER joe"))
    = (Err s, w') ∧ since [] harmless (hist w').
Proof.
  apply (limits_enforced (E := site_env []) (T := limit_tun2) (QS := merge_qsort) (JS := site_json)
    (ConfFiles (λ _, None) (λ _, false)) 1 16 1
    (fresh_world (set_num_clients 3 (fresh_session site_server site_client)) (line "USER joe"))).
  intros (Hc & _). revert Hc. vm_compute. intros [Hc|Hc]; by apply Hc.
Defined.
