(* ===== verification/Hash.v ===== *)
(** * hash.c: the hash table

    The table as it lies in memory: an array of bucket heads and a heap of
    nodes linked both ways ([hash_node]). Keys and values are the byte blocks
    that [hash_add_entry] copies; a pointer to a value ([hash_lookup_entry]) is
    the node that owns it, so that a caller's store through the pointer
    ([value_store]) updates the table. The representation invariant
    [hash_rep] says that the buckets are well-linked disjoint chains whose
    entries form a finite map; [KVStore] is the interface the listener
    (standalone.c) relies on, and the table is an instance of it. *)

From Stdlib Require Import Init.Byte Strings.Byte.
From Stdlib Require Import ZArith Lia String.
From stdpp Require Import base list numbers option gmap fin_maps.
From S2P Require Import Prelude SysUtil.
Import ResNotations.

Abbreviation ptr := positive.

Record hash_node := Node {
  p_key : bytes;
  p_value : bytes;
  p_prev : option ptr;
  p_next : option ptr
}.

Record hash := Hash {
  buckets : Z;
  key_size : nat;
  value_size : nat;
  hash_func : Z → bytes → Z;
  p_nodes : list (option ptr);
  heap : gmap ptr hash_node
}.

Definition with_nodes (h : hash) (ns : list (option ptr)) (m : gmap ptr hash_node) : hash :=
  Hash (buckets h) (key_size h) (value_size h) (hash_func h) ns m.

(** [size] is computed in [unsigned int]; [vsf_sysutil_malloc] refuses 0 and
    sizes over INT_MAX. *)
Definition hash_alloc (bkts : Z) (ks vs : nat) (hf : Z → bytes → Z) : res hash :=
  let size := u32 (8 * bkts) in
  if (size =? 0) || (INT_MAX <? size) then
    bug "zero or big size in vsf_sysutil_malloc"
  else Ok (Hash bkts ks vs hf (replicate (Z.to_nat (size / 8)) None) ∅).

(** The index of the bucket. *)
Definition hash_get_bucket (h : hash) (k : bytes) : res nat :=
  let bucket := hash_func h (buckets h) k in
  if buckets h <=? bucket then bug "bad bucket lookup"
  else Ok (Z.to_nat bucket).

Definition bucket_head (h : hash) (i : nat) : res (option ptr) :=
  match p_nodes h !! i with
  | Some hd => Ok hd
  | None => Err UB
  end.

(** The walk along [p_next]; a chain has at most as many nodes as the heap. *)
Fixpoint walk (fuel : nat) (m : gmap ptr hash_node) (ks : nat) (k : bytes)
    (p_node : option ptr) : res (option ptr) :=
  match p_node with
  | None => Ok None
  | Some p =>
      match fuel, m !! p with
      | S fuel', Some nd =>
          if vsf_sysutil_memcmp (take ks k) (take ks (p_key nd)) =? 0
          then Ok (Some p)
          else walk fuel' m ks k (p_next nd)
      | _, _ => Err UB
      end
  end.

Definition hash_get_node_by_key (h : hash) (k : bytes) : res (option ptr) :=
  let* b := hash_get_bucket h k in
  let* hd := bucket_head h b in
  walk (size (heap h)) (heap h) (key_size h) k hd.

(** The pointer to the value: the node that owns it. *)
Definition hash_lookup_entry (h : hash) (k : bytes) : res (option ptr) :=
  hash_get_node_by_key h k.

Definition value_load (h : hash) (p : ptr) : res bytes :=
  match heap h !! p with
  | Some nd => Ok (p_value nd)
  | None => Err UB
  end.

Definition value_store (h : hash) (p : ptr) (v : bytes) : res hash :=
  match heap h !! p with
  | Some nd =>
      Ok (with_nodes h (p_nodes h)
            (<[p := Node (p_key nd) v (p_prev nd) (p_next nd)]> (heap h)))
  | None => Err UB
  end.

Definition set_prev (m : gmap ptr hash_node) (p : ptr) (o : option ptr)
  : res (gmap ptr hash_node) :=
  match m !! p with
  | Some nd => Ok (<[p := Node (p_key nd) (p_value nd) o (p_next nd)]> m)
  | None => Err UB
  end.

Definition set_next (m : gmap ptr hash_node) (p : ptr) (o : option ptr)
  : res (gmap ptr hash_node) :=
  match m !! p with
  | Some nd => Ok (<[p := Node (p_key nd) (p_value nd) (p_prev nd) o]> m)
  | None => Err UB
  end.

Definition hash_add_entry (h : hash) (k v : bytes) : res hash :=
  let* old := hash_lookup_entry h k in
  match old with
  | Some _ => bug "duplicate hash key"
  | None =>
      let* b := hash_get_bucket h k in
      let* hd := bucket_head h b in
      let new := fresh (dom (heap h)) in
      let nd := Node (take (key_size h) k) (take (value_size h) v) None None in
      match hd with
      | None =>
          Ok (with_nodes h (<[b := Some new]> (p_nodes h)) (<[new := nd]> (heap h)))
      | Some q =>
          let* m := set_next (<[new := nd]> (heap h)) new (Some q) in
          let* m := set_prev m q (Some new) in
          Ok (with_nodes h (<[b := Some new]> (p_nodes h)) m)
      end
  end.

Definition hash_free_entry (h : hash) (k : bytes) : res hash :=
  let* o := hash_get_node_by_key h k in
  match o with
  | None => bug "hash node not found"
  | Some p =>
      match heap h !! p with
      | None => Err UB
      | Some nd =>
          let* (ns, m) :=
            match p_prev nd with
            | Some q => let* m := set_next (heap h) q (p_next nd) in Ok (p_nodes h, m)
            | None =>
                let* b := hash_get_bucket h k in
                Ok (<[b := p_next nd]> (p_nodes h), heap h)
            end in
          let* m :=
            match p_next nd with
            | Some q => set_prev m q (p_prev nd)
            | None => Ok m
            end in
          Ok (with_nodes h ns (delete p m))
      end
  end.

(** ** The representation *)

(** The nodes of a chain, in order. *)
Record entry := Entry { e_ptr : ptr; e_key : bytes; e_val : bytes }.

(** [dseg m prev hd c nxt]: from [hd], the nodes [c], linked both ways,
    between [prev] and [nxt]. *)
Fixpoint dseg (m : gmap ptr hash_node) (prev hd : option ptr) (c : list entry)
    (nxt : option ptr) : Prop :=
  match c with
  | [] => hd = nxt
  | e :: c' =>
      hd = Some (e_ptr e) ∧
      ∃ nx, m !! e_ptr e = Some (Node (e_key e) (e_val e) prev nx) ∧
            dseg m (Some (e_ptr e)) nx c' nxt
  end.

Definition entry_pair (e : entry) : bytes * bytes := (e_key e, e_val e).

Definition bucket_of (h : hash) (k : bytes) : nat :=
  Z.to_nat (hash_func h (buckets h) k).

Definition hash_wf (h : hash) : Prop :=
  ∀ k, length k = key_size h → 0 <= hash_func h (buckets h) k < buckets h.

Record hash_rep (h : hash) (ks vs : nat) (chains : list (list entry))
    (mm : gmap bytes bytes) : Prop := {
  rep_ks : key_size h = ks;
  rep_vs : value_size h = vs;
  rep_func : hash_wf h;
  rep_len : length (p_nodes h) = Z.to_nat (buckets h);
  rep_chains : length chains = length (p_nodes h);
  (** every bucket heads a well-linked chain *)
  rep_seg : ∀ i hd c, p_nodes h !! i = Some hd → chains !! i = Some c →
    dseg (heap h) None hd c None;
  (** an entry is in the bucket of its key, and has the sizes *)
  rep_bucket : ∀ i c e, chains !! i = Some c → e ∈ c →
    bucket_of h (e_key e) = i ∧ length (e_key e) = ks ∧ length (e_val e) = vs;
  (** no node is in two chains, none is leaked *)
  rep_nodup : NoDup (e_ptr <$> concat chains);
  rep_dom : ∀ p, p ∈ dom (heap h) ↔ p ∈ e_ptr <$> concat chains;
  (** the entries are the map *)
  rep_keys : NoDup (e_key <$> concat chains);
  rep_map : mm = list_to_map (entry_pair <$> concat chains)
}.

(** ** Chains *)

Lemma dseg_frame m m' prev hd c nxt :
  (∀ p, p ∈ e_ptr <$> c → m' !! p = m !! p) →
  dseg m prev hd c nxt → dseg m' prev hd c nxt.
Proof.
  revert prev hd; induction c as [|e c IH]; intros prev hd Hm; [done|].
  cbn. intros (-> & nx & He & Hc). split; [done|]. exists nx.
  rewrite Hm by (cbn; left). split; [done|]. apply IH; [|done].
  intros p Hp. apply Hm. cbn. by right.
Qed.

(** The last node of a segment, or what precedes it. *)
Definition end_ptr (prev : option ptr) (c : list entry) : option ptr :=
  match last c with
  | Some e => Some (e_ptr e)
  | None => prev
  end.

Lemma end_ptr_cons prev e c : end_ptr prev (e :: c) = end_ptr (Some (e_ptr e)) c.
Proof. unfold end_ptr. rewrite last_cons. by destruct (last c). Qed.

Lemma dseg_app m prev hd c1 c2 nxt :
  dseg m prev hd (c1 ++ c2) nxt ↔
  ∃ mid, dseg m prev hd c1 mid ∧ dseg m (end_ptr prev c1) mid c2 nxt.
Proof.
  revert prev hd; induction c1 as [|e c1 IH]; intros prev hd; cbn [app dseg].
  - split; [intros H; by exists hd|]. by intros (mid & -> & H).
  - rewrite end_ptr_cons. split.
    + intros (-> & nx & He & (mid & H1 & H2)%IH). exists mid. eauto.
    + intros (mid & (-> & nx & He & H1) & H2). split; [done|]. exists nx.
      split; [done|]. apply IH. eauto.
Qed.

Lemma dseg_singleton m prev hd e nxt :
  dseg m prev hd [e] nxt ↔
  hd = Some (e_ptr e) ∧ m !! e_ptr e = Some (Node (e_key e) (e_val e) prev nxt).
Proof. cbn. naive_solver. Qed.

(** A store that keeps the allocated nodes and touches only [p]. *)
Definition touches (m m' : gmap ptr hash_node) (p : ptr) : Prop :=
  dom m' = dom m ∧ ∀ q, q ≠ p → m' !! q = m !! q.

Lemma touches_insert m p nd nd' : m !! p = Some nd → touches m (<[p := nd']> m) p.
Proof.
  intros Hp. split.
  - rewrite dom_insert_lookup_L; [done|]. by eexists.
  - intros q Hq. by rewrite lookup_insert_ne.
Qed.

Lemma dseg_touches m m' prev hd c nxt p :
  touches m m' p → p ∉ e_ptr <$> c → dseg m prev hd c nxt → dseg m' prev hd c nxt.
Proof.
  intros [_ Ht] Hp. apply dseg_frame. intros q Hq. apply Ht. intros ->. done.
Qed.

(** Relinking the first node of a segment backwards. *)
Lemma dseg_set_prev m prev prev' hd e c nxt :
  dseg m prev hd (e :: c) nxt → NoDup (e_ptr <$> e :: c) →
  ∃ m', set_prev m (e_ptr e) prev' = Ok m' ∧ touches m m' (e_ptr e) ∧
        dseg m' prev' hd (e :: c) nxt.
Proof.
  cbn [fmap list_fmap]. intros (-> & nx & He & Hc) [Hn _]%NoDup_cons.
  pose proof (touches_insert m (e_ptr e) _ (Node (e_key e) (e_val e) prev' nx) He).
  unfold set_prev. rewrite He. eexists; split; [done|]. split; [done|]. split; [done|].
  exists nx. cbn. rewrite lookup_insert_eq. split; [done|].
  by eapply dseg_touches.
Qed.

(** Relinking the last node of a segment forwards. *)
Lemma dseg_set_next m prev hd e c nxt nxt' :
  dseg m prev hd (c ++ [e]) nxt → NoDup (e_ptr <$> c ++ [e]) →
  ∃ m', set_next m (e_ptr e) nxt' = Ok m' ∧ touches m m' (e_ptr e) ∧
        dseg m' prev hd (c ++ [e]) nxt'.
Proof.
  rewrite dseg_app. intros (mid & H1 & (-> & H2)%dseg_singleton) Hn.
  rewrite fmap_app, NoDup_app in Hn. destruct Hn as (_ & Hn & _).
  pose proof (touches_insert m (e_ptr e) _
    (Node (e_key e) (e_val e) (end_ptr prev c) nxt') H2).
  unfold set_next. rewrite H2. eexists; split; [done|]. split; [done|].
  apply dseg_app. exists (Some (e_ptr e)). split.
  - eapply dseg_touches; [done| |done]. intros Hp. apply (Hn _ Hp). cbn. left.
  - apply dseg_singleton. split; [done|]. cbn. by rewrite lookup_insert_eq.
Qed.

Lemma concat_insert {A} (cs : list (list A)) i c c' :
  cs !! i = Some c →
  concat cs ≡ₚ c ++ concat (delete i cs) ∧
  concat (<[i := c']> cs) ≡ₚ c' ++ concat (delete i cs).
Proof.
  intros Hi. pose proof (lookup_lt_Some _ _ _ Hi).
  rewrite <- (take_drop_middle cs i c) at 1 by done.
  rewrite insert_take_drop by done. rewrite delete_take_drop.
  rewrite !concat_app. cbn. split; apply Permutation_app_swap_app.
Qed.

Fixpoint chain_find (k : bytes) (c : list entry) : option entry :=
  match c with
  | [] => None
  | e :: c' => if bool_decide (e_key e = k) then Some e else chain_find k c'
  end.

Lemma chain_find_Some k c e : chain_find k c = Some e → e ∈ c ∧ e_key e = k.
Proof.
  induction c as [|d c IH]; cbn; [done|]. case_bool_decide.
  - intros [= <-]. split; [left|done].
  - intros [? ?]%IH. split; [by right|done].
Qed.

Lemma chain_find_None k c : chain_find k c = None → k ∉ e_key <$> c.
Proof.
  induction c as [|d c IH]; cbn; [intros _; apply not_elem_of_nil|].
  case_bool_decide; [done|]. intros ?%IH. rewrite not_elem_of_cons. split; [congruence|done].
Qed.

Lemma walk_ok m ks k prev hd c fuel :
  dseg m prev hd c None → (length c ≤ fuel)%nat → length k = ks →
  (∀ e, e ∈ c → length (e_key e) = ks) →
  walk fuel m ks k hd = Ok (e_ptr <$> chain_find k c).
Proof.
  revert prev hd fuel; induction c as [|e c IH]; intros prev hd fuel; cbn [dseg].
  - intros ->. by destruct fuel.
  - intros (-> & nx & He & Hc) Hf Hk Hl. destruct fuel as [|fuel]; [cbn in Hf; lia|].
    cbn [walk]. rewrite He. cbn [p_key p_next chain_find].
    assert (Hle : length (e_key e) = ks) by (apply Hl; left).
    rewrite !take_ge by lia.
    pose proof (memcmp_eq_iff k (e_key e) ltac:(lia)) as Hm.
    destruct (decide (e_key e = k)) as [E|E].
    + rewrite (proj2 Hm), bool_decide_eq_true_2 by done. done.
    + rewrite (proj2 (Z.eqb_neq _ _)) by (rewrite Hm; congruence).
      rewrite bool_decide_eq_false_2 by done.
      rewrite (IH _ _ _ Hc); [done|cbn in Hf; lia|done|intros; apply Hl; by right].
Qed.

Section Rep.
Context (h : hash) (ks vs : nat) (chains : list (list entry)) (mm : gmap bytes bytes).
Context (R : hash_rep h ks vs chains mm).

Lemma get_bucket_ok k :
  length k = ks → hash_get_bucket h k = Ok (bucket_of h k) ∧
  ∃ hd c, bucket_head h (bucket_of h k) = Ok hd ∧
          p_nodes h !! bucket_of h k = Some hd ∧ chains !! bucket_of h k = Some c.
Proof.
  intros Hk. destruct R. pose proof (rep_func0 k ltac:(congruence)) as Hb.
  unfold hash_get_bucket, bucket_head, bucket_of in *. ztest. split; [done|].
  destruct (lookup_lt_is_Some_2 (p_nodes h) (Z.to_nat (hash_func h (buckets h) k)))
    as [hd Hhd]; [lia|].
  destruct (lookup_lt_is_Some_2 chains (Z.to_nat (hash_func h (buckets h) k)))
    as [c Hc]; [lia|].
  exists hd, c. by rewrite Hhd.
Qed.

Lemma size_chains : size (heap h) = length (concat chains).
Proof.
  destruct R. rewrite <- (size_dom (D:=gset ptr)).
  assert (dom (heap h) = list_to_set (C:=gset ptr) (e_ptr <$> concat chains)) as ->.
  { apply set_eq. intros p. rewrite rep_dom0, elem_of_list_to_set. done. }
  rewrite size_list_to_set by done. by rewrite length_fmap.
Qed.

Lemma chain_length i c : chains !! i = Some c → (length c ≤ size (heap h))%nat.
Proof.
  intros Hc. rewrite size_chains.
  destruct (concat_insert chains i c [] Hc) as [-> _]. rewrite length_app. lia.
Qed.

Lemma chain_elem i c e : chains !! i = Some c → e ∈ c → e ∈ concat chains.
Proof.
  intros Hc He. destruct (concat_insert chains i c [] Hc) as [-> _].
  apply elem_of_app. by left.
Qed.

(** The map has exactly the entries of the chains. *)
Lemma map_lookup k v :
  mm !! k = Some v ↔ ∃ e, e ∈ concat chains ∧ e_key e = k ∧ e_val e = v.
Proof.
  destruct R. rewrite rep_map0, <- elem_of_list_to_map.
  - rewrite list_elem_of_fmap. unfold entry_pair. split.
    + intros (e & [= -> ->] & He). eauto.
    + intros (e & He & <- & <-). eauto.
  - rewrite <- list_fmap_compose. done.
Qed.

Lemma elem_bucket e : e ∈ concat chains →
  ∃ c, chains !! bucket_of h (e_key e) = Some c ∧ e ∈ c.
Proof.
  intros He. rewrite list_elem_of_In, in_concat in He.
  destruct He as (c & Hc & He). apply list_elem_of_In in Hc, He.
  apply list_elem_of_lookup in Hc as [i Hi].
  destruct R. destruct (rep_bucket0 i c e Hi He) as [<- _]. eauto.
Qed.

Lemma map_others i c :
  chains !! i = Some c →
  mm = list_to_map (entry_pair <$> c ++ concat (delete i chains)) ∧
  NoDup (e_ptr <$> c ++ concat (delete i chains)) ∧
  NoDup (e_key <$> c ++ concat (delete i chains)) ∧
  (∀ p, p ∈ dom (heap h) ↔ p ∈ e_ptr <$> c ++ concat (delete i chains)).
Proof.
  intros Hc. destruct R. destruct (concat_insert chains i c [] Hc) as [Hp _].
  split_and!; [|by rewrite <- Hp|by rewrite <- Hp|intros p; by rewrite <- Hp].
  rewrite rep_map0. apply list_to_map_proper; [|by rewrite Hp].
  rewrite <- list_fmap_compose. done.
Qed.

(** Replacing the chain of one bucket. *)
Lemma rep_update i c c' hd' m' mm' :
  chains !! i = Some c →
  dseg m' None hd' c' None →
  (∀ p, p ∈ e_ptr <$> concat (delete i chains) → m' !! p = heap h !! p) →
  (∀ e, e ∈ c' → bucket_of h (e_key e) = i ∧ length (e_key e) = ks ∧ length (e_val e) = vs) →
  NoDup (e_ptr <$> c' ++ concat (delete i chains)) →
  NoDup (e_key <$> c' ++ concat (delete i chains)) →
  (∀ p, p ∈ dom m' ↔ p ∈ e_ptr <$> c' ++ concat (delete i chains)) →
  mm' = list_to_map (entry_pair <$> c' ++ concat (delete i chains)) →
  hash_rep (with_nodes h (<[i := hd']> (p_nodes h)) m') ks vs (<[i := c']> chains) mm'.
Proof.
  intros Hc Hseg Hfr Hb Hnp Hnk Hdom ->. destruct R.
  destruct (concat_insert chains i c c' Hc) as [_ Hp].
  pose proof (lookup_lt_Some _ _ _ Hc).
  split; cbn; try done.
  - by rewrite length_insert.
  - by rewrite !length_insert.
  - intros j hd d Hhd Hd. destruct (decide (i = j)) as [<-|Hij].
    + rewrite list_lookup_insert_eq in Hhd by lia. rewrite list_lookup_insert_eq in Hd by lia. by simplify_eq.
    + rewrite list_lookup_insert_ne in Hhd by done. rewrite list_lookup_insert_ne in Hd by done.
      eapply dseg_frame; [|by eapply rep_seg0]. intros p Hpd. apply Hfr.
      apply list_elem_of_fmap in Hpd as (e & -> & He). apply list_elem_of_fmap_2.
      rewrite delete_take_drop, concat_app, elem_of_app, !list_elem_of_In, !in_concat.
      destruct (decide (j < i)%nat).
      * left. exists d. rewrite <- !list_elem_of_In. split; [|done].
        apply (list_elem_of_lookup_2 _ j). by rewrite lookup_take_lt.
      * right. exists d. rewrite <- !list_elem_of_In. split; [|done].
        apply (list_elem_of_lookup_2 _ (j - S i)). rewrite lookup_drop.
        by replace (S i + (j - S i))%nat with j by lia.
  - intros j d e Hd He. destruct (decide (i = j)) as [<-|Hij].
    + rewrite list_lookup_insert_eq in Hd by lia. simplify_eq. by apply Hb.
    + rewrite list_lookup_insert_ne in Hd by done. by eapply rep_bucket0.
  - by rewrite Hp.
  - intros p. by rewrite Hp.
  - by rewrite Hp.
  - symmetry. apply list_to_map_proper; [|by rewrite Hp].
    rewrite <- list_fmap_compose, Hp. done.
Qed.

(** ** Operations *)

Lemma node_by_key_ok k :
  length k = ks →
  ∃ c hd, p_nodes h !! bucket_of h k = Some hd ∧ chains !! bucket_of h k = Some c ∧
    dseg (heap h) None hd c None ∧
    hash_get_node_by_key h k = Ok (e_ptr <$> chain_find k c).
Proof.
  intros Hk. destruct (get_bucket_ok k Hk) as (Hg & hd & c & Hhd & Hn & Hc).
  exists c, hd. pose proof (chain_length _ _ Hc).
  destruct R. pose proof (rep_seg0 _ _ _ Hn Hc) as Hs.
  split_and!; [done|done|done|].
  unfold hash_get_node_by_key. rewrite Hg. cbn [res_bind]. rewrite Hhd. cbn [res_bind].
  rewrite rep_ks0. eapply walk_ok; [done..|].
  intros e He. by apply (rep_bucket0 _ _ _ Hc He).
Qed.

Lemma chain_find_map k c :
  chains !! bucket_of h k = Some c →
  mm !! k = e_val <$> chain_find k c.
Proof.
  intros Hc. destruct (chain_find k c) as [e|] eqn:E.
  - apply chain_find_Some in E as [He <-]. apply map_lookup.
    exists e. split; [|done]. by eapply chain_elem.
  - apply eq_None_not_Some. intros [v (e & He & <- & _)%map_lookup].
    apply elem_bucket in He as (c' & Hc' & He). simplify_eq.
    apply chain_find_None in E. apply E. by apply list_elem_of_fmap_2.
Qed.
End Rep.

(** [h] is a table with these key and value sizes that holds [mm]. *)
Definition holds (ks vs : nat) (h : hash) (mm : gmap bytes bytes) : Prop :=
  ∃ chains, hash_rep h ks vs chains mm.

Section Operations.
Context (ks vs : nat).

Lemma hash_lookup_ok h mm k :
  holds ks vs h mm → length k = ks →
  match mm !! k with
  | None => hash_lookup_entry h k = Ok None
  | Some v => ∃ p, hash_lookup_entry h k = Ok (Some p) ∧ value_load h p = Ok v
  end.
Proof.
  intros [chains R] Hk. destruct (node_by_key_ok _ _ _ _ _ R k Hk)
    as (c & hd & _ & Hc & Hs & E).
  rewrite (chain_find_map _ _ _ _ _ R k c Hc). unfold hash_lookup_entry. rewrite E.
  destruct (chain_find k c) as [e|] eqn:Ef; cbn; [|done].
  exists (e_ptr e). split; [done|]. apply chain_find_Some in Ef as [He _].
  apply list_elem_of_split in He as (c1 & c2 & ->).
  apply dseg_app in Hs as (mid & _ & (-> & nx & Hm & _)).
  unfold value_load. by rewrite Hm.
Qed.

(** A new node in front of a chain, as [hash_add_entry] links it. *)
Lemma chain_push (m : gmap ptr hash_node) hd c new k v :
  dseg m None hd c None → new ∉ e_ptr <$> c → NoDup (e_ptr <$> c) →
  ∃ m', match hd with
        | None => Ok (<[new := Node k v None None]> m)
        | Some q => let* m := set_next (<[new := Node k v None None]> m) new (Some q) in set_prev m q (Some new)
        end = Ok m' ∧
    dseg m' None (Some new) (Entry new k v :: c) None ∧ dom m' = {[ new ]} ∪ dom m ∧
    ∀ p, p ∉ e_ptr <$> Entry new k v :: c → m' !! p = m !! p.
Proof.
  intros Hs Hnew Hnd. destruct c as [|d c]; cbn [dseg] in Hs.
  - subst hd. eexists; split; [done|]. split_and!; [|by rewrite dom_insert_L|].
    + cbn. split; [done|]. exists None. by rewrite lookup_insert_eq.
    + intros p Hp. rewrite lookup_insert_ne; [done|]. intros <-. apply Hp. left.
  - destruct Hs as (-> & nx & Hd & Hs). unfold set_next.
    rewrite lookup_insert_eq. cbn [res_bind p_key p_value p_prev]. rewrite insert_insert_eq.
    assert (Hdn : e_ptr d ≠ new) by (intros E; apply Hnew; cbn; rewrite E; left).
    destruct (dseg_set_prev (<[new := Node k v None (Some (e_ptr d))]> m)
      None (Some new) (Some (e_ptr d)) d c None) as (m' & -> & [Hdm Ht] & Hs'); [|done|].
    { split; [done|]. exists nx. rewrite lookup_insert_ne by done. split; [done|].
      eapply dseg_frame; [|done]. intros p Hp. rewrite lookup_insert_ne; [done|].
      intros <-. apply Hnew. by right. }
    eexists; split; [done|]. split_and!; [|by rewrite Hdm, dom_insert_L|].
    + split; [done|]. exists (Some (e_ptr d)). split; [|done].
      rewrite Ht by done. cbn. by rewrite lookup_insert_eq.
    + intros p Hp. cbn in Hp. rewrite !not_elem_of_cons in Hp. rewrite Ht by tauto.
      rewrite lookup_insert_ne; [done|]. intros <-. tauto.
Qed.

Lemma hash_add_ok h mm k v :
  holds ks vs h mm → length k = ks → length v = vs → mm !! k = None →
  ∃ h', hash_add_entry h k v = Ok h' ∧ holds ks vs h' (<[k := v]> mm).
Proof.
  intros [chains R] Hk Hv Hnone.
  pose proof (hash_lookup_ok h mm k (ex_intro _ _ R) Hk) as Hl. rewrite Hnone in Hl.
  unfold hash_add_entry. rewrite Hl. cbn [res_bind].
  destruct (get_bucket_ok _ _ _ _ _ R k Hk) as (-> & hd & c & Hhd & Hn & Hc).
  cbn [res_bind]. rewrite Hhd. cbn [res_bind].
  destruct (map_others _ _ _ _ _ R _ c Hc) as (Hmm & Hnp & Hnk & Hdom).
  assert (dseg (heap h) None hd c None) as Hs by (by eapply rep_seg).
  rewrite (rep_ks _ _ _ _ _ R), (rep_vs _ _ _ _ _ R), !take_ge by lia.
  set (new := fresh (dom (heap h))). set (others := concat (delete _ chains)) in *.
  assert (Hfresh : new ∉ e_ptr <$> c ++ others) by (rewrite <- Hdom; apply is_fresh).
  pose proof Hfresh as Hfc. rewrite fmap_app, not_elem_of_app in Hfc. destruct Hfc as [Hfc Hfo].
  pose proof Hnp as Hnc. rewrite fmap_app in Hnc. apply NoDup_app in Hnc as (Hnc & Hno & _).
  destruct (chain_push (heap h) hd c new k v Hs Hfc Hnc) as (m' & Hm' & Hseg & Hdm & Hfr).
  exists (with_nodes h (<[bucket_of h k := Some new]> (p_nodes h)) m'). split.
  { destruct hd as [q|]; [|by injection Hm' as ->]. destruct (set_next _ _ _); [|done]. cbn in *. by rewrite Hm'. }
  exists (<[bucket_of h k := Entry new k v :: c]> chains). eapply rep_update; [exact R|done|done| | | | | |]; fold others.
  - intros p Hp. apply Hfr. cbn. rewrite not_elem_of_cons. split; [by intros ->|]. intros Hi. by apply (Hno _ Hi).
  - intros d [->|Hd]%elem_of_cons; [done|]. by eapply rep_bucket.
  - cbn. by apply NoDup_cons.
  - cbn. apply NoDup_cons. split; [|done]. intros Hin. rewrite Hmm in Hnone. apply not_elem_of_list_to_map in Hnone.
    apply Hnone. rewrite <- list_fmap_compose. exact Hin.
  - intros p. rewrite Hdm, elem_of_union, elem_of_singleton, Hdom. cbn. by rewrite elem_of_cons.
  - cbn. by rewrite Hmm.
Qed.

Lemma hash_add_duplicate h mm k v :
  holds ks vs h mm → length k = ks → is_Some (mm !! k) →
  hash_add_entry h k v = bug "duplicate hash key".
Proof.
  intros H Hk [w Hw]. pose proof (hash_lookup_ok h mm k H Hk) as Hl. rewrite Hw in Hl.
  destruct Hl as (p & E & _). unfold hash_add_entry. by rewrite E.
Qed.

(** A store through the pointer that a lookup returned. *)
Lemma hash_store_ok h mm k p v :
  holds ks vs h mm → length k = ks → length v = vs →
  hash_lookup_entry h k = Ok (Some p) →
  ∃ h', value_store h p v = Ok h' ∧ holds ks vs h' (<[k := v]> mm).
Proof.
  intros [chains R] Hk Hv Hl.
  destruct (node_by_key_ok _ _ _ _ _ R k Hk) as (c & hd & Hn & Hc & Hs & E).
  unfold hash_lookup_entry in Hl. rewrite E in Hl.
  destruct (chain_find k c) as [e|] eqn:Ef; [|done]. injection Hl as <-.
  destruct (map_others _ _ _ _ _ R _ c Hc) as (Hmm & Hnp & Hnk & Hdom).
  set (others := concat (delete _ chains)) in *.
  apply chain_find_Some in Ef as [He Hek].
  pose proof (λ d, rep_bucket _ _ _ _ _ R _ c d Hc) as Hb.
  apply list_elem_of_split in He as (c1 & c2 & ->).
  apply dseg_app in Hs as (mid & H1 & (-> & nx & Hm & H2)).
  unfold value_store. rewrite Hm. eexists; split; [done|].
  set (e' := Entry (e_ptr e) k v). cbn [p_key p_prev p_next].
  set (m' := <[_ := _]> _).
  assert (Ht : touches (heap h) m' (e_ptr e)) by (by eapply touches_insert).
  assert (Hptr : e_ptr <$> (c1 ++ e :: c2) ++ others = e_ptr <$> (c1 ++ e' :: c2) ++ others)
    by (by rewrite !fmap_app).
  assert (Hkey : e_key <$> (c1 ++ e :: c2) ++ others = e_key <$> (c1 ++ e' :: c2) ++ others)
    by (rewrite !fmap_app; cbn; by rewrite Hek).
  rewrite Hptr in Hnp. pose proof Hnp as Hnp'.
  rewrite <- app_assoc, fmap_app in Hnp'. cbn in Hnp'.
  apply NoDup_app in Hnp' as (_ & Hn1 & [Hn2 _]%NoDup_cons).
  rewrite fmap_app, elem_of_app in Hn2.
  exists (<[bucket_of h k := c1 ++ e' :: c2]> chains).
  replace (p_nodes h) with (<[bucket_of h k := hd]> (p_nodes h)) by (by apply list_insert_id).
  eapply rep_update; [exact R|done|..]; fold others.
  - apply dseg_app. exists (Some (e_ptr e)). split; [|cbn [dseg]].
    + eapply dseg_touches; [done| |done]. intros Hi. apply (Hn1 _ Hi). left.
    + split; [done|]. exists nx. split.
      * unfold m'. by rewrite lookup_insert_eq, Hek.
      * eapply (dseg_touches _ m'); [done|tauto|done].
  - intros q Hq. apply Ht. intros ->. tauto.
  - intros d [Hd|[->|Hd]%elem_of_cons]%elem_of_app; [apply Hb; set_solver|done|apply Hb; set_solver].
  - done.
  - by rewrite <- Hkey.
  - intros q. rewrite <- Hptr, <- Hdom. by rewrite (proj1 Ht).
  - rewrite Hmm. rewrite <- !app_assoc, !fmap_app, !list_to_map_app. cbn. rewrite Hek.
    assert (Hk1 : (list_to_map (entry_pair <$> c1) : gmap bytes bytes) !! k = None).
    { apply not_elem_of_list_to_map. rewrite <- list_fmap_compose.
      rewrite <- app_assoc, fmap_app in Hnk. apply NoDup_app in Hnk as (_ & Hd & _).
      intros Hi. apply (Hd _ Hi). cbn. rewrite Hek. left. }
    rewrite insert_union_r, insert_union_l by done. by rewrite insert_insert_eq.
Qed.

Lemma hash_free_missing h mm k :
  holds ks vs h mm → length k = ks → mm !! k = None →
  hash_free_entry h k = bug "hash node not found".
Proof.
  intros H Hk Hn. pose proof (hash_lookup_ok h mm k H Hk) as Hl. rewrite Hn in Hl.
  unfold hash_lookup_entry in Hl. unfold hash_free_entry. by rewrite Hl.
Qed.

(** Closing the gap that the node [e] leaves: forwards from its predecessor,
    then backwards from its successor. *)
Lemma dseg_relink_next m hd c1 e c2 :
  dseg m None hd (c1 ++ e :: c2) None → NoDup (e_ptr <$> c1 ++ e :: c2) →
  ∃ nx m1 hd1, m !! e_ptr e = Some (Node (e_key e) (e_val e) (end_ptr None c1) nx) ∧
    match end_ptr None c1 with
    | Some q => set_next m q nx = Ok m1 ∧ hd1 = hd
    | None => m1 = m ∧ hd1 = nx
    end ∧
    dom m1 = dom m ∧ (∀ q, q ∉ e_ptr <$> c1 → m1 !! q = m !! q) ∧
    dseg m1 None hd1 c1 nx ∧ dseg m1 (Some (e_ptr e)) nx c2 None.
Proof.
  intros Hs Hn. apply dseg_app in Hs as (mid & H1 & (-> & nx & Hm & H2)).
  rewrite fmap_app in Hn. cbn in Hn. apply NoDup_app in Hn as (Hn1 & Hn2 & Hn3).
  destruct (decide (c1 = [])) as [->|Hne]; [by exists nx, m, nx|].
  destruct (exists_last Hne) as (c0 & q & ->).
  unfold end_ptr in *. rewrite last_snoc in *.
  destruct (dseg_set_next m None hd q c0 (Some (e_ptr e)) nx) as (m1 & E & [Hd Ht] & Hs');
    [done|done|].
  assert (Hfr : ∀ p, p ∉ e_ptr <$> c0 ++ [q] → m1 !! p = m !! p).
  { intros p Hp. apply Ht. intros ->. apply Hp. rewrite fmap_app, elem_of_app. right. left. }
  exists nx, m1, hd. split_and!; try done.
  eapply dseg_frame; [|done]. intros p Hp. apply Hfr. intros Hi.
  apply (Hn2 _ Hi). by right.
Qed.

Lemma dseg_relink_prev m hd c1 e c2 nx :
  dseg m None hd c1 nx → dseg m (Some (e_ptr e)) nx c2 None →
  NoDup (e_ptr <$> c1 ++ e :: c2) →
  ∃ m2, match nx with
        | Some q => set_prev m q (end_ptr None c1)
        | None => Ok m
        end = Ok m2 ∧
    dom m2 = dom m ∧ (∀ q, q ∉ e_ptr <$> c2 → m2 !! q = m !! q) ∧
    dseg m2 None hd (c1 ++ c2) None.
Proof.
  intros H1 H2 Hn. rewrite fmap_app in Hn. cbn in Hn.
  apply NoDup_app in Hn as (Hn1 & Hn2 & [Hn3 Hn4]%NoDup_cons).
  destruct c2 as [|d c2].
  - cbn in H2. subst nx. exists m. rewrite app_nil_r. done.
  - pose proof H2 as [-> _].
    destruct (dseg_set_prev m (Some (e_ptr e)) (end_ptr None c1) (Some (e_ptr d)) d c2 None)
      as (m2 & E & [Hd Ht] & Hs'); [done|done|].
    exists m2. split; [done|]. split; [done|]. split.
    + intros q Hq. apply Ht. intros ->. apply Hq. left.
    + apply dseg_app. exists (Some (e_ptr d)). split; [|done].
      eapply dseg_frame; [|done]. intros p Hp. apply Ht. intros ->.
      apply (Hn2 _ Hp). right. left.
Qed.

(** The table without an entry, when its node has been unlinked and freed. *)
Lemma rep_remove h mm chains c1 e c2 hd1 m2 :
  hash_rep h ks vs chains mm → chains !! bucket_of h (e_key e) = Some (c1 ++ e :: c2) →
  dseg m2 None hd1 (c1 ++ c2) None → dom m2 = dom (heap h) →
  (∀ p, p ∉ e_ptr <$> c1 ++ e :: c2 → m2 !! p = heap h !! p) →
  holds ks vs (with_nodes h (<[bucket_of h (e_key e) := hd1]> (p_nodes h)) (delete (e_ptr e) m2)) (delete (e_key e) mm).
Proof.
  intros R Hc Hs' Hd2 Hf2. destruct (map_others _ _ _ _ _ R _ _ Hc) as (Hmm & Hnp & Hnk & Hdom).
  set (others := concat (delete _ chains)) in *.
  pose proof (λ d, rep_bucket _ _ _ _ _ R _ (c1 ++ e :: c2) d Hc) as Hb.
  pose proof Hnp as Hnc. rewrite fmap_app in Hnc. apply NoDup_app in Hnc as (_ & Hno & _).
  exists (<[bucket_of h (e_key e) := c1 ++ c2]> chains).
  assert (Hperm : (c1 ++ e :: c2) ++ others ≡ₚ e :: (c1 ++ c2) ++ others)
    by (by rewrite <- Permutation_middle).
  rewrite Hperm in Hnp, Hnk. cbn in Hnp, Hnk.
  apply NoDup_cons in Hnp as [Hp1 Hp2]. apply NoDup_cons in Hnk as [Hk1 Hk2].
  eapply rep_update; [exact R|done|..]; fold others; [| | |done|done| |].
  - eapply dseg_frame; [|done]. intros p Hp. rewrite lookup_delete_ne; [done|].
    intros <-. apply Hp1. rewrite fmap_app, elem_of_app. by left.
  - intros p Hp. assert (Hpc : p ∉ e_ptr <$> c1 ++ e :: c2) by (intros Hi; by apply (Hno _ Hi)).
    rewrite lookup_delete_ne; [by apply Hf2|]. intros <-. apply Hpc. rewrite fmap_app. apply elem_of_app. right. left.
  - intros d Hd. apply Hb. rewrite elem_of_app, elem_of_cons.
    apply elem_of_app in Hd. tauto.
  - intros p. rewrite dom_delete_L, Hd2, elem_of_difference, elem_of_singleton, Hdom.
    rewrite (fmap_Permutation e_ptr _ _ Hperm). cbn. rewrite elem_of_cons.
    split; [tauto|]. intros Hp. split; [by right|]. by intros ->.
  - rewrite Hmm, (list_to_map_proper _ (entry_pair <$> e :: (c1 ++ c2) ++ others)); [| |by rewrite Hperm].
    + cbn. rewrite delete_insert_id; [done|].
      apply not_elem_of_list_to_map. by rewrite <- list_fmap_compose.
    + rewrite <- list_fmap_compose. change (NoDup (e_key <$> (c1 ++ e :: c2) ++ others)).
      rewrite Hperm. cbn. by apply NoDup_cons.
Qed.

Lemma hash_free_ok h mm k :
  holds ks vs h mm → length k = ks → is_Some (mm !! k) →
  ∃ h', hash_free_entry h k = Ok h' ∧ holds ks vs h' (delete k mm).
Proof.
  intros [chains R] Hk [w Hw].
  destruct (node_by_key_ok _ _ _ _ _ R k Hk) as (c & hd & Hn & Hc & Hs & E).
  rewrite (chain_find_map _ _ _ _ _ R k c Hc) in Hw.
  destruct (chain_find k c) as [e|] eqn:Ef; [|done]. clear w Hw.
  destruct (map_others _ _ _ _ _ R _ c Hc) as (_ & Hnc & _ & _).
  apply chain_find_Some in Ef as [He Hek].
  apply list_elem_of_split in He as (c1 & c2 & ->).
  rewrite fmap_app in Hnc. apply NoDup_app in Hnc as (Hnc & _ & _).
  destruct (dseg_relink_next _ _ _ _ _ Hs Hnc)
    as (nx & m1 & hd1 & Hm & Hrel & Hd1 & Hf1 & Hs1 & Hs2).
  destruct (dseg_relink_prev _ _ _ _ _ _ Hs1 Hs2 Hnc) as (m2 & E2 & Hd2 & Hf2 & Hs').
  unfold hash_free_entry. rewrite E. cbn [res_bind fmap option_fmap option_map].
  rewrite Hm. cbn [p_prev p_next].
  assert (Hstep : (match end_ptr None c1 with
     | Some q => let* m := set_next (heap h) q nx in Ok (p_nodes h, m)
     | None => let* b := hash_get_bucket h k in Ok (<[b := nx]> (p_nodes h), heap h)
     end) = Ok (<[bucket_of h k := hd1]> (p_nodes h), m1)).
  { destruct (end_ptr None c1).
    - destruct Hrel as [-> ->]. cbn. by rewrite list_insert_id.
    - destruct Hrel as [-> ->]. by rewrite (proj1 (get_bucket_ok _ _ _ _ _ R k Hk)). }
  rewrite Hstep. cbn [res_bind]. rewrite E2. cbn [res_bind].
  eexists; split; [done|]. rewrite <- Hek in *. apply (rep_remove _ _ chains c1 e c2); [done..|by rewrite Hd2|].
  intros p Hp. rewrite fmap_app in Hp. cbn in Hp. rewrite elem_of_app, elem_of_cons in Hp. rewrite Hf2, Hf1; tauto.
Qed.

Lemma hash_alloc_ok bkts hf :
  0 < 8 * bkts <= INT_MAX → (∀ k, length k = ks → 0 <= hf bkts k < bkts) →
  ∃ h, hash_alloc bkts ks vs hf = Ok h ∧ holds ks vs h ∅.
Proof.
  unfold INT_MAX. intros Hb Hf. unfold hash_alloc, INT_MAX.
  rewrite u32_small by (unfold UINT_MOD; lia). ztest. cbn [orb].
  rewrite (Z.mul_comm 8), Z.div_mul by done.
  eexists; split; [done|]. exists (replicate (Z.to_nat bkts) []).
  assert (Hcc : concat (replicate (Z.to_nat bkts) ([] : list entry)) = []).
  { induction (Z.to_nat bkts); [done|]. by cbn. }
  split; cbn; rewrite ?Hcc; try done.
  - by rewrite length_replicate.
  - by rewrite !length_replicate.
  - intros i hd c [-> _]%lookup_replicate [-> _]%lookup_replicate. done.
  - intros i c e [-> _]%lookup_replicate He. by apply not_elem_of_nil in He.
  - apply NoDup_nil. done.
  - intros p. rewrite dom_empty_L. split; [set_solver|by intros ?%not_elem_of_nil].
  - apply NoDup_nil. done.
Qed.
End Operations.

(** ** The interface

    What the listener relies on: a table of fixed-size keys and values that
    holds a finite map, pointers to values included. *)

Class KVStore (T : Type) := {
  kv_ptr : Type;
  kv_holds : nat → nat → T → gmap bytes bytes → Prop;
  kv_lookup : T → bytes → res (option kv_ptr);
  kv_load : T → kv_ptr → res bytes;
  kv_store : T → kv_ptr → bytes → res T;
  kv_add : T → bytes → bytes → res T;
  kv_free : T → bytes → res T;

  kv_lookup_ok ks vs t m k :
    kv_holds ks vs t m → length k = ks →
    match m !! k with
    | None => kv_lookup t k = Ok None
    | Some v => ∃ p, kv_lookup t k = Ok (Some p) ∧ kv_load t p = Ok v
    end;
  kv_store_ok ks vs t m k p v :
    kv_holds ks vs t m → length k = ks → length v = vs →
    kv_lookup t k = Ok (Some p) →
    ∃ t', kv_store t p v = Ok t' ∧ kv_holds ks vs t' (<[k := v]> m);
  kv_add_ok ks vs t m k v :
    kv_holds ks vs t m → length k = ks → length v = vs → m !! k = None →
    ∃ t', kv_add t k v = Ok t' ∧ kv_holds ks vs t' (<[k := v]> m);
  kv_free_ok ks vs t m k :
    kv_holds ks vs t m → length k = ks → is_Some (m !! k) →
    ∃ t', kv_free t k = Ok t' ∧ kv_holds ks vs t' (delete k m)
}.

#[global] Instance hash_kv : KVStore hash := {|
  kv_ptr := ptr;
  kv_holds := holds;
  kv_lookup := hash_lookup_entry;
  kv_load := value_load;
  kv_store := value_store;
  kv_add := hash_add_entry;
  kv_free := hash_free_entry;
  kv_lookup_ok := hash_lookup_ok;
  kv_store_ok := hash_store_ok;
  kv_add_ok := hash_add_ok;
  kv_free_ok := hash_free_ok
|}.

(** ** The table as a map, over whole histories *)

Inductive hop :=
  | HAdd (k v : bytes)
  | HFree (k : bytes).

Definition exec_hop (o : hop) (h : hash) : res hash :=
  match o with
  | HAdd k v => hash_add_entry h k v
  | HFree k => hash_free_entry h k
  end.

(** [None]: the operation is a [bug] of the caller. *)
Definition spec_hop (o : hop) (m : gmap bytes bytes) : option (gmap bytes bytes) :=
  match o, m !! (match o with HAdd k _ | HFree k => k end) with
  | HAdd k v, None => Some (<[k := v]> m)
  | HFree k, Some _ => Some (delete k m)
  | _, _ => None
  end.

Definition hop_sized (ks vs : nat) (o : hop) : Prop :=
  match o with
  | HAdd k v => length k = ks ∧ length v = vs
  | HFree k => length k = ks
  end.

Lemma exec_hop_ok ks vs h m o :
  holds ks vs h m → hop_sized ks vs o →
  match spec_hop o m with
  | Some m' => ∃ h', exec_hop o h = Ok h' ∧ holds ks vs h' m'
  | None => ∃ msg, exec_hop o h = Err (Bug msg)
  end.
Proof.
  intros Hh Ho. destruct o as [k v|k]; cbn in *.
  - destruct (m !! k) eqn:E.
    + eexists. eapply hash_add_duplicate; [done|tauto|by eexists].
    + apply hash_add_ok; tauto.
  - destruct (m !! k) eqn:E.
    + apply hash_free_ok; [done|done|by eexists].
    + eexists. by eapply hash_free_missing.
Qed.

Definition run_hops (os : list hop) (h : hash) : res hash :=
  foldl (λ m o, res_bind m (exec_hop o)) (Ok h) os.

Definition spec_hops (os : list hop) (m : gmap bytes bytes) : option (gmap bytes bytes) :=
  foldl (λ m o, m ≫= spec_hop o) (Some m) os.

Lemma run_hops_ok ks vs os h m :
  holds ks vs h m → Forall (hop_sized ks vs) os →
  match spec_hops os m with
  | Some m' => ∃ h', run_hops os h = Ok h' ∧ holds ks vs h' m'
  | None => ∃ msg, run_hops os h = Err (Bug msg)
  end.
Proof.
  unfold run_hops, spec_hops. intros Hh Hs. revert h m Hh.
  induction Hs as [|o os Ho Hos IH]; intros h m Hh; cbn [foldl]; [eauto|].
  pose proof (exec_hop_ok ks vs h m o Hh Ho) as H. cbn [mbind option_bind res_bind].
  destruct (spec_hop o m) as [m'|].
  - destruct H as (h' & -> & Hh'). by apply IH.
  - destruct H as (msg & ->).
    assert (foldl (λ m o, m ≫= spec_hop o) (None : option (gmap bytes bytes)) os = None) as ->
      by (clear; induction os as [|? os IH]; [done|exact IH]).
    exists msg. clear. induction os as [|? os IH]; [done|exact IH].
Qed.

(** C23: the hash table is a finite map. After any history of additions and
    removals on a fresh table, the doubly linked chains hold exactly the map
    that the history builds: every lookup finds the value of the key or
    nothing, an addition of a present key or a removal of an absent one is
    the [bug] the code reports, and no operation follows a dangling pointer
    or leaves the node array. *)
Theorem hash_refines_map bkts ks vs hf h os :
  0 < 8 * bkts <= INT_MAX →
  (∀ k, length k = ks → 0 <= hf bkts k < bkts) →
  hash_alloc bkts ks vs hf = Ok h →
  Forall (hop_sized ks vs) os →
  match spec_hops os ∅ with
  | None => ∃ msg, run_hops os h = Err (Bug msg)
  | Some m => ∃ h', run_hops os h = Ok h' ∧
      ∀ k, length k = ks →
        match m !! k with
        | None => hash_lookup_entry h' k = Ok None
        | Some v => ∃ p, hash_lookup_entry h' k = Ok (Some p) ∧ value_load h' p = Ok v
        end
  end.
Proof.
  intros Hb Hf Ha Hs. destruct (hash_alloc_ok ks vs bkts hf Hb Hf) as (h0 & E & Hh).
  rewrite E in Ha. injection Ha as <-. pose proof (run_hops_ok ks vs os h0 ∅ Hh Hs) as H.
  destruct (spec_hops os ∅) as [m|]; [|done]. destruct H as (h' & -> & Hh').
  exists h'. split; [done|]. intros k Hk. by apply (hash_lookup_ok ks vs).
Qed.

(** Two keys of one bucket, one removed from the middle of the chain. *)
Definition demo_history : list hop :=
  [HAdd [x01] [x0a]; HAdd [x03] [x0b]; HAdd [x05] [x0c]; HFree [x03]].

Definition demo_hash : Z → bytes → Z := λ n k, uchar (hd NUL k) mod n.

Lemma hash_refines_map_witness :
  ∃ h h', hash_alloc 2 1 1 demo_hash = Ok h ∧
    run_hops demo_history h = Ok h' ∧ hash_lookup_entry h' [x03] = Ok None.
Proof.
  destruct (hash_alloc 2 1 1 demo_hash) as [h|] eqn:E; [|done]. exists h.
  assert (Hf : ∀ k, length k = 1%nat → 0 <= demo_hash 2 k < 2).
  { intros. apply Z.mod_pos_bound. lia. }
  assert (Hs : Forall (hop_sized 1 1) demo_history) by (by repeat constructor).
  pose proof (hash_refines_map 2 1 1 demo_hash h demo_history ltac:(by vm_compute)
                Hf E Hs) as H.
  assert (Hm : (λ m, m !! [x03]) <$> spec_hops demo_history ∅ = Some None)
    by (vm_compute; reflexivity).
  destruct (spec_hops demo_history ∅) as [m|]; [|done]. injection Hm as Hm.
  destruct H as (h' & Hr & Hl). exists h'. split; [done|]. split; [done|].
  specialize (Hl [x03] eq_refl). by rewrite Hm in Hl.
Defined.
