(* ===== verification/Standalone.v ===== *)
(** * standalone.c: the listener's accounting of its children

    The listener keeps the number of children and two tables: connections per
    client address, and the address of each child pid. [accept_client] is one
    round of the accept loop of [vsf_standalone_main]; [handle_sigchld] runs
    inside accept (and inside [close], when it is interrupted). The tables are
    used through [KVStore]; [Hash] discharges it at the end. *)

From Stdlib Require Import Init.Byte Strings.Byte.
From Stdlib Require Import ZArith Lia String.
From stdpp Require Import base list numbers option gmap fin_maps.
From S2P Require Import Prelude SysUtil Hash.
Import ResNotations.

(** [vsf_sysutil_get_ipaddr_size]: the larger of the two address sizes. *)
Definition vsf_sysutil_get_ipaddr_size : nat := 16.

Record vsf_client_launch := Launch { num_children : Z; num_this_ip : Z }.

(** The bytes of an [int] pid. *)
Definition pid_key (pid : Z) : bytes := le4 (u32 pid).

(** The child processes: client addresses by pid. *)
Abbreviation procs := (gmap bytes bytes).

Section Listener.
Context {T : Type} {KV : KVStore T}.

Record listener := Listener {
  s_children : Z;
  s_p_ip_count_hash : T;
  s_p_pid_ip_hash : T
}.

Definition handle_ip_count (l : listener) (p_ipaddr : bytes) : res (Z * listener) :=
  let* p_count := kv_lookup (s_p_ip_count_hash l) p_ipaddr in
  match p_count with
  | None =>
      let* t := kv_add (s_p_ip_count_hash l) p_ipaddr (le4 1) in
      Ok (1, Listener (s_children l) t (s_p_pid_ip_hash l))
  | Some p =>
      let* v := kv_load (s_p_ip_count_hash l) p in
      let count := u32 (un_le4 v + 1) in
      let* t := kv_store (s_p_ip_count_hash l) p (le4 count) in
      Ok (count, Listener (s_children l) t (s_p_pid_ip_hash l))
  end.

(** A NULL key is dereferenced by the hash function. *)
Definition drop_ip_count (l : listener) (p_raw_addr : option bytes) : res listener :=
  match p_raw_addr with
  | None => Err UB
  | Some ip =>
      let* p_count := kv_lookup (s_p_ip_count_hash l) ip in
      match p_count with
      | None => bug "IP address missing from hash"
      | Some p =>
          let* v := kv_load (s_p_ip_count_hash l) p in
          let count := un_le4 v in
          if count =? 0 then bug "zero count for IP address"
          else
            let count := u32 (count - 1) in
            let* t := kv_store (s_p_ip_count_hash l) p (le4 count) in
            let* t := if count =? 0 then kv_free t ip else Ok t in
            Ok (Listener (s_children l) t (s_p_pid_ip_hash l))
      end
  end.

(** One turn of the loop of [handle_sigchld] on a reaped pid. *)
Definition reap_one (l : listener) (pid : Z) : res listener :=
  let l := Listener (u32 (s_children l - 1)) (s_p_ip_count_hash l) (s_p_pid_ip_hash l) in
  let* p_ip := kv_lookup (s_p_pid_ip_hash l) (pid_key pid) in
  let* ip :=
    match p_ip with
    | None => Ok None
    | Some p => res_map Some (kv_load (s_p_pid_ip_hash l) p)
    end in
  let* l := drop_ip_count l ip in
  let* t := kv_free (s_p_pid_ip_hash l) (pid_key pid) in
  Ok (Listener (s_children l) (s_p_ip_count_hash l) t).

(** [reaped]: what [vsf_sysutil_wait_reap_one] returns until it returns 0. *)
Fixpoint handle_sigchld (l : listener) (reaped : list Z) : res listener :=
  match reaped with
  | [] => Ok l
  | pid :: reaped' => let* l := reap_one l pid in handle_sigchld l reaped'
  end.

(** The accept loop from a connection to the fork. *)
Definition accept_client (l : listener) (p_raw_addr : bytes)
  : res (vsf_client_launch * listener) :=
  let l := Listener (u32 (s_children l + 1)) (s_p_ip_count_hash l) (s_p_pid_ip_hash l) in
  let* (n, l') := handle_ip_count l p_raw_addr in
  Ok (Launch (s_children l) n, l').

(** The parent after the fork: [closing] are the pids reaped while the
    listener closes the client's socket. *)
Definition parent_after_fork (l : listener) (p_raw_addr : bytes) (new_child : Z)
    (closing : list Z) : res listener :=
  let* l := handle_sigchld l closing in
  if 0 <? new_child then
    let* t := kv_add (s_p_pid_ip_hash l) (pid_key new_child) p_raw_addr in
    Ok (Listener (s_children l) (s_p_ip_count_hash l) t)
  else
    let l := Listener (u32 (s_children l - 1)) (s_p_ip_count_hash l) (s_p_pid_ip_hash l) in
    drop_ip_count l (Some p_raw_addr).

(** What happens to the listener: a connection and the fork's result, or a
    SIGCHLD handled in accept. *)
Inductive event :=
  | Client (ip : bytes) (new_child : Z) (closing : list Z)
  | Sigchld (reaped : list Z).

Definition listener_step (e : event) (l : listener) : res listener :=
  match e with
  | Client ip new_child closing =>
      let* (_, l) := accept_client l ip in
      parent_after_fork l ip new_child closing
  | Sigchld reaped => handle_sigchld l reaped
  end.

Definition listener_run (es : list event) (l : listener) : res listener :=
  foldl (λ m e, res_bind m (listener_step e)) (Ok l) es.

(** ** The processes

    [live]: the children that exist, by pid (as the key that stands for it),
    with the client address each serves ([procs]). *)

Definition count_ip (live : procs) (ip : bytes) : Z :=
  Z.of_nat (size (filter (λ kv : bytes * bytes, kv.2 = ip) live)).

(** [waitpid] returns each child once. *)
Fixpoint reap_all (live : procs) (reaped : list Z) : option procs :=
  match reaped with
  | [] => Some live
  | pid :: r =>
      match live !! pid_key pid with
      | Some _ => reap_all (delete (pid_key pid) live) r
      | None => None
      end
  end.

(** What the system may do: accept gives a 16-byte address; fork fails or
    gives a pid that no existing child has; only existing children are reaped,
    and the new one is among them while the listener closes the client's socket. *)
Definition os_step (e : event) (live : procs) : option procs :=
  match e with
  | Client ip new_child closing =>
      if negb (length ip =? vsf_sysutil_get_ipaddr_size)%nat then None
      else if 0 <? new_child then
        match live !! pid_key new_child with
        | Some _ => None
        | None => reap_all (<[pid_key new_child := ip]> live) closing
        end
      else reap_all live closing
  | Sigchld reaped => reap_all live reaped
  end.

(** The new child is reaped before the listener has recorded it. *)
Definition raced (e : event) : bool :=
  match e with
  | Client _ new_child closing =>
      (0 <? new_child) && bool_decide (pid_key new_child ∈ pid_key <$> closing)
  | Sigchld _ => false
  end.

Definition os_run (es : list event) (live : procs) : option procs :=
  foldl (λ m e, m ≫= os_step e) (Some live) es.

(** ** The invariant *)

(** The address table holds the numbers [tot], without the zero ones. *)
Definition tallies (t : T) (tot : bytes → Z) : Prop :=
  ∃ m, kv_holds 16 4 t m ∧
    ∀ ip, m !! ip = (if tot ip =? 0 then None else Some (le4 (tot ip))).

Definition one (ip : bytes) : bytes → Z := λ i, of_bool (bool_decide (i = ip)).

(** [pending]: connections that are counted but whose child is not recorded
    yet. *)
Definition total (live : procs) (pending : list bytes) : bytes → Z :=
  λ ip, count_ip live ip + Z.of_nat (length (filter (λ i, i = ip) pending)).

Record accounted (l : listener) (live : procs) (pending : list bytes) : Prop := {
  acc_children : s_children l = Z.of_nat (size live + length pending);
  acc_pids : kv_holds 4 16 (s_p_pid_ip_hash l) live;
  acc_sizes : map_Forall (λ k ip, length k = 4%nat ∧ length ip = 16%nat) live;
  acc_ips : tallies (s_p_ip_count_hash l) (total live pending)
}.

Lemma tallies_ext t f g : (∀ ip, f ip = g ip) → tallies t f → tallies t g.
Proof.
  intros Hfg (m & Hm & Hi). exists m. split; [done|]. intros ip. by rewrite Hi, Hfg.
Qed.

Lemma count_ip_insert live k ip i :
  live !! k = None →
  count_ip (<[k := ip]> live) i = count_ip live i + one ip i.
Proof.
  intros Hk. unfold count_ip, one. case_bool_decide as E.
  - subst. rewrite map_filter_insert_True by done.
    rewrite map_size_insert_None; [cbn; lia|].
    apply map_lookup_filter_None. by left.
  - rewrite map_filter_insert_False by (cbn; congruence).
    rewrite delete_id by done. cbn. lia.
Qed.

Lemma count_ip_delete live k ip i :
  live !! k = Some ip →
  count_ip (delete k live) i = count_ip live i - one ip i.
Proof.
  intros Hk. rewrite <- (insert_delete_id live k ip Hk) at 2.
  rewrite count_ip_insert by apply lookup_delete_eq. lia.
Qed.

Lemma count_ip_bound live i : 0 <= count_ip live i <= Z.of_nat (size live).
Proof.
  unfold count_ip. split; [lia|].
  assert (size (filter (λ kv : bytes * bytes, kv.2 = i) live) <= size live)%nat; [|lia].
  rewrite <- !(size_dom (D:=gset bytes)). apply subseteq_size.
  apply dom_filter_subseteq.
Qed.

Lemma total_bound live pending i :
  0 <= total live pending i <= Z.of_nat (size live + length pending).
Proof.
  unfold total. pose proof (count_ip_bound live i).
  assert (length (filter (λ j, j = i) pending) <= length pending)%nat
    by apply length_filter. lia.
Qed.

Lemma length_le4 z : length (le4 z) = 4%nat.
Proof. done. Qed.

(** ** The address table *)

Lemma handle_ip_count_ok l tot ip :
  tallies (s_p_ip_count_hash l) tot → length ip = 16%nat →
  0 <= tot ip → tot ip + 1 < UINT_MOD →
  ∃ t, handle_ip_count l ip =
       Ok (tot ip + 1, Listener (s_children l) t (s_p_pid_ip_hash l)) ∧
       tallies t (λ i, tot i + one ip i).
Proof.
  intros (m & Hm & Hi) Hl Hlo Hhi. unfold handle_ip_count.
  pose proof (kv_lookup_ok 16 4 _ m ip Hm Hl) as Hk. rewrite Hi in Hk.
  assert (Htab : ∀ i, <[ip := le4 (tot ip + 1)]> m !! i =
    (if tot i + one ip i =? 0 then None else Some (le4 (tot i + one ip i)))).
  { intros i. unfold one. destruct (decide (i = ip)) as [->|Hne].
    - rewrite lookup_insert_eq, bool_decide_eq_true_2 by done. cbn. by ztest.
    - rewrite lookup_insert_ne, bool_decide_eq_false_2 by done. cbn.
      rewrite Z.add_0_r. apply Hi. }
  destruct (Z.eqb_spec (tot ip) 0) as [E|E].
  - rewrite Hk. cbn [res_bind].
    destruct (kv_add_ok 16 4 _ m ip (le4 1) Hm Hl eq_refl) as (t & -> & Ht).
    { by rewrite Hi, (proj2 (Z.eqb_eq _ _)). }
    cbn [res_bind]. exists t. rewrite E in *. split; [done|]. eexists; eauto.
  - destruct Hk as (p & Hp & Hld). rewrite Hp. cbn [res_bind]. rewrite Hld.
    cbn [res_bind]. rewrite un_le4_le4, u32_small by lia.
    destruct (kv_store_ok 16 4 _ m ip p (le4 (tot ip + 1)) Hm Hl eq_refl Hp) as (t & -> & Ht).
    cbn [res_bind]. exists t. split; [done|]. eexists; eauto.
Qed.

Lemma drop_ip_count_ok l tot ip :
  tallies (s_p_ip_count_hash l) tot → length ip = 16%nat →
  0 < tot ip < UINT_MOD →
  ∃ t, drop_ip_count l (Some ip) =
       Ok (Listener (s_children l) t (s_p_pid_ip_hash l)) ∧
       tallies t (λ i, tot i - one ip i).
Proof.
  intros (m & Hm & Hi) Hl Hb. unfold drop_ip_count.
  pose proof (kv_lookup_ok 16 4 _ m ip Hm Hl) as Hk. rewrite Hi in Hk.
  rewrite (proj2 (Z.eqb_neq _ _)) in Hk by lia. destruct Hk as (p & Hp & Hld).
  rewrite Hp. cbn [res_bind]. rewrite Hld. cbn [res_bind].
  rewrite un_le4_le4 by lia. rewrite (proj2 (Z.eqb_neq _ _)) by lia.
  rewrite u32_small by lia.
  destruct (kv_store_ok 16 4 _ m ip p (le4 (tot ip - 1)) Hm Hl eq_refl Hp) as (t & -> & Ht).
  cbn [res_bind]. set (m1 := <[ip := _]> m) in Ht.
  assert (Hother : ∀ i, i ≠ ip → m1 !! i =
    (if tot i - one ip i =? 0 then None else Some (le4 (tot i - one ip i)))).
  { intros i Hne. unfold m1, one. rewrite lookup_insert_ne, bool_decide_eq_false_2 by done.
    cbn. rewrite Z.sub_0_r. apply Hi. }
  assert (Hone : one ip ip = 1) by (unfold one; by rewrite bool_decide_eq_true_2).
  assert (Hm1 : m1 !! ip = Some (le4 (tot ip - 1))) by apply lookup_insert_eq.
  destruct (Z.eqb_spec (tot ip - 1) 0) as [E|E].
  - destruct (kv_free_ok 16 4 _ m1 ip Ht Hl) as (t' & -> & Ht'); [by eexists|].
    cbn [res_bind]. exists t'. split; [done|]. exists (delete ip m1). split; [done|].
    intros i. destruct (decide (i = ip)) as [->|Hne].
    + rewrite lookup_delete_eq, Hone. by ztest.
    + rewrite lookup_delete_ne by done. auto.
  - cbn [res_bind]. exists t. split; [done|]. exists m1. split; [done|].
    intros i. destruct (decide (i = ip)) as [->|Hne]; [|auto].
    rewrite Hm1, Hone. by ztest.
Qed.

(** ** The handlers *)

Lemma length_pid_key pid : length (pid_key pid) = 4%nat.
Proof. done. Qed.

Lemma reap_one_ok l live pending pid ip :
  accounted l live pending → Z.of_nat (size live + length pending) < UINT_MOD →
  live !! pid_key pid = Some ip →
  ∃ l', reap_one l pid = Ok l' ∧ accounted l' (delete (pid_key pid) live) pending.
Proof.
  intros [Hc Hp Hs Hi] Hb Hpid. unfold reap_one. cbn [s_children s_p_pid_ip_hash].
  destruct (Hs _ _ Hpid) as [_ Hip].
  pose proof (kv_lookup_ok 4 16 _ live (pid_key pid) Hp eq_refl) as Hk.
  rewrite Hpid in Hk. destruct Hk as (p & -> & Hld). cbn [res_bind].
  rewrite Hld. cbn [res_map res_bind].
  assert (Hpos : 0 < total live pending ip < UINT_MOD).
  { pose proof (total_bound live pending ip). split; [|lia].
    pose proof (count_ip_delete live (pid_key pid) ip ip Hpid) as Hd.
    pose proof (count_ip_bound (delete (pid_key pid) live) ip).
    unfold one in Hd. rewrite bool_decide_eq_true_2 in Hd by done. cbn in Hd.
    unfold total. lia. }
  destruct (drop_ip_count_ok
    (Listener (u32 (s_children l - 1)) (s_p_ip_count_hash l) (s_p_pid_ip_hash l))
    _ ip Hi Hip Hpos) as (t & -> & Ht).
  cbn [res_bind s_children s_p_ip_count_hash s_p_pid_ip_hash].
  destruct (kv_free_ok 4 16 _ live (pid_key pid) Hp eq_refl) as (t' & -> & Ht');
    [by eexists|].
  cbn [res_bind]. eexists; split; [done|].
  assert (Hsz : size live = S (size (delete (pid_key pid) live))).
  { rewrite map_size_delete, Hpid.
    assert (size live ≠ 0%nat) by (apply map_size_ne_0_lookup; eauto). lia. }
  split; cbn [s_children s_p_ip_count_hash s_p_pid_ip_hash].
  - rewrite Hc, u32_small by (unfold UINT_MOD in *; lia). lia.
  - done.
  - by apply map_Forall_delete.
  - eapply tallies_ext; [|done]. intros i. cbn. unfold total.
    rewrite (count_ip_delete _ _ _ _ Hpid). lia.
Qed.

Lemma size_delete_le (live : procs) k : (size (delete k live) <= size live)%nat.
Proof.
  rewrite <- !(size_dom (D:=gset bytes)). apply subseteq_size.
  rewrite dom_delete. apply subseteq_difference_l. done.
Qed.

Lemma handle_sigchld_ok reaped : ∀ l live live' pending,
  accounted l live pending → Z.of_nat (size live + length pending) < UINT_MOD →
  reap_all live reaped = Some live' →
  ∃ l', handle_sigchld l reaped = Ok l' ∧ accounted l' live' pending ∧
        (size live' <= size live)%nat.
Proof.
  induction reaped as [|pid r IH]; intros l live live' pending Ha Hb Hr; cbn in *.
  - injection Hr as <-. eauto.
  - destruct (live !! pid_key pid) as [ip|] eqn:E; [|done].
    destruct (reap_one_ok l live pending pid ip Ha Hb E) as (l1 & -> & Ha1). cbn.
    pose proof (size_delete_le live (pid_key pid)).
    destruct (IH l1 _ live' pending Ha1 ltac:(lia) Hr) as (l' & E' & Ha' & ?).
    exists l'. split_and!; [done..|lia].
Qed.

Lemma total_one live ip i : total live [ip] i = count_ip live i + one ip i.
Proof.
  unfold total, one. destruct (decide (ip = i)) as [->|Hne].
  - rewrite bool_decide_eq_true_2, filter_cons_True by done. done.
  - rewrite bool_decide_eq_false_2 by congruence. by rewrite filter_cons_False.
Qed.

Lemma accept_client_ok l live ip :
  accounted l live [] → Z.of_nat (size live) + 1 < UINT_MOD → length ip = 16%nat →
  ∃ l', accept_client l ip =
        Ok (Launch (Z.of_nat (size live) + 1) (count_ip live ip + 1), l') ∧
        accounted l' live [ip].
Proof.
  intros [Hc Hp Hs Hi] Hb Hl. unfold accept_client. cbn [length] in Hc.
  assert (Hn : total live [] ip = count_ip live ip) by (unfold total; cbn; lia).
  pose proof (count_ip_bound live ip).
  destruct (handle_ip_count_ok
    (Listener (u32 (s_children l + 1)) (s_p_ip_count_hash l) (s_p_pid_ip_hash l))
    _ ip Hi Hl) as (t & -> & Ht); [lia|lia|].
  cbn [res_bind s_children]. rewrite Hc, Hn, u32_small by lia.
  eexists; split; [do 3 f_equal; lia|].
  split; cbn [s_children s_p_ip_count_hash s_p_pid_ip_hash length].
  - lia.
  - done.
  - done.
  - eapply tallies_ext; [|done]. intros i. rewrite total_one. unfold total. cbn. lia.
Qed.

Lemma parent_after_fork_ok l live live1 live' ip new_child closing :
  accounted l live [ip] → Z.of_nat (size live) + 1 < UINT_MOD → length ip = 16%nat →
  reap_all live closing = Some live1 →
  (if 0 <? new_child then
     match live1 !! pid_key new_child with
     | Some _ => None
     | None => Some (<[pid_key new_child := ip]> live1)
     end
   else Some live1) = Some live' →
  ∃ l', parent_after_fork l ip new_child closing = Ok l' ∧ accounted l' live' [] ∧
        (size live' <= S (size live))%nat.
Proof.
  intros Ha Hb Hl Hr Hf. unfold parent_after_fork.
  destruct (handle_sigchld_ok closing l live live1 [ip] Ha ltac:(cbn; lia) Hr)
    as (l1 & -> & [Hc Hp Hs Hi] & Hsz). cbn [res_bind]. cbn [length] in Hc.
  destruct (0 <? new_child).
  - destruct (live1 !! pid_key new_child) eqn:E; [done|]. injection Hf as <-.
    destruct (kv_add_ok 4 16 _ live1 (pid_key new_child) ip Hp eq_refl Hl E)
      as (t & -> & Ht). cbn [res_bind]. eexists; split; [done|].
    assert (Hs1 : size (<[pid_key new_child := ip]> live1) = S (size live1))
      by (by apply map_size_insert_None).
    split; [|rewrite Hs1; lia].
    split; cbn [s_children s_p_ip_count_hash s_p_pid_ip_hash length].
    + rewrite Hs1. lia.
    + done.
    + apply map_Forall_insert_2; [|done]. done.
    + eapply tallies_ext; [|done]. intros i. rewrite total_one.
      unfold total. rewrite count_ip_insert by done. cbn. lia.
  - injection Hf as <-.
    assert (Hpos : 0 < total live1 [ip] ip < UINT_MOD).
    { pose proof (count_ip_bound live1 ip). rewrite total_one.
      unfold one. rewrite bool_decide_eq_true_2 by done. cbn. lia. }
    destruct (drop_ip_count_ok
      (Listener (u32 (s_children l1 - 1)) (s_p_ip_count_hash l1) (s_p_pid_ip_hash l1))
      _ ip Hi Hl Hpos) as (t & -> & Ht).
    eexists; split; [done|]. split; [|lia].
    split; cbn [s_children s_p_ip_count_hash s_p_pid_ip_hash length].
    + rewrite Hc, u32_small by lia. lia.
    + done.
    + done.
    + eapply tallies_ext; [|done]. intros i. cbn beta. rewrite total_one.
      unfold total. cbn. lia.
Qed.

(** Reaping with the new child there: either it is reaped, or the others are and it
    stays. *)
Lemma reap_all_insert k ip closing : ∀ live live',
  live !! k = None → reap_all (<[k := ip]> live) closing = Some live' →
  if bool_decide (k ∈ pid_key <$> closing) then
    ∃ pre pid post live1, closing = pre ++ pid :: post ∧ pid_key pid = k ∧
      reap_all live pre = Some live1 ∧ live1 !! k = None
  else ∃ live1, reap_all live closing = Some live1 ∧ live1 !! k = None ∧ live' = <[k := ip]> live1.
Proof.
  induction closing as [|pid closing IH]; intros live live' Hk Hr; cbn [reap_all fmap list_fmap] in *.
  { rewrite bool_decide_eq_false_2 by set_solver. injection Hr as <-. eauto. }
  destruct (decide (pid_key pid = k)) as [Hp|Hp].
  { rewrite bool_decide_eq_true_2 by set_solver. by exists [], pid, closing, live. }
  rewrite lookup_insert_ne in Hr by congruence.
  destruct (live !! pid_key pid) as [ip'|] eqn:E; [|done].
  rewrite delete_insert_ne in Hr by congruence.
  specialize (IH (delete (pid_key pid) live) live' ltac:(by rewrite lookup_delete_None; right) Hr).
  rewrite (bool_decide_ext _ (k ∈ pid_key <$> closing)) by set_solver.
  case_bool_decide; [|exact IH]. destruct IH as (pre & q & post & live1 & -> & Hq & Hpre & H1).
  exists (pid :: pre), q, post, live1. split; [done|]. split; [done|]. cbn [reap_all]. by rewrite E.
Qed.

Lemma handle_sigchld_app a b : ∀ l,
  handle_sigchld l (a ++ b) = (let* l := handle_sigchld l a in handle_sigchld l b).
Proof.
  induction a as [|pid a IH]; intros l; cbn [app handle_sigchld res_bind]; [done|].
  destruct (reap_one l pid); [apply IH|done].
Qed.

(** A pid that is not recorded: [drop_ip_count] is called with a NULL address. *)
Lemma reap_one_unknown l live pending pid :
  accounted l live pending → live !! pid_key pid = None → reap_one l pid = Err UB.
Proof.
  intros [_ Hp _ _] Hn. unfold reap_one. cbn [s_p_pid_ip_hash].
  pose proof (kv_lookup_ok 4 16 _ live (pid_key pid) Hp eq_refl) as Hk. rewrite Hn in Hk. by rewrite Hk.
Qed.

Lemma listener_step_ok e l live live' :
  accounted l live [] → os_step e live = Some live' →
  Z.of_nat (size live) + 1 < UINT_MOD →
  if raced e then listener_step e l = Err UB
  else ∃ l', listener_step e l = Ok l' ∧ accounted l' live' [] ∧
             (size live' <= S (size live))%nat.
Proof.
  intros Ha Ho Hb. destruct e as [ip new_child closing|reaped]; cbn [listener_step os_step raced] in *.
  2:{ destruct (handle_sigchld_ok reaped l live live' [] Ha ltac:(cbn; lia) Ho)
        as (l' & E & Ha' & ?). exists l'. split_and!; [done..|lia]. }
  destruct (Nat.eqb_spec (length ip) vsf_sysutil_get_ipaddr_size) as [Hl|]; [|done].
  cbn [negb] in Ho. destruct (accept_client_ok l live ip Ha Hb Hl) as (l1 & -> & Ha1). cbn [res_bind].
  destruct (0 <? new_child) eqn:Hnew; cbn [andb].
  - destruct (live !! pid_key new_child) eqn:E; [done|].
    apply reap_all_insert in Ho; [|done]. case_bool_decide.
    + destruct Ho as (pre & pid & post & live1 & -> & Hpid & Hpre & Hn).
      destruct (handle_sigchld_ok pre l1 live live1 [ip] Ha1 ltac:(cbn; lia) Hpre) as (l2 & E2 & Ha2 & _).
      unfold parent_after_fork. rewrite handle_sigchld_app, E2. cbn [res_bind handle_sigchld].
      by rewrite (reap_one_unknown l2 live1 [ip]) by (rewrite ?Hpid; done).
    + destruct Ho as (live1 & Hr & Hn & ->).
      by apply (parent_after_fork_ok l1 live live1 _ ip new_child closing); rewrite ?Hnew, ?Hn.
  - by apply (parent_after_fork_ok l1 live live' _ ip new_child closing); rewrite ?Hnew.
Qed.

Lemma listener_run_UB es : foldl (λ m e, res_bind m (listener_step e)) (Err UB) es = Err UB.
Proof. by induction es. Qed.

Lemma listener_run_ok es : ∀ l live live',
  accounted l live [] → os_run es live = Some live' →
  Z.of_nat (size live + length es) < UINT_MOD →
  if existsb raced es then listener_run es l = Err UB
  else ∃ l', listener_run es l = Ok l' ∧ accounted l' live' [] ∧
             (size live' <= size live + length es)%nat.
Proof.
  unfold listener_run, os_run.
  induction es as [|e es IH]; intros l live live' Ha Ho Hb; cbn [foldl existsb] in *.
  - injection Ho as <-. exists l. split_and!; [done..|lia].
  - cbn [mbind option_bind res_bind] in *. cbn [length] in *.
    destruct (os_step e live) as [live1|] eqn:E.
    + pose proof (listener_step_ok e l live live1 Ha E ltac:(lia)) as Hs. destruct (raced e); cbn [orb].
      { rewrite Hs. apply listener_run_UB. }
      destruct Hs as (l1 & -> & Ha1 & ?). specialize (IH l1 live1 live' Ha1 Ho ltac:(lia)).
      destruct (existsb raced es); [exact IH|]. destruct IH as (l' & El & Hl & ?).
      exists l'. split_and!; [done..|lia].
    + exfalso. clear -Ho. induction es as [|? es IH]; [done|]. by apply IH.
Qed.

(** A run that gives a state had no such race. *)
Lemma listener_run_Ok es l l' live live' :
  accounted l live [] → os_run es live = Some live' → Z.of_nat (size live + length es) < UINT_MOD →
  listener_run es l = Ok l' → accounted l' live' [] ∧ (size live' <= size live + length es)%nat.
Proof.
  intros Ha Ho Hb Hr. pose proof (listener_run_ok es l live live' Ha Ho Hb) as H.
  rewrite Hr in H. destruct (existsb raced es); [done|]. destruct H as (? & [= <-] & ?). done.
Qed.
End Listener.

Arguments listener : clear implicits.

(** ** The tables of the program *)

(** [shift] runs 24, 16, 8, 0, 24, ...; the promoted byte is shifted and
    converted to [unsigned int]. *)
Fixpoint hash_ip_loop (p_raw_ip : bytes) (val shift : Z) : Z :=
  match p_raw_ip with
  | [] => val
  | b :: r =>
      let val := Z.lxor val (u32 (Z.shiftl (uchar b) shift)) in
      let shift := shift - 8 in
      hash_ip_loop r val (if shift <? 0 then 24 else shift)
  end.

Definition hash_ip (bkts : Z) (p_key : bytes) : Z :=
  hash_ip_loop (take vsf_sysutil_get_ipaddr_size p_key) 0 24 mod bkts.

Definition hash_pid (bkts : Z) (p_key : bytes) : Z := un_le4 (take 4 p_key) mod bkts.

(** The start of [vsf_standalone_main]: no children, empty tables. *)
Definition listener_init : res (listener hash) :=
  let* ips := hash_alloc 256 vsf_sysutil_get_ipaddr_size 4 hash_ip in
  let* pids := hash_alloc 256 4 vsf_sysutil_get_ipaddr_size hash_pid in
  Ok (Listener 0 ips pids).

Lemma listener_init_ok : ∃ l, listener_init = Ok l ∧ accounted l ∅ [].
Proof.
  unfold listener_init.
  destruct (hash_alloc_ok 16 4 256 hash_ip) as (t1 & E1 & H1);
    [by vm_compute|intros; by apply Z.mod_pos_bound|].
  destruct (hash_alloc_ok 4 16 256 hash_pid) as (t2 & E2 & H2);
    [by vm_compute|intros; by apply Z.mod_pos_bound|].
  unfold vsf_sysutil_get_ipaddr_size. rewrite E1. cbn [res_bind]. rewrite E2. cbn [res_bind].
  eexists; split; [done|]. split; cbn; [done|done| |].
  - apply map_Forall_empty.
  - exists ∅. split; [done|]. intros ip. unfold total, count_ip.
    rewrite map_filter_empty. done.
Qed.

(** C25: The listener's books are right, but for one race. In every history of
    connections, failed forks and reaped children that the system can produce:
    either no child is reaped while the listener is still closing the socket of the
    connection it was forked for, and then there is no [bug] and no lost entry,
    [s_children] is the number of child processes, the pid table maps each to its
    client's address, and the address table maps each address with a live child to
    the number of them and nothing else; or some child is ([raced]), and then
    [handle_sigchld] does not find the pid, which [hash_add_entry] has not recorded
    yet (standalone.c:174), and the listener dereferences a NULL address. *)
Theorem listener_accounting es live l :
  listener_init = Ok l → os_run es ∅ = Some live → Z.of_nat (length es) < UINT_MOD →
  if existsb raced es then listener_run es l = Err UB
  else ∃ l', listener_run es l = Ok l' ∧
    s_children l' = Z.of_nat (size live) ∧
    holds 4 16 (s_p_pid_ip_hash l') live ∧
    ∃ m, holds 16 4 (s_p_ip_count_hash l') m ∧
      ∀ ip, m !! ip = (if count_ip live ip =? 0 then None
                       else Some (le4 (count_ip live ip))).
Proof.
  intros Hi Ho Hb. destruct listener_init_ok as (l0 & E & Ha).
  rewrite Hi in E. injection E as <-.
  assert (Z.of_nat (size (∅ : procs) + length es) < UINT_MOD) as Hb' by (by rewrite map_size_empty).
  pose proof (listener_run_ok es l ∅ live Ha Ho Hb') as H.
  destruct (existsb raced es); [exact H|]. destruct H as (l' & E & [Hc Hp _ (m & Hm & Ht)] & _).
  exists l'. split; [done|]. split; [by rewrite Hc, Nat.add_0_r|]. split; [done|].
  exists m. split; [done|]. intros ip. rewrite Ht. unfold total. cbn. by rewrite Z.add_0_r.
Qed.

(** A new client is told the true numbers: [num_children] counts the live
    children and itself, [num_this_ip] those from its address and itself. These
    are what [check_limits] compares with [max_clients] and [max_per_ip]. *)
Theorem listener_launch_numbers es live l l' ip :
  listener_init = Ok l → os_run es ∅ = Some live → listener_run es l = Ok l' →
  Z.of_nat (length es) + 1 < UINT_MOD → length ip = 16%nat →
  ∃ l'', accept_client l' ip =
         Ok (Launch (Z.of_nat (size live) + 1) (count_ip live ip + 1), l'').
Proof.
  intros Hi Ho Hr Hb Hl. destruct listener_init_ok as (l0 & E & Ha).
  rewrite Hi in E. injection E as <-.
  destruct (listener_run_Ok es l l' ∅ live Ha Ho) as [Ha1 Hsz];
    rewrite ?map_size_empty in *; [lia|done|].
  destruct (accept_client_ok l' live ip Ha1) as (l'' & -> & _); [lia|done|]. eauto.
Qed.

(** The order of the parent's steps matters. When the [close] of the
    client's socket is interrupted and the child that was just forked is
    already dead, [handle_sigchld] looks up a pid that [hash_add_entry] has not
    recorded yet, and [drop_ip_count] is called with a NULL address. *)
Theorem listener_close_race l ip pid l1 info :
  listener_init = Ok l → accept_client l ip = Ok (info, l1) → length ip = 16%nat →
  parent_after_fork l1 ip pid [pid] = Err UB.
Proof.
  intros Hi Hacc Hl. destruct listener_init_ok as (l0 & E & Ha).
  rewrite Hi in E. injection E as <-.
  destruct (accept_client_ok l ∅ ip Ha) as (l' & E & [_ Hp _ _]);
    [by rewrite map_size_empty|done|].
  rewrite E in Hacc. injection Hacc as <- <-.
  unfold parent_after_fork. cbn [handle_sigchld]. unfold reap_one.
  cbn [s_p_pid_ip_hash].
  pose proof (kv_lookup_ok 4 16 _ ∅ (pid_key pid) Hp eq_refl) as Hk.
  rewrite lookup_empty in Hk. by rewrite Hk.
Qed.

Definition ip_a : bytes := [x0a; x00; x00; x01] ++ replicate 12 NUL.
Definition ip_b : bytes := [x0a; x00; x00; x02] ++ replicate 12 NUL.

(** Two clients of one address and one of another; a fork fails; the first
    child ends. *)
Definition demo_events : list event :=
  [Client ip_a 100 []; Client ip_b 101 []; Client ip_a (-1) []; Client ip_a 102 [];
   Sigchld [100]].

Definition demo_live : procs :=
  delete (pid_key 100)
    (<[pid_key 102 := ip_a]> (<[pid_key 101 := ip_b]> (<[pid_key 100 := ip_a]> ∅))).

Lemma demo_run : os_run demo_events ∅ = Some demo_live.
Proof. reflexivity. Qed.

(** A client whose child is reaped while its socket is closed. *)
Definition race_events : list event := demo_events ++ [Client ip_b 103 [102; 103]].

Lemma listener_accounting_witness :
  ∃ l l', listener_init = Ok l ∧ listener_run demo_events l = Ok l' ∧ s_children l' = 2 ∧
    listener_run race_events l = Err UB.
Proof.
  destruct listener_init as [l|] eqn:E; [|done].
  destruct (listener_accounting demo_events demo_live l E demo_run eq_refl)
    as (l' & Hr & Hc & _).
  pose proof (listener_accounting race_events (delete (pid_key 102) demo_live) l E
    ltac:(by vm_compute) eq_refl) as Hrace.
  exists l, l'. split; [done|]. split; [done|]. split; [by rewrite Hc|]. exact Hrace.
Defined.

Lemma listener_launch_numbers_witness :
  ∃ l' l'', accept_client l' ip_a = Ok (Launch 3 2, l'').
Proof.
  destruct listener_init as [l|] eqn:E; [|done].
  destruct (listener_run demo_events l) as [l'|] eqn:Er.
  - exists l'.
    destruct (listener_launch_numbers demo_events demo_live l l' ip_a E demo_run Er
                eq_refl eq_refl) as (l'' & H).
    exists l''. rewrite H. by vm_compute.
  - exfalso. destruct listener_init_ok as (l0 & E0 & Ha). rewrite E0 in E.
    injection E as ->.
    destruct (listener_run_ok demo_events l ∅ demo_live Ha demo_run eq_refl)
      as (l' & E' & _). by rewrite E' in Er.
Defined.

Lemma listener_close_race_witness :
  ∃ l, parent_after_fork l ip_a 100 [100] = Err UB.
Proof.
  destruct listener_init as [l|] eqn:E; [|done].
  destruct (accept_client l ip_a) as [[info l1]|] eqn:Ea.
  - exists l1. by apply (listener_close_race l ip_a 100 l1 info).
  - exfalso. destruct listener_init_ok as (l0 & E0 & Ha). rewrite E0 in E.
    injection E as ->.
    destruct (accept_client_ok l ∅ ip_a Ha eq_refl eq_refl) as (l' & E' & _).
    by rewrite E' in Ea.
Defined.
