(* ===== verification/Startup.v ===== *)
(** * From the command line to the session

    main.c, the accept loop of standalone.c around the books of Standalone.v, the
    log files of logging.c, and the starts of the two process models
    (twoprocess.c, oneprocess.c). The sandboxes are not compiled in. *)

From Stdlib Require Import Init.Byte Strings.Byte.
From Stdlib Require Import ZArith Lia String.
From stdpp Require Import base list numbers option gmap strings.
From S2P Require Import Prelude SysUtil Text StrList IpAddr Tunables ParseConf.
From S2P Require Import Session CmdIO Signals Logic Stops FileStr Paths PrivOps Cos DataIO Ls.
From S2P Require Import PostLogin Privsock Ssl PreLogin Hash Standalone.

Definition MINUS : byte := x2d.
Definition VSFTP_DEFAULT_CONFIG : bytes := lit "/etc/vsftpd.conf".
Definition VSFTP_CONF_FILE_MAX : Z := 100000.
Definition VSFTP_LISTEN_BACKLOG : Z := 32.
Definition VSFTP_SECURE_UMASK : Z := 63.

(** No handler is installed before a session starts. *)
#[local] Instance no_handlers : Pend := λ _, mret tt.

Section Startup.
Context `{E : Env} `{QS : Qsort} `{JS : Json}.
(** The configuration files on disk; rounds of the command loop and of one
    transfer. *)
Context (fs : conf_files) (rounds fuel : nat).

(** A step of the set-up of a process, as a system call. *)
Definition setup (what : string) : M Z := sys (Sys (Setup what)).

(** ** main.c: the configuration *)

(** [config_loaded], [s_p_saved_filename] and the variables. *)
Record config := Config {
  config_loaded : bool;
  saved_filename : option bytes;
  c_tun : tunables
}.

Definition start_config : config := Config false None tunables_load_defaults.

Definition load_file (c : config) (f : bytes) : res config :=
  res_bind (vsf_parseconf_load_file fs (saved_filename c) (c_tun c) (Some f) true) (λ st,
    Ok (Config true st.1 st.2)).

Definition vsf_exit {A} (p_text : bytes) : M A :=
  vsf_sysutil_write_loop VSFTP_COMMAND_FD p_text;;
  stop_with (Exit 0).

Definition read_argument (c : config) (p_arg : bytes) : M config :=
  match p_arg with
  | b :: opt =>
      if bool_decide (b = MINUS) then
        match opt with
        | x76 :: _ => vsf_exit (lit "vsftpd: version " ++ lit VSF_VERSION ++ [LF])
        | x6f :: setting =>
            t ← lift (vsf_parseconf_load_setting (c_tun c) setting true);
            mret (Config (config_loaded c) (saved_filename c) t)
        | _ => lift (die2 "unrecognise option: " p_arg)
        end
      else lift (load_file c p_arg)
  | [] => lift (load_file c p_arg)
  end.

Fixpoint read_arguments (c : config) (args : list bytes) : M config :=
  match args with
  | [] => mret c
  | p_arg :: args' => c ← read_argument c p_arg; read_arguments c args'
  end.

Definition default_config (c : config) : M config :=
  if config_loaded c then mret c
  else
    retval ← sys (Fs (Stat VSFTP_DEFAULT_CONFIG));
    if negb (vsf_sysutil_retval_is_error retval) then lift (load_file c VSFTP_DEFAULT_CONFIG)
    else mret c.

Definition vsf_sysutil_dns_resolve (p_name : bytes) : M sockaddr :=
  hent ← ask (Sys (Resolve (cstr p_name)));
  if a_int hent <? 0 then lift (die2 "cannot resolve host:" (cstr p_name))
  else
    match sa_family (a_addr hent) with
    | AF_INET => lift (vsf_sysutil_sockaddr_set_ipv4addr vsf_sysutil_sockaddr_alloc_ipv4
                         (sin_addr (a_addr hent)))
    | AF_INET6 => lift (vsf_sysutil_sockaddr_set_ipv6addr vsf_sysutil_sockaddr_alloc_ipv6
                          (sin6_addr (a_addr hent)))
    | AF_UNSPEC => mdie "gethostbyname(): neither IPv4 nor IPv6"
    end.

(** The host name of [pasv_address] becomes its numeric address. *)
Definition resolve_pasv (t : tunables) : M tunables :=
  match ts t "pasv_address" with
  | Some name =>
      if tb t "pasv_addr_resolve" then
        addr ← vsf_sysutil_dns_resolve name;
        text ← vsf_sysutil_inet_ntop addr;
        mret (set_str t "pasv_address" (Some text))
      else mret t
  | None => mret t
  end.

Definition vsf_sysutil_running_as_root : M bool := uid ← sys (Sys Getuid); mret (uid =? 0).

Definition die_unless_privileged : M unit :=
  root ← vsf_sysutil_running_as_root;
  if negb root then mdie "vsftpd: must be started as root (see run_as_launching_user option)"
  else mret tt.

(** ** standalone.c: the listener *)

Context (reaped : history → list Z) (hup : history → bool).

(** What runs when a call of the listener returns: SIGHUP reloads the
    configuration, SIGCHLD collects the children that ended. [reaped] and [hup]
    say which signals have come. *)
Definition handle_sighup (c : config) : res config :=
  res_bind (vsf_parseconf_load_file fs (saved_filename c) tunables_load_defaults None false) (λ st,
    Ok (Config (config_loaded c) st.1 st.2)).

Definition listener_signals (l : listener hash) (c : config)
    : M (listener hash * config) :=
  h ← getw hist;
  c ← (if hup h then lift (handle_sighup c) else mret c);
  l ← lift (handle_sigchld l (reaped h));
  mret (l, c).

Definition listen_address (t : tunables) : M sockaddr :=
  if tb t "listen" then
    addr ← lift (vsf_sysutil_sockaddr_set_port vsf_sysutil_sockaddr_alloc_ipv4 (tu t "listen_port"));
    match ts t "listen_address" with
    | None => lift (vsf_sysutil_sockaddr_set_any addr)
    | Some text =>
        r ← ask (Sys (InetAton text));
        if a_int r =? 0 then lift (die2 "bad listen_address: " text)
        else lift (vsf_sysutil_sockaddr_set_ipv4addr addr (text_of r))
    end
  else
    addr ← lift (vsf_sysutil_sockaddr_set_port vsf_sysutil_sockaddr_alloc_ipv6 (tu t "listen_port"));
    match ts t "listen_address6" with
    | None => lift (vsf_sysutil_sockaddr_set_any addr)
    | Some text =>
        match vsf_sysutil_parse_ipv6 text with
        | None => lift (die2 "bad listen_address6: " text)
        | Some raw => lift (vsf_sysutil_sockaddr_set_ipv6addr addr raw)
        end
    end.

Definition vsf_sysutil_fork (how : string) : M Z :=
  pid ← sys (Sys (Fork how)); if pid <? 0 then mdie "fork" else mret pid.

(** Up to the accept loop: the listening socket. *)
Definition listen_setup (t : tunables) : M Z :=
  if tb t "listen" && tb t "listen_ipv6" then mdie "run two copies of vsftpd for IPv4 and IPv6"
  else
    (if tb t "background" then
       forkret ← vsf_sysutil_fork "fork";
       if 0 <? forkret then stop_with (Exit 0)
       else setup "reopen standard fds";; setup "setsid";; mret tt
     else mret tt);;
    listen_sock ← vsf_sysutil_get_sock (negb (tb t "listen"));
    must (Sock (Reuseaddr listen_sock)) "setsockopt: reuseaddr";;
    when (tb t "setproctitle_enable") (do_ (Sys (Proctitle (lit "LISTENER"))));;
    setup "SIGCHLD handler";; setup "SIGHUP handler";;
    p_sockaddr ← listen_address t;
    retval ← sys (Sock (Bind listen_sock p_sockaddr));
    (if vsf_sysutil_retval_is_error retval then
       if tb t "listen" then mdie "could not bind listening IPv4 socket"
       else mdie "could not bind listening IPv6 socket"
     else mret tt);;
    retval ← sys (Sock (Listen listen_sock VSFTP_LISTEN_BACKLOG));
    if vsf_sysutil_retval_is_error retval then mdie "could not listen" else mret listen_sock.

Definition vsf_sysutil_dupfd2 (old_fd new_fd : Z) : M unit :=
  if old_fd =? new_fd then mret tt
  else
    retval ← sys (Sock (Dup2 old_fd new_fd));
    if negb (retval =? new_fd) then mdie "dup2" else mret tt.

(** The command socket becomes descriptors 0, 1 and 2. *)
Definition prepare_child (new_client_sock : Z) : M unit :=
  vsf_sysutil_dupfd2 new_client_sock 0;;
  vsf_sysutil_dupfd2 new_client_sock 1;;
  vsf_sysutil_dupfd2 new_client_sock 2;;
  if 2 <? new_client_sock then vsf_sysutil_close new_client_sock else mret tt.

Definition fork_how (t : tunables) : string :=
  if tb t "isolate" then
    if tb t "http_enable" && tb t "isolate_network" then "isolate_all" else "isolate"
  else "fork".

(** The accept loop. It returns in the child, with what the listener tells it. *)
Fixpoint accept_loop (n : nat) (listen_sock : Z) (l : listener hash) (c : config)
    : M (vsf_client_launch * config) :=
  match n with
  | O => stop_with Fuel
  | S n' =>
      a ← ask (Sock (Accept listen_sock 0));
      '(l, c) ← listener_signals l c;
      if vsf_sysutil_retval_is_error (a_int a) then accept_loop n' listen_sock l c
      else
        p_raw_addr ← (match sa_family (a_addr a) with
                      | AF_UNSPEC => mdie "can only support ipv4 and ipv6 currently"
                      | _ => lift (vsf_sysutil_sockaddr_get_raw_addr (a_addr a))
                      end);
        '(child_info, l) ← lift (accept_client l p_raw_addr);
        new_child ← sys (Sys (Fork (fork_how (c_tun c))));
        if negb (new_child =? 0) then
          vsf_sysutil_close (a_int a);;
          h ← getw hist;
          c ← (if hup h then lift (handle_sighup c) else mret c);
          l ← lift (parent_after_fork l p_raw_addr new_child (reaped h));
          accept_loop n' listen_sock l c
        else
          setup "PR_SET_PDEATHSIG";;
          vsf_sysutil_close listen_sock;;
          prepare_child (a_int a);;
          mret (child_info, c)
  end.

Definition vsf_standalone_main (n : nat) (c : config) : M (vsf_client_launch * config) :=
  listen_sock ← listen_setup (c_tun c);
  l ← lift listener_init;
  accept_loop n listen_sock l c.

(** ** main.c: the session *)

(** prctl works, as it does on a Linux with capabilities. *)
Definition vsf_sysdep_has_capabilities_as_non_root : M bool :=
  r ← setup "PR_SET_KEEPCAPS"; mret (negb (vsf_sysutil_retval_is_error r)).

Definition do_sanity_checks (t : tunables) : M unit :=
  is_socket ← sys (Sock (IsSocket VSFTP_COMMAND_FD));
  if is_socket =? 0 then mdie "vsftpd: not configured for standalone, must be started from inetd"
  else
    (if tb t "one_process_model" then
       if tb t "local_enable" then mdie "vsftpd: security: 'one_process_model' is anonymous only"
       else
         caps ← vsf_sysdep_has_capabilities_as_non_root;
         if negb caps then mdie "vsftpd: security: 'one_process_model' needs a better OS"
         else mret tt
     else mret tt);;
    if negb (tb t "local_enable") && negb (tb t "anonymous_enable") then
      mdie "vsftpd: both local and anonymous access disabled!"
    else if negb (tb t "ftp_enable") && negb (tb t "http_enable") then
      mdie "vsftpd: both FTP and HTTP disabled!"
    else if tb t "http_enable" && negb (tb t "one_process_model") then
      mdie "vsftpd: HTTP needs 'one_process_model' for now"
    else mret tt.

(** [vsf_sysutil_getpeername] and [vsf_sysutil_getsockname]. *)
Definition socket_name (fd : Z) (peer : bool) : M sockaddr :=
  a ← ask (Sock (Getname fd peer));
  if negb (a_int a =? 0) then mdie (if peer then "getpeername" else "getsockname")
  else
    match sa_family (a_addr a) with
    | AF_UNSPEC => mdie "can only support ipv4 and ipv6 currently"
    | _ => mret (a_addr a)
    end.

(** The uid of the user that a setting names. *)
Definition user_uid (name : option bytes) (setting : string) : M Z :=
  p_user ← (match name with
            | Some n => a ← ask (Sys (Getpwnam n)); mret (if a_int a <? 0 then None else Some (a_uid a))
            | None => mret None
            end);
  match p_user with
  | None => lift (die2 ("vsftpd: cannot locate user specified in '" ++ setting ++ "':")
                    (default (lit "(null)") name))
  | Some uid => mret uid
  end.

Definition session_init (t : tunables) : M unit :=
  remote ← socket_name VSFTP_COMMAND_FD true;
  upd (set_p_remote_addr remote);;
  local ← socket_name VSFTP_COMMAND_FD false;
  upd (set_p_local_addr local);;
  when (tb t "anonymous_enable")
    (uid ← user_uid (ts t "ftp_username") "ftp_username"; upd (set_anon_ftp_uid uid));;
  when (tb t "guest_enable")
    (uid ← user_uid (ts t "guest_username") "guest_username"; upd (set_guest_user_uid uid));;
  when (tb t "chown_uploads")
    (uid ← user_uid (ts t "chown_username") "chown_username"; upd (set_anon_upload_chown_uid uid)).

Definition env_init : M unit :=
  setup "setsid";; do_ (Sys (Umask VSFTP_SECURE_UMASK));; setup "tzset";; setup "SIGPIPE ignored";;
  mret tt.

(** A log file, opened for appending. *)
Definition open_log (name : option bytes) (what : string) : M Z :=
  retval ← (match name with
            | Some f => sys (Fs (OpenAppend f 384))
            | None => mret (-1)
            end);
  if vsf_sysutil_retval_is_error retval then
    lift (die2 ("failed to open " ++ what ++ " log file:") (default (lit "(null)") name))
  else mret retval.

Definition vsf_log_init (t : tunables) : M unit :=
  when (tb t "syslog_enable" || tb t "tcp_wrappers") (setup "openlog";; mret tt);;
  if negb (tb t "xferlog_enable") && negb (tb t "dual_log_enable") then mret tt
  else
    when (tb t "dual_log_enable" || tb t "xferlog_std_format")
      (fd ← open_log (ts t "xferlog_file") "xferlog"; upd (set_xferlog_fd fd));;
    when (tb t "dual_log_enable" || negb (tb t "xferlog_std_format"))
      (when (negb (tb t "syslog_enable"))
         (fd ← open_log (ts t "vsftpd_log_file") "vsftpd"; upd (set_vsftpd_log_fd fd))).

Definition vsf_cmdio_sock_setup : M unit :=
  must (Sock (Sockopt VSFTP_COMMAND_FD "keepalive")) "setsockopt: keepalive";;
  must (Sock (Sockopt VSFTP_COMMAND_FD "nodelay")) "setsockopt: nodelay";;
  must (Sock (Sockopt VSFTP_COMMAND_FD "oobinline")) "setsockopt: oobinline".

(** A list that the session needs, from the file that a setting names. *)
Definition required_file (name : option bytes) (complaint : string) : M bytes :=
  '(retval, text) ← (match name with
                     | Some f => str_fileread f VSFTP_CONF_FILE_MAX
                     | None => mret (-1, [])
                     end);
  if vsf_sysutil_retval_is_error retval then lift (die2 complaint (default (lit "(null)") name))
  else mret text.

Definition load_lists (t : tunables) : M unit :=
  when (tb t "deny_email_enable")
    (s ← required_file (ts t "banned_email_file") "cannot read anon e-mail list file:";
     upd (set_banned_email_str s));;
  match ts t "banner_file" with
  | None => mret tt
  | Some f => s ← required_file (Some f) "cannot read banner file:"; upd (set_banner_str s)
  end;;
  when (tb t "secure_email_list_enable")
    (s ← required_file (ts t "email_password_file") "cannot read email passwords file:";
     upd (set_email_passwords_str s)).

(** Without root the session cannot use what needs it. *)
Definition launching_user (t : tunables) : M tunables :=
  if tb t "run_as_launching_user" then
    root ← vsf_sysutil_running_as_root;
    mret (if root : bool then t else set_bool (set_bool t "connect_from_port_20" 0) "chown_uploads" 0)
  else mret t.

(** ** The process models *)

(** [vsf_sysutil_unix_stream_socketpair]. *)
Definition socketpair : M (Z * Z) :=
  a ← ask (Sock Socketpair);
  if negb (a_int a =? 0) then mdie "socketpair" else mret (a_size a, a_uid a).

(** The two processes, up to the session of the child. *)
Definition two_process_setup (t : tunables) : M unit :=
  setup "SIGTERM handler";; setup "PR_SET_PDEATHSIG";;
  pair ← socketpair;
  fds ← lift (priv_sock_init pair no_priv_fds);
  ssl ← (if tb t "ssl_enable" then
           pair ← socketpair; lift (ssl_comm_channel_init pair no_ssl_fds)
         else mret no_ssl_fds);
  setup "SIGCHLD handler";;
  vsf_sysutil_fork (if tb t "isolate_network" then "newnet" else "fork");;
  (* the parent waits for login requests (PreLogin.process_login_req) *)
  modw (λ w, put_parent (sess w) w);;
  lift (priv_sock_set_parent_context fds);;
  (if tb t "ssl_enable" then lift (ssl_comm_channel_set_consumer_context ssl) else mret ssl);;
  (* the child *)
  setup "PR_SET_PDEATHSIG";;
  lift (priv_sock_set_child_context fds);;
  (if tb t "ssl_enable" then lift (ssl_comm_channel_set_producer_context ssl) else mret ssl);;
  when (tb t "local_enable" && tb t "userlist_enable")
    (s ← required_file (ts t "userlist_file") "cannot read user list file:";
     upd (set_userlist_str s)).

Definition vsf_two_process_start (t : tunables) (n : nat) : M bool :=
  two_process_setup t;;
  init_connection (T := t) fs rounds fuel n.

(** The second argument of [vsf_secutil_change_credentials] is NULL here. *)
Definition one_process_setup (t : tunables) : M unit :=
  let chdir_str := default [] (ts t "anon_root") in
  if tb t "run_as_launching_user" then
    when (negb (isempty chdir_str)) (do_ (Fs (Chdir (cstr chdir_str))))
  else vsf_secutil_change_credentials None.

Definition one_process_start (t : tunables) (n : nat) : M bool :=
  one_process_setup t;;
  init_connection (T := t) fs rounds fuel n.

(** On a 64-bit machine there is no ptrace sandbox. *)
Definition vsf_one_process_start (t : tunables) (n : nat) : M bool :=
  if tb t "ptrace_sandbox" then
    mdie "could not allocate sandbox (only works for 32-bit builds)"
  else one_process_start t n.

(** ** main *)

(** Up to the listener: the configuration that the command line makes. *)
Definition initial_config (argv : list bytes) : M config :=
  c ← (match argv with
       | [] => mdie "vsftpd: missing argv[0]"
       | _ :: args => read_arguments start_config args
       end);
  c ← default_config c;
  t ← resolve_pasv (c_tun c);
  when (negb (tb t "run_as_launching_user")) die_unless_privileged;;
  when (tb t "setproctitle_enable") (setup "setproctitle_init";; mret tt);;
  when (tb t "ssl_enable") (ssl_init (T := t) false);;
  mret (Config (config_loaded c) (saved_filename c) t).

Definition listening (t : tunables) : bool := tb t "listen" || tb t "listen_ipv6".

(** Up to the checks: the configuration, and whether SSL is initialised. *)
Definition main_config (argv : list bytes) (rounds : nat) : M (tunables * bool) :=
  c0 ← initial_config argv;
  c ← (if listening (c_tun c0) then
         '(ret, c) ← vsf_standalone_main rounds c0;
         upd (set_num_clients (num_children ret));;
         upd (set_num_this_ip (num_this_ip ret));;
         mret c
       else mret c0);
  (if tb (c_tun c) "tcp_wrappers" then
     mdie "tcp_wrappers is set to YES but no tcp wrapper support compiled in"
   else mret tt);;
  p_load_conf ← ask (Sys (Getenv "VSFTPD_LOAD_CONF"));
  c ← (match a_text p_load_conf with Some f => lift (load_file c f) | None => mret c end);
  mret (c_tun c, tb (c_tun c0) "ssl_enable").

(** The session that the process models start, and its configuration. *)
Definition main_session (t : tunables) (ssl_inited : bool) : M tunables :=
  do_sanity_checks t;;
  session_init t;;
  env_init;;
  vsf_log_init t;;
  remote ← gets p_remote_addr;
  text ← vsf_sysutil_inet_ntop remote;
  upd (set_remote_ip_str text);;
  vsf_cmdio_sock_setup;;
  when (tb t "setproctitle_enable") (do_ (Sys (Proctitle (text ++ lit ": connected"))));;
  when (tb t "ssl_enable") (ssl_init (T := t) ssl_inited;; ssl_add_entropy (T := t));;
  load_lists t;;
  launching_user t.

Definition start_session (t : tunables) (n : nat) : M bool :=
  if tb t "one_process_model" then vsf_one_process_start t n else vsf_two_process_start t n.

(** [n] commands before the login; [true]: a session logged in. *)
Definition main (argv : list bytes) (rounds n : nat) : M bool :=
  '(t, ssl_inited) ← main_config argv rounds;
  t ← main_session t ssl_inited;
  start_session t n.

End Startup.
