(* ===== verification/StartupSafety.v ===== *)
(** * What the start of a session guarantees

    The configuration that the command line makes; the sessions that main.c
    starts; the limits on the number of clients, from the accept loop to the
    greeting. *)

From Stdlib Require Import Init.Byte Strings.Byte.
From Stdlib Require Import ZArith Lia String.
From stdpp Require Import base list numbers option gmap strings.
From S2P Require Import Prelude SysUtil Text StrList IpAddr Tunables ParseConf.
From S2P Require Import Session CmdIO Signals Logic Traffic Stops SessionSafety FileStr Paths PrivOps Cos DataIO Ls.
From S2P Require Import PostLogin Demo Privsock Ssl PreLogin LoginSafety Hash Standalone Startup.

(** ** The command line *)

Section Arguments.
Context `{E : Env} (fs : conf_files).

(** [-o setting], another option, or a file. *)
Inductive argument := Setting (setting : bytes) | Switch | File.

#[local] Instance argument_eq_dec : EqDecision argument.
Proof. solve_decision. Defined.

Definition classify (arg : bytes) : argument :=
  match arg with
  | b :: opt =>
      if bool_decide (b = MINUS) then
        match opt with x6f :: setting => Setting setting | _ => Switch end
      else File
  | [] => File
  end.

(** The settings of an argument, in order: one, or the lines of a file. *)
Definition settings_of (arg : bytes) : list bytes :=
  match classify arg with
  | Setting setting => [setting]
  | Switch => []
  | File => cstr <$> filter (λ l, skipped_line l = false) (t_lines (default [] (conf_read fs arg)))
  end.

(** No other switch, and files that can be read and have the right owner. *)
Definition good_argument (arg : bytes) : Prop :=
  match classify arg with
  | Setting _ => True
  | Switch => False
  | File => is_Some (conf_read fs arg) ∧ conf_owned fs arg = true
  end.

(** The reference: one setting after the other. *)
Definition apply_from (r : res tunables) (settings : list bytes) : res tunables :=
  foldl (λ r s, res_bind r (λ t, vsf_parseconf_load_setting t s true)) r settings.

Definition apply_settings (t : tunables) : list bytes → res tunables := apply_from (Ok t).

Lemma apply_err s ss : apply_from (Err s) ss = Err s.
Proof. induction ss as [|x l IH]; [done|exact IH]. Qed.

Lemma apply_app r ss ss' :
  apply_from r (ss ++ ss') = res_bind (apply_from r ss) (λ t, apply_settings t ss').
Proof.
  unfold apply_settings, apply_from at 1. rewrite foldl_app. fold (apply_from r ss).
  destruct (apply_from r ss) as [t|s]; [done|apply apply_err].
Qed.

Lemma load_lines_settings t ls :
  load_lines t ls true = apply_settings t (cstr <$> filter (λ l, skipped_line l = false) ls).
Proof.
  revert t. induction ls as [|l ls IH]; intros t; cbn [load_lines]; [done|].
  rewrite filter_cons. destruct (skipped_line l) eqn:Hl; case_decide; try done; [exact (IH t)|].
  cbn [fmap list_fmap]. unfold apply_settings, apply_from. cbn [foldl res_bind].
  destruct (vsf_parseconf_load_setting t (cstr l) true) as [t'|s]; [apply IH|].
  symmetry. apply apply_err.
Qed.

(** The state after an argument, with the variables [t]. *)
Definition after_argument (c : config) (arg : bytes) (t : tunables) : config :=
  match classify arg with
  | File => Config true (Some arg) t
  | _ => Config (config_loaded c) (saved_filename c) t
  end.

Lemma read_argument_settings c arg w : good_argument arg →
  read_argument fs c arg w =
  (res_bind (apply_settings (c_tun c) (settings_of arg)) (λ t, Ok (after_argument c arg t)), w).
Proof.
  unfold good_argument, settings_of, after_argument, read_argument. intros Hg.
  assert (∀ text, conf_read fs arg = Some text → conf_owned fs arg = true →
    lift (load_file fs c arg) w = (res_bind (apply_settings (c_tun c)
      (cstr <$> filter (λ l, skipped_line l = false) (t_lines (default [] (conf_read fs arg)))))
      (λ t, Ok (Config true (Some arg) t)), w)) as Hfile.
  { intros text Hr Ho. unfold lift, load_file, vsf_parseconf_load_file. rewrite Hr, Ho.
    cbn [negb default]. rewrite load_lines_settings. unfold id.
    by destruct (apply_settings _ _). }
  destruct arg as [|b opt]; cbn [classify] in *; [destruct Hg as [[]]; eauto|].
  destruct (bool_decide (b = MINUS)); [|destruct Hg as [[]]; eauto].
  destruct opt as [|b' setting]; [done|]. destruct b'; try done.
  unfold apply_settings, apply_from. cbn [foldl res_bind]. unfold mbind, M_bind, lift.
  by destruct (vsf_parseconf_load_setting _ _ _).
Qed.

Definition files (args : list bytes) : list bytes := filter (λ a, classify a = File) args.

Lemma read_arguments_settings args c w : Forall good_argument args →
  read_arguments fs c args w =
  (res_bind (apply_settings (c_tun c) (concat (settings_of <$> args))) (λ t,
     Ok (Config (config_loaded c || negb (bool_decide (files args = [])))
           (match last (files args) with Some f => Some f | None => saved_filename c end) t)), w).
Proof.
  intros Hg. revert c. induction Hg as [|arg args Ha _ IH]; intros c.
  { cbn. rewrite orb_false_r. by destruct c. }
  cbn [read_arguments fmap list_fmap concat]. unfold mbind, M_bind.
  rewrite read_argument_settings by done. unfold apply_settings at 2. rewrite apply_app.
  fold (apply_settings (c_tun c) (settings_of arg)).
  destruct (apply_settings _ _) as [t|s]; [cbn [res_bind]|done]. rewrite IH.
  assert (c_tun (after_argument c arg t) = t) as -> by (unfold after_argument; by destruct (classify arg)).
  destruct (apply_settings t _) as [t'|s]; [cbn [res_bind]|done]. do 2 f_equal.
  unfold after_argument, files. rewrite filter_cons.
  destruct (classify arg) eqn:Hc; case_decide; try done. cbn [config_loaded saved_filename orb].
  f_equal; [by rewrite orb_true_r|]. rewrite last_cons. by destruct (last _).
Qed.

(** C16: Options take effect in the order of the command line. For arguments that
    are [-o] options, or files that can be read and have the right owner
    ([good_argument]), the configuration is that of applying every setting, whether from
    [-o] or from a line of a file, in the order in which they stand, to the
    defaults, and the first bad setting ends the program; the file that a reload
    reads again is the last one. *)
Theorem arguments_in_order args w : Forall good_argument args →
  read_arguments fs start_config args w =
  (res_bind (apply_settings tunables_load_defaults (concat (settings_of <$> args))) (λ t,
     Ok (Config (negb (bool_decide (files args = []))) (last (files args)) t)), w).
Proof.
  intros Hg. rewrite read_arguments_settings by done. cbn [start_config config_loaded saved_filename c_tun orb].
  by destruct (last (files args)).
Qed.

End Arguments.

Definition demo_files : conf_files :=
  ConfFiles (λ f, if bool_decide (f = lit "site.conf")
                  then Some (lit "# site" ++ [LF] ++ lit "anonymous_enable=YES" ++ [LF]) else None) (λ _, true).

Definition demo_options : list bytes := [lit "-oanonymous_enable=NO"; lit "site.conf"; lit "-olisten=YES"].

(** The file's line stands last for the setting that both name. *)
Lemma arguments_in_order_witness :
  let w := fresh_world (fresh_session site_server site_client) [] in
  Forall (good_argument demo_files) demo_options ∧
  read_arguments (E := site_env []) demo_files start_config demo_options w =
  (res_bind (apply_settings tunables_load_defaults
     [lit "anonymous_enable=NO"; lit "anonymous_enable=YES"; lit "listen=YES"])
     (λ t, Ok (Config true (Some (lit "site.conf")) t)), w).
Proof.
  assert (Forall (good_argument demo_files) demo_options) as Hg.
  { repeat constructor. by eexists. }
  split; [exact Hg|].
  rewrite (arguments_in_order (E := site_env []) demo_files demo_options _ Hg). reflexivity.
Defined.

(** ** Sessions *)

(** What main.c checks of a configuration. *)
Definition sane (t : tunables) : Prop :=
  (tb t "local_enable" = true ∨ tb t "anonymous_enable" = true) ∧
  (tb t "ftp_enable" = true ∨ tb t "http_enable" = true) ∧
  (tb t "http_enable" = true → tb t "one_process_model" = true) ∧
  (tb t "one_process_model" = true → tb t "local_enable" = false).

(** The user that a setting names, and its uid, as the system answered. *)
Definition uid_of (name : option bytes) (uid : Z) (h : history) : Prop :=
  ∃ user a, name = Some user ∧ (Sys (Getpwnam user), a) ∈ h ∧ 0 ≤ a_int a ∧ a_uid a = uid.

Definition named (peer : bool) (addr : sockaddr) (h : history) : Prop :=
  sa_family addr ≠ AF_UNSPEC ∧
  ∃ a, (Sock (Getname VSFTP_COMMAND_FD peer), a) ∈ h ∧ a_int a = 0 ∧ a_addr a = addr.

(** The session knows whom it serves. *)
Record identified (t : tunables) (s : vsf_session) (h : history) : Prop := {
  id_remote : named true (p_remote_addr s) h;
  id_local : named false (p_local_addr s) h;
  id_anon : tb t "anonymous_enable" = true → uid_of (ts t "ftp_username") (anon_ftp_uid s) h;
  id_guest : tb t "guest_enable" = true → uid_of (ts t "guest_username") (guest_user_uid s) h;
  id_chown : tb t "chown_uploads" = true → uid_of (ts t "chown_username") (anon_upload_chown_uid s) h
}.

Section Sessions.
Context `{E : Env}.

Lemma sanity_spec t I : inv I (do_sanity_checks t) →
  hoare I (do_sanity_checks t) (λ _ w, sane t ∧ I w) (λ _ _, True).
Proof.
  intros HI w Hw. specialize (HI w Hw). revert HI.
  assert (wp (do_sanity_checks t) (λ _ _, sane t) (λ _ _, True) w) as Hs; [clear Hw|].
  { unfold do_sanity_checks, vsf_sysdep_has_capabilities_as_non_root, setup.
    unfold sane. wp_auto; try done; b2p; repeat match goal with
      | H : _ && _ = false |- _ => apply andb_false_iff in H as [?|?]
      | H : negb _ = false |- _ => apply negb_false_iff in H
      end; try by (split_and!; intros; try congruence; auto). }
  unfold wp in Hs. destruct (do_sanity_checks t w) as [[]]; auto.
Qed.

(** *** Who the client is stays as it is *)

Lemma uid_of_more n u h e : uid_of n u h → uid_of n u (e :: h).
Proof. intros (us & a & ? & ? & ?). exists us, a. split_and!; try done; [by right|naive_solver..]. Qed.

Lemma named_more p addr h e : named p addr h → named p addr (e :: h).
Proof. intros (? & a & ? & ?). split; [done|]. exists a. split; [by right|done]. Qed.

Definition known (t : tunables) (w : world) : Prop := identified t (sess w) (hist w).

Lemma known_ask t w e : known t w → known t (put_hist (e :: hist w) w).
Proof. intros []. split; cbn; eauto using named_more, uid_of_more. Qed.

#[export] Instance known_quiet t : Quiet (known t).
Proof. quiet_simpl; try (by apply known_ask); match goal with H : known _ _ |- _ => destruct H; by split end. Qed.

Lemma known_inv_ask t c : inv (known t) (ask c).
Proof. apply inv_ask. intros. by apply known_ask. Qed.

Lemma uid_spec name setting I : (∀ w e, I w → I (put_hist (e :: hist w) w)) →
  hoare I (user_uid name setting) (λ uid w, uid_of name uid (hist w) ∧ I w) (λ _ _, True).
Proof.
  intros HI. apply hoare_wp. intros w Hw. unfold user_uid, uid_of.
  wp_auto; try done; subst; simplify_eq. case_match; b2p; simplify_eq.
  split; [|by apply HI]. eexists _, _. split_and!; [done|by left|done|done].
Qed.

(** [I] is about calls that were made and fields that [f] leaves alone. *)
Definition stable (I : world → Prop) : Prop := ∀ w e, I w → I (put_hist (e :: hist w) w).

Lemma stable_and I J : stable I → stable J → stable (λ w, I w ∧ J w).
Proof. intros HI HJ w e [? ?]. split; [by apply HI|by apply HJ]. Qed.

Lemma lookup_spec c name setting (f : Z → vsf_session → vsf_session) (g : vsf_session → Z) I :
  stable I → (∀ u w, I w → I (put_sess (f u (sess w)) w)) → (∀ u s, g (f u s) = u) →
  hoare I (when c (uid ← user_uid name setting; upd (f uid)))
    (λ _ w, (c = true → uid_of name (g (sess w)) (hist w)) ∧ I w) (λ _ _, True).
Proof.
  intros HI Hf Hg. destruct c; cbn [when]; [|apply hoare_ret; by intros].
  eapply hoare_bind; [by apply uid_spec|]. intros uid. apply hoare_wp. intros w [Hu Hw]. wp_step.
  split; [|by apply Hf]. intros _. cbn. by rewrite Hg.
Qed.

Lemma name_spec peer I : stable I →
  hoare I (socket_name VSFTP_COMMAND_FD peer) (λ addr w, named peer addr (hist w) ∧ I w) (λ _ _, True).
Proof.
  intros HI. apply hoare_wp. intros w Hw. unfold socket_name.
  wp_auto; try done; b2p; subst; (split; [|by apply HI]);
    (split; [congruence|]; eexists; split_and!; [by left|done|done]).
Qed.

Lemma upd_spec f I J : (∀ w, I w → J (put_sess (f (sess w)) w)) →
  hoare I (upd f) (λ _, J) (λ _ _, True).
Proof. intros H w Hw. by apply H. Qed.

Lemma session_init_spec t :
  hoare (λ _, True) (session_init t) (λ _, known t) (λ _ _, True).
Proof.
  unfold session_init.
  eapply hoare_bind; [by apply (name_spec true)|intros remote].
  set (I1 := λ w, named true (p_remote_addr (sess w)) (hist w)).
  apply (hoare_bind _ _ _ (λ _, I1)); [apply upd_spec; by intros w []|intros []].
  assert (stable I1) by (intros w e; apply named_more).
  eapply hoare_bind; [by apply (name_spec false)|intros local].
  set (I2 := λ w, named false (p_local_addr (sess w)) (hist w) ∧ I1 w).
  apply (hoare_bind _ _ _ (λ _, I2)); [apply upd_spec; by intros w []|intros []].
  assert (stable I2) by (apply stable_and; [intros w e; apply named_more|done]).
  eapply hoare_bind; [by apply (lookup_spec _ _ _ _ anon_ftp_uid)|intros []].
  eapply hoare_bind; [apply (lookup_spec _ _ _ _ guest_user_uid); try done|intros []].
  { apply stable_and; [|done]. intros w e HI Hb. by apply uid_of_more, HI. }
  eapply hoare_conseq; [|exact (λ w H, H)| |done]; [apply (lookup_spec _ _ _ _ anon_upload_chown_uid)|].
  { do 2 (apply stable_and; [intros w e HI Hb; by apply uid_of_more, HI|]). done. }
  { done. }
  { done. }
  intros [] w (? & ? & ? & ? & ?). by split.
Qed.

(** *** The rest of the start

    What it assigns, and that it keeps what is not about that. *)

Inductive late_setter : (vsf_session → vsf_session) → Prop :=
  | l_xferlog v : late_setter (set_xferlog_fd v)
  | l_vsftpd_log v : late_setter (set_vsftpd_log_fd v)
  | l_remote_ip v : late_setter (set_remote_ip_str v)
  | l_banned v : late_setter (set_banned_email_str v)
  | l_banner v : late_setter (set_banner_str v)
  | l_passwords v : late_setter (set_email_passwords_str v)
  | l_userlist v : late_setter (set_userlist_str v).

Class Late (I : world → Prop) : Prop := {
  late_quiet :: Quiet I;
  late_ask : stable I;
  late_upd w f : late_setter f → I w → I (put_sess (f (sess w)) w)
}.

#[export] Instance known_late t : Late (known t).
Proof. split; [exact _|intros w e; apply known_ask|]. intros w f [] []; by split. Qed.

End Sessions.

Section Late.
Context `{E : Env} (I : world → Prop) `{L : !Late I} (t : tunables).

Lemma late_inv_ask c : inv I (ask c).
Proof. apply inv_ask. intros. by apply late_ask. Qed.
Lemma late_inv_upd f : late_setter f → inv I (upd f).
Proof. intros Hf. apply inv_upd. intros. by apply late_upd. Qed.
#[local] Hint Resolve late_inv_ask : inv.
#[local] Hint Extern 1 (inv _ (upd _)) => (apply late_inv_upd; constructor) : inv.

Lemma no_handlers_keep ctx : inv I (check_pending (Pend := no_handlers) ctx).
Proof. apply inv_ret. Qed.
#[local] Hint Resolve no_handlers_keep : inv.

Lemma late_fileread f n : inv I (str_fileread (P := no_handlers) f n).
Proof.
  assert (∀ fd k m buf, inv I (read_loop (vsf_sysutil_read (P := no_handlers) fd) k m buf)) as H.
  { intros fd k. unfold vsf_sysutil_read. induction k as [|k IH]; intros; cbn [read_loop]; inv_auto. }
  unfold str_fileread, vsf_sysutil_read_loop, vsf_sysutil_statbuf_get_size, vsf_sysutil_fstat,
    vsf_sysutil_close. inv_auto.
Qed.
#[local] Hint Resolve late_fileread : inv.

Lemma late_required name what : inv I (required_file name what).
Proof. unfold required_file. inv_auto. Qed.
#[local] Hint Resolve late_required : inv.

Lemma late_ssl_init b : inv I (ssl_init (T := t) b).
Proof. unfold ssl_init, load_cert, ctx_call. inv_auto. Qed.
Lemma late_entropy : inv I (ssl_add_entropy (P := no_handlers) (T := t)).
Proof.
  unfold ssl_add_entropy, Ssl.debug. inv_auto.
  apply quiet_log_line; first exact _; intros ?; apply no_handlers_keep.
Qed.
Lemma late_env : inv I env_init.
Proof. unfold env_init, setup. inv_auto. Qed.
Lemma late_log : inv I (vsf_log_init t).
Proof. unfold vsf_log_init, open_log, setup. inv_auto. Qed.
Lemma late_sock : inv I vsf_cmdio_sock_setup.
Proof. unfold vsf_cmdio_sock_setup. inv_auto. Qed.
Lemma late_lists : inv I (load_lists t).
Proof. unfold load_lists. inv_auto. Qed.
Lemma late_launching : inv I (launching_user t).
Proof. unfold launching_user, vsf_sysutil_running_as_root. inv_auto. Qed.
Lemma late_sanity : inv I (do_sanity_checks t).
Proof. unfold do_sanity_checks, vsf_sysdep_has_capabilities_as_non_root, setup. inv_auto. Qed.
Lemma late_ntop a : inv I (vsf_sysutil_inet_ntop a).
Proof. unfold vsf_sysutil_inet_ntop. inv_auto. Qed.

End Late.
Create HintDb late discriminated.
#[export] Hint Constants Opaque : late.
#[export] Hint Extern 1 (Late _) => exact _ : late.
#[export] Hint Resolve late_inv_ask late_fileread late_required late_ssl_init late_entropy late_env late_log late_sock
  late_lists late_launching late_sanity late_ntop : late.

(** Close the goals about a step of the start. *)
Ltac late_auto :=
  first [ solve [eauto with late] | apply late_inv_upd; [exact _|constructor]
        | inv_auto using (first [solve [eauto with late]|apply late_inv_upd; [exact _|constructor]]) ].

Section Started.
Context `{E : Env}.

Lemma tb_set t v z x : tb (set_bool t v z) x = if decide (x = v) then negb (z =? 0) else tb t x.
Proof.
  unfold tb, set_bool. cbn [t_bool]. case_decide as Hx.
  - subst. by rewrite lookup_insert_eq.
  - by rewrite lookup_insert_ne by done.
Qed.

Lemma launching_spec t : hoare (λ w, sane t ∧ known t w) (launching_user t)
  (λ t' w, sane t' ∧ known t' w) (λ _ _, True).
Proof.
  apply hoare_wp. intros w [Hs Hk]. unfold launching_user, vsf_sysutil_running_as_root.
  wp_auto; try done. apply (known_ask _ _ (Sys Getuid, a)) in Hk. case_match; [done|].
  split; [unfold sane; by rewrite !tb_set|]. destruct Hk. split; try done;
    intros Hb; rewrite !tb_set in Hb; try done; eauto.
Qed.

Lemma late_seq {A B} I (m : M A) (k : A → M B) Q :
  inv I m → (∀ a, hoare I (k a) Q (λ _ _, True)) → hoare I (m ≫= k) Q (λ _ _, True).
Proof.
  intros Hm Hk. eapply hoare_bind; [|exact Hk].
  eapply hoare_conseq; [exact Hm|done..].
Qed.

Lemma main_session_spec t b :
  hoare (λ _, True) (main_session t b) (λ t' w, sane t' ∧ known t' w) (λ _ _, True).
Proof.
  unfold main_session. eapply hoare_bind; [apply (sanity_spec _ (λ _, True)); intros w _; by destruct (do_sanity_checks t w) as [[]]|].
  intros []. apply hoare_pre. intros Hs.
  eapply hoare_bind; [apply session_init_spec|intros []].
  repeat (apply late_seq; [|intros ?]); last (eapply hoare_conseq; [apply launching_spec|by intros|done|done]);
    late_auto.
Qed.

(** *** The numbers of clients *)

(** The numbers that the listener gave, and the calls up to then. *)
Definition counted (N K : Z) (h0 : history) (w : world) : Prop :=
  num_clients (sess w) = N ∧ Session.num_this_ip (sess w) = K ∧ ∃ later, hist w = later ++ h0.

#[export] Instance counted_late N K h0 : Late (counted N K h0).
Proof.
  assert (stable (counted N K h0)) as Hs.
  { intros w e (? & ? & later & Hh). split_and!; [done..|]. exists (e :: later). cbn. by rewrite Hh. }
  split; [|exact Hs|intros w f [] (? & ? & ?); by split_and!].
  quiet_simpl; try (by apply Hs); match goal with H : counted _ _ _ _ |- _ => destruct H as (? & ? & ?); by split_and! end.
Qed.

Lemma counted_session N K h0 t b : inv (counted N K h0) (main_session t b).
Proof.
  unfold main_session, session_init, socket_name, user_uid.
  inv_auto using (first [solve [late_auto] | apply inv_upd; intros w (? & ? & ?); by split_and!]).
Qed.

End Started.

(** ** From the accept loop to the greeting *)

Section Listening.
Context `{E : Env} (fs : conf_files) (reaped : history → list Z) (hup : history → bool).

(** What the listener did since it listens, read off the calls it made: every
    return of accept lets SIGCHLD in; a connection is an accept, a fork, and the
    close that the parent makes. *)
Fixpoint listener_events (h : history) : list event :=
  match h with
  | [] => []
  | e :: h' =>
      match e.1, h' with
      | Sock (Listen _ _), _ => []
      | Sock (Accept _ _), _ => listener_events h' ++ [Sigchld (reaped h)]
      | Close _, (Sys (Fork _), f) :: (Sock (Accept _ _), a) :: _ =>
          match vsf_sysutil_sockaddr_get_raw_addr (a_addr a) with
          | Ok ip => listener_events h' ++ [Client ip (a_int f) (reaped h)]
          | Err _ => listener_events h'
          end
      | _, _ => listener_events h'
      end
  end.

Lemma listener_run_snoc es es' l :
  listener_run (es ++ es') l = res_bind (listener_run es l) (listener_run es').
Proof.
  unfold listener_run. rewrite foldl_app. generalize (foldl (λ m e, res_bind m (listener_step e)) (Ok l) es).
  intros [l'|s]; [done|]. cbn [res_bind]. by induction es'.
Qed.

Lemma lift_Ok {A} (r : res A) w a w' : lift r w = (Ok a, w') → r = Ok a ∧ w' = w.
Proof. unfold lift. destruct r; [by intros [= -> ->]|done]. Qed.

Lemma listener_signals_Ok l c w l' c' w' :
  listener_signals fs reaped hup l c w = (Ok (l', c'), w') →
  w' = w ∧ handle_sigchld l (reaped (hist w)) = Ok l'.
Proof.
  unfold listener_signals. intros H. apply bind_Ok in H as (h & w1 & Hh & H). injection Hh as <- <-.
  apply bind_Ok in H as (c1 & w1 & Hc & H).
  assert (w1 = w) as -> by (destruct (hup _); [by apply lift_Ok in Hc as []|by injection Hc]).
  apply bind_Ok in H as (l1 & w1 & Hl & H). apply lift_Ok in Hl as [Hl ->]. by injection H as -> -> ->.
Qed.

Lemma close_Ok fd w w' : vsf_sysutil_close fd w = (Ok tt, w') →
  ∃ a, hist w' = (Close fd, a) :: hist w.
Proof.
  unfold vsf_sysutil_close. intros H. apply bind_Ok in H as (r & w1 & Hr & H).
  injection Hr as <- <-. destruct (negb _); [done|]. injection H as <-. by eexists.
Qed.

Lemma run_event es l l1 e :
  listener_run es l = Ok l1 → listener_run (es ++ [e]) l = listener_step e l1.
Proof. intros H. by rewrite listener_run_snoc, H. Qed.

Lemma counted_child N K h0 sock fd :
  inv (counted N K h0) (setup "PR_SET_PDEATHSIG";; vsf_sysutil_close sock;; prepare_child fd).
Proof.
  unfold setup, vsf_sysutil_close, prepare_child, vsf_sysutil_dupfd2, vsf_sysutil_close.
  inv_auto using (solve [late_auto]).
Qed.

Lemma inv_Ok {A} (I : world → Prop) (m : M A) w a w' : inv I m → I w → m w = (Ok a, w') → I w'.
Proof. intros Hm Hw H. specialize (Hm w Hw). by rewrite H in Hm. Qed.

(** The child that the loop returns in is told the numbers of the books. *)
Lemma accept_loop_books n sock l0 l c w info c' w' :
  listener_run (listener_events (hist w)) l0 = Ok l →
  accept_loop fs reaped hup n sock l c w = (Ok (info, c'), w') →
  ∃ later a h ip l1 l2, hist w' = later ++ (Sock (Accept sock 0), a) :: h ∧
    vsf_sysutil_sockaddr_get_raw_addr (a_addr a) = Ok ip ∧
    listener_run (listener_events ((Sock (Accept sock 0), a) :: h)) l0 = Ok l1 ∧
    accept_client l1 ip = Ok (info, l2).
Proof.
  revert l c w. induction n as [|n IH]; intros l c w Hl; cbn [accept_loop]; [done|].
  intros H. apply bind_Ok in H as (a & w1 & Ha & H). injection Ha as <- <-.
  set (a := env _ _) in *. set (e := (Sock (Accept sock 0), a)) in *.
  apply bind_Ok in H as ([l1 c1] & w2 & Hs & H). apply listener_signals_Ok in Hs as [-> Hs].
  assert (listener_run (listener_events (e :: hist w)) l0 = Ok l1) as Hl1.
  { cbn [listener_events e fst]. rewrite (run_event _ _ _ _ Hl). exact Hs. }
  destruct (vsf_sysutil_retval_is_error _); [by eapply IH; [|exact H]|].
  apply bind_Ok in H as (ip & w3 & Hip & H).
  assert (vsf_sysutil_sockaddr_get_raw_addr (a_addr a) = Ok ip ∧ w3 = put_hist (e :: hist w) w) as [Hip' ->].
  { destruct (sa_family _); [|by apply lift_Ok in Hip..]. done. }
  apply bind_Ok in H as ([info' l2] & w3 & Hc & H). apply lift_Ok in Hc as [Hc ->].
  apply bind_Ok in H as (child & w3 & Hf & H). injection Hf as <- <-.
  set (f := env (e :: hist w) (Sys (Fork (fork_how (c_tun c1))))) in *. destruct (negb _).
  - apply bind_Ok in H as ([] & w3 & Hclose & H). apply close_Ok in Hclose as [a' Hh].
    change (hist w3 = (Close (a_int a), a') :: (Sys (Fork (fork_how (c_tun c1))), f) :: e :: hist w) in Hh.
    apply bind_Ok in H as (h & w4 & Hw4 & H). injection Hw4 as <- <-.
    apply bind_Ok in H as (c2 & w4 & Hc2 & H).
    assert (w4 = w3) as -> by (destruct (hup _); [by apply lift_Ok in Hc2 as []|by injection Hc2]).
    apply bind_Ok in H as (l3 & w4 & Hl3 & H). apply lift_Ok in Hl3 as [Hl3 ->].
    eapply IH; [|exact H]. rewrite Hh in Hl3 |- *.
    unfold e in Hl1, Hl3 |- *. cbn [listener_events fst] in Hl1 |- *. rewrite Hip'.
    rewrite (run_event _ _ _ _ Hl1). cbn [listener_step]. rewrite Hc. exact Hl3.
  - assert ((setup "PR_SET_PDEATHSIG";; vsf_sysutil_close sock;; prepare_child (a_int a))
      (put_hist ((Sys (Fork (fork_how (c_tun c1))), f) :: e :: hist w) w) = (Ok tt, w') ∧ info' = info) as [Hk ->].
    { revert H. unfold mbind, M_bind. destruct (setup _ _) as [[]]; [|done].
      destruct (vsf_sysutil_close _ _) as [[[]|]]; [|done].
      destruct (prepare_child _ _) as [[[]|]]; [|done]. by intros [= <- <- <-]. }
    apply (inv_Ok (counted (num_clients (sess w)) (Session.num_this_ip (sess w)) (e :: hist w))
      _ _ _ _ (counted_child _ _ _ sock _)) in Hk as (_ & _ & later & Hh);
      [|split_and!; [done..|by eexists [_]]].
    by exists later, a, (hist w), ip, l1, l2.
Qed.

End Listening.

(** ** The whole start *)

Section Main.
Context `{E : Env} `{QS : Qsort} `{JS : Json}.
Context (fs : conf_files) (rounds fuel : nat) (reaped : history → list Z) (hup : history → bool).

Definition process_setup (t : tunables) : M unit :=
  if tb t "one_process_model" then
    if tb t "ptrace_sandbox" then mdie "could not allocate sandbox (only works for 32-bit builds)"
    else one_process_setup t
  else two_process_setup t.

(** [main] up to the session: what is left is [init_connection]. *)
Definition boot (argv : list bytes) (accepts : nat) : M tunables :=
  '(t, ssl_inited) ← main_config fs reaped hup argv accepts;
  t ← main_session t ssl_inited;
  process_setup t;;
  mret t.

Lemma main_boot argv accepts n w :
  main fs rounds fuel reaped hup argv accepts n w =
  match boot argv accepts w with
  | (Ok t, w2) => init_connection (T := t) fs rounds fuel n w2
  | (Err s, w2) => (Err s, w2)
  end.
Proof.
  unfold main, boot, start_session, process_setup, vsf_one_process_start, one_process_start,
    vsf_two_process_start. unfold mbind, M_bind.
  destruct (main_config _ _ _ _ _ w) as [[[t b]|s] w1]; [|done].
  destruct (main_session t b w1) as [[t'|s] w2]; [|done].
  destruct (tb t' "one_process_model"); [destruct (tb t' "ptrace_sandbox"); [done|]|].
  - by destruct (one_process_setup t' w2) as [[[]|s] w3].
  - by destruct (two_process_setup t' w2) as [[[]|s] w3].
Qed.

Lemma late_two_process I t : Late I → (∀ w, I w → I (put_parent (sess w) w)) →
  inv I (two_process_setup t).
Proof.
  intros HL Hp. unfold two_process_setup, socketpair, vsf_sysutil_fork, setup.
  inv_auto using (first [solve [late_auto] | apply inv_modw; exact Hp]).
Qed.

Lemma one_process_Ok I t : Late I →
  hoare I (one_process_setup t) (λ _ w, tb t "run_as_launching_user" = true ∧ I w) (λ _ _, True).
Proof.
  intros HL. apply hoare_wp. intros w Hw. unfold one_process_setup.
  destruct (tb t "run_as_launching_user"); [|exact Logic.I].
  wp_auto; try done; (split; [done|]); try apply late_ask; done.
Qed.

Lemma any {A} (m : M A) I : hoare I m (λ _ _, True) (λ _ _, True).
Proof. intros w _. by destruct (m w) as [[]]. Qed.

Lemma Ok_hoare {A} I (m : M A) Q w a w' :
  hoare I m Q (λ _ _, True) → I w → m w = (Ok a, w') → Q a w'.
Proof. intros Hm Hw H. specialize (Hm w Hw). by rewrite H in Hm. Qed.

Lemma listen_setup_spec t : hoare (λ _, True) (listen_setup t)
  (λ _ w, listener_events reaped (hist w) = []) (λ _ _, True).
Proof.
  unfold listen_setup. destruct (_ && _); [by intros w _|].
  do 9 (eapply hoare_bind; [apply any|intros ?]; cbv beta).
  apply hoare_wp. intros w _. wp_auto; try done.
Qed.

Lemma boot_Ok argv accepts t w w2 : boot argv accepts w = (Ok t, w2) →
  ∃ t0 b w1 w1', main_config fs reaped hup argv accepts w = (Ok (t0, b), w1) ∧
    main_session t0 b w1 = (Ok t, w1') ∧ process_setup t w1' = (Ok tt, w2).
Proof.
  unfold boot. intros H. apply bind_Ok in H as ([t0 b] & w1 & H1 & H).
  apply bind_Ok in H as (t' & w1' & H2 & H). apply bind_Ok in H as ([] & w3 & H3 & H).
  injection H as <- <-. by exists t0, b, w1, w1'.
Qed.

Lemma process_setup_spec I t : Late I → (∀ w, I w → I (put_parent (sess w) w)) →
  hoare I (process_setup t) (λ _ w, I w ∧ (tb t "one_process_model" = true →
    tb t "run_as_launching_user" = true ∧ tb t "ptrace_sandbox" = false)) (λ _ _, True).
Proof.
  intros HL Hp. unfold process_setup. destruct (tb t "one_process_model").
  - destruct (tb t "ptrace_sandbox"); [by intros w _|].
    eapply hoare_conseq; [by apply (one_process_Ok I)|done| |done]. by intros [] w [? ?].
  - eapply hoare_conseq; [by apply late_two_process|done| |done]. by intros [] w ?.
Qed.

(** C17: No session starts on a bad configuration. Whatever the command line,
    the files and the kernel's answers: either the program ends before there is
    a session, or [main] goes on as [init_connection] with a configuration under
    which somebody can log in and a protocol is served, HTTP only in the one
    process model, and that model only for anonymous users, with
    run_as_launching_user set (which does not exclude that root launched the
    server: the session then runs as root) and the ptrace sandbox off; the
    session's two addresses are those that the kernel gave for the
    command socket, and the uids that it will use are those of the users that
    the configuration names. *)
Theorem main_starts_sane_sessions argv accepts n w :
  match boot argv accepts w with
  | (Ok t, w2) =>
      main fs rounds fuel reaped hup argv accepts n w =
        init_connection (T := t) fs rounds fuel n w2 ∧
      sane t ∧ identified t (sess w2) (hist w2) ∧
      (tb t "one_process_model" = true →
       tb t "run_as_launching_user" = true ∧ tb t "ptrace_sandbox" = false)
  | (Err s, w2) => main fs rounds fuel reaped hup argv accepts n w = (Err s, w2)
  end.
Proof.
  rewrite main_boot. destruct (boot argv accepts w) as [[t|s] w2] eqn:Hb; [|done].
  apply boot_Ok in Hb as (t0 & b & w1 & w1' & _ & H1 & H2).
  apply (Ok_hoare _ _ _ _ _ _ (main_session_spec t0 b) Logic.I) in H1 as [Hs Hk].
  apply (Ok_hoare (known t) _ _ _ _ _ (process_setup_spec (known t) t _ ltac:(intros ? []; by split)) Hk)
    in H2 as [? ?].
  by split_and!.
Qed.

(** A client is told the number of children that live, itself included. *)
Lemma accepted_numbers es ip live l l1 info l2 :
  listener_init = Ok l → listener_run es l = Ok l1 → accept_client l1 ip = Ok (info, l2) →
  os_run es ∅ = Some live → Z.of_nat (length es) + 1 < UINT_MOD → length ip = 16%nat →
  info = Launch (Z.of_nat (size live) + 1) (count_ip live ip + 1).
Proof.
  intros Hi Hr Ha Ho Hb Hl. destruct listener_init_ok as (l' & E1 & Hl').
  rewrite Hi in E1. injection E1 as <-.
  destruct (listener_run_Ok es l l1 ∅ live Hl' Ho) as [Hl3 Hsz]; rewrite ?map_size_empty in *; [lia|done|].
  destruct (accept_client_ok l1 live ip Hl3 ltac:(lia) Hl) as (l4 & E3 & _).
  rewrite Ha in E3. by injection E3.
Qed.

(** The listening process returns in a child with these numbers. *)
Lemma listener_child sock_config accepts w info c w' :
  vsf_standalone_main fs reaped hup accepts sock_config w = (Ok (info, c), w') →
  ∃ later sock a h ip, hist w' = later ++ (Sock (Accept sock 0), a) :: h ∧
    vsf_sysutil_sockaddr_get_raw_addr (a_addr a) = Ok ip ∧
    let es := listener_events reaped ((Sock (Accept sock 0), a) :: h) in
    ∀ live, os_run es ∅ = Some live → Z.of_nat (length es) + 1 < UINT_MOD → length ip = 16%nat →
    info = Launch (Z.of_nat (size live) + 1) (count_ip live ip + 1).
Proof.
  unfold vsf_standalone_main. intros H. apply bind_Ok in H as (sock & w1 & H1 & H).
  apply (Ok_hoare _ _ _ _ _ _ (listen_setup_spec _) Logic.I) in H1.
  apply bind_Ok in H as (l & w2 & H2 & H). apply lift_Ok in H2 as [H2 ->].
  apply (accept_loop_books _ _ _ _ _ l) in H as (later & a & h & ip & l1 & l2 & ? & ? & Hr & Ha);
    [|by rewrite H1].
  exists later, sock, a, h, ip. split_and!; [done..|]. cbv zeta. intros live Ho Hb Hl.
  by eapply accepted_numbers.
Qed.

Lemma config_numbers argv accepts c t b w w0 w1 :
  initial_config fs argv w = (Ok c, w0) → listening (c_tun c) = true →
  main_config fs reaped hup argv accepts w = (Ok (t, b), w1) →
  ∃ info c' w', vsf_standalone_main fs reaped hup accepts c w0 = (Ok (info, c'), w') ∧
    counted (num_children info) (num_this_ip info) (hist w') w1.
Proof.
  intros Hc Hl. unfold main_config. intros H. apply bind_Ok in H as (c0 & w0' & H0 & H).
  rewrite Hc in H0. injection H0 as <- <-. rewrite Hl in H.
  apply bind_Ok in H as (c1 & w2 & H1 & H). apply bind_Ok in H1 as ([info c'] & w' & Hm & H1).
  exists info, c', w'. split; [done|].
  assert (counted (num_children info) (num_this_ip info) (hist w') w2) as Hw2.
  { injection H1 as _ <-. split_and!; [done..|by exists []]. }
  revert H. apply inv_Ok; [|exact Hw2]. unfold load_file. inv_auto using (solve [late_auto]).
Qed.

(** C18: The limits count the clients that exist. When the configuration makes
    the server listen, a session starts only in a child of the accept loop, and
    it is told one more than the number of children, and of children for the
    same address, that live when its connection is accepted: those that forks
    gave and no wait has returned. If there are max_clients of them already, or
    max_per_ip for the address, then the program ends without more than the
    reply and the log. *)
Theorem clients_limited argv accepts n c t w w0 w2 :
  initial_config fs argv w = (Ok c, w0) → listening (c_tun c) = true →
  boot argv accepts w = (Ok t, w2) →
  ∃ later sock a h ip, hist w2 = later ++ (Sock (Accept sock 0), a) :: h ∧
    vsf_sysutil_sockaddr_get_raw_addr (a_addr a) = Ok ip ∧
    let es := listener_events reaped ((Sock (Accept sock 0), a) :: h) in
    ∀ live, os_run es ∅ = Some live → Z.of_nat (length es) + 1 < UINT_MOD → length ip = 16%nat →
    num_clients (sess w2) = Z.of_nat (size live) + 1 ∧
    Session.num_this_ip (sess w2) = count_ip live ip + 1 ∧
    (0 < tu t "max_clients" ≤ Z.of_nat (size live) ∨ 0 < tu t "max_per_ip" ≤ count_ip live ip →
     ∃ s w', main fs rounds fuel reaped hup argv accepts n w = (Err s, w') ∧
       since (hist w2) harmless (hist w')).
Proof.
  intros Hc Hl Hb. pose proof (main_boot argv accepts n w) as Hmain. rewrite Hb in Hmain.
  apply boot_Ok in Hb as (t0 & b & w1 & w1' & H1 & H2 & H3).
  destruct (config_numbers _ _ _ _ _ _ _ _ Hc Hl H1) as (info & c' & w' & Hm & Hw).
  apply (inv_Ok _ _ _ _ _ (counted_session _ _ _ _ _) Hw) in H2.
  apply (Ok_hoare _ _ _ _ _ _ (process_setup_spec (counted (num_children info) (num_this_ip info) (hist w'))
    t _ ltac:(by intros)) H2) in H3 as [(Hn & Hk & later & Hh) _].
  apply listener_child in Hm as (later' & sock & a & h & ip & Hh' & Hip & Hlive).
  exists (later ++ later'), sock, a, h, ip. split_and!; [by rewrite Hh, Hh', <- app_assoc|done|].
  cbv zeta. intros live Ho Hlen Hl16. specialize (Hlive live Ho Hlen Hl16). subst info.
  cbn [num_children num_this_ip] in *. split_and!; [done..|]. intros Hover. rewrite Hmain.
  apply limits_enforced. unfold within_limits. rewrite Hn, Hk. intros (? & ? & _). unfold tu, tun in *. lia.
Qed.

End Main.

(** ** A server that starts *)

(** A child of the listener, with the standard descriptors. *)
Definition boot_env : Env := λ h c,
  match c with
  | Sock (Getname _ peer) =>
      Answer 0 None (if peer : bool then site_client else site_server) true 0 0 []
  | Sock (IsSocket _) => Answer 1 None site_client true 0 0 []
  | Sock (Dup2 _ new) => Answer new None site_client true 0 0 []
  | Sock Socketpair => Answer 0 None site_client true 11 12 []
  | Fs (Stat _) => Answer (-1) None site_client true 0 0 []
  | Sys (Getenv _) => Answer 0 None site_client true 0 0 []
  | _ => site_env [] h c
  end.

Definition boot_args : list bytes := lit <$>
  ["vsftpd"; "-olisten=YES"; "-olocal_enable=YES"; "-oanonymous_enable=NO";
   "-ologin_users=joe:secret:rw"; "-ocos_user_home_dir=/data"; "-ocos_appid=100";
   "-ocos_bucket=files"; "-omax_clients=5"; "-oxferlog_enable=NO"]%string.

Definition boot_world : world :=
  fresh_world (fresh_session vsf_sysutil_sockaddr_alloc_ipv4 vsf_sysutil_sockaddr_alloc_ipv4)
    (line "USER joe" ++ line "PASS secret").

(** From the command line to the login. *)
Example boot_replies :
  (replies (main (E := boot_env) (QS := merge_qsort) (JS := site_json) demo_files 16 16
     (λ _, []) (λ _, false) boot_args 4 4 boot_world).2) =
  line <$> ["220 (vsFTPd 3.0.3)"; "331 Please specify the password."; "230 Login successful."]%string.
Proof. vm_compute. reflexivity. Qed.

Lemma Ok_exists {A} (r : res A * world) (p : A → bool) :
  match r with (Ok a, _) => p a | _ => false end = true → ∃ a w, r = (Ok a, w) ∧ p a = true.
Proof. destruct r as [[a|] w]; [by exists a, w|done]. Qed.

Lemma clients_limited_witness :
  ∃ c t w0 w2,
  initial_config (E := boot_env) demo_files boot_args boot_world = (Ok c, w0) ∧
  boot (E := boot_env) demo_files (λ _, []) (λ _, false) boot_args 4 boot_world = (Ok t, w2) ∧
  ∃ later sock a h ip, hist w2 = later ++ (Sock (Accept sock 0), a) :: h ∧
    vsf_sysutil_sockaddr_get_raw_addr (a_addr a) = Ok ip ∧
    let es := listener_events (λ _, []) ((Sock (Accept sock 0), a) :: h) in
    ∀ live, os_run es ∅ = Some live → Z.of_nat (length es) + 1 < UINT_MOD → length ip = 16%nat →
    num_clients (sess w2) = Z.of_nat (size live) + 1 ∧
    Session.num_this_ip (sess w2) = count_ip live ip + 1 ∧
    (0 < tu t "max_clients" ≤ Z.of_nat (size live) ∨ 0 < tu t "max_per_ip" ≤ count_ip live ip →
     ∃ s w', main (E := boot_env) (QS := merge_qsort) (JS := site_json) demo_files 16 16
         (λ _, []) (λ _, false) boot_args 4 4 boot_world = (Err s, w') ∧
       since (hist w2) harmless (hist w')).
Proof.
  destruct (Ok_exists (initial_config (E := boot_env) demo_files boot_args boot_world)
    (λ c, listening (c_tun c))) as (c & w0 & Hc & Hl); [vm_compute; reflexivity|].
  destruct (Ok_exists (boot (E := boot_env) demo_files (λ _, []) (λ _, false) boot_args 4 boot_world)
    (λ _, true)) as (t & w2 & Hb & _); [vm_compute; reflexivity|].
  exists c, t, w0, w2. split; [exact Hc|]. split; [exact Hb|].
  exact (clients_limited (E := boot_env) (QS := merge_qsort) (JS := site_json) demo_files 16 16
    (λ _, []) (λ _, false) boot_args 4 4 c t boot_world w0 w2 Hc Hl Hb).
Defined.
